(* ===== verification/_CoqProject ===== *)
-Q . S2P
Prelude.v
Mem.v
Dma.v
Ring.v
RingFacts.v
RingFifo.v
NvspTypes.v
NvspMsg.v
Bits.v
CpuLocal.v
TimeDriver.v
Cmdline.v
Serial.v
VectorAlloc.v
Nic.v
Pci.v
Ioapic.v
Memory.v
Idt.v
Apic.v
Smp.v
SmpLive.v
Runtime.v
Echo.v
World.v
Hypercall.v
Synic.v
Isr.v
VmBus.v
Driver.v
Channel.v
Synthvid.v
Netvsc.v
NetvscFacts.v
E1000.v
E1000Facts.v
Tulip.v
TulipFacts.v
Probe.v
EmbcloxNic.v
Kernel.v
TestHarness.v
KernelFacts.v
Dispatch.v
