(* ===== verification/Prelude.v ===== *)
(** * embclox: a verification development

    embclox is a set of [no_std] Rust crates from which small x86_64 kernels
    are built: Hyper-V guest support (hypercalls, the synthetic interrupt
    controller, VMBus channels, the NetVSC network and synthetic video
    drivers), two drivers for PCI network adapters (Intel e1000, DEC Tulip),
    and a hardware layer (PCI, page tables, interrupt controllers, per-CPU
    state, SMP start-up, timers, the executor loop, command line); a driver
    registry and an adapter join them to the network stack. This library is
    a shallow embedding of those crates with proofs about them. Paths below
    are relative to [src/crates].

    ** How the code is modelled

    - [Prelude] (this file): a computation returns [Ret] or [Panic] with the
      kind of fault (failed assertion or [expect], index out of bounds,
      arithmetic overflow, division by zero; overflow is checked, as in the
      development profile).  State is passed by the monad
      [M St]; [x ← c; k] and [x ←? c; k] sequence computations as the code
      does, the latter with the early return of [?].  [usize] and [u64] values
      are integers; [uadd], [usub], [umul], [urem] are the checked operations,
      [as_u8], [as_u16], [as_u32] the casts, [slice], [index], [copy_into] the
      bounds-checked accesses.
    - [Mem]: memory is a finite map from addresses to bytes, with
      little-endian loads and stores.  Volatile and atomic accesses are loads
      and stores; fences have no effect in this sequential semantics.
    - [Dma]: the [DmaAllocator] trait (embclox-dma) as a class over the state
      of the machine, and its implementation on the kernel heap
      (embclox-core, [dma_alloc.rs]) over an abstract global allocator.
    - What is not in the repository is a class whose operations the model
      calls where the outside world can act, and its documented behaviour, as
      far as a theorem relies on it, is a hypothesis of that theorem: the
      hypervisor ([World.Hypervisor]: hypercalls, MSR writes, what the host
      does between two accesses and while the processor halts), the adapters
      ([Nic.Mmio], [E1000.RegisterAccess], [Tulip.PortIo], [Tulip.BusMaster]),
      the platform ([Pci.Ports], [Ioapic.IoapicHw], [Apic.LapicHw],
      [Apic.BytePorts]), the page tables of the x86_64 crate
      ([Memory.PageTables], [Memory.Paging]), the heap ([Dma.GlobalAlloc]).
      Witnesses instantiate them.  [zoom] runs a computation on a component of
      a larger state.
    - Logging is left out of the components; [Serial] models the logger and
      the console themselves, [Echo] and [TestHarness] the lines that scripts
      look for.  Asynchronous functions are modelled by their polls and the
      runner [block_on_with] (embclox-async).

    ** Hyper-V: embclox-hyperv

    - [Ring], [RingFacts], [RingFifo]: [ring.rs].  [Ring] has every method of
      [RingHalf] on shared memory.  [RingFacts] gives the closed form of each
      operation, and [RingFifo] an abstract bounded queue of packets, the
      relation [ring_repr] between memory and queue, and the refinement
      theorems: the senders enqueue or report [Full], the receivers dequeue,
      what is sent is received, and reading never panics on any memory
      contents.
    - [NvspTypes], [NvspMsg]: [nvsp_types.rs], [nvsp_msg.rs].  Wire enums as
      instances of the class [WireEnum]; the message builders and parsers.
      The parsers are total but for one input, which panics.
    - [World]: the machine, the hypervisor class, and [block_on_with].
    - [Hypercall]: [hypercall.rs], [msr.rs].  The bounded retry of
      HvPostMessage.
    - [Synic]: [synic.rs].  The message slot and the future [WaitForMatch];
      every queued message reaches the matcher exactly once and in order, and
      the wait ends by its deadline.
    - [Isr]: [isr.rs].  The interrupt handler clears the event flags and wakes
      exactly the channels that were signalled.
    - [VmBus]: [vmbus.rs], [guid.rs], [detect.rs], [lib.rs].  Detection,
      version negotiation, enumeration of offers.
    - [Channel]: [channel.rs].  The senders and receivers of a channel, proved
      against the class [RingProducer] that [RingFifo] discharges; GPADL
      creation, whose messages describe the buffer exactly; opening a channel.
    - [Netvsc], [NetvscFacts]: [netvsc.rs].  The whole driver, and theorems on
      its data path: framing round trip, transmission, the safety of parsing
      host packets, and the pump that turns ring packets into device state.
    - [Synthvid]: [synthvid.rs].  The video device, a second client of
      [Channel]: pixels stay inside the frame buffer, and the start-up
      exchange with a host that keeps the class [VideoHost] returns, with
      success only after the host agreed.

    ** PCI network adapters

    - [Nic]: what the two drivers share: mapped registers, descriptors in
      memory, loops over rings.
    - [E1000], [E1000Facts]: embclox-e1000 and the packet methods of
      [embclox-driver/src/drivers/e1000.rs].
    - [Tulip], [TulipFacts]: embclox-tulip, with the EEPROM and the setup
      frame.
    For both: what the rings hold when they are handed over, that sending
    fills buffer and descriptor before the adapter may look at them and leaves
    the other slots alone, and what receiving delivers.

    ** Hardware layer: embclox-hal-x86

    - [Bits]: set bits of a word, shared by [Isr] and [VectorAlloc].
    - [CpuLocal]: [cpu_local.rs], the per-CPU table.
    - [VectorAlloc]: [vector_alloc.rs]; a fresh allocator hands out exactly
      its free vectors, in order.
    - [TimeDriver]: [time.rs]; each CPU's alarm table refines a bounded map
      from wakers to times.
    - [Cmdline]: [cmdline.rs]; the accepted IPv4 texts and the meaning of the
      command line.
    - [Pci]: [pci.rs]; the register address and what a scan of the bus lists.
    - [Memory]: [memory.rs]; mappings are disjoint, translate to the region
      asked for, and are undone by unmapping.
    - [Ioapic]: [ioapic.rs]; what routing and masking do to the redirection
      table, and the pins and sizes where the 8-bit arithmetic overflows.
    - [Idt], [Apic]: [idt.rs], [apic.rs], the timer of [runtime.rs], [pic.rs],
      [pit.rs]; the period of the timer and where its computation overflows.
    - [Smp], [SmpLive]: [smp.rs] and [ap_entry] of
      [src/examples-kernel/src/app.rs], as a transition system of all
      processors; an invariant by induction on its steps shows that start-up
      is safe however the processors interleave, and a measure that each step
      decreases shows that it ends with all of them running.
    - [Runtime]: the executor loop and the timer interrupt of [runtime.rs],
      with the critical sections of [critical_section_impl.rs], as a machine
      in which interrupts arrive between any two steps.  The tasks and the
      executor's queue are parameters: polling takes the tasks woken so far.
      What an interrupt handler wakes has run a few steps after the interrupt
      ([Dispatch] says what the kernel's handlers wake); and the loop can halt
      although a task was woken.
    - [Serial]: [serial.rs]; the filter and the format of log records, and
      processors that print under the lock, interleaved at every byte: lines
      come out whole and nobody waits for ever, but a failed write leaves the
      lock taken and silences the console.

    ** Drivers: embclox-driver

    - [Driver]: [registry.rs], [defaults.rs], [error.rs] and the traits of
      [driver.rs]; which driver gets which device.
    - [Probe]: [ProbeCtx] of [driver.rs] and the drivers' [probe] methods and
      interrupt handlers, on the state of the whole kernel; installing an
      interrupt handler on every branch.
    - [EmbcloxNic]: [nic.rs] and the three implementations of its trait, as
      records of operations.  The class [NicContract] states what the trait
      promises; the adapter's theorem is proved against it, and the Tulip
      driver keeps it.

    ** The example kernel: src/examples-kernel

    - [Kernel], [KernelFacts]: [kmain] of [main.rs] up to the network stack,
      with the answers of the boot loader ([limine_boot.rs]) and [init] of
      embclox-hal-x86 ([lib.rs], [heap.rs]).  It composes the components above
      on one machine state: a boot that gets to the end has kept the system's
      interrupt vectors out of the pool and their handlers in place through
      all probes, and the choice of device, the settings and the start of the
      processors are those asked for.
    - [Dispatch]: the booted kernel under its executor.  An interrupt runs
      the handler that the table built by [kmain] has for its vector; from
      the theorems on the handlers, the time driver and the loop follows that
      timer, VMBus and adapter interrupts get the waiting tasks run.
    - [Echo]: the tasks of [app.rs] over the interface of the socket and the
      stack: the whole [echo_task], which waits for an address, reports the
      heartbeats and serves connection after connection, writing back what it
      received.

    ** Tests: embclox-test-macros, src/qemu-tests

    - [TestHarness]: the macro [test_suite] on the syntax trees it looks
      into, the harness, [kmain] of the test runner for any test functions,
      and the suite of the per-CPU table, which passes on the model of
      [CpuLocal].  A suite runs exactly the functions marked as tests, and
      the runner reports success only when all of them returned.

    ** Fuel and bounds

    Loops that wait for the outside world ([block_on_with], [wait_poll], the
    dispatch loops of [Netvsc], the loops of [Echo]) take fuel and fail with
    [OutOfFuel], a fault the code does not have; the theorems that such a loop
    returns give a sufficient amount, from the deadline, from the length of
    the ring, or from what the peer can send.  The endless loops of the tasks
    are cut off after any number of turns.
    Loops with a fixed bound in the code ([post_attempts], [wait_reset],
    [wait_released], the scans) recurse on that bound.  Ring theorems assume a
    data area of at most 2^19 bytes, since packet lengths are sent in 16 bits
    of 8-byte units; the rings of the drivers are smaller.

    ** Not modelled

    The UART itself, which is another crate: what it sends for a text is a
    parameter of [Serial]; the calls with which [kmain] builds the third-party
    network stack and spawns its tasks, and [net_task], which only runs that
    stack; bindings generated from C headers ([ffi.rs]), of which the values
    and layouts used are in [NvspTypes] and [NvspMsg]; text output ([Display]
    implementations); the functions of the test suites for PCI, memory and
    the e1000, which depend on the emulated machine and are arguments of the
    runner.  The properties do not cover memory ordering, concurrency between
    processors other than start-up and printing, or time other than the clock
    values the code reads. *)

From Stdlib Require Export ZArith Lia.
From stdpp Require Export base list numbers tactics option gmap.
From coqutil Require Export Byte Word.LittleEndianList.

#[global] Open Scope Z_scope.

#[global] Arguments le_split : simpl never.
#[global] Arguments le_combine : simpl never.

#[export] Instance byte_eq_dec : EqDecision byte := Byte.byte_eq_dec.

(** ** Outcomes *)

(** Why a Rust computation stops without returning. *)
Inductive fault :=
| ArithOverflow
| DivByZero
| IndexOutOfBounds
| AssertFailed
| Expect
| UndefinedInstruction
| OutOfFuel.

#[export] Instance fault_eq_dec : EqDecision fault.
Proof. solve_decision. Defined.

(** A Rust computation returns a value or panics. *)
Inductive outcome (A : Type) :=
| Ret (a : A)
| Panic (f : fault).
Arguments Ret {A} a.
Arguments Panic {A} f.

#[export] Instance outcome_ret : MRet outcome := fun A a => Ret a.
#[export] Instance outcome_bind : MBind outcome :=
  fun A B k o => match o with Ret a => k a | Panic f => Panic f end.

(** [Result<T, E>]. *)
Inductive result (A E : Type) :=
| Ok (a : A)
| Err (e : E).
Arguments Ok {A E} a.
Arguments Err {A E} e.

(** ** State-passing computations that may panic *)

Definition M (St A : Type) : Type := St -> outcome (A * St).

#[export] Instance M_ret {St} : MRet (M St) := fun A a s => Ret (a, s).
#[export] Instance M_bind {St} : MBind (M St) :=
  fun A B k c s =>
    match c s with
    | Ret (a, s') => k a s'
    | Panic f => Panic f
    end.

(** A pure computation that may panic, inside a stateful one. *)
Definition lift {St A} (o : outcome A) : M St A :=
  fun s => match o with Ret a => Ret (a, s) | Panic f => Panic f end.

(** A computation on a part of the state. *)
Definition zoom {St Sub A} (get : St -> Sub) (set : Sub -> St -> St) (c : M Sub A) : M St A :=
  fun s => match c (get s) with
           | Ret (a, t) => Ret (a, set t s)
           | Panic f => Panic f
           end.

Definition gets {St A} (f : St -> A) : M St A := fun s => Ret (f s, s).
Definition modify {St} (f : St -> St) : M St unit := fun s => Ret (tt, f s).
Definition panic {St A} (f : fault) : M St A := fun _ => Panic f.

Declare Scope rust_scope.
Delimit Scope rust_scope with rust.
#[global] Open Scope rust_scope.

(** Rust's [?]: continue with the [Ok] value, return the [Err]. *)
Notation "x ←? c ; k" :=
  (mbind (fun r => match r with
                   | Ok x => k
                   | Err e => mret (Err e)
                   end) c)
  (at level 20, c at level 100, k at level 200, only parsing) : rust_scope.

(** ** Machine integers *)

Definition U8 : Z := 2 ^ 8.
Definition U16 : Z := 2 ^ 16.
Definition U32 : Z := 2 ^ 32.
Definition U64 : Z := 2 ^ 64.

(** [x as u8], [x as u16], ... on a non-negative [x]. *)
Definition as_u8 (x : Z) : Z := x mod U8.
Definition as_u16 (x : Z) : Z := x mod U16.
Definition as_u32 (x : Z) : Z := x mod U32.

(** [usize] and [u64] arithmetic with overflow checks. *)
Definition uadd (a b : Z) : outcome Z :=
  if a + b <? U64 then Ret (a + b) else Panic ArithOverflow.
Definition usub (a b : Z) : outcome Z :=
  if b <=? a then Ret (a - b) else Panic ArithOverflow.
Definition umul (a b : Z) : outcome Z :=
  if a * b <? U64 then Ret (a * b) else Panic ArithOverflow.
Definition urem (a b : Z) : outcome Z :=
  if b =? 0 then Panic DivByZero else Ret (a mod b).

(** [u32] addition with overflow check. *)
Definition u32add (a b : Z) : outcome Z :=
  if a + b <? U32 then Ret (a + b) else Panic ArithOverflow.

(** [u32] multiplication with overflow check. *)
Definition u32mul (a b : Z) : outcome Z :=
  if a * b <? U32 then Ret (a * b) else Panic ArithOverflow.

(** Signed integers: the casts, and the result of an operation with overflow
    check. *)
Definition I31 : Z := 2 ^ 31.
Definition I63 : Z := 2 ^ 63.
Definition as_i32 (x : Z) : Z := (x + I31) mod U32 - I31.
Definition as_i64 (x : Z) : Z := (x + I63) mod U64 - I63.
Definition i32 (x : Z) : outcome Z :=
  if (- I31 <=? x) && (x <? I31) then Ret x else Panic ArithOverflow.
Definition i64 (x : Z) : outcome Z :=
  if (- I63 <=? x) && (x <? I63) then Ret x else Panic ArithOverflow.

(** The result of a [u8] sum or product, with overflow check. *)
Definition u8 (x : Z) : outcome Z := if x <? U8 then Ret x else Panic ArithOverflow.

(** [a.div_ceil(b)]. *)
Definition div_ceil (a b : Z) : Z := (a + b - 1) / b.

Definition rassert (b : bool) : outcome unit :=
  if b then Ret tt else Panic AssertFailed.

(** ** Byte slices *)

Definition zlen {A} (l : list A) : Z := Z.of_nat (length l).

(** [&l[i..j]]. *)
Definition slice {A} (l : list A) (i j : Z) : outcome (list A) :=
  if (i <=? j) && (j <=? zlen l)
  then Ret (take (Z.to_nat (j - i)) (drop (Z.to_nat i) l))
  else Panic IndexOutOfBounds.

(** [l[i]]. *)
Definition index {A} (l : list A) (i : Z) : outcome A :=
  match l !! Z.to_nat i with
  | Some a => Ret a
  | None => Panic IndexOutOfBounds
  end.

(** A little-endian field of [n] bytes at offset [off]. *)
Definition le_at (n : nat) (bs : list byte) (off : nat) : Z :=
  le_combine (take n (drop off bs)).

(** [buf[off..off + bs.len()].copy_from_slice(bs)], in range. *)
Definition put {A} (off : nat) (bs buf : list A) : list A :=
  take off buf ++ bs ++ drop (off + length bs) buf.

(** The same with the bounds check of the slice expression. *)
Definition copy_into {A} (off : Z) (bs buf : list A) : outcome (list A) :=
  if off + zlen bs <=? zlen buf then Ret (put (Z.to_nat off) bs buf)
  else Panic IndexOutOfBounds.

(** ** Lemmas on outcomes and checked arithmetic *)

Lemma uadd_ok a b : a + b < U64 -> uadd a b = Ret (a + b).
Proof. unfold uadd. intros. by rewrite (proj2 (Z.ltb_lt _ _)). Qed.

Lemma usub_ok a b : b <= a -> usub a b = Ret (a - b).
Proof. unfold usub. intros. by rewrite (proj2 (Z.leb_le _ _)). Qed.

Lemma umul_ok a b : a * b < U64 -> umul a b = Ret (a * b).
Proof. unfold umul. intros. by rewrite (proj2 (Z.ltb_lt _ _)). Qed.

Lemma urem_ok a b : b <> 0 -> urem a b = Ret (a mod b).
Proof. unfold urem. intros. by rewrite (proj2 (Z.eqb_neq _ _)). Qed.

Lemma u32mul_ok a b : a * b < U32 -> u32mul a b = Ret (a * b).
Proof. unfold u32mul. intros. by rewrite (proj2 (Z.ltb_lt _ _)). Qed.

Lemma i32_ok x : - I31 <= x < I31 -> i32 x = Ret x.
Proof. unfold i32. intros [??]. by rewrite (proj2 (Z.leb_le _ _)), (proj2 (Z.ltb_lt _ _)). Qed.

Lemma i64_ok x : - I63 <= x < I63 -> i64 x = Ret x.
Proof. unfold i64. intros [??]. by rewrite (proj2 (Z.leb_le _ _)), (proj2 (Z.ltb_lt _ _)). Qed.

Lemma u8_ok x : x < U8 -> u8 x = Ret x.
Proof. unfold u8. intros. by rewrite (proj2 (Z.ltb_lt _ _)). Qed.

Lemma u8_overflow x : U8 <= x -> u8 x = Panic ArithOverflow.
Proof. unfold u8. intros. by rewrite (proj2 (Z.ltb_ge _ _)). Qed.

Lemma slice_ok {A} (l : list A) i j :
  i <= j -> j <= zlen l ->
  slice l i j = Ret (take (Z.to_nat (j - i)) (drop (Z.to_nat i) l)).
Proof.
  unfold slice. intros.
  rewrite (proj2 (Z.leb_le i j)), (proj2 (Z.leb_le j _)) by lia. done.
Qed.

Lemma slice_oob {A} (l : list A) i j :
  zlen l < j -> slice l i j = Panic IndexOutOfBounds.
Proof.
  intros. unfold slice. rewrite (proj2 (Z.leb_gt j _)) by lia.
  by rewrite andb_false_r.
Qed.

Lemma bind_Ret {St A B} (k : A -> M St B) (c : M St A) s a s' :
  c s = Ret (a, s') -> (c ≫= k) s = k a s'.
Proof. unfold mbind, M_bind. by intros ->. Qed.

Lemma bind_lift {St A B} (k : A -> M St B) (o : outcome A) (s : St) a :
  o = Ret a -> (lift o ≫= k) s = k a s.
Proof. intros ->. done. Qed.

Lemma zoom_Ret {St Sub A} (get : St -> Sub) (set : Sub -> St -> St) (c : M Sub A) s a t :
  c (get s) = Ret (a, t) -> zoom get set c s = Ret (a, set t s).
Proof. unfold zoom. by intros ->. Qed.

(** Running [c] up to its first result, as an equation. *)
Lemma bind_inv {St A B} (c : M St A) (k : A -> M St B) s b s' :
  (c ≫= k) s = Ret (b, s') -> exists a s1, c s = Ret (a, s1) /\ k a s1 = Ret (b, s').
Proof. unfold mbind, M_bind. destruct (c s) as [[a s1]|]; [eauto|done]. Qed.

Lemma lift_inv {St A} (o : outcome A) (s : St) a s' : lift o s = Ret (a, s') -> o = Ret a /\ s' = s.
Proof. unfold lift. destruct o; [|discriminate]. by intros [= -> ->]. Qed.

(** ** Invariants of the state *)

(** Whenever [c] returns, it has kept [I]. *)
Definition keeps {St A} (I : St -> Prop) (c : M St A) : Prop :=
  forall s a s', I s -> c s = Ret (a, s') -> I s'.

Lemma keeps_ret {St A} (I : St -> Prop) (a : A) : keeps I (mret a).
Proof. intros s x s' Hs [= _ <-]. done. Qed.

Lemma keeps_panic {St A} (I : St -> Prop) f : keeps I (panic (A := A) f).
Proof. intros s x s' Hs. discriminate. Qed.

Lemma keeps_gets {St A} (I : St -> Prop) (f : St -> A) : keeps I (gets f).
Proof. intros s x s' Hs [= _ <-]. done. Qed.

Lemma keeps_lift {St A} (I : St -> Prop) (o : outcome A) : keeps I (lift o).
Proof. intros s x s' Hs. destruct o; [|discriminate]. by intros [= _ <-]. Qed.

Lemma keeps_modify {St} (I : St -> Prop) f : (forall s, I s -> I (f s)) -> keeps I (modify f).
Proof. intros Hf s x s' Hs [= _ <-]. by apply Hf. Qed.

Lemma keeps_bind {St A B} (I : St -> Prop) (c : M St A) (k : A -> M St B) :
  keeps I c -> (forall a, keeps I (k a)) -> keeps I (c ≫= k).
Proof. intros Hc Hk s b s' Hs (a & s1 & E1 & E2)%bind_inv. eapply Hk; [|exact E2]. by eapply Hc. Qed.

(** A part of the state that [I] does not look at. *)
Lemma keeps_zoom {St Sub A} (I : St -> Prop) (get : St -> Sub) (set : Sub -> St -> St) (c : M Sub A) :
  (forall t s, I s -> I (set t s)) -> keeps I (zoom get set c).
Proof.
  intros Hset s a s' Hs. unfold zoom. destruct (c (get s)) as [[b t]|]; [|discriminate].
  intros [= _ <-]. by apply Hset.
Qed.

Create HintDb keeps discriminated.
#[export] Hint Resolve keeps_ret keeps_panic keeps_gets keeps_lift : keeps.

(** Goes through a computation step by step. *)
Ltac keep :=
  repeat (cbv beta zeta;
    match goal with
    | |- keeps _ (_ ≫= _) => apply keeps_bind; [|intros ?]
    | |- keeps _ (match ?x with _ => _ end) => destruct x
    | |- keeps _ _ => solve [auto with keeps]
    end).

Lemma sum_list_with_insert {A} (f : A -> nat) (l : list A) i x y :
  l !! i = Some x -> (sum_list_with f (<[i := y]> l) + f x = sum_list_with f l + f y)%nat.
Proof.
  revert i. induction l as [|z l IH]; intros [|i] Hx; simplify_eq/=; [lia|].
  specialize (IH i Hx). lia.
Qed.

Lemma zlen_nonneg {A} (l : list A) : 0 <= zlen l.
Proof. unfold zlen. lia. Qed.

Lemma zlen_app {A} (l1 l2 : list A) : zlen (l1 ++ l2) = zlen l1 + zlen l2.
Proof. unfold zlen. rewrite length_app. lia. Qed.

Lemma zlen_le_split n z : zlen (le_split n z) = Z.of_nat n.
Proof. unfold zlen. by rewrite length_le_split. Qed.

Lemma zlen_replicate {A} n (x : A) : zlen (replicate n x) = Z.of_nat n.
Proof. unfold zlen. by rewrite length_replicate. Qed.

Lemma zlen_nil {A} : zlen (@nil A) = 0.
Proof. done. Qed.

Create Rewrite HintDb zlen.
#[export] Hint Rewrite @zlen_app @zlen_le_split @zlen_replicate @zlen_nil : zlen.

(** ** Little-endian fields *)

Lemma le_at_skip n k j bs1 bs2 :
  length bs1 = k -> le_at n (bs1 ++ bs2) (k + j) = le_at n bs2 j.
Proof. intros <-. unfold le_at. by rewrite drop_app_add. Qed.

Lemma le_at_head n z bs :
  0 <= z < 2 ^ (Z.of_nat n * 8) -> le_at n (le_split n z ++ bs) 0 = z.
Proof.
  intros. unfold le_at. rewrite drop_0.
  rewrite take_app_length' by (by rewrite length_le_split).
  rewrite le_combine_split. by apply Z.mod_small.
Qed.

Lemma le_at_app_l n bs1 bs2 off :
  (off + n <= length bs1)%nat -> le_at n (bs1 ++ bs2) off = le_at n bs1 off.
Proof.
  intros. unfold le_at. rewrite drop_app_le by lia. rewrite take_app_le; [done|].
  rewrite length_drop. lia.
Qed.

Lemma le_at_bound n bs off : 0 <= le_at n bs off < 2 ^ (8 * Z.of_nat n).
Proof.
  unfold le_at. pose proof (le_combine_bound (take n (drop off bs))) as [? Hb].
  split; [done|]. eapply Z.lt_le_trans; [apply Hb|].
  apply Z.pow_le_mono_r; [lia|]. rewrite length_take. lia.
Qed.

Lemma length_put {A} off (bs buf : list A) :
  (off + length bs <= length buf)%nat -> length (put off bs buf) = length buf.
Proof.
  intros. unfold put. rewrite !length_app, length_take, length_drop. lia.
Qed.

(** Reading back a field that was just written. *)
Lemma le_at_put_eq n off z buf :
  (off + n <= length buf)%nat ->
  le_at n (put off (le_split n z) buf) off = z mod 2 ^ (Z.of_nat n * 8).
Proof.
  intros H. unfold le_at, put.
  rewrite drop_app_length' by (rewrite length_take; lia).
  rewrite take_app_length' by (by rewrite length_le_split).
  apply le_combine_split.
Qed.

Lemma take_drop_put_ne {A} n i off (bs buf : list A) :
  (off + length bs <= length buf)%nat -> (i + n <= off \/ off + length bs <= i)%nat ->
  take n (drop i (put off bs buf)) = take n (drop i buf).
Proof.
  intros Hl H. apply list_eq. intros j. unfold put.
  destruct (decide (j < n)%nat); [|by rewrite !lookup_take_ge by lia].
  rewrite !lookup_take_lt, !lookup_drop by lia. destruct H.
  - rewrite lookup_app_l by (rewrite length_take; lia). by rewrite lookup_take_lt by lia.
  - rewrite !lookup_app_r; rewrite ?length_take; [|lia..].
    rewrite lookup_drop. f_equal. lia.
Qed.

(** Reading a field that does not overlap the one written. *)
Lemma le_at_put_ne n i off bs buf :
  (off + length bs <= length buf)%nat -> (i + n <= off \/ off + length bs <= i)%nat ->
  le_at n (put off bs buf) i = le_at n buf i.
Proof. intros. unfold le_at. by rewrite take_drop_put_ne. Qed.

(** ** Evaluating a computation *)

(** The value a computation returned, without the final state. *)
Definition value_of {St A} (o : outcome (A * St)) : option A :=
  match o with Ret (a, _) => Some a | Panic _ => None end.

Lemma value_of_Some {St A} (o : outcome (A * St)) a :
  value_of o = Some a -> exists s, o = Ret (a, s).
Proof. destruct o as [[x s]|]; simpl; [intros [= ->]; eauto|done]. Qed.

(** ** Bit operations *)

(** [!x] on [u64]. *)
Definition not_u64 (x : Z) : Z := U64 - 1 - x.

(** Clearing the [k] low bits rounds down to a multiple of [2 ^ k]. *)
Lemma land_not_low x k :
  0 <= k <= 64 -> 0 <= x < U64 ->
  Z.land x (not_u64 (2 ^ k - 1)) = x / 2 ^ k * 2 ^ k.
Proof.
  intros Hk Hx.
  assert (not_u64 (2 ^ k - 1) = Z.shiftl (Z.ones (64 - k)) k) as ->.
  { unfold not_u64. rewrite Z.shiftl_mul_pow2, Z.ones_equiv by lia.
    replace U64 with (2 ^ (64 - k) * 2 ^ k); [lia|].
    rewrite <- Z.pow_add_r by lia. unfold U64. f_equal. lia. }
  rewrite <- Z.shiftl_mul_pow2, <- Z.shiftr_div_pow2 by lia.
  apply Z.bits_inj'. intros n Hn. rewrite Z.land_spec, !Z.shiftl_spec by lia.
  destruct (decide (n < k)).
  - rewrite !(Z.testbit_neg_r _ (n - k)) by lia. by rewrite andb_false_r.
  - rewrite Z.shiftr_spec by lia. replace (n - k + k) with n by lia.
    destruct (decide (n < 64)).
    + rewrite Z.ones_spec_low by lia. by rewrite andb_true_r.
    + rewrite Z.ones_spec_high by lia. rewrite andb_false_r. symmetry.
      destruct (decide (x = 0)) as [->|]; [apply Z.testbit_0_l|].
      apply Z.bits_above_log2; [lia|].
      apply Z.lt_le_trans with 64; [|lia].
      apply Z.log2_lt_pow2; unfold U64 in Hx; lia.
Qed.

(** ** Stepping through a computation *)

(** Discharges the side conditions of checked arithmetic. *)
Ltac solve_bounds := unfold U8, U16, U32, U64 in *; autorewrite with zlen in *; lia.

(** Runs the first command of [(c ≫= k) s = _] when it is a checked
    operation whose side condition is arithmetic, or reads or updates the
    state. *)
Ltac mstep :=
  lazymatch goal with
  | |- (lift (uadd _ _) ≫= _) _ = _ =>
      etrans; [apply bind_lift, uadd_ok; solve_bounds|]
  | |- (lift (usub _ _) ≫= _) _ = _ =>
      etrans; [apply bind_lift, usub_ok; solve_bounds|]
  | |- (lift (umul _ _) ≫= _) _ = _ =>
      etrans; [apply bind_lift, umul_ok; solve_bounds|]
  | |- (lift (urem _ _) ≫= _) _ = _ =>
      etrans; [apply bind_lift, urem_ok; solve_bounds|]
  | |- (lift (slice _ _ _) ≫= _) _ = _ =>
      etrans; [apply bind_lift, slice_ok; solve_bounds|]
  | |- (gets _ ≫= _) _ = _ => etrans; [by apply bind_Ret|]
  | |- (modify _ ≫= _) _ = _ => etrans; [by apply bind_Ret|]
  | |- (mret _ ≫= _) _ = _ => etrans; [by apply bind_Ret|]
  end; cbv beta zeta.

Tactic Notation "mrun" uconstr(H) :=
  etrans; [apply bind_Ret, H|]; cbv beta zeta.
