(* ===== verification/Mem.v ===== *)
(** Memory: the bytes the guest and the host share (DMA regions, descriptor
    rings, mapped registers), with little-endian loads and stores of the
    widths the drivers use through volatile pointers. *)

From S2P Require Import Prelude.

(** An address that was never written reads as zero, as the pages a
    [DmaAllocator] hands out are. *)
Abbreviation mem := (gmap Z byte).

#[export] Instance byte_inhabited : Inhabited byte := populate Byte.x00.

Definition load_byte (m : mem) (a : Z) : byte := m !!! a.

Definition load_bytes (m : mem) (a : Z) (n : nat) : list byte :=
  (fun i => load_byte m (a + Z.of_nat i)) <$> seq 0 n.

Fixpoint store_bytes (m : mem) (a : Z) (bs : list byte) : mem :=
  match bs with
  | [] => m
  | b :: bs' => store_bytes (<[a := b]> m) (a + 1) bs'
  end.

Definition load_u32 (m : mem) (a : Z) : Z := le_combine (load_bytes m a 4).
Definition load_u64 (m : mem) (a : Z) : Z := le_combine (load_bytes m a 8).
Definition store_u32 (m : mem) (a v : Z) : mem := store_bytes m a (le_split 4 v).
Definition store_u64 (m : mem) (a v : Z) : mem := store_bytes m a (le_split 8 v).

(** ** Lemmas *)

Lemma lookup_store_bytes m a bs x :
  store_bytes m a bs !! x =
  match (if decide (a <= x) then bs !! Z.to_nat (x - a) else None) with
  | Some b => Some b
  | None => m !! x
  end.
Proof.
  revert m a. induction bs as [|b bs IH]; intros m a; simpl.
  - by case_decide.
  - rewrite IH. destruct (decide (x = a)) as [->|Hne].
    + rewrite decide_False by lia. rewrite decide_True by lia.
      rewrite Z.sub_diag. simpl. by rewrite lookup_insert_eq.
    + rewrite lookup_insert_ne by done.
      repeat case_decide; try lia; [|done].
      replace (Z.to_nat (x - a)) with (S (Z.to_nat (x - (a + 1)))) by lia.
      done.
Qed.

Lemma load_byte_store_bytes m a bs x :
  load_byte (store_bytes m a bs) x =
  match (if decide (a <= x) then bs !! Z.to_nat (x - a) else None) with
  | Some b => b
  | None => load_byte m x
  end.
Proof.
  unfold load_byte. rewrite !lookup_total_alt, lookup_store_bytes.
  by destruct (if decide (a <= x) then _ else _).
Qed.

(** Storing over the start of what was just stored. *)
Lemma store_bytes_overwrite m a bs1 bs2 :
  (length bs2 <= length bs1)%nat ->
  store_bytes (store_bytes m a bs1) a bs2 = store_bytes m a (bs2 ++ drop (length bs2) bs1).
Proof.
  intros Hl. apply map_eq. intros x. rewrite !lookup_store_bytes.
  case_decide; [|done]. rewrite lookup_app.
  destruct (bs2 !! Z.to_nat (x - a)) as [b|] eqn:E; [done|].
  apply lookup_ge_None in E. rewrite lookup_drop.
  by replace (length bs2 + (Z.to_nat (x - a) - length bs2))%nat with (Z.to_nat (x - a)) by lia.
Qed.

(** Storing inside what was just stored. *)
Lemma store_bytes_inside m a bs1 k bs2 :
  (k + length bs2 <= length bs1)%nat ->
  store_bytes (store_bytes m a bs1) (a + Z.of_nat k) bs2 = store_bytes m a (put k bs2 bs1).
Proof.
  intros Hl. apply map_eq. intros x. rewrite !lookup_store_bytes. unfold put.
  destruct (decide (a <= x)); [|by rewrite decide_False by lia].
  destruct (decide (a + Z.of_nat k <= x)).
  - rewrite lookup_app_r by (rewrite length_take; lia). rewrite length_take, Nat.min_l by lia.
    replace (Z.to_nat (x - (a + Z.of_nat k))) with (Z.to_nat (x - a) - k)%nat by lia.
    rewrite lookup_app. destruct (bs2 !! _) as [b|] eqn:E; [done|].
    apply lookup_ge_None in E. rewrite lookup_drop.
    by replace (k + length bs2 + (Z.to_nat (x - a) - k - length bs2))%nat with (Z.to_nat (x - a)) by lia.
  - rewrite lookup_app_l by (rewrite length_take; lia). by rewrite lookup_take_lt by lia.
Qed.

Lemma load_byte_store_ne m a bs x :
  x < a \/ a + zlen bs <= x ->
  load_byte (store_bytes m a bs) x = load_byte m x.
Proof.
  unfold zlen. intros H. rewrite load_byte_store_bytes. case_decide; [|done].
  rewrite lookup_ge_None_2; [done|lia].
Qed.

Lemma load_byte_store_eq m a bs i b :
  bs !! i = Some b -> load_byte (store_bytes m a bs) (a + Z.of_nat i) = b.
Proof.
  intros H. rewrite load_byte_store_bytes, decide_True by lia.
  replace (Z.to_nat _) with i by lia. by rewrite H.
Qed.

Lemma length_load_bytes m a n : length (load_bytes m a n) = n.
Proof. unfold load_bytes. by rewrite length_fmap, length_seq. Qed.

Lemma load_bytes_lookup m a n i :
  (i < n)%nat -> load_bytes m a n !! i = Some (load_byte m (a + Z.of_nat i)).
Proof.
  intros H. unfold load_bytes. rewrite list_lookup_fmap, lookup_seq_lt by lia.
  done.
Qed.

Lemma load_bytes_ext m1 m2 a n :
  (forall x, a <= x < a + Z.of_nat n -> load_byte m1 x = load_byte m2 x) ->
  load_bytes m1 a n = load_bytes m2 a n.
Proof.
  intros H. apply list_eq_same_length with n;
    rewrite ?length_load_bytes; [done..|].
  intros i x y Hi. rewrite !load_bytes_lookup by lia.
  intros [= <-] [= <-]. apply H. lia.
Qed.

Lemma load_bytes_store_eq m a bs :
  load_bytes (store_bytes m a bs) a (length bs) = bs.
Proof.
  apply list_eq_same_length with (length bs); rewrite ?length_load_bytes;
    [done..|].
  intros i x y Hi. rewrite load_bytes_lookup by lia. intros [= <-] H.
  by apply load_byte_store_eq.
Qed.

Lemma load_bytes_store_ne m a bs x n :
  x + Z.of_nat n <= a \/ a + zlen bs <= x ->
  load_bytes (store_bytes m a bs) x n = load_bytes m x n.
Proof. intros H. apply load_bytes_ext. intros. apply load_byte_store_ne. lia. Qed.

Lemma load_bytes_app m a n1 n2 :
  load_bytes m a (n1 + n2) =
  load_bytes m a n1 ++ load_bytes m (a + Z.of_nat n1) n2.
Proof.
  unfold load_bytes. rewrite seq_app, fmap_app. f_equal.
  apply list_eq_same_length with n2; rewrite ?length_fmap, ?length_seq; [done..|].
  intros i x y Hi. rewrite !list_lookup_fmap, !lookup_seq_lt by lia. simpl.
  intros [= <-] [= <-]. f_equal. lia.
Qed.

Lemma store_bytes_app m a bs1 bs2 :
  store_bytes m a (bs1 ++ bs2) =
  store_bytes (store_bytes m a bs1) (a + zlen bs1) bs2.
Proof.
  unfold zlen. revert m a. induction bs1 as [|b bs1 IH]; intros m a; simpl.
  - f_equal. lia.
  - rewrite IH. f_equal. lia.
Qed.

Lemma load_u32_range m a : 0 <= load_u32 m a < U32.
Proof.
  unfold load_u32. pose proof (le_combine_bound (load_bytes m a 4)) as H.
  by rewrite length_load_bytes in H.
Qed.

Lemma load_u32_store_eq m a v : load_u32 (store_u32 m a v) a = v mod U32.
Proof.
  unfold load_u32, store_u32.
  pose proof (load_bytes_store_eq m a (le_split 4 v)) as H.
  rewrite length_le_split in H. rewrite H. by rewrite le_combine_split.
Qed.

Lemma load_u32_store_bytes_ne m a bs x :
  x + 4 <= a \/ a + zlen bs <= x ->
  load_u32 (store_bytes m a bs) x = load_u32 m x.
Proof. intros H. unfold load_u32. rewrite load_bytes_store_ne; [done|lia]. Qed.

Lemma load_u32_store_ne m a v x :
  x + 4 <= a \/ a + 4 <= x -> load_u32 (store_u32 m a v) x = load_u32 m x.
Proof.
  intros H. apply load_u32_store_bytes_ne. rewrite zlen_le_split. lia.
Qed.

Lemma load_byte_store_u32_ne m a v x :
  x < a \/ a + 4 <= x -> load_byte (store_u32 m a v) x = load_byte m x.
Proof. intros H. apply load_byte_store_ne. rewrite zlen_le_split. lia. Qed.
