(* ===== verification/Dma.v ===== *)
(** DMA memory: the [DmaAllocator] trait of [crates/embclox-dma/src/lib.rs],
    in which the drivers are generic, as a class over the state of the
    machine, and its implementation on the kernel heap,
    [crates/embclox-core/src/dma_alloc.rs]. *)

From S2P Require Import Prelude.

Record DmaRegion := {
  vaddr : Z;
  paddr : Z;
  rsize : Z;
}.

Class DmaAllocator (St : Type) := {
  alloc_coherent : Z -> Z -> M St DmaRegion;
  free_coherent : DmaRegion -> M St unit;
}.

(** The global allocator of the kernel ([alloc::alloc]), which comes from
    another crate: a null pointer is [0]. *)
Class GlobalAlloc (St : Type) := {
  alloc_zeroed : Z -> Z -> M St Z;
  dealloc : Z -> Z -> Z -> M St unit;
}.

(** [Layout::from_size_align]: the alignment is a power of two and the size,
    rounded up to it, does not exceed [isize::MAX]. *)
Definition layout_ok (size align : Z) : bool :=
  (0 <? align) && (Z.land align (align - 1) =? 0) && (size <=? 2 ^ 63 - align).

Record BootDmaAllocator := {
  kernel_offset : Z;
  phys_offset : Z;
}.

Section boot.
Context {St : Type} `{GlobalAlloc St}.

Definition boot_alloc_coherent (b : BootDmaAllocator) (size align : Z) : M St DmaRegion :=
  _ ← lift (if layout_ok size align then Ret tt else Panic Expect);
  ptr ← alloc_zeroed size align;
  _ ← lift (rassert (negb (ptr =? 0)));
  let heap_vaddr := ptr in
  paddr ← lift (usub heap_vaddr (kernel_offset b));
  vaddr ← lift (uadd paddr (phys_offset b));
  mret {| vaddr := vaddr; paddr := paddr; rsize := size |}.

Definition boot_free_coherent (b : BootDmaAllocator) (region : DmaRegion) : M St unit :=
  paddr ← lift (usub (vaddr region) (phys_offset b));
  heap_vaddr ← lift (uadd paddr (kernel_offset b));
  _ ← lift (if layout_ok (rsize region) 4096 then Ret tt else Panic Expect);
  dealloc heap_vaddr (rsize region) 4096.

End boot.

#[export] Instance boot_dma {St} `{GlobalAlloc St} (b : BootDmaAllocator) : DmaAllocator St :=
  {| alloc_coherent := boot_alloc_coherent b; free_coherent := boot_free_coherent b |}.

(** Freeing a region gives the heap back exactly the block that was
    taken for it, with the same size, and with the alignment 4096 whatever
    the alignment it was allocated with; the region's two addresses are the
    block's under the two mappings of physical memory. *)
Theorem free_returns_block {St} `{GlobalAlloc St} (b : BootDmaAllocator) size align ptr (s s' : St) :
  alloc_zeroed size align s = Ret (ptr, s') -> layout_ok size align = true ->
  size <= 2 ^ 63 - 4096 ->
  0 < ptr < U64 -> 0 <= kernel_offset b <= ptr -> 0 <= phys_offset b ->
  ptr - kernel_offset b + phys_offset b < U64 ->
  exists region, boot_alloc_coherent b size align s = Ret (region, s') /\
    paddr region = ptr - kernel_offset b /\ vaddr region = paddr region + phys_offset b /\
    rsize region = size /\
    forall s2 : St, boot_free_coherent b region s2 = dealloc ptr size 4096 s2.
Proof.
  intros Ha Hl Hsz Hp Hk Ho Hv.
  exists {| vaddr := ptr - kernel_offset b + phys_offset b; paddr := ptr - kernel_offset b; rsize := size |}.
  split_and!; try done.
  - unfold boot_alloc_coherent. rewrite Hl.
    rewrite (bind_lift _ _ _ tt) by done. erewrite bind_Ret by exact Ha. cbv beta.
    rewrite (bind_lift _ _ _ tt) by (unfold rassert; by rewrite (proj2 (Z.eqb_neq ptr 0)) by lia).
    cbv zeta. erewrite bind_lift by (apply usub_ok; lia). cbv beta.
    by erewrite bind_lift by (apply uadd_ok; lia).
  - intros s2. unfold boot_free_coherent. cbn [vaddr rsize].
    erewrite bind_lift by (apply usub_ok; lia). cbv beta.
    erewrite bind_lift by (apply uadd_ok; lia). cbv beta.
    rewrite (bind_lift _ _ _ tt).
    + do 2 f_equal. lia.
    + unfold layout_ok. by rewrite (proj2 (Z.leb_le _ _)) by lia.
Qed.

(** A heap that hands out consecutive blocks and never takes one back. *)
Definition bump : GlobalAlloc Z :=
  {| alloc_zeroed size align next :=
       let p := (next + align - 1) / align * align in Ret (p, p + size);
     dealloc _ _ _ next := Ret (tt, next) |}.

Lemma free_returns_block_witness :
  let b := {| kernel_offset := 65536; phys_offset := 1048576 |} in
  exists region, boot_alloc_coherent (H := bump) b 8192 4096 70000 = Ret (region, 81920) /\
    paddr region = 8192 /\ vaddr region = 1056768.
Proof.
  intros b.
  destruct (free_returns_block (H := bump) b 8192 4096 73728 70000 81920)
    as (region & E & Hp & Hv & _); [reflexivity|reflexivity|unfold U64; simpl; lia..|].
  exists region. split; [exact E|]. split; [exact Hp|]. by rewrite Hv, Hp.
Defined.
