(* ===== verification/Ring.v ===== *)
(** VMBus ring buffers ([crates/embclox-hyperv/src/ring.rs]): one half of a
    channel's ring, a 4 KiB control page followed by a circular data area,
    both in shared memory.  The operations are the methods of [RingHalf], as
    computations on memory that may panic; fences are no-ops of this
    sequential semantics. *)

From S2P Require Import Prelude Mem.

(** ** Data *)

Record VmPacketDescriptor := {
  packet_type : Z;
  offset8 : Z;
  len8 : Z;
  flags : Z;
  transaction_id : Z;
}.

Definition VM_PKT_DATA_INBAND : Z := 6.
Definition VM_PKT_DATA_USING_XFER_PAGES : Z := 7.
Definition VM_PKT_DATA_USING_GPA_DIRECT : Z := 8.
Definition VM_PKT_COMP : Z := 11.
Definition VMBUS_DATA_PACKET_FLAG_COMPLETION_REQUESTED : Z := 1.

(** The bytes of the [repr(C)] struct: no padding, little-endian fields. *)
Definition desc_bytes (d : VmPacketDescriptor) : list byte :=
  le_split 2 (packet_type d) ++ le_split 2 (offset8 d) ++
  le_split 2 (len8 d) ++ le_split 2 (flags d) ++ le_split 8 (transaction_id d).

Definition desc_of_bytes (bs : list byte) : VmPacketDescriptor :=
  {| packet_type := le_at 2 bs 0;
     offset8 := le_at 2 bs 2;
     len8 := le_at 2 bs 4;
     flags := le_at 2 bs 6;
     transaction_id := le_at 8 bs 8 |}.

Record RingHalf := {
  base : Z;
  data_size : Z;
}.

Inductive RingError :=
| Full
| Corrupt.

(** ** Operations *)

Definition new (b total_size : Z) : M mem RingHalf :=
  _ ← lift (rassert ((4096 <? total_size) && (total_size mod 4096 =? 0)));
  feature_bits_ptr ← lift (uadd b 64);
  _ ← modify (fun m => store_u32 m feature_bits_ptr 1);
  ds ← lift (usub total_size 4096);
  mret {| base := b; data_size := ds |}.

Definition read_write_index (r : RingHalf) : M mem Z :=
  gets (fun m => load_u32 m (base r)).

Definition set_write_index (r : RingHalf) (val : Z) : M mem unit :=
  modify (fun m => store_u32 m (base r) val).

Definition read_read_index (r : RingHalf) : M mem Z :=
  a ← lift (uadd (base r) 4);
  gets (fun m => load_u32 m a).

Definition set_read_index (r : RingHalf) (val : Z) : M mem unit :=
  a ← lift (uadd (base r) 4);
  modify (fun m => store_u32 m a val).

Definition data_ptr (r : RingHalf) : outcome Z := uadd (base r) 4096.

Definition copy_to (r : RingHalf) (offset : Z) (src : list byte) : M mem Z :=
  off ← lift (urem offset (data_size r));
  room ← lift (usub (data_size r) off);
  let first := Z.to_nat (Z.min room (zlen src)) in
  data ← lift (data_ptr r);
  _ ← modify (fun m => store_bytes m (data + off) (take first src));
  _ ← (if Z.of_nat first <? zlen src
       then modify (fun m => store_bytes m data (drop first src))
       else mret tt);
  next ← lift (uadd off (zlen src));
  lift (urem next (data_size r)).

(** [n] is the length of [dst], all of which is overwritten: the result is
    its new contents and the offset after the copy. *)
Definition copy_from (r : RingHalf) (offset n : Z) : M mem (list byte * Z) :=
  off ← lift (urem offset (data_size r));
  room ← lift (usub (data_size r) off);
  let first := Z.min room n in
  data ← lift (data_ptr r);
  dst1 ← gets (fun m => load_bytes m (data + off) (Z.to_nat first));
  dst2 ← (if first <? n
          then gets (fun m => load_bytes m data (Z.to_nat (n - first)))
          else mret []);
  next ← lift (uadd off n);
  pos ← lift (urem next (data_size r));
  mret (dst1 ++ dst2, pos).

Definition align8 (n : Z) : outcome Z :=
  s ← uadd n 7; mret (Z.land s (not_u64 7)).

(** The free space computation at the head of the three senders. *)
Definition send_avail (r : RingHalf) (write_idx read_idx : Z) : outcome Z :=
  if read_idx <=? write_idx
  then d ← usub write_idx read_idx; usub (data_size r) d
  else usub read_idx write_idx.

(** The tail shared by the three senders: zero padding to 8 bytes, the
    trailing [prev_indices] word, and the new write index. *)
Definition finish_packet (r : RingHalf) (pos pad write_idx read_idx total_write : Z)
  : M mem unit :=
  pos ← (if 0 <? pad
         then zeros ← lift (slice (replicate 8 Byte.x00) 0 pad);
              copy_to r pos zeros
         else mret pos);
  let prev := Z.lor (Z.shiftl write_idx 32 mod U64) read_idx in
  _ ← copy_to r pos (le_split 8 prev);
  s ← lift (uadd write_idx total_write);
  w ← lift (urem s (data_size r));
  set_write_index r (as_u32 w).

Definition send_packet (r : RingHalf) (payload : list byte) (tid fl : Z)
  : M mem (result unit RingError) :=
  let header_size := 16 in
  s ← lift (uadd header_size (zlen payload));
  packet_len ← lift (align8 s);
  total_write ← lift (uadd packet_len 8);
  write_idx ← read_write_index r;
  read_idx ← read_read_index r;
  avail ← lift (send_avail r write_idx read_idx);
  if avail <=? total_write then mret (Err Full) else
  let desc := {| packet_type := VM_PKT_DATA_INBAND;
                 offset8 := as_u16 (header_size / 8);
                 len8 := as_u16 (packet_len / 8);
                 flags := fl;
                 transaction_id := tid |} in
  pos ← copy_to r write_idx (desc_bytes desc);
  pos ← (if bool_decide (payload = []) then mret pos else copy_to r pos payload);
  p ← lift (usub packet_len header_size);
  pad ← lift (usub p (zlen payload));
  _ ← finish_packet r pos pad write_idx read_idx total_write;
  mret (Ok tt).

Definition send_comp (r : RingHalf) (payload : list byte) (tid : Z)
  : M mem (result unit RingError) :=
  let header_size := 16 in
  s ← lift (uadd header_size (zlen payload));
  packet_len ← lift (align8 s);
  total_write ← lift (uadd packet_len 8);
  write_idx ← read_write_index r;
  read_idx ← read_read_index r;
  avail ← lift (send_avail r write_idx read_idx);
  if avail <=? total_write then mret (Err Full) else
  let desc := {| packet_type := VM_PKT_COMP;
                 offset8 := as_u16 (header_size / 8);
                 len8 := as_u16 (packet_len / 8);
                 flags := 0;
                 transaction_id := tid |} in
  pos ← copy_to r write_idx (desc_bytes desc);
  pos ← (if bool_decide (payload = []) then mret pos else copy_to r pos payload);
  p ← lift (usub packet_len header_size);
  pad ← lift (usub p (zlen payload));
  _ ← finish_packet r pos pad write_idx read_idx total_write;
  mret (Ok tt).

Definition send_packet_with_page_buffer (r : RingHalf) (user_data : list byte)
    (page_pfn page_offset page_len tid fl : Z) : M mem (result unit RingError) :=
  let header_size := 16 + 4 + 4 + 16 in
  s ← lift (uadd header_size (zlen user_data));
  packet_len ← lift (align8 s);
  total_write ← lift (uadd packet_len 8);
  write_idx ← read_write_index r;
  read_idx ← read_read_index r;
  avail ← lift (send_avail r write_idx read_idx);
  if avail <=? total_write then mret (Err Full) else
  let data_offset8 := as_u16 (header_size / 8) in
  let desc := {| packet_type := VM_PKT_DATA_USING_GPA_DIRECT;
                 offset8 := data_offset8;
                 len8 := as_u16 (packet_len / 8);
                 flags := fl;
                 transaction_id := tid |} in
  pos ← copy_to r write_idx (desc_bytes desc);
  let reserved := 0 in
  pos ← copy_to r pos (le_split 4 reserved);
  let rangecount := 1 in
  pos ← copy_to r pos (le_split 4 rangecount);
  pos ← copy_to r pos (le_split 4 page_offset);
  pos ← copy_to r pos (le_split 4 page_len);
  pos ← copy_to r pos (le_split 8 page_pfn);
  pos ← (if bool_decide (user_data = []) then mret pos else copy_to r pos user_data);
  p ← lift (usub packet_len header_size);
  pad ← lift (usub p (zlen user_data));
  _ ← finish_packet r pos pad write_idx read_idx total_write;
  mret (Ok tt).

(** The amount of unread data, at the head of the two receivers. *)
Definition recv_avail (r : RingHalf) (write_idx read_idx : Z) : outcome Z :=
  if read_idx <=? write_idx
  then usub write_idx read_idx
  else d ← usub read_idx write_idx; usub (data_size r) d.

(** [buf[..copy_len]] is overwritten with [bs], the rest of [buf] is kept. *)
Definition overwrite (buf bs : list byte) : list byte := bs ++ drop (length bs) buf.

(** The result carries the caller's buffer after the call. *)
Definition recv_packet (r : RingHalf) (buf : list byte)
  : M mem (result (option (VmPacketDescriptor * Z)) RingError * list byte) :=
  write_idx ← read_write_index r;
  read_idx ← read_read_index r;
  avail ← lift (recv_avail r write_idx read_idx);
  if avail =? 0 then mret (Ok None, buf) else
  if avail <? 16 then mret (Err Corrupt, buf) else
  '(db, pos) ← copy_from r read_idx 16;
  let desc := desc_of_bytes db in
  packet_len ← lift (umul (len8 desc) 8);
  total_read ← lift (uadd packet_len 8);
  if (packet_len <? 16) || (avail <? total_read) then mret (Err Corrupt, buf) else
  data_offset ← lift (umul (offset8 desc) 8);
  if packet_len <? data_offset then mret (Err Corrupt, buf) else
  payload_len ← lift (usub packet_len data_offset);
  payload_pos ← (if 16 <? data_offset
                 then skip_len ← lift (usub data_offset 16);
                      skip ← lift (slice (replicate 64 Byte.x00) 0 skip_len);
                      '(_, p) ← copy_from r pos (zlen skip);
                      mret p
                 else mret pos);
  let copy_len := Z.min payload_len (zlen buf) in
  buf' ← (if 0 <? copy_len
          then '(bs, _) ← copy_from r payload_pos copy_len;
               mret (overwrite buf bs)
          else mret buf);
  s ← lift (uadd read_idx total_read);
  rd ← lift (urem s (data_size r));
  _ ← set_read_index r (as_u32 rd);
  mret (Ok (Some (desc, copy_len)), buf').

Definition recv_packet_raw (r : RingHalf) (buf : list byte)
  : M mem (result (option (VmPacketDescriptor * Z)) RingError * list byte) :=
  write_idx ← read_write_index r;
  read_idx ← read_read_index r;
  avail ← lift (recv_avail r write_idx read_idx);
  if avail =? 0 then mret (Ok None, buf) else
  if avail <? 16 then mret (Err Corrupt, buf) else
  '(db, pos) ← copy_from r read_idx 16;
  let desc := desc_of_bytes db in
  packet_len ← lift (umul (len8 desc) 8);
  total_read ← lift (uadd packet_len 8);
  if (packet_len <? 16) || (avail <? total_read) then mret (Err Corrupt, buf) else
  raw_len ← lift (usub packet_len 16);
  let copy_len := Z.min raw_len (zlen buf) in
  buf' ← (if 0 <? copy_len
          then '(bs, _) ← copy_from r pos copy_len;
               mret (overwrite buf bs)
          else mret buf);
  s ← lift (uadd read_idx total_read);
  rd ← lift (urem s (data_size r));
  _ ← set_read_index r (as_u32 rd);
  mret (Ok (Some (desc, copy_len)), buf').
