(* ===== verification/RingFacts.v ===== *)
(** Lemmas on the ring buffer model of [Ring.v]: the circular store and the
    circular window that the copies implement, and the closed form of every
    operation on a ring whose indices are in range. *)

From S2P Require Import Prelude Mem Ring.

(** Placement of a ring: the region does not wrap around the address space
    and the data area is indexed by the 32-bit control words. *)
Definition ring_geometry (r : RingHalf) : Prop :=
  0 <= base r /\ 0 < data_size r <= U32 /\ base r + 4096 + data_size r < U64.

Definition write_index (m : mem) (r : RingHalf) : Z := load_u32 m (base r).
Definition read_index (m : mem) (r : RingHalf) : Z := load_u32 m (base r + 4).

(** Both indices are offsets into the data area. *)
Definition ring_ok (m : mem) (r : RingHalf) : Prop :=
  ring_geometry r /\ write_index m r < data_size r /\ read_index m r < data_size r.

(** Byte [i] of the data area, counted circularly. *)
Definition ring_byte (m : mem) (r : RingHalf) (i : Z) : byte :=
  load_byte m (base r + 4096 + i mod data_size r).

(** [n] bytes of the data area from offset [o], circularly. *)
Definition window (m : mem) (r : RingHalf) (o : Z) (n : nat) : list byte :=
  (fun k => ring_byte m r (o + Z.of_nat k)) <$> seq 0 n.

(** The memory after [copy_to]. *)
Definition ring_store (m : mem) (r : RingHalf) (o : Z) (src : list byte) : mem :=
  let off := o mod data_size r in
  let first := Z.to_nat (Z.min (data_size r - off) (zlen src)) in
  store_bytes (store_bytes m (base r + 4096 + off) (take first src))
              (base r + 4096) (drop first src).

(** Bytes in use: written and not yet read. *)
Definition used (m : mem) (r : RingHalf) : Z :=
  (write_index m r - read_index m r) mod data_size r.

Section geometry.
Context (r : RingHalf) (Hgeo : ring_geometry r).

Local Abbreviation ds := (data_size r).

Lemma index_range m : 0 <= write_index m r < U32 /\ 0 <= read_index m r < U32.
Proof. split; apply load_u32_range. Qed.

Lemma ds_mod x : 0 <= x mod ds < ds.
Proof. apply Z.mod_pos_bound. apply Hgeo. Qed.

(** A difference of residues, reduced. *)
Lemma sub_mod_cases a b :
  0 <= a < ds -> 0 <= b < ds ->
  (a - b) mod ds = if b <=? a then a - b else a - b + ds.
Proof.
  intros. destruct (Z.leb_spec b a).
  - apply Z.mod_small. lia.
  - rewrite <- (Z.mod_small (a - b + ds) ds) by lia.
    rewrite <- (Z.mod_add (a - b) 1) by lia. f_equal. lia.
Qed.

Lemma read_read_index_ok m : read_read_index r m = Ret (read_index m r, m).
Proof. unfold read_read_index. destruct Hgeo as (?&?&?). by mstep. Qed.

Lemma set_read_index_ok m v :
  set_read_index r v m = Ret (tt, store_u32 m (base r + 4) v).
Proof. unfold set_read_index. destruct Hgeo as (?&?&?). by mstep. Qed.

Lemma copy_to_ok m o src :
  zlen src <= ds ->
  copy_to r o src m = Ret ((o + zlen src) mod ds, ring_store m r o src).
Proof.
  intros Hlen. unfold copy_to, data_ptr. destruct Hgeo as (?&?&?).
  pose proof (ds_mod o). pose proof (zlen_nonneg src).
  do 4 mstep.
  unfold ring_store. set (first := Z.to_nat _).
  assert (length src = first \/ (first < length src)%nat) as Hcase.
  { unfold first, zlen in *. lia. }
  case_match eqn:Hc.
  - do 2 mstep. unfold lift. rewrite urem_ok by lia.
    by rewrite Zplus_mod_idemp_l.
  - assert (first = length src) as ->. { unfold zlen in *. lia. }
    rewrite drop_all. simpl. do 2 mstep. unfold lift. rewrite urem_ok by lia.
    by rewrite Zplus_mod_idemp_l.
Qed.

Lemma length_window m o n : length (window m r o n) = n.
Proof. unfold window. by rewrite length_fmap, length_seq. Qed.

Lemma window_lookup m o n i :
  (i < n)%nat -> window m r o n !! i = Some (ring_byte m r (o + Z.of_nat i)).
Proof.
  intros. unfold window. by rewrite list_lookup_fmap, lookup_seq_lt by lia.
Qed.

(** Two windows are equal when their bytes are. *)
Lemma window_ext m1 o n bs :
  length bs = n ->
  (forall i b, bs !! i = Some b -> ring_byte m1 r (o + Z.of_nat i) = b) ->
  window m1 r o n = bs.
Proof.
  intros Hl H. apply list_eq_same_length with n; rewrite ?length_window; [done..|].
  intros i x y Hi. rewrite window_lookup by lia. intros [= <-] Hy. by apply H.
Qed.

Lemma window_app m o n1 n2 :
  window m r o (n1 + n2) = window m r o n1 ++ window m r (o + Z.of_nat n1) n2.
Proof.
  apply window_ext; [by rewrite length_app, !length_window|].
  intros i b [Hi|[Hl Hi]]%lookup_app_Some.
  - pose proof (lookup_lt_Some _ _ _ Hi) as Hlt. rewrite length_window in Hlt.
    rewrite window_lookup in Hi by done. by simplify_eq.
  - pose proof (lookup_lt_Some _ _ _ Hi) as Hlt. rewrite !length_window in *.
    rewrite window_lookup in Hi by done. simplify_eq. f_equal. lia.
Qed.

Lemma window_mod m o n : window m r (o mod ds) n = window m r o n.
Proof.
  unfold window, ring_byte. apply list_fmap_ext. intros. simpl.
  by rewrite Zplus_mod_idemp_l.
Qed.

(** A window that does not cross the end of the data area is contiguous. *)
Lemma window_linear m o n :
  o mod ds + Z.of_nat n <= ds ->
  load_bytes m (base r + 4096 + o mod ds) n = window m r o n.
Proof.
  intros H. symmetry. apply window_ext; [apply length_load_bytes|].
  intros i b Hi. pose proof (lookup_lt_Some _ _ _ Hi) as Hlt.
  rewrite length_load_bytes in Hlt. rewrite load_bytes_lookup in Hi by done.
  simplify_eq. unfold ring_byte. f_equal. rewrite <- Zplus_mod_idemp_l.
  pose proof (ds_mod o). rewrite Z.mod_small by lia. lia.
Qed.

Lemma copy_from_ok m o n :
  0 <= n <= ds ->
  copy_from r o n m = Ret ((window m r o (Z.to_nat n), (o + n) mod ds), m).
Proof.
  intros Hn. unfold copy_from, data_ptr. destruct Hgeo as (?&?&?).
  pose proof (ds_mod o). do 4 mstep.
  case_match eqn:Hc; do 3 mstep; unfold mret, M_ret; rewrite Zplus_mod_idemp_l;
    rewrite window_linear by lia.
  - assert (Hfirst : Z.min (ds - o mod ds) n = ds - o mod ds) by lia.
    rewrite Hfirst.
    assert (Hz : (o + Z.of_nat (Z.to_nat (ds - o mod ds))) mod ds = 0).
    { rewrite <- Zplus_mod_idemp_l, Z2Nat.id by lia.
      replace (o mod ds + (ds - o mod ds)) with (1 * ds) by lia.
      apply Z.mod_mul. lia. }
    replace (Z.to_nat n) with
      (Z.to_nat (ds - o mod ds) + Z.to_nat (n - (ds - o mod ds)))%nat by lia.
    rewrite window_app, <- (window_linear _ (o + _)) by (rewrite Hz; lia).
    rewrite Hz, Z.add_0_r. done.
  - rewrite app_nil_r. do 4 f_equal. lia.
Qed.

(** The circular store, byte by byte. *)
Lemma ring_byte_store m o src i :
  zlen src <= ds ->
  ring_byte (ring_store m r o src) r i =
  match src !! Z.to_nat ((i - o) mod ds) with
  | Some b => b
  | None => ring_byte m r i
  end.
Proof.
  intros Hlen. unfold ring_byte, ring_store. destruct Hgeo as (?&?&?).
  pose proof (ds_mod o). pose proof (ds_mod i).
  rewrite Zminus_mod, sub_mod_cases by done. unfold zlen in *.
  set (first := Z.to_nat _). rewrite !load_byte_store_bytes.
  rewrite decide_True by lia. rewrite lookup_drop.
  destruct (Z.leb_spec (o mod ds) (i mod ds)).
  - rewrite (lookup_ge_None_2 src) by lia. rewrite decide_True by lia.
    replace (Z.to_nat (base r + 4096 + i mod ds - _)) with
      (Z.to_nat (i mod ds - o mod ds)) by lia.
    destruct (decide (Z.to_nat (i mod ds - o mod ds) < first)%nat).
    + by rewrite lookup_take_lt by done.
    + rewrite lookup_take_ge by lia. by rewrite lookup_ge_None_2 by lia.
  - rewrite (decide_False (P := base r + 4096 + o mod ds <= _)) by lia.
    destruct (decide (length src <= Z.to_nat (ds - o mod ds))%nat).
    + rewrite !lookup_ge_None_2 by lia. done.
    + replace (Z.to_nat (i mod ds - o mod ds + ds)) with
        (first + Z.to_nat (base r + 4096 + i mod ds - (base r + 4096)))%nat by lia.
      done.
Qed.

Lemma window_store_eq m o src :
  zlen src <= ds -> window (ring_store m r o src) r o (length src) = src.
Proof.
  intros Hlen. apply window_ext; [done|]. intros i b Hi.
  pose proof (lookup_lt_Some _ _ _ Hi). unfold zlen in *.
  rewrite ring_byte_store by done. rewrite Z.add_simpl_l, Z.mod_small by lia.
  by rewrite Nat2Z.id, Hi.
Qed.

(** A store leaves alone the window that ends where it starts, as long as
    the two fit in the data area together. *)
Lemma window_store_before m o src n :
  zlen src + Z.of_nat n <= ds ->
  window (ring_store m r (o + Z.of_nat n) src) r o n = window m r o n.
Proof.
  intros Hlen. apply window_ext; [apply length_window|]. intros i b Hi.
  pose proof (lookup_lt_Some _ _ _ Hi) as Hlt. rewrite length_window in Hlt.
  rewrite window_lookup in Hi by done. simplify_eq.
  pose proof (zlen_nonneg src). rewrite ring_byte_store by lia.
  replace (o + Z.of_nat i - (o + Z.of_nat n)) with
    (ds + (Z.of_nat i - Z.of_nat n) + (-1) * ds) by lia.
  rewrite Z.mod_add, Z.mod_small by lia. unfold zlen in *.
  by rewrite lookup_ge_None_2 by lia.
Qed.

Lemma ring_store_mod m o src : ring_store m r (o mod ds) src = ring_store m r o src.
Proof. unfold ring_store. by rewrite Zmod_mod. Qed.

(** Consecutive copies are one copy of the concatenation. *)
Lemma ring_store_app m o s1 s2 :
  zlen s1 + zlen s2 <= ds ->
  ring_store (ring_store m r o s1) r (o + zlen s1) s2 = ring_store m r o (s1 ++ s2).
Proof.
  intros Hlen. pose proof (ds_mod o) as Ho. unfold ring_store.
  rewrite <- (Zplus_mod_idemp_l o), zlen_app. unfold zlen in *.
  set (off := o mod ds) in *. set (D := base r + 4096).
  destruct (Z.lt_trichotomy (off + Z.of_nat (length s1)) ds) as [Hc|[Hc|Hc]].
  - rewrite (Z.mod_small (off + _)) by lia.
    rewrite (drop_ge s1), (take_ge s1) by lia. simpl.
    rewrite take_app_ge, drop_app_ge, store_bytes_app by lia. unfold zlen.
    rewrite Z.add_assoc. repeat f_equal; lia.
  - rewrite Hc, Z_mod_same_full.
    rewrite (drop_ge s1), (take_ge s1), (drop_ge s2), (take_ge s2) by lia. simpl.
    rewrite Z.add_0_r. rewrite take_app_length', drop_app_length' by lia. done.
  - replace ((off + Z.of_nat (length s1)) mod ds) with
      (off + Z.of_nat (length s1) - ds).
    2: { rewrite <- (Z.mod_add _ (-1)) by lia. symmetry. apply Z.mod_small. lia. }
    rewrite (drop_ge s2), (take_ge s2) by lia. simpl.
    rewrite take_app_le, drop_app_le by lia. rewrite store_bytes_app. unfold zlen.
    rewrite length_drop.
    replace (Z.to_nat (Z.min (ds - off) (Z.of_nat (length s1) + Z.of_nat (length s2))))
      with (Z.to_nat (Z.min (ds - off) (Z.of_nat (length s1)))) by lia.
    f_equal. lia.
Qed.

(** The control page and everything outside the data area. *)
Lemma load_byte_ring_store_ne m o src x :
  zlen src <= ds ->
  x < base r + 4096 \/ base r + 4096 + ds <= x ->
  load_byte (ring_store m r o src) x = load_byte m x.
Proof.
  intros Hlen Hx. pose proof (ds_mod o). unfold ring_store, zlen in *.
  rewrite !load_byte_store_ne; [done|..]; unfold zlen;
    rewrite ?length_drop, ?length_take; lia.
Qed.

Lemma write_index_ring_store m o src :
  zlen src <= ds -> write_index (ring_store m r o src) r = write_index m r.
Proof.
  intros. unfold write_index, load_u32. f_equal. apply load_bytes_ext.
  intros. apply load_byte_ring_store_ne; lia.
Qed.

Lemma read_index_ring_store m o src :
  zlen src <= ds -> read_index (ring_store m r o src) r = read_index m r.
Proof.
  intros. unfold read_index, load_u32. f_equal. apply load_bytes_ext.
  intros. apply load_byte_ring_store_ne; lia.
Qed.

Lemma window_store_u32 m a v o n :
  a + 4 <= base r + 4096 -> window (store_u32 m a v) r o n = window m r o n.
Proof.
  intros. unfold window, ring_byte. apply list_fmap_ext. intros. simpl.
  apply load_byte_store_u32_ne. pose proof (ds_mod (o + Z.of_nat x)). lia.
Qed.
End geometry.
