(* ===== verification/RingFifo.v ===== *)
(** The ring buffer implements a bounded FIFO queue of packets: an abstract
    queue, the representation of a queue by the unread window of a ring, and
    the proof that the senders and receivers of [Ring.v] are its operations. *)

From S2P Require Import Prelude Mem Ring RingFacts.

(** ** The abstract queue *)

(** A packet as the ring stores it: the descriptor and everything that
    follows it up to the trailing indices. *)
Record packet := {
  p_desc : VmPacketDescriptor;
  p_body : list byte;
}.

Definition packet_bytes (p : packet) : list byte := desc_bytes (p_desc p) ++ p_body p.

(** Bytes a packet takes in the ring, with its 8 bytes of trailing indices. *)
Definition slot_size (p : packet) : Z := 24 + zlen (p_body p).

Definition fifo_used (q : list packet) : Z := foldr (fun p n => slot_size p + n) 0 q.

(** One byte always stays free, so that a full ring and an empty one have
    different indices. *)
Definition fifo_send (capacity : Z) (q : list packet) (p : packet)
  : result unit RingError * list packet :=
  if capacity - fifo_used q <=? slot_size p then (Err Full, q) else (Ok tt, q ++ [p]).

Definition desc_wf (d : VmPacketDescriptor) : Prop :=
  0 <= packet_type d < U16 /\ 0 <= offset8 d < U16 /\ 0 <= len8 d < U16 /\
  0 <= flags d < U16 /\ 0 <= transaction_id d < U64.

Definition packet_wf (p : packet) : Prop :=
  desc_wf (p_desc p) /\ len8 (p_desc p) * 8 = 16 + zlen (p_body p).

(** The padding of a payload that follows a header of [h] bytes. *)
Definition padded (h : Z) (payload : list byte) : list byte :=
  payload ++ replicate (Z.to_nat ((h + zlen payload + 7) / 8 * 8 - h - zlen payload)) Byte.x00.

(** The packets the three senders build. *)
Definition data_packet (ty fl tid : Z) (payload : list byte) : packet :=
  let body := padded 16 payload in
  {| p_desc := {| packet_type := ty; offset8 := 2; len8 := (16 + zlen body) / 8;
                  flags := fl; transaction_id := tid |};
     p_body := body |}.

Definition gpa_packet (pfn off len tid fl : Z) (user_data : list byte) : packet :=
  let body := le_split 4 0 ++ le_split 4 1 ++ le_split 4 off ++ le_split 4 len ++
              le_split 8 pfn ++ padded 40 user_data in
  {| p_desc := {| packet_type := VM_PKT_DATA_USING_GPA_DIRECT; offset8 := 5;
                  len8 := (16 + zlen body) / 8; flags := fl; transaction_id := tid |};
     p_body := body |}.

(** ** Representation *)

(** The bytes of a queue: each packet followed by 8 bytes of indices. *)
Inductive slots : list packet -> list byte -> Prop :=
| slots_nil : slots [] []
| slots_cons p trailer q bs :
    packet_wf p -> length trailer = 8%nat -> slots q bs ->
    slots (p :: q) (packet_bytes p ++ trailer ++ bs).

Definition ring_repr (m : mem) (r : RingHalf) (q : list packet) : Prop :=
  ring_ok m r /\
  slots q (window m r (read_index m r) (Z.to_nat (used m r))).

(** Nothing outside the ring's region changed. *)
Definition frame (r : RingHalf) (m m' : mem) : Prop :=
  forall x, x < base r \/ base r + 4096 + data_size r <= x -> load_byte m' x = load_byte m x.

(** Two blocks of memory do not overlap; the block of a ring. *)
Definition disjoint (a n b k : Z) : Prop := a + n <= b \/ b + k <= a.

Definition ring_span (r : RingHalf) : Z := 4096 + data_size r.

(** A represented queue only depends on the ring's region. *)
Lemma ring_repr_ext m m' r q :
  (forall x, base r <= x < base r + 4096 + data_size r -> load_byte m' x = load_byte m x) ->
  ring_repr m r q -> ring_repr m' r q.
Proof.
  intros Hx [Hok Hq]. pose proof (proj1 Hok) as (Hb & Hds & _).
  assert (Hw : write_index m' r = write_index m r).
  { unfold write_index, load_u32. f_equal. apply load_bytes_ext. intros. apply Hx. lia. }
  assert (Hr : read_index m' r = read_index m r).
  { unfold read_index, load_u32. f_equal. apply load_bytes_ext. intros. apply Hx. lia. }
  split; [unfold ring_ok in *; by rewrite Hw, Hr|]. unfold used in *. rewrite Hw, Hr.
  assert (forall o n, window m' r o n = window m r o n) as ->; [|done].
  intros o n. apply list_fmap_ext. intros i k _. unfold ring_byte. apply Hx.
  pose proof (Z.mod_pos_bound (o + Z.of_nat k) (data_size r)). lia.
Qed.

Lemma ring_repr_store m r q a bs :
  disjoint a (zlen bs) (base r) (ring_span r) -> ring_repr m r q ->
  ring_repr (store_bytes m a bs) r q.
Proof.
  unfold disjoint, ring_span. intros Hd. apply ring_repr_ext. intros x Hx.
  apply load_byte_store_ne. lia.
Qed.

Lemma ring_repr_frame m m' r r' q :
  frame r m m' -> disjoint (base r) (ring_span r) (base r') (ring_span r') ->
  ring_repr m r' q -> ring_repr m' r' q.
Proof.
  unfold disjoint, ring_span. intros Hf Hd. apply ring_repr_ext. intros x Hx. apply Hf. lia.
Qed.

(** ** Descriptors *)

Lemma length_desc_bytes d : length (desc_bytes d) = 16%nat.
Proof. unfold desc_bytes. by rewrite !length_app, !length_le_split. Qed.

Lemma zlen_desc_bytes d : zlen (desc_bytes d) = 16.
Proof. unfold zlen. by rewrite length_desc_bytes. Qed.

Lemma zlen_packet_bytes p : zlen (packet_bytes p) = 16 + zlen (p_body p).
Proof. unfold packet_bytes. by rewrite zlen_app, zlen_desc_bytes. Qed.

Lemma desc_roundtrip d rest :
  desc_wf d -> desc_of_bytes (desc_bytes d ++ rest) = d.
Proof.
  intros (?&?&?&?&?). destruct d as [t o l f x]; cbn in * |-.
  unfold desc_of_bytes, desc_bytes.
  cbn [packet_type offset8 len8 flags transaction_id]. rewrite <- !app_assoc.
  f_equal.
  - by apply le_at_head.
  - rewrite (le_at_skip 2 2 0) by apply length_le_split. by apply le_at_head.
  - rewrite (le_at_skip 2 2 2), (le_at_skip 2 2 0) by apply length_le_split.
    by apply le_at_head.
  - rewrite (le_at_skip 2 2 4), (le_at_skip 2 2 2), (le_at_skip 2 2 0)
      by apply length_le_split. by apply le_at_head.
  - rewrite (le_at_skip 8 2 6), (le_at_skip 8 2 4), (le_at_skip 8 2 2),
      (le_at_skip 8 2 0) by apply length_le_split. by apply le_at_head.
Qed.

(** ** Closed forms of the senders *)

Section senders.
Context (r : RingHalf) (Hgeo : ring_geometry r).

Local Abbreviation ds := (data_size r).

Lemma align8_ok n : 0 <= n -> n + 7 < U64 -> align8 n = Ret ((n + 7) / 8 * 8).
Proof.
  intros. unfold align8. rewrite uadd_ok by done. simpl.
  change 7 with (2 ^ 3 - 1) at 2. by rewrite land_not_low by lia.
Qed.

Lemma send_avail_ok m :
  ring_ok m r ->
  send_avail r (write_index m r) (read_index m r) = Ret (ds - used m r).
Proof.
  intros (_&Hw&Hr). pose proof (index_range r m) as [? ?].
  unfold send_avail, used. rewrite sub_mod_cases by (done || lia).
  case_match; [rewrite usub_ok by lia; simpl|]; rewrite usub_ok by lia;
    f_equal; lia.
Qed.

(** A copy that continues where the previous one stopped. *)
Lemma copy_to_app m w img s :
  zlen img + zlen s <= ds ->
  copy_to r ((w + zlen img) mod ds) s (ring_store m r w img) =
  Ret ((w + zlen (img ++ s)) mod ds, ring_store m r w (img ++ s)).
Proof.
  intros H. pose proof (zlen_nonneg img). rewrite copy_to_ok by (done || lia).
  rewrite ring_store_mod, ring_store_app by (done || lia).
  by rewrite Zplus_mod_idemp_l, zlen_app, Z.add_assoc.
Qed.

Lemma copy_to_start m w s :
  zlen s <= ds ->
  copy_to r w s m = Ret ((w + zlen s) mod ds, ring_store m r w s).
Proof. by apply copy_to_ok. Qed.

Lemma copy_to_opt m w img s :
  zlen img + zlen s <= ds ->
  (if bool_decide (s = []) then mret ((w + zlen img) mod ds)
   else copy_to r ((w + zlen img) mod ds) s) (ring_store m r w img) =
  Ret ((w + zlen (img ++ s)) mod ds, ring_store m r w (img ++ s)).
Proof.
  intros H. case_bool_decide; [subst; by rewrite app_nil_r|].
  by apply copy_to_app.
Qed.

Lemma finish_packet_ok m w rd img pad :
  0 <= w < U32 -> 0 <= pad < 8 -> zlen img + pad + 8 < ds ->
  finish_packet r ((w + zlen img) mod ds) pad w rd (zlen img + pad + 8)
    (ring_store m r w img) =
  Ret (tt, store_u32
    (ring_store m r w
      ((img ++ replicate (Z.to_nat pad) Byte.x00) ++
       le_split 8 (Z.lor (Z.shiftl w 32 mod U64) rd)))
    (base r) ((w + (zlen img + pad + 8)) mod ds)).
Proof.
  intros Hw Hpad Hlen. pose proof Hgeo as (?&?&?). pose proof (zlen_nonneg img).
  unfold finish_packet.
  assert (Hz : (if 0 <? pad
     then zeros ← lift (slice (replicate 8 Byte.x00) 0 pad);
          copy_to r ((w + zlen img) mod ds) zeros
     else mret ((w + zlen img) mod ds)) (ring_store m r w img) =
     Ret ((w + zlen (img ++ replicate (Z.to_nat pad) Byte.x00)) mod ds,
          ring_store m r w (img ++ replicate (Z.to_nat pad) Byte.x00))).
  { case_match.
    - mstep. rewrite drop_0, take_replicate.
      replace (_ `min` 8)%nat with (Z.to_nat pad) by lia.
      apply copy_to_app. solve_bounds.
    - replace (Z.to_nat pad) with 0%nat by lia. by rewrite app_nil_r. }
  mrun Hz. mrun copy_to_app; [solve_bounds|]. do 2 mstep.
  unfold set_write_index, modify, as_u32. do 3 f_equal.
  pose proof (ds_mod r Hgeo (w + (zlen img + pad + 8))). apply Z.mod_small. lia.
Qed.

(** The memory after a send: the image at the write index, the trailing
    indices, and the advanced write index. *)
Definition sent (m : mem) (p : packet) : mem :=
  let w := write_index m r in
  store_u32
    (ring_store m r w (packet_bytes p ++
       le_split 8 (Z.lor (Z.shiftl w 32 mod U64) (read_index m r))))
    (base r) ((w + slot_size p) mod ds).

Lemma padded_len h payload :
  zlen (padded h payload) = (h + zlen payload + 7) / 8 * 8 - h.
Proof.
  unfold padded. rewrite zlen_app, zlen_replicate. pose proof (zlen_nonneg payload).
  pose proof (Z_div_mod_eq_full (h + zlen payload + 7) 8).
  pose proof (Z.mod_pos_bound (h + zlen payload + 7) 8). lia.
Qed.

(** [finish_packet] completes an image that lacks only its padding. *)
Lemma finish_sent m p img pad :
  packet_bytes p = img ++ replicate (Z.to_nat pad) Byte.x00 ->
  0 <= pad < 8 -> slot_size p < ds ->
  finish_packet r ((write_index m r + zlen img) mod ds) pad
    (write_index m r) (read_index m r) (slot_size p)
    (ring_store m r (write_index m r) img) = Ret (tt, sent m p).
Proof.
  intros Himg Hpad Hlt. pose proof (index_range r m) as [? _].
  assert (Hsz : slot_size p = zlen img + pad + 8).
  { pose proof (zlen_packet_bytes p) as Hl. rewrite Himg in Hl.
    autorewrite with zlen in Hl. unfold slot_size. lia. }
  unfold sent. rewrite Hsz, Himg in *. by apply finish_packet_ok.
Qed.

(** The rounding the senders use. *)
Lemma round8 n : 0 <= n -> n <= (n + 7) / 8 * 8 < n + 8.
Proof.
  intros. pose proof (Z_div_mod_eq_full (n + 7) 8).
  pose proof (Z.mod_pos_bound (n + 7) 8). lia.
Qed.

Lemma used_range m : 0 <= used m r < ds.
Proof. by apply ds_mod. Qed.

Lemma div8 n k : n = k * 8 -> n / 8 = k.
Proof. intros ->. by apply Z.div_mul. Qed.

Lemma as_u16_small n : 0 <= n < U16 -> as_u16 n = n.
Proof. apply Z.mod_small. Qed.

Lemma packet_bytes_padded d h hdr payload :
  packet_bytes {| p_desc := d; p_body := hdr ++ padded h payload |} =
  (desc_bytes d ++ hdr ++ payload) ++
  replicate (Z.to_nat ((h + zlen payload + 7) / 8 * 8 - h - zlen payload)) Byte.x00.
Proof. unfold packet_bytes, padded. simpl. by rewrite <- !app_assoc. Qed.

Ltac sender_prologue Hok :=
  mstep;
  (etrans; [apply bind_lift, align8_ok; solve_bounds|]); cbv beta;
  mstep; unfold read_write_index; mstep; (mrun read_read_index_ok; [done|]);
  (etrans; [apply bind_lift, send_avail_ok, Hok|]); cbv beta.

Lemma send_packet_closed m payload tid fl :
  ring_ok m r -> zlen payload < 2 ^ 63 -> ds <= 2 ^ 19 ->
  let p := data_packet VM_PKT_DATA_INBAND fl tid payload in
  send_packet r payload tid fl m =
  if ds - used m r <=? slot_size p then Ret (Err Full, m) else Ret (Ok tt, sent m p).
Proof.
  intros Hok Hlen Hds p. pose proof Hgeo as (?&?&?).
  pose proof (zlen_nonneg payload).
  pose proof (padded_len 16 payload) as Hpad.
  pose proof (round8 (16 + zlen payload)) as Hr8.
  unfold send_packet. sender_prologue Hok.
  set (k := (16 + zlen payload + 7) / 8) in *.
  assert (Hsz : slot_size p = k * 8 + 8) by (unfold slot_size; simpl; lia).
  rewrite <- Hsz. case_match eqn:Hc; [done|].
  pose proof (used_range m) as Hu.
  rewrite Z.div_mul, (as_u16_small k) by (unfold U16; lia).
  mrun copy_to_start; [rewrite zlen_desc_bytes; lia|].
  mrun copy_to_opt; [rewrite zlen_desc_bytes; lia|].
  do 2 mstep. mrun finish_sent; [|lia..|done].
  etrans; [apply (packet_bytes_padded _ 16 [])|]. fold k.
  by rewrite (div8 _ k) by lia.
Qed.

Lemma send_comp_closed m payload tid :
  ring_ok m r -> zlen payload < 2 ^ 63 -> ds <= 2 ^ 19 ->
  let p := data_packet VM_PKT_COMP 0 tid payload in
  send_comp r payload tid m =
  if ds - used m r <=? slot_size p then Ret (Err Full, m) else Ret (Ok tt, sent m p).
Proof.
  intros Hok Hlen Hds p. pose proof Hgeo as (?&?&?).
  pose proof (zlen_nonneg payload).
  pose proof (padded_len 16 payload) as Hpad.
  pose proof (round8 (16 + zlen payload)) as Hr8.
  unfold send_comp. sender_prologue Hok.
  set (k := (16 + zlen payload + 7) / 8) in *.
  assert (Hsz : slot_size p = k * 8 + 8) by (unfold slot_size; simpl; lia).
  rewrite <- Hsz. case_match eqn:Hc; [done|].
  pose proof (used_range m) as Hu.
  rewrite Z.div_mul, (as_u16_small k) by (unfold U16; lia).
  mrun copy_to_start; [rewrite zlen_desc_bytes; lia|].
  mrun copy_to_opt; [rewrite zlen_desc_bytes; lia|].
  do 2 mstep. mrun finish_sent; [|lia..|done].
  etrans; [apply (packet_bytes_padded _ 16 [])|]. fold k.
  by rewrite (div8 _ k) by lia.
Qed.

Lemma send_packet_with_page_buffer_closed m user_data pfn off len tid fl :
  ring_ok m r -> zlen user_data < 2 ^ 63 -> ds <= 2 ^ 19 ->
  let p := gpa_packet pfn off len tid fl user_data in
  send_packet_with_page_buffer r user_data pfn off len tid fl m =
  if ds - used m r <=? slot_size p then Ret (Err Full, m) else Ret (Ok tt, sent m p).
Proof.
  intros Hok Hlen Hds p. pose proof Hgeo as (?&?&?).
  pose proof (zlen_nonneg user_data).
  pose proof (padded_len 40 user_data) as Hpad.
  pose proof (round8 (40 + zlen user_data)) as Hr8.
  unfold send_packet_with_page_buffer. change (16 + 4 + 4 + 16) with 40.
  sender_prologue Hok.
  set (k := (40 + zlen user_data + 7) / 8) in *.
  assert (Hsz : slot_size p = k * 8 + 8).
  { unfold slot_size, p, gpa_packet. cbn [p_body]. autorewrite with zlen. lia. }
  rewrite <- Hsz. case_match eqn:Hc; [done|].
  pose proof (used_range m) as Hu.
  rewrite Z.div_mul, (as_u16_small k) by (unfold U16; lia).
  mrun copy_to_start; [rewrite zlen_desc_bytes; lia|].
  do 5 (mrun copy_to_app; [rewrite ?zlen_app, ?zlen_desc_bytes, ?zlen_le_split; lia|]).
  mrun copy_to_opt; [rewrite ?zlen_app, ?zlen_desc_bytes, ?zlen_le_split; lia|].
  do 2 mstep. mrun finish_sent; [|lia..|done].
  unfold p, gpa_packet, packet_bytes. cbn [p_desc p_body].
  rewrite (div8 _ k) by (autorewrite with zlen; lia).
  unfold padded. by rewrite <- !app_assoc.
Qed.
End senders.

(** ** Queue operations on the representation *)

Lemma slots_used q bs : slots q bs -> zlen bs = fifo_used q.
Proof.
  induction 1 as [|p tr q bs Hp Htr _ IH]; [done|].
  rewrite !zlen_app, IH, zlen_packet_bytes.
  change (fifo_used (p :: q)) with (slot_size p + fifo_used q).
  unfold slot_size, zlen. lia.
Qed.

Lemma slots_snoc q bs p tr :
  slots q bs -> packet_wf p -> length tr = 8%nat ->
  slots (q ++ [p]) (bs ++ packet_bytes p ++ tr).
Proof.
  intros Hq Hp Htr. induction Hq as [|p' tr' q bs Hp' Htr' _ IH]; simpl.
  - rewrite <- (app_nil_r tr). apply slots_cons; [done..|]. constructor.
  - rewrite <- !app_assoc. by apply slots_cons.
Qed.

Lemma ring_repr_used m r q : ring_repr m r q -> used m r = fifo_used q.
Proof.
  intros [Hok Hq]. rewrite <- (slots_used _ _ Hq). unfold zlen.
  rewrite length_window. pose proof (used_range r (proj1 Hok) m). lia.
Qed.

Section queue.
Context (r : RingHalf) (Hgeo : ring_geometry r).

Local Abbreviation ds := (data_size r).

Lemma read_index_set_write m v :
  read_index (store_u32 m (base r) v) r = read_index m r.
Proof. apply load_u32_store_ne. lia. Qed.

Lemma write_index_set_read m v :
  write_index (store_u32 m (base r + 4) v) r = write_index m r.
Proof. apply load_u32_store_ne. lia. Qed.

Lemma write_index_set_write m v :
  write_index (store_u32 m (base r) (v mod ds)) r = v mod ds.
Proof.
  unfold write_index. rewrite load_u32_store_eq. apply Z.mod_small.
  pose proof (ds_mod r Hgeo v). destruct Hgeo as (?&?&?). lia.
Qed.

Lemma read_index_set_read m v :
  read_index (store_u32 m (base r + 4) (v mod ds)) r = v mod ds.
Proof.
  unfold read_index. rewrite load_u32_store_eq. apply Z.mod_small.
  pose proof (ds_mod r Hgeo v). destruct Hgeo as (?&?&?). lia.
Qed.

Lemma sent_indices m p :
  slot_size p <= ds ->
  write_index (sent r m p) r = (write_index m r + slot_size p) mod ds /\
  read_index (sent r m p) r = read_index m r.
Proof.
  intros H. unfold sent. rewrite write_index_set_write, read_index_set_write.
  rewrite read_index_ring_store; [done..|].
  rewrite zlen_app, zlen_packet_bytes, zlen_le_split. unfold slot_size in *. lia.
Qed.

(** Sending appends to the represented queue. *)
Lemma sent_repr m q p :
  ring_repr m r q -> packet_wf p -> slot_size p < ds - used m r ->
  ring_repr (sent r m p) r (q ++ [p]).
Proof.
  intros [Hok Hq] Hp Hlt. pose proof (used_range r Hgeo m) as Hu.
  pose proof (zlen_nonneg (p_body p)) as Hb.
  assert (Hsz : 0 <= slot_size p < ds) by (unfold slot_size in *; lia).
  destruct (sent_indices m p) as [Hw Hr]; [lia|].
  assert (Hused : used (sent r m p) r = used m r + slot_size p).
  { unfold used. rewrite Hw, Hr, Zminus_mod_idemp_l.
    replace (write_index m r + slot_size p - read_index m r) with
      (write_index m r - read_index m r + slot_size p) by lia.
    rewrite <- Zplus_mod_idemp_l. apply Z.mod_small. fold (used m r). lia. }
  split.
  { split; [done|]. rewrite Hw, Hr. split; [by apply ds_mod|apply Hok]. }
  rewrite Hused, Hr, Z2Nat.inj_add by lia. rewrite window_app.
  set (tr := le_split 8 (Z.lor (Z.shiftl (write_index m r) 32 mod U64) (read_index m r))).
  assert (Himg : zlen (packet_bytes p ++ tr) = slot_size p).
  { unfold tr. rewrite zlen_app, zlen_packet_bytes, zlen_le_split. unfold slot_size. lia. }
  assert (Hwr : ring_store m r (write_index m r) (packet_bytes p ++ tr) =
    ring_store m r (read_index m r + Z.of_nat (Z.to_nat (used m r))) (packet_bytes p ++ tr)).
  { rewrite <- (ring_store_mod r m (write_index m r)),
      <- (ring_store_mod r m (read_index m r + _)).
    f_equal. rewrite Z2Nat.id by lia. unfold used. rewrite Zplus_mod_idemp_r.
    f_equal. lia. }
  unfold sent. fold tr. rewrite !window_store_u32 by (done || lia).
  rewrite Hwr. rewrite window_store_before by (done || lia).
  replace (Z.to_nat (slot_size p)) with (length (packet_bytes p ++ tr))
    by (unfold zlen in *; lia).
  rewrite window_store_eq by (done || lia).
  apply slots_snoc; [done..|]. apply length_le_split.
Qed.

(** The memory after a packet was consumed. *)
Definition consumed (m : mem) (n : Z) : mem :=
  store_u32 m (base r + 4) ((read_index m r + n) mod ds).

Lemma slots_cons_inv p q l :
  slots (p :: q) l ->
  exists tr bs, l = packet_bytes p ++ tr ++ bs /\ packet_wf p /\
                length tr = 8%nat /\ slots q bs.
Proof. inversion 1; subst. do 2 eexists. by split_and!. Qed.

Lemma fifo_used_nonneg q : 0 <= fifo_used q.
Proof.
  induction q as [|p q IH]; [done|].
  change (fifo_used (p :: q)) with (slot_size p + fifo_used q).
  unfold slot_size. pose proof (zlen_nonneg (p_body p)). lia.
Qed.

(** The head of the represented queue, in memory. *)
Lemma repr_cons m p q :
  ring_repr m r (p :: q) ->
  packet_wf p /\ used m r = slot_size p + fifo_used q /\
  slots q (window m r (read_index m r + slot_size p) (Z.to_nat (fifo_used q))) /\
  exists tr, length tr = 8%nat /\
    window m r (read_index m r) (Z.to_nat (slot_size p)) = packet_bytes p ++ tr.
Proof.
  intros Hrepr. pose proof (ring_repr_used _ _ _ Hrepr) as Hu.
  change (fifo_used (p :: q)) with (slot_size p + fifo_used q) in Hu.
  destruct Hrepr as [_ Hq]. rewrite Hu in Hq.
  pose proof (fifo_used_nonneg q). pose proof (zlen_nonneg (p_body p)).
  assert (0 <= slot_size p) by (unfold slot_size; lia).
  rewrite Z2Nat.inj_add, window_app in Hq by lia.
  apply slots_cons_inv in Hq as (tr & bs & Heq & Hp & Htr & Hbs).
  rewrite app_assoc in Heq. apply app_inj_1 in Heq as [Hw1 Hw2].
  2: { rewrite length_window, length_app, Htr. pose proof (zlen_packet_bytes p).
       unfold slot_size, zlen in *. lia. }
  rewrite Z2Nat.id in Hw2 by lia. rewrite Hw2. eauto 10.
Qed.

(** Consuming the head packet drops it from the represented queue. *)
Lemma consumed_repr m q p :
  ring_repr m r (p :: q) -> ring_repr (consumed m (slot_size p)) r q.
Proof.
  intros Hrepr. pose proof (repr_cons _ _ _ Hrepr) as (Hp & Hu & Hq & _).
  destruct Hrepr as [Hok _]. pose proof (used_range r Hgeo m).
  pose proof (fifo_used_nonneg q). pose proof (zlen_nonneg (p_body p)).
  assert (Hused : used (consumed m (slot_size p)) r = fifo_used q).
  { unfold used, consumed. rewrite write_index_set_read, read_index_set_read.
    rewrite Zminus_mod_idemp_r, Z.sub_add_distr, <- Zminus_mod_idemp_l.
    fold (used m r). rewrite Hu. unfold slot_size in *.
    rewrite Z.mod_small by lia. lia. }
  split.
  { split; [done|]. unfold consumed. rewrite write_index_set_read, read_index_set_read.
    split; [apply Hok|by apply ds_mod]. }
  rewrite Hused. unfold consumed at 2. rewrite read_index_set_read, window_mod.
  unfold consumed. by rewrite window_store_u32 by (done || lia).
Qed.

(** ** Closed forms of the receivers *)

Lemma recv_avail_ok m :
  ring_ok m r ->
  recv_avail r (write_index m r) (read_index m r) = Ret (used m r).
Proof.
  intros (_&Hw&Hr). pose proof (index_range r m) as [? ?].
  unfold recv_avail, used. rewrite sub_mod_cases by (done || lia).
  case_match; [by rewrite usub_ok by lia|].
  rewrite usub_ok by lia; simpl. rewrite usub_ok by lia. f_equal. lia.
Qed.

(** The descriptor at the read index. *)
Definition head_desc (m : mem) : VmPacketDescriptor :=
  desc_of_bytes (window m r (read_index m r) 16).

(** What the receivers check before they consume a packet. *)
Definition head_valid (m : mem) : bool :=
  (16 <=? used m r) && (16 <=? len8 (head_desc m) * 8) &&
  (len8 (head_desc m) * 8 + 8 <=? used m r).

Lemma head_desc_range m :
  0 <= len8 (head_desc m) < U16 /\ 0 <= offset8 (head_desc m) < U16.
Proof. split; apply le_at_bound. Qed.

Ltac recv_prologue Hok :=
  unfold read_write_index; mstep; (mrun read_read_index_ok; [done|]);
  (etrans; [apply bind_lift, recv_avail_ok, Hok|]); cbv beta.

Lemma zlen_window m o n : zlen (window m r o n) = Z.of_nat n.
Proof. unfold zlen. by rewrite length_window. Qed.

(** Copying [n] bytes out into the caller's buffer. *)
Lemma copy_out m o n buf :
  n <= ds ->
  (if 0 <? n
   then '(bs, _) ← copy_from r (o mod ds) n; mret (overwrite buf bs)
   else mret buf) m =
  Ret (overwrite buf (window m r o (Z.to_nat n)), m).
Proof.
  intros. destruct (Z.ltb_spec 0 n).
  - mrun copy_from_ok; [done|lia|]. by rewrite window_mod.
  - by replace (Z.to_nat n) with 0%nat by lia.
Qed.

(** Skipping the bytes between the descriptor and the payload. *)
Lemma skip_ok m o off :
  off <= 80 -> off <= ds ->
  (if 16 <? off
   then skip_len ← lift (usub off 16);
        skip ← lift (slice (replicate 64 Byte.x00) 0 skip_len);
        '(_, p) ← copy_from r ((o + 16) mod ds) (zlen skip);
        mret p
   else mret ((o + 16) mod ds)) m =
  Ret ((o + Z.max 16 off) mod ds, m).
Proof.
  intros. destruct (Z.ltb_spec 16 off).
  - do 2 mstep. rewrite drop_0, take_replicate, zlen_replicate.
    mrun copy_from_ok; [done|lia|]. cbv iota. unfold mret, M_ret.
    rewrite Zplus_mod_idemp_l. do 3 f_equal. lia.
  - by rewrite Z.max_l by lia.
Qed.

Lemma as_u32_ds x : as_u32 (x mod ds) = x mod ds.
Proof.
  pose proof (ds_mod r Hgeo x). destruct Hgeo as (?&?&?).
  apply Z.mod_small. lia.
Qed.

Lemma recv_packet_raw_closed m buf :
  ring_ok m r ->
  recv_packet_raw r buf m =
  if used m r =? 0 then Ret ((Ok None, buf), m) else
  if negb (head_valid m) then Ret ((Err Corrupt, buf), m) else
  let n := len8 (head_desc m) * 8 in
  let copy_len := Z.min (n - 16) (zlen buf) in
  Ret ((Ok (Some (head_desc m, copy_len)),
        overwrite buf (window m r (read_index m r + 16) (Z.to_nat copy_len))),
       consumed m (n + 8)).
Proof.
  intros Hok. pose proof Hgeo as (?&?&?). pose proof (used_range r Hgeo m).
  pose proof (head_desc_range m) as [? _]. pose proof (index_range r m) as [_ ?].
  pose proof (zlen_nonneg buf).
  unfold recv_packet_raw, head_valid. recv_prologue Hok.
  case_match; [done|].
  rewrite (Z.ltb_antisym 16). destruct (Z.leb_spec 16 (used m r)); [|done]. cbn [andb orb negb].
  mrun copy_from_ok; [done|lia|]. cbv iota. change (Z.to_nat 16) with 16%nat.
  fold (head_desc m). set (l := len8 (head_desc m)) in *.
  do 2 mstep. rewrite (Z.ltb_antisym 16), (Z.ltb_antisym _ (used m r)).
  destruct (Z.leb_spec 16 (l * 8)); [|done].
  destruct (Z.leb_spec (l * 8 + 8) (used m r)); [|done]. cbn [andb orb negb].
  mstep. set (n := Z.min _ (zlen buf)).
  mrun copy_out; [lia|]. do 2 mstep. rewrite as_u32_ds.
  mrun set_read_index_ok; [done|]. done.
Qed.

Lemma recv_packet_closed m buf :
  ring_ok m r ->
  recv_packet r buf m =
  if used m r =? 0 then Ret ((Ok None, buf), m) else
  if negb (head_valid m) then Ret ((Err Corrupt, buf), m) else
  let n := len8 (head_desc m) * 8 in
  let off := offset8 (head_desc m) * 8 in
  if n <? off then Ret ((Err Corrupt, buf), m) else
  if 80 <? off then Panic IndexOutOfBounds else
  let copy_len := Z.min (n - off) (zlen buf) in
  Ret ((Ok (Some (head_desc m, copy_len)),
        overwrite buf (window m r (read_index m r + Z.max 16 off) (Z.to_nat copy_len))),
       consumed m (n + 8)).
Proof.
  intros Hok. pose proof Hgeo as (?&?&?). pose proof (used_range r Hgeo m).
  pose proof (head_desc_range m) as [? ?]. pose proof (index_range r m) as [_ ?].
  pose proof (zlen_nonneg buf).
  unfold recv_packet, head_valid. recv_prologue Hok.
  case_match; [done|].
  rewrite (Z.ltb_antisym 16). destruct (Z.leb_spec 16 (used m r)); [|done].
  cbn [andb orb negb].
  mrun copy_from_ok; [done|lia|]. cbv iota. change (Z.to_nat 16) with 16%nat.
  fold (head_desc m). set (l := len8 (head_desc m)) in *.
  set (o := offset8 (head_desc m)) in *.
  do 2 mstep. rewrite (Z.ltb_antisym 16), (Z.ltb_antisym _ (used m r)).
  destruct (Z.leb_spec 16 (l * 8)); [|done].
  destruct (Z.leb_spec (l * 8 + 8) (used m r)); [|done]. cbn [andb orb negb].
  mstep. destruct (Z.ltb_spec (l * 8) (o * 8)); [done|]. mstep.
  destruct (Z.ltb_spec 80 (o * 8)) as [Hbig|Hsmall].
  { rewrite (proj2 (Z.ltb_lt 16 (o * 8))) by lia. unfold mbind at 1, M_bind at 1.
    replace ((skip_len ← lift (usub (o * 8) 16); _) m) with (@Panic (Z * mem) IndexOutOfBounds);
      [done|].
    symmetry. mstep. by rewrite slice_oob by solve_bounds. }
  mrun skip_ok; [lia..|]. mrun copy_out; [lia|]. do 2 mstep. rewrite as_u32_ds.
  mrun set_read_index_ok; [done|]. done.
Qed.

Lemma sent_frame m p : slot_size p <= ds -> frame r m (sent r m p).
Proof.
  intros H x Hx. unfold sent. pose proof Hgeo as (?&?&?).
  rewrite load_byte_store_u32_ne by lia. apply load_byte_ring_store_ne; [done| |lia].
  rewrite zlen_app, zlen_packet_bytes, zlen_le_split. unfold slot_size in *. lia.
Qed.

Lemma consumed_frame m n : frame r m (consumed m n).
Proof.
  intros x Hx. pose proof Hgeo as (?&?&?). apply load_byte_store_u32_ne. lia.
Qed.

Lemma consumed_ok m n : ring_ok m r -> ring_ok (consumed m n) r.
Proof.
  intros (_&Hw&_). split; [done|]. unfold consumed.
  rewrite write_index_set_read, read_index_set_read. split; [done|by apply ds_mod].
Qed.

Lemma data_packet_wf ty fl tid payload :
  0 <= ty < U16 -> 0 <= fl < U16 -> 0 <= tid < U64 ->
  slot_size (data_packet ty fl tid payload) < 2 ^ 19 ->
  packet_wf (data_packet ty fl tid payload).
Proof.
  intros ??? Hsz. unfold slot_size in Hsz. simpl in Hsz.
  pose proof (zlen_nonneg payload). pose proof (round8 (16 + zlen payload)).
  pose proof (padded_len 16 payload) as Hp.
  assert (Hd : (16 + zlen (padded 16 payload)) / 8 = (16 + zlen payload + 7) / 8)
    by (apply div8; lia).
  unfold packet_wf, desc_wf. simpl. rewrite Hd. unfold U16 in *. lia.
Qed.

Lemma gpa_packet_wf pfn off len tid fl user_data :
  0 <= fl < U16 -> 0 <= tid < U64 ->
  slot_size (gpa_packet pfn off len tid fl user_data) < 2 ^ 19 ->
  packet_wf (gpa_packet pfn off len tid fl user_data).
Proof.
  intros ?? Hsz. unfold slot_size, gpa_packet in Hsz. cbn [p_body] in Hsz.
  pose proof (zlen_nonneg user_data). pose proof (round8 (40 + zlen user_data)).
  pose proof (padded_len 40 user_data) as Hp.
  unfold packet_wf, desc_wf, gpa_packet. cbn [p_body p_desc len8 offset8 packet_type flags transaction_id].
  autorewrite with zlen in *.
  rewrite (div8 _ ((40 + zlen user_data + 7) / 8)) by lia.
  unfold U16, VM_PKT_DATA_USING_GPA_DIRECT in *. lia.
Qed.

(** A send whose closed form is [sent] is the queue's [fifo_send]. *)
Lemma sent_refines m q p :
  ring_repr m r q -> ds <= 2 ^ 19 ->
  (slot_size p < 2 ^ 19 -> packet_wf p) ->
  exists m',
    (if ds - used m r <=? slot_size p then Ret (Err Full, m) else Ret (Ok tt, sent r m p)) =
    Ret ((fifo_send ds q p).1, m') /\
    ring_repr m' r (fifo_send ds q p).2 /\ frame r m m'.
Proof.
  intros Hrepr Hds Hwf. pose proof (used_range r Hgeo m).
  unfold fifo_send. rewrite <- (ring_repr_used _ _ _ Hrepr).
  case_match; simpl; eexists; split_and!; try done.
  - apply sent_repr; [done|apply Hwf; lia|lia].
  - apply sent_frame. lia.
Qed.
End queue.

(** Dequeuing, abstractly. *)
Definition fifo_recv (q : list packet) : option packet * list packet :=
  match q with
  | [] => (None, [])
  | p :: q' => (Some p, q')
  end.

(** ** The ring implements the queue *)

(** C1: [send_packet] on a ring that holds the packets [q] enqueues the
    in-band packet of the payload, padded to 8 bytes, behind them, or reports
    [Full] and changes nothing, exactly when the bounded queue does; it never
    panics, unread packets are never overwritten, and nothing outside the
    ring's region is written. *)
Theorem send_packet_refines r m q payload tid fl :
  ring_repr m r q -> data_size r <= 2 ^ 19 -> zlen payload < 2 ^ 63 ->
  0 <= tid < U64 -> 0 <= fl < U16 ->
  let p := data_packet VM_PKT_DATA_INBAND fl tid payload in
  exists m',
    send_packet r payload tid fl m = Ret ((fifo_send (data_size r) q p).1, m') /\
    ring_repr m' r (fifo_send (data_size r) q p).2 /\ frame r m m'.
Proof.
  intros Hrepr Hds Hlen Htid Hfl p. pose proof (proj1 (proj1 Hrepr)) as Hgeo.
  unfold p. rewrite send_packet_closed by (done || apply Hrepr).
  apply sent_refines; [done..|]. intros. by apply data_packet_wf.
Qed.


(** The head of a represented queue is what the receivers see. *)
Lemma repr_head r m p q :
  ring_repr m r (p :: q) ->
  head_desc r m = p_desc p /\ head_valid r m = true /\ used m r <> 0 /\
  len8 (p_desc p) * 8 + 8 = slot_size p /\
  (forall n, (n <= length (p_body p))%nat ->
     window m r (read_index m r + 16) n = take n (p_body p)).
Proof.
  intros Hrepr. pose proof (repr_cons r _ _ _ Hrepr) as ([Hd Hlen] & Hu & _ & tr & Htr & Hw).
  pose proof (fifo_used_nonneg q). pose proof (zlen_nonneg (p_body p)).
  unfold packet_bytes in Hw. rewrite <- app_assoc in Hw.
  assert (Hh : window m r (read_index m r) 16 = desc_bytes (p_desc p) /\
    window m r (read_index m r + 16) (Z.to_nat (slot_size p) - 16) = p_body p ++ tr).
  { replace (Z.to_nat (slot_size p)) with (16 + (Z.to_nat (slot_size p) - 16))%nat in Hw
      by (unfold slot_size; lia).
    rewrite window_app in Hw. apply app_inj_1 in Hw; [done|].
    by rewrite length_window, length_desc_bytes. }
  destruct Hh as [Hh1 Hh2].
  assert (Hdesc : head_desc r m = p_desc p).
  { unfold head_desc. rewrite Hh1, <- (app_nil_r (desc_bytes _)).
    by apply desc_roundtrip. }
  unfold slot_size in *. split_and!; [done| |lia..|].
  - unfold head_valid. rewrite Hdesc. rewrite !andb_true_iff, !Z.leb_le. lia.
  - intros n Hn. apply (f_equal (take n)) in Hh2.
    rewrite take_app_le in Hh2 by done. rewrite <- Hh2. unfold zlen in *.
    replace (Z.to_nat (24 + Z.of_nat (length (p_body p))) - 16)%nat
      with (n + (8 + length (p_body p) - n))%nat by lia.
    rewrite window_app, take_app_length' by (by rewrite length_window). done.
Qed.

(** What [recv_packet_raw] returns for a packet, and the caller's buffer. *)
Definition raw_received (p : packet) (buf : list byte)
  : result (option (VmPacketDescriptor * Z)) RingError * list byte :=
  let n := Z.min (zlen (p_body p)) (zlen buf) in
  (Ok (Some (p_desc p, n)), overwrite buf (take (Z.to_nat n) (p_body p))).

Lemma recv_packet_raw_dequeue r m p q buf :
  ring_repr m r (p :: q) ->
  exists m', recv_packet_raw r buf m = Ret (raw_received p buf, m') /\
             ring_repr m' r q /\ frame r m m'.
Proof.
  intros Hrepr. pose proof (proj1 Hrepr) as Hok. pose proof (proj1 Hok) as Hgeo.
  rewrite recv_packet_raw_closed by done.
  destruct (repr_head _ _ _ _ Hrepr) as (Hd & -> & Hne & Hsz & Hw).
  rewrite (proj2 (Z.eqb_neq _ _)) by done. cbn [negb]. cbv zeta. rewrite Hd, Hsz.
  pose proof (repr_cons r _ _ _ Hrepr) as ([_ Hlen] & _).
  exists (consumed r m (slot_size p)).
  split_and!; [|by apply consumed_repr|by apply consumed_frame].
  unfold raw_received.
  replace (len8 (p_desc p) * 8 - 16) with (zlen (p_body p)) by lia.
  rewrite Hw by (unfold zlen; lia). done.
Qed.

Lemma recv_packet_raw_empty r m buf :
  ring_repr m r [] -> recv_packet_raw r buf m = Ret ((Ok None, buf), m).
Proof.
  intros Hrepr. pose proof (proj1 Hrepr) as Hok. pose proof (proj1 Hok) as Hgeo.
  rewrite recv_packet_raw_closed by done. by pose proof (ring_repr_used _ _ _ Hrepr) as ->.
Qed.

(** [recv_packet_raw] dequeues: on a ring that holds no packet it returns
    [None] and changes nothing; otherwise it returns the descriptor of the
    oldest packet, copies as much of its body as the buffer holds, and leaves
    the ring holding the remaining packets. *)
Theorem recv_packet_raw_refines r m q buf :
  ring_repr m r q ->
  exists m',
    recv_packet_raw r buf m =
      Ret (match (fifo_recv q).1 with
           | None => (Ok None, buf)
           | Some p => raw_received p buf
           end, m') /\
    ring_repr m' r (fifo_recv q).2 /\ frame r m m'.
Proof.
  intros Hrepr. destruct q as [|p q]; cbn [fifo_recv fst snd].
  - exists m. by rewrite recv_packet_raw_empty.
  - by apply recv_packet_raw_dequeue.
Qed.

(** A packet that announces its payload at an offset of 16 to 80 bytes. *)
Definition deliverable (p : packet) : Prop :=
  2 <= offset8 (p_desc p) <= 10 /\ offset8 (p_desc p) <= len8 (p_desc p).

Definition payload_of (p : packet) : list byte :=
  drop (Z.to_nat (offset8 (p_desc p) * 8 - 16)) (p_body p).

(** What [recv_packet] returns for a packet, and the caller's buffer. *)
Definition received (p : packet) (buf : list byte)
  : result (option (VmPacketDescriptor * Z)) RingError * list byte :=
  let n := Z.min (zlen (payload_of p)) (zlen buf) in
  (Ok (Some (p_desc p, n)), overwrite buf (take (Z.to_nat n) (payload_of p))).

Lemma recv_packet_dequeue r m p q buf :
  ring_repr m r (p :: q) -> deliverable p ->
  exists m', recv_packet r buf m = Ret (received p buf, m') /\
             ring_repr m' r q /\ frame r m m'.
Proof.
  intros Hrepr [Ho Hol]. unfold received.
  set (payload := payload_of p). set (n := Z.min (zlen payload) (zlen buf)). pose proof (proj1 Hrepr) as Hok.
  pose proof (proj1 Hok) as Hgeo. rewrite recv_packet_closed by done.
  destruct (repr_head _ _ _ _ Hrepr) as (Hd & -> & Hne & Hsz & Hw).
  rewrite (proj2 (Z.eqb_neq _ _)) by done. cbn [negb]. cbv zeta. rewrite Hd, Hsz.
  pose proof (repr_cons r _ _ _ Hrepr) as ([_ Hlen] & _).
  rewrite (proj2 (Z.ltb_ge (len8 _ * 8) _)), (proj2 (Z.ltb_ge 80 _)) by lia.
  exists (consumed r m (slot_size p)).
  split_and!; [|by apply consumed_repr|by apply consumed_frame].
  set (o := offset8 (p_desc p)) in *.
  assert (Hn : Z.min (len8 (p_desc p) * 8 - o * 8) (zlen buf) = n).
  { unfold n, payload, payload_of, zlen in *. rewrite length_drop. lia. }
  rewrite Hn, Z.max_r by lia. do 4 f_equal.
  pose proof (zlen_nonneg buf). pose proof (zlen_nonneg payload).
  assert (n <= zlen (p_body p) - (o * 8 - 16)).
  { unfold n, payload, payload_of, zlen in *. rewrite length_drop. lia. }
  specialize (Hw (Z.to_nat (o * 8 - 16) + Z.to_nat n)%nat).
  rewrite window_app in Hw. unfold payload, payload_of.
  apply (f_equal (drop (Z.to_nat (o * 8 - 16)))) in Hw;
    [|unfold zlen in *; lia].
  rewrite drop_app_length' in Hw by (by rewrite length_window).
  rewrite skipn_firstn_comm, Nat.add_sub_swap, Nat.sub_diag in Hw by lia.
  simpl in Hw. fold o. rewrite <- Hw. f_equal. lia.
Qed.

Lemma recv_packet_empty r m buf :
  ring_repr m r [] -> recv_packet r buf m = Ret ((Ok None, buf), m).
Proof.
  intros Hrepr. pose proof (proj1 Hrepr) as Hok. pose proof (proj1 Hok) as Hgeo.
  rewrite recv_packet_closed by done. by pose proof (ring_repr_used _ _ _ Hrepr) as ->.
Qed.


(** Whatever the host leaves in the data area and the descriptor, a
    receive on a ring whose indices are in range returns: [recv_packet_raw]
    never panics, consumes a packet only after validating it, keeps the
    indices in range, and writes nothing but the read index. *)
Theorem recv_packet_raw_total r m buf :
  ring_ok m r ->
  exists res buf' m',
    recv_packet_raw r buf m = Ret ((res, buf'), m') /\ ring_ok m' r /\ frame r m m' /\
    zlen buf' = zlen buf /\
    (forall d n, res = Ok (Some (d, n)) ->
       0 <= n <= zlen buf /\ n <= len8 d * 8 - 16 /\
       used m' r = used m r - (len8 d * 8 + 8)) /\
    (res = Ok None \/ res = Err Corrupt -> m' = m /\ buf' = buf).
Proof.
  intros Hok. pose proof (proj1 Hok) as Hgeo. rewrite recv_packet_raw_closed by done.
  case_match; [by eexists _, _, _; split_and!|].
  case_match eqn:Hv; [by eexists _, _, _; split_and!|].
  eexists _, _, _; split_and!; [done|by apply consumed_ok|by apply consumed_frame|..].
  - pose proof (zlen_nonneg buf). unfold overwrite, zlen in *.
    rewrite length_app, length_drop, length_window. lia.
  - intros d n Heq. assert (Hd : head_desc r m = d) by congruence.
    assert (Hn : Z.min (len8 d * 8 - 16) (zlen buf) = n) by (subst d; congruence).
    apply negb_false_iff in Hv. unfold head_valid in Hv. rewrite Hd in *.
    rewrite !andb_true_iff, !Z.leb_le in Hv. pose proof (zlen_nonneg buf).
    split_and!; [lia..|]. unfold used at 1, consumed.
    rewrite write_index_set_read, read_index_set_read by done.
    rewrite Zminus_mod_idemp_r, Z.sub_add_distr, <- Zminus_mod_idemp_l.
    fold (used m r). pose proof (used_range r Hgeo m). apply Z.mod_small. lia.
  - intros [[=]|[=]].
Qed.

(** [RingHalf::new] on a zeroed region of whole pages returns a ring that
    represents the empty queue. *)
Theorem new_empty b total m :
  0 <= b -> 4096 < total -> total mod 4096 = 0 -> total - 4096 <= U32 ->
  b + total < U64 -> load_u32 m b = 0 -> load_u32 m (b + 4) = 0 ->
  exists r m',
    new b total m = Ret (r, m') /\ base r = b /\ data_size r = total - 4096 /\
    ring_repr m' r [].
Proof.
  intros Hb Ht Hmod Hds Hend Hw Hr.
  set (r := {| base := b; data_size := total - 4096 |}).
  exists r, (store_u32 m (b + 64) 1). split_and!; [|done..|].
  - unfold new, rassert. rewrite (proj2 (Z.ltb_lt _ _)), Hmod by done. simpl.
    etrans; [by apply bind_lift|]; cbv beta. do 3 mstep. done.
  - assert (Hw' : write_index (store_u32 m (b + 64) 1) r = 0).
    { unfold write_index. simpl. rewrite load_u32_store_ne; [done|lia]. }
    assert (Hr' : read_index (store_u32 m (b + 64) 1) r = 0).
    { unfold read_index. simpl. rewrite load_u32_store_ne; [done|lia]. }
    unfold ring_repr, ring_ok, ring_geometry, used. rewrite Hw', Hr'.
    simpl base. simpl data_size. rewrite Zmod_0_l.
    split; [lia|]. constructor.
Qed.

(** C4: what [send_packet] accepts, [recv_packet] gives back: on an empty
    ring, a payload that fits is delivered unchanged (with its padding to
    8 bytes), with the transaction id and flags it was sent with, and the
    ring is empty again. *)
Theorem send_recv_roundtrip r m payload tid fl buf :
  ring_repr m r [] -> data_size r <= 2 ^ 19 -> 0 <= tid < U64 -> 0 <= fl < U16 ->
  zlen (padded 16 payload) + 24 < data_size r ->
  zlen (padded 16 payload) <= zlen buf ->
  exists m1 m2 d buf',
    send_packet r payload tid fl m = Ret (Ok tt, m1) /\
    recv_packet r buf m1 = Ret ((Ok (Some (d, zlen (padded 16 payload))), buf'), m2) /\
    transaction_id d = tid /\ flags d = fl /\ packet_type d = VM_PKT_DATA_INBAND /\
    take (length payload) buf' = payload /\ ring_repr m2 r [].
Proof.
  intros Hrepr Hds Htid Hfl Hfit Hbuf.
  pose proof (proj1 Hrepr) as Hok. pose proof (proj1 Hok) as Hgeo.
  set (p := data_packet VM_PKT_DATA_INBAND fl tid payload).
  pose proof (zlen_nonneg payload). pose proof (zlen_nonneg (padded 16 payload)).
  assert (Hle : zlen payload <= zlen (padded 16 payload)).
  { unfold padded. rewrite zlen_app, zlen_replicate. lia. }
  assert (Hsz : slot_size p = 24 + zlen (padded 16 payload)) by done.
  assert (Hwf : packet_wf p) by (apply data_packet_wf; [done..|fold p; lia]).
  assert (Hu : used m r = 0) by apply (ring_repr_used _ _ _ Hrepr).
  assert (Hrepr1 : ring_repr (sent r m p) r ([] ++ [p])).
  { apply sent_repr; (done || lia). }
  pose proof (proj1 Hrepr1) as Hok1.
  destruct (repr_head _ _ _ _ Hrepr1) as (Hd & Hv & Hne & Hss & Hwin).
  exists (sent r m p), (consumed r (sent r m p) (slot_size p)), (p_desc p),
    (overwrite buf (padded 16 payload)).
  split_and!; [| |done..| |by apply consumed_repr].
  - rewrite send_packet_closed by (done || lia). fold p.
    by rewrite (proj2 (Z.leb_gt _ _)) by lia.
  - rewrite recv_packet_closed by done.
    rewrite (proj2 (Z.eqb_neq _ _)) by done. rewrite Hv, Hd. cbn [negb]. cbv zeta.
    rewrite Hss. change (offset8 (p_desc p)) with 2.
    rewrite (proj2 (Z.ltb_ge _ _)) by lia. cbn [Z.ltb Z.compare].
    change (80 <? 2 * 8) with false. cbv iota. rewrite Hsz in Hss.
    replace (Z.min _ (zlen buf)) with (zlen (padded 16 payload)) by lia.
    change (Z.max 16 (2 * 8)) with 16. rewrite Hwin by (simpl; unfold zlen; lia).
    simpl p_body. rewrite take_ge by (unfold zlen; lia). done.
  - unfold overwrite, padded. rewrite <- app_assoc. apply take_app_length.
Qed.

(** A descriptor whose payload offset is beyond 80 bytes makes [recv_packet]
    index its 64-byte skip buffer out of bounds. *)
Lemma recv_packet_offset_panics r m buf :
  ring_ok m r -> used m r <> 0 -> head_valid r m = true ->
  80 < offset8 (head_desc r m) * 8 <= len8 (head_desc r m) * 8 ->
  recv_packet r buf m = Panic IndexOutOfBounds.
Proof.
  intros Hok Hu Hv Ho. pose proof (proj1 Hok) as Hgeo. rewrite recv_packet_closed by done.
  rewrite (proj2 (Z.eqb_neq _ _)), Hv by done. cbn [negb]. cbv zeta.
  by rewrite (proj2 (Z.ltb_ge _ _)), (proj2 (Z.ltb_lt _ _)) by lia.
Qed.

(** ** Witnesses *)

Definition ring0 : RingHalf := {| base := 4096; data_size := 4096 |}.
Definition payload0 : list byte := [Byte.x01; Byte.x02; Byte.x03].
Definition packet0 : packet := data_packet VM_PKT_DATA_INBAND 1 77 payload0.

Lemma ring0_empty : ring_repr ∅ ring0 [].
Proof. split; [|constructor]. by repeat split. Qed.

Lemma packet0_wf : packet_wf packet0.
Proof. by apply data_packet_wf. Qed.

Lemma ring0_one : ring_repr (sent ring0 ∅ packet0) ring0 [packet0].
Proof. apply (sent_repr ring0) with (q := []); [done|apply ring0_empty|apply packet0_wf|done]. Qed.

Lemma send_packet_refines_witness :
  exists m', send_packet ring0 payload0 77 1 ∅ = Ret (Ok tt, m') /\
             ring_repr m' ring0 [packet0] /\ frame ring0 ∅ m'.
Proof.
  exact (send_packet_refines ring0 ∅ [] payload0 77 1 ring0_empty
    ltac:(done) ltac:(done) ltac:(done) ltac:(done)).
Defined.


Lemma recv_packet_raw_refines_witness :
  exists m', recv_packet_raw ring0 (replicate 4 Byte.xff) (sent ring0 ∅ packet0) =
               Ret ((Ok (Some (p_desc packet0, 4)),
                     [Byte.x01; Byte.x02; Byte.x03; Byte.x00]), m') /\
             ring_repr m' ring0 [] /\ frame ring0 (sent ring0 ∅ packet0) m'.
Proof.
  exact (recv_packet_raw_refines ring0 _ [packet0] (replicate 4 Byte.xff) ring0_one).
Defined.


Lemma recv_packet_raw_total_witness :
  exists res buf' m',
    recv_packet_raw ring0 [] (sent ring0 ∅ packet0) = Ret ((res, buf'), m') /\
    ring_ok m' ring0.
Proof.
  destruct (recv_packet_raw_total ring0 (sent ring0 ∅ packet0) [] (proj1 ring0_one))
    as (res & buf' & m' & H & Hok & _). exists res, buf', m'. split; [exact H|exact Hok].
Defined.

Lemma new_empty_witness :
  exists r m', new 4096 8192 ∅ = Ret (r, m') /\ base r = 4096 /\ data_size r = 4096 /\
               ring_repr m' r [].
Proof. apply (new_empty 4096 8192 ∅); by vm_compute. Defined.

Lemma send_recv_roundtrip_witness :
  exists m1 m2 d buf',
    send_packet ring0 payload0 77 1 ∅ = Ret (Ok tt, m1) /\
    recv_packet ring0 (replicate 8 Byte.xff) m1 = Ret ((Ok (Some (d, 8)), buf'), m2) /\
    transaction_id d = 77 /\ flags d = 1 /\ packet_type d = VM_PKT_DATA_INBAND /\
    take 3 buf' = payload0 /\ ring_repr m2 ring0 [].
Proof.
  exact (send_recv_roundtrip ring0 ∅ payload0 77 1 (replicate 8 Byte.xff) ring0_empty
    ltac:(done) ltac:(done) ltac:(done) ltac:(done) ltac:(done)).
Defined.
