(* ===== verification/NvspTypes.v ===== *)
(** Protocol constants of the network VSP
    ([crates/embclox-hyperv/src/nvsp_types.rs] and the aliases of [ffi.rs]):
    the enums with their wire values.  An enum and its [from_u32] are an
    instance of [WireEnum], whose laws say that the two directions of the
    conversion agree. *)

From S2P Require Import Prelude.

(** ** Enums with a wire representation *)

Class WireEnum (A : Type) := {
  as_wire : A -> Z;
  from_wire : Z -> option A;
}.

(** What a client of a protocol enum relies on. *)
Class WireEnumLaws (A : Type) `{WireEnum A} := {
  from_as_wire : forall a, from_wire (as_wire a) = Some a;
  as_from_wire : forall v a, from_wire v = Some a -> as_wire a = v;
}.

(** Distinct constructors have distinct wire values. *)
Lemma as_wire_inj {A} `{WireEnumLaws A} (a b : A) : as_wire a = as_wire b -> a = b.
Proof.
  intros E. pose proof (from_as_wire a) as Ha. rewrite E, from_as_wire in Ha.
  by simplify_eq.
Qed.

Lemma wire_iff {A} `{WireEnumLaws A} v (a : A) : from_wire v = Some a <-> as_wire a = v.
Proof. split; [apply as_from_wire|intros <-; apply from_as_wire]. Qed.

(** Proves the laws of an enum whose [from_wire] is a table of literals. *)
Tactic Notation "wire_laws" constr(f) :=
  split; [by intros []|];
  intros v a Hv; change (f v = Some a) in Hv;
  let g := eval red in f in change (g v = Some a) in Hv; cbv beta in Hv;
  repeat match type of Hv with
    | (if v =? ?k then _ else _) = _ =>
        destruct (Z.eqb_spec v k) as [->|_]; [by injection Hv as <-|]
    end; discriminate Hv.

(** ** Protocol versions *)

Inductive NvspVersion := V1 | V2 | V4 | V5 | V6 | V61.

#[export] Instance NvspVersion_eq_dec : EqDecision NvspVersion.
Proof. solve_decision. Defined.

Definition NvspVersion_as_u32 (v : NvspVersion) : Z :=
  match v with
  | V1 => 0x00002
  | V2 => 0x30002
  | V4 => 0x40000
  | V5 => 0x50000
  | V6 => 0x60000
  | V61 => 0x60001
  end.

Definition NEGOTIATE_ORDER : list NvspVersion := [V61; V6; V5; V4; V2; V1].

(** ** NVSP message types *)

Module NvspMessageType.
Inductive t :=
| None_ | Init | InitComplete
| SendNdisVersion | SendReceiveBuffer | SendReceiveBufferComplete
| RevokeReceiveBuffer | SendSendBuffer | SendSendBufferComplete
| RevokeSendBuffer | SendRndisPkt | SendRndisPktComplete
| SendNdisConfig
| SendVfAssociation | SwitchDataPath
| SubChannel | SendIndirectionTable.

Definition as_u32 (x : t) : Z :=
  match x with
  | None_ => 0 | Init => 1 | InitComplete => 2
  | SendNdisVersion => 100 | SendReceiveBuffer => 101
  | SendReceiveBufferComplete => 102 | RevokeReceiveBuffer => 103
  | SendSendBuffer => 104 | SendSendBufferComplete => 105
  | RevokeSendBuffer => 106 | SendRndisPkt => 107 | SendRndisPktComplete => 108
  | SendNdisConfig => 125
  | SendVfAssociation => 128 | SwitchDataPath => 129
  | SubChannel => 133 | SendIndirectionTable => 134
  end.

Definition from_u32 (v : Z) : option t :=
  if v =? 0 then Some None_ else
  if v =? 1 then Some Init else
  if v =? 2 then Some InitComplete else
  if v =? 100 then Some SendNdisVersion else
  if v =? 101 then Some SendReceiveBuffer else
  if v =? 102 then Some SendReceiveBufferComplete else
  if v =? 103 then Some RevokeReceiveBuffer else
  if v =? 104 then Some SendSendBuffer else
  if v =? 105 then Some SendSendBufferComplete else
  if v =? 106 then Some RevokeSendBuffer else
  if v =? 107 then Some SendRndisPkt else
  if v =? 108 then Some SendRndisPktComplete else
  if v =? 125 then Some SendNdisConfig else
  if v =? 128 then Some SendVfAssociation else
  if v =? 129 then Some SwitchDataPath else
  if v =? 133 then Some SubChannel else
  if v =? 134 then Some SendIndirectionTable else None.

#[global] Instance wire : WireEnum t := {| as_wire := as_u32; from_wire := from_u32 |}.
#[global] Instance laws : WireEnumLaws t.
Proof. wire_laws from_u32. Qed.
End NvspMessageType.

(** ** NVSP status *)

Module NvspStatus.
Inductive t :=
| None_ | Success | Fail_ | ProtocolTooNew | ProtocolTooOld | InvalidRndisPkt
| Busy | ProtocolUnsupported.

#[global] Instance eq_dec : EqDecision t.
Proof. solve_decision. Defined.

Definition as_u32 (x : t) : Z :=
  match x with
  | None_ => 0 | Success => 1 | Fail_ => 2 | ProtocolTooNew => 3
  | ProtocolTooOld => 4 | InvalidRndisPkt => 5 | Busy => 6
  | ProtocolUnsupported => 7
  end.

Definition from_u32 (v : Z) : option t :=
  if v =? 0 then Some None_ else
  if v =? 1 then Some Success else
  if v =? 2 then Some Fail_ else
  if v =? 3 then Some ProtocolTooNew else
  if v =? 4 then Some ProtocolTooOld else
  if v =? 5 then Some InvalidRndisPkt else
  if v =? 6 then Some Busy else
  if v =? 7 then Some ProtocolUnsupported else None.

Definition is_success (x : t) : bool := bool_decide (x = Success).

#[global] Instance wire : WireEnum t := {| as_wire := as_u32; from_wire := from_u32 |}.
#[global] Instance laws : WireEnumLaws t.
Proof. wire_laws from_u32. Qed.
End NvspStatus.

(** ** RNDIS message types *)

Definition RNDIS_MSG_COMPLETION : Z := 0x80000000.

Module RndisMessageType.
Inductive t :=
| Packet | Init | InitComplete | Halt | Query | QueryComplete | Set_ | SetComplete
| Reset_ | ResetComplete | Indicate | KeepAlive | KeepAliveComplete.

Definition as_u32 (x : t) : Z :=
  match x with
  | Packet => 1
  | Init => 2 | InitComplete => 0x80000002
  | Halt => 3
  | Query => 4 | QueryComplete => 0x80000004
  | Set_ => 5 | SetComplete => 0x80000005
  | Reset_ => 6 | ResetComplete => Z.lor 6 RNDIS_MSG_COMPLETION
  | Indicate => 7
  | KeepAlive => 8 | KeepAliveComplete => Z.lor 8 RNDIS_MSG_COMPLETION
  end.

Definition is_completion (x : t) : bool :=
  negb (Z.land (as_u32 x) RNDIS_MSG_COMPLETION =? 0).

Definition from_u32 (v : Z) : option t :=
  if v =? 1 then Some Packet else
  if v =? 2 then Some Init else
  if v =? 0x80000002 then Some InitComplete else
  if v =? 3 then Some Halt else
  if v =? 4 then Some Query else
  if v =? 0x80000004 then Some QueryComplete else
  if v =? 5 then Some Set_ else
  if v =? 0x80000005 then Some SetComplete else
  if v =? 6 then Some Reset_ else
  if v =? Z.lor 6 RNDIS_MSG_COMPLETION then Some ResetComplete else
  if v =? 7 then Some Indicate else
  if v =? 8 then Some KeepAlive else
  if v =? Z.lor 8 RNDIS_MSG_COMPLETION then Some KeepAliveComplete else None.

#[global] Instance wire : WireEnum t := {| as_wire := as_u32; from_wire := from_u32 |}.
#[global] Instance laws : WireEnumLaws t.
Proof. wire_laws from_u32. Qed.
End RndisMessageType.

(** ** RNDIS status: a transparent [u32] *)

Definition RNDIS_STATUS_SUCCESS : Z := 0.
Definition RndisStatus_is_success (s : Z) : bool := s =? RNDIS_STATUS_SUCCESS.
Definition RndisStatus_is_error (s : Z) : bool := Z.land s 0xC0000000 =? 0xC0000000.

(** ** VMBus packet types *)

Module VmbusPacketType.
Inductive t := DataInBand | DataUsingXferPages | DataUsingGpaDirect | Completion.

(** The values of the bound C enum, in which GPA direct is 9. *)
Definition as_u16 (x : t) : Z :=
  match x with
  | DataInBand => 6 | DataUsingXferPages => 7 | DataUsingGpaDirect => 9 | Completion => 11
  end.

Definition from_u16 (v : Z) : option t :=
  if v =? 6 then Some DataInBand else
  if v =? 7 then Some DataUsingXferPages else
  if v =? 9 then Some DataUsingGpaDirect else
  if v =? 11 then Some Completion else None.

#[global] Instance wire : WireEnum t := {| as_wire := as_u16; from_wire := from_u16 |}.
#[global] Instance laws : WireEnumLaws t.
Proof. wire_laws from_u16. Qed.
End VmbusPacketType.

(** ** NDIS OIDs, packet filters, capabilities and buffer ids *)

Definition OID_GEN_MAXIMUM_FRAME_SIZE : Z := 0x00010106.
Definition OID_GEN_CURRENT_PACKET_FILTER : Z := 0x0001010E.
Definition OID_802_3_PERMANENT_ADDRESS : Z := 0x01010101.
Definition OID_802_3_CURRENT_ADDRESS : Z := 0x01010102.

Definition NDIS_PACKET_TYPE_DIRECTED : Z := 0x1.
Definition NDIS_PACKET_TYPE_MULTICAST : Z := 0x2.
Definition NDIS_PACKET_TYPE_BROADCAST : Z := 0x8.
Definition NdisPacketFilter_STANDARD : Z :=
  Z.lor (Z.lor NDIS_PACKET_TYPE_DIRECTED NDIS_PACKET_TYPE_MULTICAST)
        NDIS_PACKET_TYPE_BROADCAST.

Module VscCapability.
Definition VMQ : Z := Z.shiftl 1 0.
Definition CHIMNEY : Z := Z.shiftl 1 1.
Definition SRIOV : Z := Z.shiftl 1 2.
Definition IEEE8021Q : Z := Z.shiftl 1 3.
End VscCapability.

Definition RECEIVE_BUFFER_ID : Z := 0xcafe.
Definition SEND_BUFFER_ID : Z := 0.

(** The protocol enums and their decoders agree: decoding the wire value
    of a constructor gives it back, a value that decodes is the wire value of
    the result, and distinct constructors have distinct values; and exactly
    the RNDIS types with a request counterpart count as completions. *)
Theorem wire_enums_roundtrip :
  (forall x, NvspMessageType.from_u32 (NvspMessageType.as_u32 x) = Some x) /\
  (forall v x, NvspMessageType.from_u32 v = Some x -> NvspMessageType.as_u32 x = v) /\
  (forall v x, NvspStatus.from_u32 v = Some x <-> NvspStatus.as_u32 x = v) /\
  (forall v x, RndisMessageType.from_u32 v = Some x <-> RndisMessageType.as_u32 x = v) /\
  (forall v x, VmbusPacketType.from_u16 v = Some x <-> VmbusPacketType.as_u16 x = v) /\
  (forall x y, NvspMessageType.as_u32 x = NvspMessageType.as_u32 y -> x = y) /\
  (forall x, RndisMessageType.is_completion x = true <->
             exists y, RndisMessageType.is_completion y = false /\
               RndisMessageType.as_u32 x =
                 Z.lor (RndisMessageType.as_u32 y) RNDIS_MSG_COMPLETION).
Proof.
  split_and!.
  - exact (from_as_wire (A := NvspMessageType.t)).
  - exact (as_from_wire (A := NvspMessageType.t)).
  - exact (wire_iff (A := NvspStatus.t)).
  - exact (wire_iff (A := RndisMessageType.t)).
  - exact (wire_iff (A := VmbusPacketType.t)).
  - exact (as_wire_inj (A := NvspMessageType.t)).
  - intros x. split.
    + destruct x; intros H; try discriminate H.
      * by exists RndisMessageType.Init.
      * by exists RndisMessageType.Query.
      * by exists RndisMessageType.Set_.
      * by exists RndisMessageType.Reset_.
      * by exists RndisMessageType.KeepAlive.
    + intros (y & Hy & Hxy). destruct x, y; done.
Qed.
