(* ===== verification/NvspMsg.v ===== *)
(** NVSP and RNDIS messages ([crates/embclox-hyperv/src/nvsp_msg.rs]): the
    parsers of host messages and the builders of guest messages.  A bound C
    struct is its bytes, in the layout of [include/nvspprotocol.h] (packed)
    and [include/rndis_msvm.h] (32-bit fields only); a union field write is a
    write at its offset. *)

From S2P Require Import Prelude NvspTypes.

Definition NVSP_MESSAGE_SIZE : Z := 40.
Definition RNDIS_HEADER_SIZE : Z := 8.

(** Sizes of the bound structs. *)
Definition sizeof_nvsp_message : nat := 32.
Definition sizeof_nvsp_message_header : Z := 4.
Definition sizeof_init_complete : Z := 12.
Definition sizeof_recv_buf_complete : Z := 24.
Definition sizeof_recv_buf_section : Z := 16.
Definition sizeof_send_buf_complete : Z := 8.
Definition sizeof_rndis_pkt_complete : Z := 4.
Definition sizeof_subchannel_complete : Z := 8.
Definition sizeof_rndis_message : nat := 52.
Definition sizeof_rndis_init_request : Z := 16.
Definition sizeof_rndis_init_complete : Z := 44.
Definition sizeof_rndis_query_request : Z := 20.
Definition sizeof_rndis_query_complete : Z := 16.
Definition sizeof_rndis_set_complete : Z := 8.
Definition sizeof_rndis_halt_request : Z := 4.
Definition sizeof_rndis_keepalive_request : Z := 4.
Definition sizeof_rndis_keepalive_complete : Z := 8.
Definition sizeof_rndis_indicate_status : Z := 12.
Definition sizeof_rndis_packet : Z := 36.

(** ** NVSP responses *)

Record recv_buf_section := {
  Offset : Z;
  SubAllocationSize : Z;
  NumSubAllocations : Z;
  EndOffset : Z;
}.

Module NvspResponse.
Inductive t :=
| InitComplete (negotiated_version max_mdl_chain_len status : Z)
| RecvBufComplete (status num_sections : Z) (sections : list recv_buf_section)
| SendBufComplete (status section_size : Z)
| RndisPktComplete (status : Z)
| SubChannelComplete (status num_subchannels : Z)
| Unknown (msg_type : Z).
End NvspResponse.

(** [cast_ref::<T>]: the bytes of a [T] at the start of the slice, if it is
    long enough.  Fields are then read at their offsets. *)
Definition cast_ref (size : Z) (data : list byte) : option (list byte) :=
  if zlen data <? size then None else Some (take (Z.to_nat size) data).

Definition section_of_bytes (bs : list byte) : recv_buf_section :=
  {| Offset := le_at 4 bs 0;
     SubAllocationSize := le_at 4 bs 4;
     NumSubAllocations := le_at 4 bs 8;
     EndOffset := le_at 4 bs 12 |}.

(** [from_raw_parts(ptr, n)] over 16-byte sections. *)
Definition sections_of_bytes (data : list byte) (n : Z) : list recv_buf_section :=
  (fun i => section_of_bytes (drop (16 * i) data)) <$> seq 0 (Z.to_nat n).

Definition parse_nvsp_response (data : list byte) : outcome (option NvspResponse.t) :=
  if zlen data <? sizeof_nvsp_message_header then mret None else
  h ← slice data 0 4;
  let msg_type := le_combine h in
  body ← slice data sizeof_nvsp_message_header (zlen data);
  if msg_type =? NvspMessageType.as_u32 NvspMessageType.InitComplete then
    mret (c ← cast_ref sizeof_init_complete body;
          Some (NvspResponse.InitComplete (le_at 4 c 0) (le_at 4 c 4) (le_at 4 c 8)))
  else if msg_type =? NvspMessageType.as_u32 NvspMessageType.SendReceiveBufferComplete then
    match cast_ref sizeof_recv_buf_complete body with
    | None => mret None
    | Some c =>
        sections_data ← slice body 8 (zlen body);
        let num_sections := le_at 4 c 4 in
        let n := Z.min (zlen sections_data / sizeof_recv_buf_section) num_sections in
        let sections := if 0 <? n then sections_of_bytes sections_data n else [] in
        mret (Some (NvspResponse.RecvBufComplete (le_at 4 c 0) num_sections sections))
    end
  else if msg_type =? NvspMessageType.as_u32 NvspMessageType.SendSendBufferComplete then
    mret (c ← cast_ref sizeof_send_buf_complete body;
          Some (NvspResponse.SendBufComplete (le_at 4 c 0) (le_at 4 c 4)))
  else if msg_type =? NvspMessageType.as_u32 NvspMessageType.SendRndisPktComplete then
    mret (c ← cast_ref sizeof_rndis_pkt_complete body;
          Some (NvspResponse.RndisPktComplete (le_at 4 c 0)))
  else if msg_type =? NvspMessageType.as_u32 NvspMessageType.SubChannel then
    mret (c ← cast_ref sizeof_subchannel_complete body;
          Some (NvspResponse.SubChannelComplete (le_at 4 c 0) (le_at 4 c 4)))
  else mret (Some (NvspResponse.Unknown msg_type)).

(** ** NVSP builders *)

Definition put_u16 (off : nat) (v : Z) := put off (le_split 2 v).
Definition put_u32 (off : nat) (v : Z) := put off (le_split 4 v).
Definition put_u64 (off : nat) (v : Z) := put off (le_split 8 v).

(** [nvsp_message::default()] with its header set; the union starts at 4. *)
Definition nvsp_message_with_type (ty : NvspMessageType.t) : list byte :=
  put_u32 0 (NvspMessageType.as_u32 ty) (replicate sizeof_nvsp_message Byte.x00).

Definition nvsp_message_padded (msg : list byte) : list byte :=
  put 0 msg (replicate (Z.to_nat NVSP_MESSAGE_SIZE) Byte.x00).

Definition build_nvsp_init (version : Z) : list byte :=
  let msg := nvsp_message_with_type NvspMessageType.Init in
  let msg := put_u32 4 version msg in
  put_u32 8 version msg.

Definition build_nvsp_send_ndis_version (major minor : Z) : list byte :=
  let msg := nvsp_message_with_type NvspMessageType.SendNdisVersion in
  let msg := put_u32 4 major msg in
  put_u32 8 minor msg.

Definition build_nvsp_send_ndis_config (mtu capabilities : Z) : list byte :=
  let msg := nvsp_message_with_type NvspMessageType.SendNdisConfig in
  let msg := put_u32 4 mtu msg in
  put_u64 12 capabilities msg.

Definition NVSP_SUBCHANNEL_ALLOCATE : Z := 1.

Definition build_nvsp_subchannel_request (num_subchannels : Z) : list byte :=
  let msg := nvsp_message_with_type NvspMessageType.SubChannel in
  let msg := put_u32 4 NVSP_SUBCHANNEL_ALLOCATE msg in
  put_u32 8 num_subchannels msg.

Definition build_nvsp_send_recv_buf (gpadl_handle id : Z) : list byte :=
  let msg := nvsp_message_with_type NvspMessageType.SendReceiveBuffer in
  let msg := put_u32 4 gpadl_handle msg in
  put_u16 8 id msg.

Definition build_nvsp_send_send_buf (gpadl_handle id : Z) : list byte :=
  let msg := nvsp_message_with_type NvspMessageType.SendSendBuffer in
  let msg := put_u32 4 gpadl_handle msg in
  put_u16 8 id msg.

Definition build_nvsp_send_rndis_pkt (channel_type send_buf_section_index
    send_buf_section_size : Z) : list byte :=
  let msg := nvsp_message_with_type NvspMessageType.SendRndisPkt in
  let msg := put_u32 4 channel_type msg in
  let msg := put_u32 8 send_buf_section_index msg in
  put_u32 12 send_buf_section_size msg.

(** ** RNDIS responses *)

Module RndisResponse.
Inductive t :=
| InitComplete (req_id status major_ver minor_ver max_pkt_per_msg max_xfer_size
                pkt_alignment_factor : Z)
| QueryComplete (req_id status : Z) (info : list byte)
| SetComplete (req_id status : Z)
| KeepAlive (req_id : Z)
| KeepAliveComplete (req_id status : Z)
| Indicate (status : Z) (status_buf : list byte)
| Packet (data_offset data_len : Z) (raw : list byte)
| Unknown (msg_type : Z).
End RndisResponse.

(** The bounds-checked variable part of a completion or indication. *)
Definition info_slice (body : list byte) (off len : Z) : outcome (list byte) :=
  fits ← (if 0 <? len then e ← uadd off len; mret (e <=? zlen body) else mret false);
  if fits : bool then slice body off (off + len) else mret [].

Definition parse_rndis_response (data : list byte) : outcome (option RndisResponse.t) :=
  if zlen data <? RNDIS_HEADER_SIZE then mret None else
  t ← slice data 0 4;
  let msg_type := le_combine t in
  l ← slice data 4 8;
  let msg_len := le_combine l in
  body ← slice data RNDIS_HEADER_SIZE (Z.min (zlen data) msg_len);
  match RndisMessageType.from_u32 msg_type with
  | Some RndisMessageType.InitComplete =>
      mret (c ← cast_ref sizeof_rndis_init_complete body;
            Some (RndisResponse.InitComplete (le_at 4 c 0) (le_at 4 c 4) (le_at 4 c 8)
                    (le_at 4 c 12) (le_at 4 c 24) (le_at 4 c 28) (le_at 4 c 32)))
  | Some RndisMessageType.QueryComplete =>
      match cast_ref sizeof_rndis_query_complete body with
      | None => mret None
      | Some c =>
          info ← info_slice body (le_at 4 c 12) (le_at 4 c 8);
          mret (Some (RndisResponse.QueryComplete (le_at 4 c 0) (le_at 4 c 4) info))
      end
  | Some RndisMessageType.SetComplete =>
      mret (c ← cast_ref sizeof_rndis_set_complete body;
            Some (RndisResponse.SetComplete (le_at 4 c 0) (le_at 4 c 4)))
  | Some RndisMessageType.KeepAliveComplete =>
      mret (c ← cast_ref sizeof_rndis_keepalive_complete body;
            Some (RndisResponse.KeepAliveComplete (le_at 4 c 0) (le_at 4 c 4)))
  | Some RndisMessageType.KeepAlive =>
      mret (c ← cast_ref sizeof_rndis_keepalive_request body;
            Some (RndisResponse.KeepAlive (le_at 4 c 0)))
  | Some RndisMessageType.Indicate =>
      match cast_ref sizeof_rndis_indicate_status body with
      | None => mret None
      | Some c =>
          status_buf ← info_slice body (le_at 4 c 8) (le_at 4 c 4);
          mret (Some (RndisResponse.Indicate (le_at 4 c 0) status_buf))
      end
  | Some RndisMessageType.Packet =>
      mret (c ← cast_ref sizeof_rndis_packet body;
            Some (RndisResponse.Packet (le_at 4 c 0) (le_at 4 c 4) data))
  | _ => mret (Some (RndisResponse.Unknown msg_type))
  end.

(** ** RNDIS builders *)

Definition RNDIS_MAJOR_VERSION : Z := 1.
Definition RNDIS_MINOR_VERSION : Z := 0.

(** [rndis_message::default()] with type and length; the union starts at 8. *)
Definition rndis_message_with (ty : RndisMessageType.t) (msg_len : Z) : list byte :=
  put_u32 4 msg_len
    (put_u32 0 (RndisMessageType.as_u32 ty) (replicate sizeof_rndis_message Byte.x00)).

Definition build_rndis_init (req_id max_xfer_size : Z) : list byte :=
  let msg := rndis_message_with RndisMessageType.Init
               (as_u32 (RNDIS_HEADER_SIZE + sizeof_rndis_init_request)) in
  let msg := put_u32 8 req_id msg in
  let msg := put_u32 12 RNDIS_MAJOR_VERSION msg in
  let msg := put_u32 16 RNDIS_MINOR_VERSION msg in
  put_u32 20 max_xfer_size msg.

Definition build_rndis_halt (req_id : Z) : list byte :=
  let msg := rndis_message_with RndisMessageType.Halt
               (as_u32 (RNDIS_HEADER_SIZE + sizeof_rndis_halt_request)) in
  put_u32 8 req_id msg.

(** The common body of [build_rndis_query] and [build_rndis_set]: the fixed
    request of 20 bytes, then [info_buf]; the result is the number of bytes
    written and the buffer. *)
Definition build_rndis_request (ty : RndisMessageType.t) (req_size req_id oid : Z)
    (info_buf buf : list byte) : outcome (Z * list byte) :=
  msg_len ← uadd (RNDIS_HEADER_SIZE + req_size) (zlen info_buf);
  _ ← rassert (msg_len <=? zlen buf);
  let msg := rndis_message_with ty (as_u32 msg_len) in
  let msg := put_u32 8 req_id msg in
  let msg := put_u32 12 oid msg in
  let msg := put_u32 16 (as_u32 (zlen info_buf)) msg in
  let msg := put_u32 20 (as_u32 req_size) msg in
  let copy_len := Z.min (RNDIS_HEADER_SIZE + req_size) (zlen msg) in
  head ← slice msg 0 copy_len;
  buf ← copy_into 0 head buf;
  buf ← (if bool_decide (info_buf = []) then mret buf else copy_into copy_len info_buf buf);
  mret (msg_len, buf).

Definition build_rndis_query (req_id oid : Z) (info_buf buf : list byte)
  : outcome (Z * list byte) :=
  build_rndis_request RndisMessageType.Query sizeof_rndis_query_request req_id oid
    info_buf buf.

Definition build_rndis_set (req_id oid : Z) (info_buf buf : list byte)
  : outcome (Z * list byte) :=
  build_rndis_request RndisMessageType.Set_ 20 req_id oid info_buf buf.

Definition build_rndis_keepalive (req_id : Z) : list byte :=
  let msg := rndis_message_with RndisMessageType.KeepAlive
               (as_u32 (RNDIS_HEADER_SIZE + sizeof_rndis_keepalive_request)) in
  put_u32 8 req_id msg.

(** [netvsc.rs]'s reply to a host keepalive: the number of bytes written and
    the buffer. *)
Definition build_rndis_keepalive_cmplt (request_id : Z) (buf : list byte)
  : outcome (Z * list byte) :=
  let len := 16 in
  buf ← copy_into 0 (replicate (Z.to_nat len) Byte.x00) buf;
  buf ← copy_into 0
          (le_split 4 (RndisMessageType.as_u32 RndisMessageType.KeepAliveComplete)) buf;
  buf ← copy_into 4 (le_split 4 (as_u32 len)) buf;
  buf ← copy_into 8 (le_split 4 request_id) buf;
  mret (len, buf).

(** ** Parsers *)

(** The body an NVSP message of this type must have to be parsed. *)
Definition nvsp_body_size (msg_type : Z) : Z :=
  match NvspMessageType.from_u32 msg_type with
  | Some NvspMessageType.InitComplete => 12
  | Some NvspMessageType.SendReceiveBufferComplete => 24
  | Some NvspMessageType.SendSendBufferComplete => 8
  | Some NvspMessageType.SendRndisPktComplete => 4
  | Some NvspMessageType.SubChannel => 8
  | _ => 0
  end.

Lemma slice_prefix {A} (l : list A) n :
  0 <= n -> n <= zlen l -> slice l 0 n = Ret (take (Z.to_nat n) l).
Proof. intros. rewrite slice_ok by lia. by rewrite Z.sub_0_r, drop_0. Qed.

Lemma slice_suffix {A} (l : list A) n :
  0 <= n <= zlen l -> slice l n (zlen l) = Ret (drop (Z.to_nat n) l).
Proof.
  intros. rewrite slice_ok by lia. rewrite take_ge; [done|].
  rewrite length_drop. unfold zlen in *. lia.
Qed.

Lemma zlen_drop {A} n (l : list A) : 0 <= n <= zlen l -> zlen (drop (Z.to_nat n) l) = zlen l - n.
Proof. unfold zlen. rewrite length_drop. lia. Qed.

Lemma cast_ref_None size data : cast_ref size data = None <-> zlen data < size.
Proof. unfold cast_ref. by destruct (Z.ltb_spec (zlen data) size); split; intros; (done || lia). Qed.

(** A branch of the NVSP parser on a body: it returns, and returns [None]
    exactly when the body is shorter than [n]. *)
Definition parses_from (n : Z) (body : list byte) (o : outcome (option NvspResponse.t)) : Prop :=
  exists res, o = Ret res /\ (res = None <-> zlen body < n).

Lemma parses_cast n body f :
  parses_from n body (mret (c ← cast_ref n body; Some (f c))).
Proof.
  eexists. split; [done|]. rewrite <- cast_ref_None. by destruct (cast_ref n body).
Qed.

Lemma parses_recv_buf body (f : list byte -> list byte -> NvspResponse.t) :
  parses_from 24 body
    match cast_ref 24 body with
    | None => mret None
    | Some c => sections_data ← slice body 8 (zlen body); mret (Some (f c sections_data))
    end.
Proof.
  destruct (cast_ref 24 body) eqn:E.
  - assert (24 <= zlen body).
    { apply Z.nlt_ge. intros H. apply cast_ref_None in H. congruence. }
    rewrite slice_suffix by lia. eexists. split; [done|]. split; [done|lia].
  - apply cast_ref_None in E. by eexists.
Qed.

(** An unrecognised type is one of no known response. *)
Lemma nvsp_body_size_other ty :
  ty <> NvspMessageType.as_u32 NvspMessageType.InitComplete ->
  ty <> NvspMessageType.as_u32 NvspMessageType.SendReceiveBufferComplete ->
  ty <> NvspMessageType.as_u32 NvspMessageType.SendSendBufferComplete ->
  ty <> NvspMessageType.as_u32 NvspMessageType.SendRndisPktComplete ->
  ty <> NvspMessageType.as_u32 NvspMessageType.SubChannel ->
  nvsp_body_size ty = 0.
Proof.
  intros. unfold nvsp_body_size.
  destruct (NvspMessageType.from_u32 ty) as [x|] eqn:E; [|done].
  pose proof (as_from_wire (A := NvspMessageType.t) _ _ E : NvspMessageType.as_u32 x = ty). by destruct x.
Qed.

Lemma parse_nvsp_body data :
  4 <= zlen data ->
  parses_from (nvsp_body_size (le_at 4 data 0)) (drop 4 data) (parse_nvsp_response data) /\
  (NvspMessageType.from_u32 (le_at 4 data 0) = None ->
     parse_nvsp_response data = Ret (Some (NvspResponse.Unknown (le_at 4 data 0)))).
Proof.
  intros Hlen. unfold parse_nvsp_response, sizeof_nvsp_message_header.
  rewrite (proj2 (Z.ltb_ge _ _)), slice_prefix, slice_suffix by lia.
  cbn [mbind outcome_bind].
  change (le_combine (take (Z.to_nat 4) data)) with (le_at 4 data 0).
  change (Z.to_nat 4) with 4%nat.
  set (ty := le_at 4 data 0). set (body := drop 4 data).
  destruct (Z.eqb_spec ty (NvspMessageType.as_u32 NvspMessageType.InitComplete)) as [E|?].
  { rewrite E. split; [apply parses_cast|done]. }
  destruct (Z.eqb_spec ty (NvspMessageType.as_u32
    NvspMessageType.SendReceiveBufferComplete)) as [E|?].
  { rewrite E. split; [apply (parses_recv_buf body)|done]. }
  destruct (Z.eqb_spec ty (NvspMessageType.as_u32
    NvspMessageType.SendSendBufferComplete)) as [E|?].
  { rewrite E. split; [apply parses_cast|done]. }
  destruct (Z.eqb_spec ty (NvspMessageType.as_u32
    NvspMessageType.SendRndisPktComplete)) as [E|?].
  { rewrite E. split; [apply parses_cast|done]. }
  destruct (Z.eqb_spec ty (NvspMessageType.as_u32 NvspMessageType.SubChannel)) as [E|?].
  { rewrite E. split; [apply parses_cast|done]. }
  split; [|done]. rewrite nvsp_body_size_other by done. eexists. split; [done|].
  split; [done|]. pose proof (zlen_nonneg body). lia.
Qed.

(** The NVSP parser never panics, whatever the host sends: it returns
    [None] exactly when the message is too short for its type, and otherwise
    a response; a type it does not know is reported as such. *)
Theorem parse_nvsp_response_total data :
  exists res, parse_nvsp_response data = Ret res /\
    (res = None <-> zlen data < 4 + nvsp_body_size (le_at 4 data 0) \/ zlen data < 4) /\
    (4 <= zlen data -> NvspMessageType.from_u32 (le_at 4 data 0) = None ->
       res = Some (NvspResponse.Unknown (le_at 4 data 0))).
Proof.
  destruct (Z.lt_ge_cases (zlen data) 4) as [Hlt|Hge].
  - exists None. unfold parse_nvsp_response, sizeof_nvsp_message_header.
    rewrite (proj2 (Z.ltb_lt _ _)) by done. split_and!; [done|tauto|lia].
  - destruct (parse_nvsp_body data Hge) as [(res & Hres & Hnone) Hunk].
    pose proof (zlen_drop 4 data) as Hb. change (Z.to_nat 4) with 4%nat in Hb.
    exists res. split_and!; [done| |].
    + rewrite Hnone, Hb by lia. lia.
    + intros _ Hty. specialize (Hunk Hty). congruence.
Qed.

Lemma info_slice_ok body off len :
  0 <= off < U32 -> 0 <= len < U32 ->
  info_slice body off len =
  Ret (if (0 <? len) && (off + len <=? zlen body)
       then take (Z.to_nat len) (drop (Z.to_nat off) body) else []).
Proof.
  intros. unfold info_slice. destruct (Z.ltb_spec 0 len); [|done].
  rewrite uadd_ok by solve_bounds. cbn [mbind outcome_bind mret outcome_ret andb].
  destruct (Z.leb_spec (off + len) (zlen body)); [|done].
  rewrite slice_ok by lia. do 3 f_equal. lia.
Qed.

Lemma le_at4_u32 bs off : 0 <= le_at 4 bs off < U32.
Proof. apply (le_at_bound 4). Qed.

(** The RNDIS body: the bytes after the header, up to the announced length. *)
Definition rndis_body (data : list byte) : list byte :=
  take (Z.to_nat (Z.min (zlen data) (le_at 4 data 4) - 8)) (drop 8 data).

(** The parser after its header checks. *)
Lemma parse_rndis_header data :
  8 <= zlen data ->
  (slice data 0 4 = Ret (take 4 data)) /\
  (slice data 4 8 = Ret (take 4 (drop 4 data))) /\
  slice data RNDIS_HEADER_SIZE (Z.min (zlen data) (le_at 4 data 4)) =
    if le_at 4 data 4 <? 8 then Panic IndexOutOfBounds else Ret (rndis_body data).
Proof.
  intros. unfold RNDIS_HEADER_SIZE. split_and!.
  - by rewrite slice_prefix by lia.
  - by rewrite slice_ok by lia.
  - destruct (Z.ltb_spec (le_at 4 data 4) 8).
    + unfold slice. by rewrite (proj2 (Z.leb_gt 8 _)) by lia.
    + by rewrite slice_ok by lia.
Qed.

(** C5: the RNDIS parser panics exactly on a message of at least 8 bytes
    whose announced length is below the 8 bytes of its own header; on every
    other input it returns. *)
Theorem parse_rndis_response_panics_iff data :
  if (8 <=? zlen data) && (le_at 4 data 4 <? 8)
  then parse_rndis_response data = Panic IndexOutOfBounds
  else exists res, parse_rndis_response data = Ret res.
Proof.
  unfold parse_rndis_response, RNDIS_HEADER_SIZE.
  rewrite (Z.ltb_antisym 8 (zlen data)).
  destruct (Z.leb_spec 8 (zlen data)) as [Hlen|]; [|by eexists]. cbn [negb andb].
  destruct (parse_rndis_header data Hlen) as (-> & -> & Hb).
  cbn [mbind outcome_bind]. fold (le_at 4 data 4). unfold RNDIS_HEADER_SIZE in Hb.
  rewrite Hb. destruct (Z.ltb_spec (le_at 4 data 4) 8); [done|].
  cbn [mbind outcome_bind].
  destruct (RndisMessageType.from_u32 _) as [[]|]; try (by eexists).
  - destruct (cast_ref _ _); [|by eexists].
    rewrite info_slice_ok by apply le_at4_u32. by eexists.
  - destruct (cast_ref _ _); [|by eexists].
    rewrite info_slice_ok by apply le_at4_u32. by eexists.
Qed.

(** A query completion whose information buffer lies inside the message
    is parsed into its request id, status and exactly the bytes of that
    buffer; one whose buffer does not lie inside yields no bytes. *)
Theorem parse_query_complete data :
  8 <= zlen data ->
  le_at 4 data 0 = RndisMessageType.as_u32 RndisMessageType.QueryComplete ->
  24 <= le_at 4 data 4 <= zlen data ->
  let len := le_at 4 data 16 in
  let off := le_at 4 data 20 in
  parse_rndis_response data =
  Ret (Some (RndisResponse.QueryComplete (le_at 4 data 8) (le_at 4 data 12)
    (if (0 <? len) && (8 + off + len <=? le_at 4 data 4)
     then take (Z.to_nat len) (drop (Z.to_nat (8 + off)) data) else []))).
Proof.
  intros Hlen Hty Hml len off. unfold parse_rndis_response, RNDIS_HEADER_SIZE.
  rewrite (proj2 (Z.ltb_ge (zlen data) 8)) by lia.
  destruct (parse_rndis_header data Hlen) as (-> & -> & Hb).
  cbn [mbind outcome_bind]. fold (le_at 4 data 4). unfold RNDIS_HEADER_SIZE in Hb.
  rewrite Hb, (proj2 (Z.ltb_ge (le_at 4 data 4) 8)) by lia. cbn [mbind outcome_bind].
  change (le_combine (take 4 data)) with (le_at 4 data 0). rewrite Hty.
  cbn [RndisMessageType.from_u32 RndisMessageType.as_u32 Z.eqb Pos.eqb].
  assert (Hbody : zlen (rndis_body data) = le_at 4 data 4 - 8).
  { unfold rndis_body. rewrite Z.min_r by lia. unfold zlen in *.
    rewrite length_take, length_drop. lia. }
  assert (Hf : forall i, (i + 4 <= 16)%nat ->
    le_at 4 (take 16 (rndis_body data)) i = le_at 4 data (8 + i)).
  { intros i Hi. unfold le_at, rndis_body. f_equal.
    rewrite skipn_firstn_comm, take_take, skipn_firstn_comm, take_take, drop_drop.
    f_equal. lia. }
  unfold cast_ref, sizeof_rndis_query_complete. rewrite (proj2 (Z.ltb_ge _ 16)) by lia.
  change (Z.to_nat 16) with 16%nat. rewrite !Hf by lia.
  rewrite info_slice_ok by apply le_at4_u32. change (8 + 8)%nat with 16%nat. change (8 + 12)%nat with 20%nat. fold len off.
  cbn [mbind outcome_bind]. rewrite Hbody. do 3 f_equal.
  replace (off + len <=? le_at 4 data 4 - 8) with (8 + off + len <=? le_at 4 data 4)
    by (destruct (Z.leb_spec (8 + off + len) (le_at 4 data 4)); symmetry;
        (apply Z.leb_le || apply Z.leb_gt); lia).
   destruct (Z.ltb_spec 0 len); [|done].
  destruct (Z.leb_spec (8 + off + len) (le_at 4 data 4)); [|done]. cbn [andb].
  pose proof (le_at4_u32 data 20). unfold rndis_body.
  rewrite skipn_firstn_comm, take_take, drop_drop. f_equal; [lia|f_equal; lia].
Qed.

(** ** Builders *)

(** The fixed part of a query or set request. *)
Definition rndis_request_head (ty : RndisMessageType.t) (req_id oid len : Z) : list byte :=
  le_split 4 (RndisMessageType.as_u32 ty) ++ le_split 4 (28 + len) ++ le_split 4 req_id ++
  le_split 4 oid ++ le_split 4 len ++ le_split 4 20 ++ le_split 4 0.

Lemma put_app_exact {A} (bs1 bs2 buf : list A) :
  put (length bs1) bs2 (put 0 bs1 buf) =
  bs1 ++ bs2 ++ drop (length bs1 + length bs2) buf.
Proof.
  unfold put. simpl. rewrite take_app_length. do 2 f_equal.
  by rewrite drop_app_add, drop_drop.
Qed.

Lemma build_rndis_request_closed ty req_id oid info_buf buf :
  zlen info_buf < 2 ^ 31 ->
  build_rndis_request ty 20 req_id oid info_buf buf =
  let n := 28 + zlen info_buf in
  if n <=? zlen buf
  then Ret (n, rndis_request_head ty req_id oid (zlen info_buf) ++ info_buf ++
               drop (Z.to_nat n) buf)
  else Panic AssertFailed.
Proof.
  intros Hlen. pose proof (zlen_nonneg info_buf). unfold build_rndis_request.
  change (RNDIS_HEADER_SIZE + 20) with 28. rewrite uadd_ok by solve_bounds.
  cbn [mbind outcome_bind]. unfold rassert. cbv zeta.
  destruct (Z.leb_spec (28 + zlen info_buf) (zlen buf)) as [Hfit|]; [|done].
  cbn [mbind outcome_bind]. unfold as_u32.
  rewrite (Z.mod_small (28 + _)), (Z.mod_small (zlen info_buf)) by solve_bounds.
  assert (Hhead : forall a b, slice
    (put_u32 20 (20 mod U32) (put_u32 16 b (put_u32 12 oid (put_u32 8 req_id
      (rndis_message_with ty a))))) 0 28 =
    Ret (le_split 4 (RndisMessageType.as_u32 ty) ++ le_split 4 a ++ le_split 4 req_id ++
         le_split 4 oid ++ le_split 4 b ++ le_split 4 20 ++ le_split 4 0)) by reflexivity.
  change (Z.min 28 (zlen _)) with 28. rewrite Hhead. cbn [mbind outcome_bind].
  fold (rndis_request_head ty req_id oid (zlen info_buf)).
  set (head := rndis_request_head _ _ _ _).
  assert (Hhl : length head = 28%nat) by reflexivity.
  unfold copy_into. rewrite (proj2 (Z.leb_le (0 + zlen head) _)) by (unfold zlen in *; lia).
  cbn [mbind outcome_bind].
  assert (Hput : zlen (put 0 head buf) = zlen buf).
  { unfold zlen in *. rewrite length_put; [done|]. lia. }
  change (Z.to_nat 0) with 0%nat. case_bool_decide as Hnil.
  - subst. cbn [mbind outcome_bind mret outcome_ret]. done.
  - rewrite Hput, (proj2 (Z.leb_le _ _)) by lia. cbn [mbind outcome_bind mret outcome_ret].
    do 2 f_equal. change (Z.to_nat 28) with 28%nat. rewrite <- Hhl at 1.
    rewrite put_app_exact. do 3 f_equal.
    unfold zlen in *. lia.
Qed.

(** [build_rndis_query] and [build_rndis_set] write the request header,
    the request id, the OID, the length and offset of the information buffer
    and then the buffer, return the number of bytes written and leave the
    rest of the caller's buffer alone; a buffer that is too small fails the
    assertion before anything is written. *)
Theorem build_rndis_query_set_layout req_id oid info_buf buf :
  zlen info_buf < 2 ^ 31 ->
  let n := 28 + zlen info_buf in
  let written ty := rndis_request_head ty req_id oid (zlen info_buf) ++ info_buf ++
                    drop (Z.to_nat n) buf in
  build_rndis_query req_id oid info_buf buf =
    (if n <=? zlen buf then Ret (n, written RndisMessageType.Query) else Panic AssertFailed) /\
  build_rndis_set req_id oid info_buf buf =
    (if n <=? zlen buf then Ret (n, written RndisMessageType.Set_) else Panic AssertFailed).
Proof. intros. split; by apply build_rndis_request_closed. Qed.

Lemma le_combine_split_u32 v : 0 <= v < U32 -> le_combine (le_split 4 v) = v.
Proof. intros. rewrite le_combine_split. by apply Z.mod_small. Qed.

(** Keepalives round-trip: the parser reads back the request id of a
    keepalive request, and of the reply the driver builds in its 16-byte
    buffer, with a success status. *)
Theorem keepalive_roundtrip id :
  0 <= id < U32 ->
  parse_rndis_response (build_rndis_keepalive id) = Ret (Some (RndisResponse.KeepAlive id)) /\
  exists buf',
    build_rndis_keepalive_cmplt id (replicate 16 Byte.xff) = Ret (16, buf') /\
    parse_rndis_response buf' =
      Ret (Some (RndisResponse.KeepAliveComplete id RNDIS_STATUS_SUCCESS)).
Proof.
  intros Hid. pose proof (le_combine_split_u32 id Hid) as E. split.
  - transitivity (Ret (Some (RndisResponse.KeepAlive (le_combine (le_split 4 id)))));
      [reflexivity|by rewrite E].
  - eexists. split; [reflexivity|].
    transitivity (Ret (Some (RndisResponse.KeepAliveComplete
      (le_combine (le_split 4 id)) RNDIS_STATUS_SUCCESS))); [reflexivity|by rewrite E].
Qed.

(** ** Witnesses *)

Definition query_reply : list byte :=
  le_split 4 0x80000004 ++ le_split 4 30 ++ le_split 4 2 ++ le_split 4 0 ++
  le_split 4 6 ++ le_split 4 16 ++
  [Byte.x00; Byte.x15; Byte.x5d; Byte.x01; Byte.x02; Byte.x03].

Lemma parse_query_complete_witness :
  parse_rndis_response query_reply =
  Ret (Some (RndisResponse.QueryComplete 2 0
    [Byte.x00; Byte.x15; Byte.x5d; Byte.x01; Byte.x02; Byte.x03])).
Proof.
  rewrite (parse_query_complete query_reply); [reflexivity|by vm_compute..].
Defined.

Lemma build_rndis_query_set_layout_witness :
  exists b1 b2,
    build_rndis_query 2 OID_802_3_PERMANENT_ADDRESS [] (replicate 28 Byte.xff) = Ret (28, b1) /\
    build_rndis_set 3 OID_GEN_CURRENT_PACKET_FILTER [Byte.x0b] (replicate 29 Byte.xff) =
      Ret (29, b2).
Proof.
  destruct (build_rndis_query_set_layout 2 OID_802_3_PERMANENT_ADDRESS []
    (replicate 28 Byte.xff) ltac:(done)) as [H1 _].
  destruct (build_rndis_query_set_layout 3 OID_GEN_CURRENT_PACKET_FILTER [Byte.x0b]
    (replicate 29 Byte.xff) ltac:(done)) as [_ H2].
  do 2 eexists. split; [exact H1|exact H2].
Defined.

Lemma keepalive_roundtrip_witness :
  parse_rndis_response (build_rndis_keepalive 7) = Ret (Some (RndisResponse.KeepAlive 7)).
Proof. apply (keepalive_roundtrip 7). done. Defined.
