(* ===== verification/Bits.v ===== *)
(** Bits of machine words: the positions of the set bits of a word, in
    increasing order, and the two ways the code visits or counts them. *)

From Stdlib Require Export Sorted.
From S2P Require Import Prelude.

(** The positions of the set bits among the [n] low bits of [w], plus [off]. *)
Fixpoint set_bits_from (n : nat) (w off : Z) : list Z :=
  match n with
  | O => []
  | S n' => (if Z.odd w then [off] else []) ++ set_bits_from n' (Z.div2 w) (off + 1)
  end.

Definition set_bits (n : nat) (w : Z) : list Z := set_bits_from n w 0.

Lemma elem_of_set_bits_from n w off i :
  i ∈ set_bits_from n w off <-> off <= i < off + Z.of_nat n /\ Z.testbit w (i - off) = true.
Proof.
  revert w off. induction n as [|n IH]; intros w off; cbn [set_bits_from].
  { rewrite elem_of_nil. lia. }
  rewrite elem_of_app, IH. rewrite <- Z.bit0_odd.
  assert (Hd : forall k, 0 <= k -> Z.testbit (Z.div2 w) k = Z.testbit w (k + 1)).
  { intros k Hk. rewrite Z.div2_spec. by apply Z.shiftr_spec. }
  split.
  - intros [Hi|[Hi Hb]].
    + destruct (Z.testbit w 0) eqn:E; [|by apply elem_of_nil in Hi].
      apply list_elem_of_singleton in Hi as ->. rewrite Z.sub_diag. split; [lia|done].
    + rewrite Hd in Hb by lia. split; [lia|]. rewrite <- Hb. f_equal. lia.
  - intros [Hi Hb]. destruct (decide (i = off)) as [->|Hne].
    + left. rewrite Z.sub_diag in Hb. rewrite Hb. by apply list_elem_of_singleton.
    + right. split; [lia|]. rewrite Hd by lia. rewrite <- Hb. f_equal. lia.
Qed.

Lemma elem_of_set_bits n w i :
  i ∈ set_bits n w <-> 0 <= i < Z.of_nat n /\ Z.testbit w i = true.
Proof. unfold set_bits. by rewrite elem_of_set_bits_from, Z.sub_0_r. Qed.

Lemma set_bits_from_sorted n w off : StronglySorted Z.lt (set_bits_from n w off).
Proof.
  revert w off. induction n as [|n IH]; intros w off; cbn [set_bits_from]; [constructor|].
  destruct (Z.odd w); simpl; [|done]. constructor; [done|].
  apply Forall_forall. intros i Hi. apply elem_of_set_bits_from in Hi. lia.
Qed.

Lemma set_bits_from_0 n off : set_bits_from n 0 off = [].
Proof. revert off. induction n as [|n IH]; intros off; [done|]. apply IH. Qed.

(** Doubling a word shifts its bits. *)
Lemma set_bits_from_shift n w off : set_bits_from n w (off + 1) = Z.succ <$> set_bits_from n w off.
Proof.
  revert w off. induction n as [|n IH]; intros w off; [done|]. cbn [set_bits_from].
  rewrite IH. by destruct (Z.odd w).
Qed.

(** Increasing lists with the same elements are equal. *)
Lemma sorted_ext l1 l2 :
  StronglySorted Z.lt l1 -> StronglySorted Z.lt l2 -> (forall x, x ∈ l1 <-> x ∈ l2) -> l1 = l2.
Proof.
  intros H1. revert l2. induction H1 as [|a l1 H1 IH Ha]; intros l2 H2 Hext.
  { apply symmetry, elem_of_nil_inv. intros x Hx. apply Hext in Hx. by apply elem_of_nil in Hx. }
  destruct l2 as [|b l2].
  { assert (Hx : a ∈ []) by (apply Hext; by left). by apply elem_of_nil in Hx. }
  inversion H2 as [|? ? H2' Hb]; subst. rewrite Forall_forall in Ha, Hb.
  assert (a = b) as ->.
  { assert (Hab : a ∈ b :: l2) by (apply Hext; by left).
    assert (Hba : b ∈ a :: l1) by (apply Hext; by left).
    apply elem_of_cons in Hab as [|Hab]; [done|]. apply elem_of_cons in Hba as [|Hba]; [done|].
    specialize (Ha _ Hba). specialize (Hb _ Hab). lia. }
  f_equal. apply IH; [done|]. intros x. specialize (Hext x).
  rewrite !elem_of_cons in Hext. split; intros Hx.
  - destruct (proj1 Hext) as [->|]; [by right| |done]. specialize (Ha _ Hx). lia.
  - destruct (proj2 Hext) as [->|]; [by right| |done]. specialize (Hb _ Hx). lia.
Qed.

Lemma seqZ_sorted a n : StronglySorted Z.lt (seqZ a n).
Proof.
  remember (Z.to_nat n) as k eqn:Hk. revert a n Hk.
  induction k as [|k IH]; intros a n Hk.
  { rewrite seqZ_nil by lia. constructor. }
  rewrite seqZ_cons by lia. constructor; [apply IH; lia|].
  apply Forall_forall. intros x Hx. apply elem_of_seqZ in Hx. lia.
Qed.

Lemma filter_sorted (f : Z -> bool) l :
  StronglySorted Z.lt l -> StronglySorted Z.lt (List.filter f l).
Proof.
  induction 1 as [|a l Hl IH Ha]; simpl; [constructor|]. destruct (f a); [|done].
  constructor; [done|]. rewrite Forall_forall in *. intros x Hx. apply Ha.
  rewrite list_elem_of_In, filter_In, <- list_elem_of_In in Hx. tauto.
Qed.

(** ** [u64::trailing_zeros] and the bit walk *)

Fixpoint pos_ctz (p : positive) : Z :=
  match p with
  | xO p' => 1 + pos_ctz p'
  | _ => 0
  end.

Definition trailing_zeros (w : Z) : Z :=
  match w with
  | Zpos p => pos_ctz p
  | _ => 64
  end.

(** [while w != 0 { visit(w.trailing_zeros()); w &= w - 1 }]. *)
Fixpoint bit_walk (fuel : nat) (w : Z) : outcome (list Z) :=
  match fuel with
  | O => Panic OutOfFuel
  | S n =>
      if w =? 0 then mret [] else
      let b := trailing_zeros w in
      rest ← bit_walk n (Z.land w (w - 1));
      mret (b :: rest)
  end.

Lemma land_pred_double w : 0 < w -> Z.land (2 * w) (2 * w - 1) = 2 * Z.land w (w - 1).
Proof.
  intros Hw. apply Z.bits_inj'. intros n Hn. rewrite Z.land_spec.
  destruct (decide (n = 0)) as [->|].
  { by rewrite !Z.testbit_even_0. }
  replace (2 * w - 1) with (2 * (w - 1) + 1) by lia.
  replace n with (Z.succ (n - 1)) by lia.
  rewrite Z.testbit_odd_succ, !Z.testbit_even_succ, Z.land_spec by lia. done.
Qed.

Lemma land_pred_odd w : 0 <= w -> Z.land (2 * w + 1) (2 * w) = 2 * w.
Proof.
  intros Hw. apply Z.bits_inj'. intros n Hn. rewrite Z.land_spec.
  destruct (decide (n = 0)) as [->|].
  { by rewrite Z.testbit_even_0, andb_false_r. }
  replace n with (Z.succ (n - 1)) by lia.
  rewrite Z.testbit_odd_succ, Z.testbit_even_succ by lia. apply andb_diag.
Qed.

Lemma bit_walk_double f w l :
  0 <= w -> bit_walk f w = Ret l -> bit_walk f (2 * w) = Ret (Z.succ <$> l).
Proof.
  revert w l. induction f as [|f IH]; intros w l Hw; [done|]. cbn [bit_walk].
  destruct (Z.eqb_spec w 0) as [->|Hne]; [by intros [= <-]|].
  rewrite (proj2 (Z.eqb_neq (2 * w) 0)) by lia. rewrite land_pred_double by lia.
  destruct (bit_walk f (Z.land w (w - 1))) as [rest|] eqn:E; [|done].
  intros [= <-]. rewrite (IH _ rest); [|apply Z.land_nonneg; lia|done].
  simpl. do 2 f_equal. destruct w; [lia| |lia]. change (1 + pos_ctz p = Z.succ (pos_ctz p)). lia.
Qed.

(** The walk visits exactly the set bits, in increasing order, and ends. *)
Lemma bit_walk_set_bits n f w :
  0 <= w < 2 ^ Z.of_nat n -> (n < f)%nat -> bit_walk f w = Ret (set_bits n w).
Proof.
  unfold set_bits. revert f w. induction n as [|n IH]; intros f w Hw Hf.
  { assert (w = 0) as -> by (simpl in Hw; lia). by destruct f; [lia|]. }
  cbn [set_bits_from]. rewrite Nat2Z.inj_succ, Z.pow_succ_r in Hw by lia.
  rewrite (set_bits_from_shift n _ 0).
  pose proof (Z.div2_odd w) as Hd. set (h := Z.div2 w) in *.
  destruct (Z.odd w) eqn:Ho; simpl Z.b2z in Hd.
  - clearbody h. subst w. destruct f as [|f]; [lia|]. cbn [bit_walk].
    rewrite (proj2 (Z.eqb_neq (2 * h + 1) 0)) by lia.
    replace (2 * h + 1 - 1) with (2 * h) by lia. rewrite land_pred_odd by lia.
    rewrite (bit_walk_double f h (set_bits_from n h 0)); [|lia|apply IH; lia].
    simpl. do 2 f_equal. destruct h; [done|done|lia].
  - rewrite Hd, Z.add_0_r. apply bit_walk_double; [lia|]. apply IH; lia.
Qed.

(** ** [count_ones] *)

Fixpoint pos_popcount (p : positive) : Z :=
  match p with
  | xH => 1
  | xO p => pos_popcount p
  | xI p => 1 + pos_popcount p
  end.

Definition count_ones (x : Z) : Z :=
  match x with
  | Zpos p => pos_popcount p
  | _ => 0
  end.

Lemma count_ones_step w : 0 <= w -> count_ones w = Z.b2z (Z.odd w) + count_ones (Z.div2 w).
Proof. intros. destruct w as [|[p|p|]|]; simpl; lia. Qed.

Lemma count_ones_set_bits n w off :
  0 <= w < 2 ^ Z.of_nat n -> count_ones w = zlen (set_bits_from n w off).
Proof.
  revert w off. induction n as [|n IH]; intros w off Hw.
  { assert (w = 0) as -> by (simpl in Hw; lia). done. }
  cbn [set_bits_from]. rewrite Nat2Z.inj_succ, Z.pow_succ_r in Hw by lia.
  pose proof (Z.div2_odd w) as Hd.
  rewrite count_ones_step, zlen_app by lia.
  rewrite (IH (Z.div2 w) (off + 1)) by (destruct (Z.odd w); simpl in Hd; lia).
  by destruct (Z.odd w).
Qed.

(** [!x] on a [k]-bit word, bit by bit. *)
Lemma testbit_not x k i :
  0 <= i < k -> Z.testbit (2 ^ k - 1 - x) i = negb (Z.testbit x i).
Proof.
  intros Hi. rewrite <- (Z.mod_pow2_bits_low _ k) by lia.
  replace (2 ^ k - 1 - x) with (Z.lnot x + 1 * 2 ^ k) by (unfold Z.lnot; lia).
  rewrite Z.mod_add by (apply Z.pow_nonzero; lia).
  rewrite Z.mod_pow2_bits_low, Z.lnot_spec by lia. done.
Qed.
