(* ===== verification/CpuLocal.v ===== *)
(** Processor identities and the per-CPU table
    ([crates/embclox-hal-x86/src/cpu_local.rs], [CpuId] of
    [vector_alloc.rs]). *)

From S2P Require Import Prelude.

Inductive CpuId :=
| Bsp
| Ap (n : Z).

#[export] Instance CpuId_eq_dec : EqDecision CpuId.
Proof. solve_decision. Defined.

Definition MAX_CPUS : nat := 8.

Definition slot_of (cpu : CpuId) : Z :=
  match cpu with
  | Bsp => 0
  | Ap n => n
  end.

Definition cpu_id_of (processor_id : Z) : CpuId :=
  if processor_id =? 0 then Bsp else Ap processor_id.

Record CpuLocal := {
  cpu_id : CpuId;
  apic_id : Z;
}.

(** The table [CPU_LOCALS] of write-once slots, and the calling CPU's
    [GS_BASE]. *)
Record cpus := {
  CPU_LOCALS : list (option CpuLocal);
  gs_base : Z;
}.

(** [Once::call_once]: the first value stays. *)
Definition call_once (i : nat) (v : CpuLocal) (c : cpus) : cpus :=
  {| CPU_LOCALS := match CPU_LOCALS c !! i with
                   | Some None => <[i := Some v]> (CPU_LOCALS c)
                   | _ => CPU_LOCALS c
                   end;
     gs_base := gs_base c |}.

Definition set_current (processor_id : Z) (c : cpus) : cpus :=
  {| CPU_LOCALS := CPU_LOCALS c; gs_base := processor_id |}.

Definition init_bsp (apic : Z) : M cpus unit :=
  _ ← modify (call_once 0 {| cpu_id := Bsp; apic_id := apic |});
  modify (set_current 0).

Definition init_ap (processor_id apic : Z) : M cpus unit :=
  _ ← lift (rassert (negb (processor_id =? 0)));
  let slot := processor_id in
  _ ← lift (rassert (slot <? Z.of_nat MAX_CPUS));
  _ ← modify (call_once (Z.to_nat slot) {| cpu_id := Ap processor_id; apic_id := apic |});
  modify (set_current processor_id).

Definition by_id (cpu : CpuId) (c : cpus) : option CpuLocal :=
  match CPU_LOCALS c !! Z.to_nat (slot_of cpu) with
  | Some o => o
  | None => None
  end.

Definition current_cpu_id (c : cpus) : CpuId := cpu_id_of (as_u8 (gs_base c)).

Definition current (c : cpus) : outcome CpuLocal :=
  match by_id (current_cpu_id c) c with
  | Some l => Ret l
  | None => Panic Expect
  end.

(** [CpuId::apic_id]. *)
Definition CpuId_apic_id (cpu : CpuId) (c : cpus) : Z :=
  match by_id cpu c with
  | Some l => apic_id l
  | None => 0
  end.

Definition no_cpus : cpus := {| CPU_LOCALS := replicate MAX_CPUS None; gs_base := 0 |}.

(** ** Properties *)

(** A populated slot holds the identity of its index. *)
Definition cpus_wf (c : cpus) : Prop :=
  length (CPU_LOCALS c) = MAX_CPUS /\
  forall i l, CPU_LOCALS c !! i = Some (Some l) -> slot_of (cpu_id l) = Z.of_nat i /\
    (cpu_id l = Bsp <-> i = 0%nat).

Lemma slot_of_cpu_id_of p : slot_of (cpu_id_of p) = p.
Proof. unfold cpu_id_of. by destruct (Z.eqb_spec p 0) as [->|]. Qed.

Lemma call_once_wf i v c :
  cpus_wf c -> (i < MAX_CPUS)%nat -> slot_of (cpu_id v) = Z.of_nat i ->
  (cpu_id v = Bsp <-> i = 0%nat) -> cpus_wf (call_once i v c).
Proof.
  intros [Hl Hc] Hi Hs Hb. unfold call_once, cpus_wf. simpl.
  destruct (CPU_LOCALS c !! i) as [[l|]|] eqn:E; [done| |done].
  split; [by rewrite length_insert|]. intros j l Hj.
  destruct (decide (i = j)) as [->|Hne].
  - rewrite list_lookup_insert_eq in Hj by lia. by simplify_eq.
  - rewrite list_lookup_insert_ne in Hj by done. by apply Hc.
Qed.

Lemma call_once_lookup i v c :
  cpus_wf c -> (i < MAX_CPUS)%nat ->
  exists l, CPU_LOCALS (call_once i v c) !! i = Some (Some l) /\
    match CPU_LOCALS c !! i with Some (Some l') => l = l' | _ => l = v end.
Proof.
  intros [Hl _] Hi. unfold call_once. simpl.
  destruct (lookup_lt_is_Some_2 (CPU_LOCALS c) i) as [o Ho]; [lia|]. rewrite Ho.
  destruct o as [l|]; [by exists l|]. exists v. by rewrite list_lookup_insert_eq by lia.
Qed.

(** Initialising a processor makes it find its own state: for an
    application processor id in 1..7, [init_ap] keeps the table well formed,
    leaves [current] returning a slot whose identity is that processor, and
    keeps every slot that was already populated (the first call wins); ids 0
    and 8 and above are refused. *)
Theorem init_ap_current c p apic :
  cpus_wf c -> 0 <= p < U8 ->
  if (0 <? p) && (p <? 8) then
    exists c' l, init_ap p apic c = Ret (tt, c') /\ cpus_wf c' /\ current c' = Ret l /\
      cpu_id l = Ap p /\ (by_id (Ap p) c = None -> apic_id l = apic) /\
      (forall cpu l', by_id cpu c = Some l' -> by_id cpu c' = Some l')
  else init_ap p apic c = Panic AssertFailed.
Proof.
  intros Hwf Hp. unfold init_ap, rassert. destruct (Z.eqb_spec p 0) as [->|Hp0]; [done|].
  rewrite (proj2 (Z.ltb_lt 0 p)) by lia. simpl.
  change (Z.of_nat MAX_CPUS) with 8. destruct (Z.ltb_spec p 8) as [Hlt|]; [|done]. simpl.
  set (v := {| cpu_id := Ap p; apic_id := apic |}). set (i := Z.to_nat p).
  assert (Hi : (i < MAX_CPUS)%nat) by (unfold i, MAX_CPUS; lia).
  destruct (call_once_lookup i v c Hwf Hi) as (l & Hl & Hprev).
  assert (Hwf1 : cpus_wf (call_once i v c)).
  { apply call_once_wf; [done..| |]; simpl; unfold i; [lia|split; [done|lia]]. }
  exists (set_current p (call_once i v c)), l. split; [done|]. split; [done|].
  assert (Hcur : current_cpu_id (set_current p (call_once i v c)) = Ap p).
  { unfold current_cpu_id, as_u8. simpl. rewrite Z.mod_small by done.
    unfold cpu_id_of. by rewrite (proj2 (Z.eqb_neq p 0)). }
  split_and!.
  - unfold current. rewrite Hcur. unfold by_id. cbn [slot_of set_current CPU_LOCALS].
    fold i. by rewrite Hl.
  - destruct Hwf1 as [_ Hc]. destruct (Hc _ _ Hl) as [Hs Hb].
    destruct (cpu_id l) as [|n]; simpl in Hs; [unfold i in Hs; lia|]. f_equal. unfold i in Hs. lia.
  - unfold by_id. cbn [slot_of]. fold i. intros Hn.
    destruct (CPU_LOCALS c !! i) as [[l'|]|]; [done| |]; by subst.
  - intros cpu l'. unfold by_id, set_current, call_once. cbn [CPU_LOCALS].
    destruct (CPU_LOCALS c !! i) as [[]|] eqn:Hlk; try done.
    destruct (decide (i = Z.to_nat (slot_of cpu))) as [->|Hne]; [by rewrite Hlk|].
    by rewrite list_lookup_insert_ne by done.
Qed.

Lemma init_ap_current_witness :
  exists c' l, init_ap 3 9 no_cpus = Ret (tt, c') /\ current c' = Ret l /\ cpu_id l = Ap 3.
Proof.
  destruct (init_ap_current no_cpus 3 9) as (c' & l & H1 & _ & H2 & H3 & _).
  - split; [reflexivity|]. intros i l. unfold no_cpus. simpl.
    do 8 (destruct i as [|i]; [discriminate|]). discriminate.
  - done.
  - exists c', l. done.
Defined.
