(* ===== verification/TimeDriver.v ===== *)
(** The time driver ([crates/embclox-hal-x86/src/time.rs]): per-CPU tables of
    alarms, filled by [schedule_wake] and emptied by the timer interrupt. *)

From S2P Require Import Prelude CpuLocal.

Definition MAX_ALARMS : nat := 8.

(** A waker is identified by the task it wakes ([will_wake]). *)
Record Alarm := {
  alarm_at : Z;
  alarm_waker : option Z;
}.

Abbreviation AlarmSlots := (list (option Alarm)).

Record ApicTimeDriver := {
  tsc_per_us : Z;
  alarms : list AlarmSlots;
}.

Definition DRIVER : ApicTimeDriver :=
  {| tsc_per_us := 1; alarms := replicate MAX_CPUS (replicate MAX_ALARMS None) |}.

Definition set_alarms (slot : nat) (s : AlarmSlots) (d : ApicTimeDriver) : ApicTimeDriver :=
  {| tsc_per_us := tsc_per_us d; alarms := <[slot := s]> (alarms d) |}.

Definition set_tsc_per_us (v : Z) : M ApicTimeDriver unit :=
  modify (fun d => {| tsc_per_us := v; alarms := alarms d |}).

(** [tsc] is what the instruction [rdtsc] reads. *)
Definition driver_now (tsc : Z) : M ApicTimeDriver Z :=
  d ← gets id;
  if tsc_per_us d =? 0 then panic DivByZero else mret (tsc / tsc_per_us d).

(** The loop of [schedule_wake]: the slot that already has the waker, or the
    first empty slot. *)
Fixpoint find_slot (i : nat) (s : AlarmSlots) (w : Z) (empty_slot : option nat)
  : nat + option nat :=
  match s with
  | [] => inr empty_slot
  | Some a :: rest =>
      if bool_decide (alarm_waker a = Some w) then inl i else find_slot (S i) rest w empty_slot
  | None :: rest =>
      find_slot (S i) rest w (match empty_slot with None => Some i | Some j => Some j end)
  end.

(** The result is the wakers woken on the spot. *)
Definition schedule_wake (cpu : CpuId) (tsc at_ w : Z) : M ApicTimeDriver (list Z) :=
  let cpu_slot := slot_of cpu in
  d ← gets id;
  s ← lift (index (alarms d) cpu_slot);
  t ← driver_now tsc;
  if at_ <=? t then mret [w] else
  match find_slot 0 s w None with
  | inl i =>
      let keep a := {| alarm_at := at_; alarm_waker := alarm_waker a |} in
      _ ← modify (set_alarms (Z.to_nat cpu_slot) (alter (fmap keep) i s));
      mret []
  | inr (Some i) =>
      let a := {| alarm_at := at_; alarm_waker := Some w |} in
      _ ← modify (set_alarms (Z.to_nat cpu_slot) (<[i := Some a]> s));
      mret []
  | inr None => mret [w]
  end.

(** The loop of [on_timer_tick]: the wakers woken and the slots after. *)
Fixpoint tick_slots (t : Z) (s : AlarmSlots) : list Z * AlarmSlots :=
  match s with
  | [] => ([], [])
  | slot :: rest =>
      let '(ws, rest') := tick_slots t rest in
      match slot with
      | Some a => if alarm_at a <=? t then (option_list (alarm_waker a) ++ ws, None :: rest')
                  else (ws, slot :: rest')
      | None => (ws, None :: rest')
      end
  end.

Definition on_timer_tick (cpu : CpuId) (tsc : Z) : M ApicTimeDriver (list Z) :=
  t ← driver_now tsc;
  let cpu_slot := slot_of cpu in
  d ← gets id;
  s ← lift (index (alarms d) cpu_slot);
  let '(ws, s') := tick_slots t s in
  _ ← modify (set_alarms (Z.to_nat cpu_slot) s');
  mret ws.

(** ** The table as a finite map from wakers to times *)

Definition alarm (at_ w : Z) : Alarm := {| alarm_at := at_; alarm_waker := Some w |}.

(** Every alarm has a waker and no two alarms have the same one. *)
Definition unique (s : AlarmSlots) : Prop :=
  (forall i a, s !! i = Some (Some a) -> is_Some (alarm_waker a)) /\
  (forall i j a b, s !! i = Some (Some a) -> s !! j = Some (Some b) ->
     alarm_waker a = alarm_waker b -> i = j).

Definition slots_wf (s : AlarmSlots) : Prop := length s = MAX_ALARMS /\ unique s.

Definition alarm_map (s : AlarmSlots) : gmap Z Z :=
  foldr (fun slot m => match slot with
                       | Some {| alarm_at := t; alarm_waker := Some w |} => <[w := t]> m
                       | _ => m
                       end) ∅ s.

Lemma unique_tail x s : unique (x :: s) -> unique s.
Proof.
  intros [Hs Hu]. split; [intros i a Hi; by apply (Hs (S i))|].
  intros i j a b Hi Hj Hw. by pose proof (Hu (S i) (S j) a b Hi Hj Hw) as [= ->].
Qed.

Lemma alarm_map_lookup s w t :
  unique s -> alarm_map s !! w = Some t <-> exists i, s !! i = Some (Some (alarm t w)).
Proof.
  induction s as [|x s IH]; intros Hu; simpl; [split; [done|intros [i Hi]; done]|].
  specialize (IH (unique_tail _ _ Hu)). destruct x as [[t' [w'|]]|].
  - rewrite lookup_insert_Some, IH. split.
    + intros [[-> ->]|[Hne [i Hi]]]; [by exists 0%nat|by exists (S i)].
    + intros [[|i] Hi]; simpl in Hi; [left; by injection Hi as -> ->|].
      destruct (decide (w' = w)) as [->|]; [|right; eauto].
      exfalso. destruct Hu as [_ Hu]. by specialize (Hu 0%nat (S i) _ _ eq_refl Hi eq_refl).
  - destruct Hu as [Hs _]. by destruct (Hs 0%nat _ eq_refl).
  - rewrite IH. split; [intros [i Hi]; by exists (S i)|].
    intros [[|i] Hi]; [done|by exists i].
Qed.

(** The number of alarms. *)
Lemma alarm_map_size s : unique s -> size (alarm_map s) = length (omap id s).
Proof.
  induction s as [|x s IH]; intros Hu; [done|]. specialize (IH (unique_tail _ _ Hu)).
  destruct x as [[t [w|]]|]; simpl.
  - rewrite map_size_insert_None, IH; [done|]. apply eq_None_not_Some. intros [t' Ht].
    apply alarm_map_lookup in Ht as [i Hi]; [|by eapply unique_tail].
    destruct Hu as [_ Hu]. by specialize (Hu 0%nat (S i) _ _ eq_refl Hi eq_refl).
  - destruct Hu as [Hs _]. by destruct (Hs 0%nat _ eq_refl).
  - done.
Qed.

Lemma find_slot_spec k s w e :
  match find_slot k s w e with
  | inl i => exists j a, i = (k + j)%nat /\ s !! j = Some (Some a) /\ alarm_waker a = Some w
  | inr e' =>
      (forall j a, s !! j = Some (Some a) -> alarm_waker a <> Some w) /\
      match e, e' with
      | Some _, _ => e' = e
      | None, Some i => exists j, i = (k + j)%nat /\ s !! j = Some None
      | None, None => length (omap id s) = length s
      end
  end.
Proof.
  revert k e. induction s as [|[a|] s IH]; intros k e; simpl.
  - split; [done|by destruct e].
  - case_bool_decide as Hw; [exists 0%nat, a; by rewrite Nat.add_0_r|].
    specialize (IH (S k) e). destruct (find_slot (S k) s w e) as [i|e'].
    + destruct IH as (j & b & -> & Hj & Hb). exists (S j), b. split; [lia|done].
    + destruct IH as [Hno He]. split.
      * intros [|j] b Hj; simpl in Hj; [by simplify_eq|by eapply Hno].
      * destruct e; [done|]. destruct e' as [i|]; [|f_equal; exact He].
        destruct He as (j & -> & Hj). exists (S j). split; [lia|done].
  - set (e1 := match e with None => Some k | Some j => Some j end).
    specialize (IH (S k) e1). destruct (find_slot (S k) s w e1) as [i|e'].
    + destruct IH as (j & b & -> & Hj & Hb). exists (S j), b. split; [lia|done].
    + destruct IH as [Hno He]. split; [intros [|j] b Hj; [done|by eapply Hno]|].
      unfold e1 in He. destruct e as [x|]; [done|]. subst e'.
      exists 0%nat. split; [lia|done].
Qed.

(** Writing an alarm for [w] into a slot, the only one that may have had one. *)
Lemma alarm_map_set s i w t :
  unique s -> (i < length s)%nat ->
  (forall j a, s !! j = Some (Some a) -> alarm_waker a = Some w -> j = i) ->
  (forall a, s !! i = Some (Some a) -> alarm_waker a = Some w) ->
  unique (<[i := Some (alarm t w)]> s) /\
  alarm_map (<[i := Some (alarm t w)]> s) = <[w := t]> (alarm_map s).
Proof.
  intros Hu Hi Honly Hat. pose proof Hu as [Hs Huq].
  assert (Hu' : unique (<[i := Some (alarm t w)]> s)).
  { split.
    - intros j a [(-> & [= <-] & _)|[_ Hj]]%list_lookup_insert_Some; [done|by eapply Hs].
    - intros j k a b Hj Hk Hw.
      apply list_lookup_insert_Some in Hj as [(<- & [= <-] & _)|[Hne Hj]];
        apply list_lookup_insert_Some in Hk as [(<- & [= <-] & _)|[Hne' Hk]].
      + done.
      + symmetry. by eapply Honly.
      + by eapply Honly.
      + by eapply Huq. }
  split; [done|]. apply map_eq. intros w'. apply option_eq. intros t'.
  rewrite alarm_map_lookup, lookup_insert_Some, alarm_map_lookup by done. split.
  - intros [j Hj]. apply list_lookup_insert_Some in Hj as [(<- & [= -> ->] & _)|[Hne Hj]]; [by left|].
    right. split; [|eauto]. intros ->. by apply Hne, eq_sym, (Honly j (alarm t' w')).
  - intros [[-> ->]|[Hne [j Hj]]].
    + exists i. by rewrite list_lookup_insert_eq.
    + exists j. rewrite list_lookup_insert_ne; [done|]. intros ->.
      by specialize (Hat _ Hj) as [= ->].
Qed.

(** What scheduling does to the map, and which wakers it wakes at once. *)
Definition schedule_map (m : gmap Z Z) (t at_ w : Z) : list Z * gmap Z Z :=
  if at_ <=? t then ([w], m)
  else if bool_decide (is_Some (m !! w)) || (size m <? MAX_ALARMS)%nat then ([], <[w := at_]> m)
  else ([w], m).

Lemma alter_keep (s : AlarmSlots) (i : nat) a t w :
  s !! i = Some (Some a) -> alarm_waker a = Some w ->
  alter (fmap (fun a => {| alarm_at := t; alarm_waker := alarm_waker a |})) i s =
  <[i := Some (alarm t w)]> s.
Proof.
  intros Hi Hw. apply list_eq. intros j. destruct (decide (i = j)) as [<-|Hne].
  - rewrite list_lookup_alter_eq, Hi, list_lookup_insert_eq by (by eapply lookup_lt_Some).
    simpl. by rewrite Hw.
  - by rewrite list_lookup_alter_ne, list_lookup_insert_ne.
Qed.

Lemma driver_now_ok d tsc :
  0 < tsc_per_us d -> driver_now tsc d = Ret (tsc / tsc_per_us d, d).
Proof.
  intros. unfold driver_now, mbind, M_bind, gets.
  by rewrite (proj2 (Z.eqb_neq _ _)) by (unfold id; lia).
Qed.

Lemma index_ok {A} (l : list A) i a :
  l !! Z.to_nat i = Some a -> index l i = Ret a.
Proof. unfold index. by intros ->. Qed.

Lemma schedule_wake_runs d cpu tsc at_ w s :
  alarms d !! Z.to_nat (slot_of cpu) = Some s -> 0 < tsc_per_us d ->
  schedule_wake cpu tsc at_ w d =
  if at_ <=? tsc / tsc_per_us d then Ret ([w], d) else
  match find_slot 0 s w None with
  | inl i =>
      let keep a := {| alarm_at := at_; alarm_waker := alarm_waker a |} in
      Ret ([], set_alarms (Z.to_nat (slot_of cpu)) (alter (fmap keep) i s) d)
  | inr (Some i) => Ret ([], set_alarms (Z.to_nat (slot_of cpu)) (<[i := Some (alarm at_ w)]> s) d)
  | inr None => Ret ([w], d)
  end.
Proof.
  intros Hs Htsc. unfold schedule_wake. erewrite bind_Ret by done. cbv beta zeta.
  rewrite (bind_lift _ _ _ s) by (by apply index_ok).
  erewrite bind_Ret by (by apply driver_now_ok). cbv beta.
  destruct (_ <=? _); [done|]. by destruct (find_slot 0 s w None) as [i|[i|]].
Qed.

Lemma length_omap_id (s : AlarmSlots) : (length (omap id s) <= length s)%nat.
Proof.
  induction s as [|[a|] s IH]; [done|..].
  - change (omap id (Some a :: s)) with (a :: omap id s). simpl. lia.
  - change (omap id (None :: s)) with (omap id s). simpl. lia.
Qed.

Lemma free_slot_size s j :
  unique s -> s !! j = Some None -> (size (alarm_map s) < length s)%nat.
Proof.
  intros Hu Hj. rewrite alarm_map_size by done. clear Hu.
  revert j Hj. induction s as [|[a|] s IH]; intros [|j] Hj; try discriminate Hj.
  - change (omap id (Some a :: s)) with (a :: omap id s). simpl. specialize (IH j Hj). lia.
  - change (omap id (None :: s)) with (omap id s). simpl. pose proof (length_omap_id s). lia.
  - change (omap id (None :: s)) with (omap id s). simpl. specialize (IH j Hj). lia.
Qed.

Lemma schedule_wake_map d cpu tsc at_ w s :
  alarms d !! Z.to_nat (slot_of cpu) = Some s -> slots_wf s -> 0 < tsc_per_us d ->
  let res := schedule_map (alarm_map s) (tsc / tsc_per_us d) at_ w in
  exists s', schedule_wake cpu tsc at_ w d = Ret (res.1, set_alarms (Z.to_nat (slot_of cpu)) s' d) /\
    slots_wf s' /\ alarm_map s' = res.2.
Proof.
  intros Hs [Hlen Hu] Htsc res. subst res. rewrite (schedule_wake_runs _ _ _ _ _ s) by done.
  unfold schedule_map.
  assert (Hid : set_alarms (Z.to_nat (slot_of cpu)) s d = d).
  { unfold set_alarms. rewrite list_insert_id by done. by destruct d. }
  destruct (at_ <=? tsc / tsc_per_us d); [by exists s; rewrite Hid|].
  pose proof (find_slot_spec 0 s w None) as Hf.
  destruct (find_slot 0 s w None) as [i|[i|]].
  - destruct Hf as (j & a & -> & Hj & Ha). cbn [Nat.add].
    destruct (alarm_map_set s j w at_ Hu) as [Hu' Hm];
      [by eapply lookup_lt_Some|intros k b Hk Hb; eapply Hu; [done..|congruence]|congruence|].
    rewrite bool_decide_true.
    2: { exists (alarm_at a). apply alarm_map_lookup; [done|]. exists j. rewrite Hj.
         destruct a as [ta wa]. simpl in Ha. by subst wa. }
    exists (<[j := Some (alarm at_ w)]> s). cbn [orb fst snd]. cbv zeta.
    rewrite (alter_keep s j a at_ w) by done.
    split_and!; [done|split; [by rewrite length_insert|done]|done].
  - destruct Hf as [Hno (j & -> & Hj)]. cbn [Nat.add].
    destruct (alarm_map_set s j w at_ Hu) as [Hu' Hm];
      [by eapply lookup_lt_Some|intros k b Hk Hb; by destruct (Hno k b Hk)|congruence|].
    rewrite (proj2 (Nat.ltb_lt _ _)) by (rewrite <- Hlen; by eapply free_slot_size).
    rewrite orb_true_r. exists (<[j := Some (alarm at_ w)]> s).
    split_and!; [done|split; [by rewrite length_insert|done]|done].
  - destruct Hf as [Hno Hfull]. exists s. rewrite Hid.
    rewrite bool_decide_false.
    2: { intros [t Ht]. apply alarm_map_lookup in Ht as [j Hj]; [|done]. by destruct (Hno j _ Hj). }
    rewrite (proj2 (Nat.ltb_ge _ _)) by (rewrite alarm_map_size, Hfull, Hlen by done; lia).
    done.
Qed.

(** ** The timer interrupt *)

Lemma tick_slots_lookup t s i a :
  (tick_slots t s).2 !! i = Some (Some a) <-> s !! i = Some (Some a) /\ t < alarm_at a.
Proof.
  revert i. induction s as [|x s IH]; intros i; simpl; [by rewrite lookup_nil; split; [|intros []]|].
  destruct (tick_slots t s) as [ws s']. cbn [snd] in IH.
  destruct x as [b|]; [destruct (Z.leb_spec (alarm_at b) t)|]; cbn [snd];
    destruct i as [|i]; cbn [lookup list_lookup]; rewrite ?IH; split; intros H'; try done.
  - destruct H' as [[= ->] ?]. lia.
  - injection H' as ->. done.
  - by destruct H'.
  - by destruct H'.
Qed.

Lemma tick_slots_length t s : length (tick_slots t s).2 = length s.
Proof.
  induction s as [|x s IH]; [done|]. simpl. destruct (tick_slots t s). cbn [snd] in IH.
  destruct x as [a|]; [destruct (_ <=? _)|]; simpl; by rewrite IH.
Qed.

Lemma tick_slots_unique t s : unique s -> unique (tick_slots t s).2.
Proof.
  intros [Hs Hu]. split.
  - intros i a Hi. apply tick_slots_lookup in Hi as [Hi _]. by eapply Hs.
  - intros i j a b Hi Hj. apply tick_slots_lookup in Hi as [Hi _], Hj as [Hj _]. by eapply Hu.
Qed.

Lemma elem_of_option_list' {A} (x : A) o : x ∈ option_list o <-> o = Some x.
Proof.
  destruct o as [y|]; simpl; [rewrite list_elem_of_singleton; split; congruence|].
  split; [by intros ?%elem_of_nil|done].
Qed.

Lemma tick_slots_woken t s w :
  w ∈ (tick_slots t s).1 <-> exists i a, s !! i = Some (Some a) /\ alarm_at a <= t /\
                                        alarm_waker a = Some w.
Proof.
  induction s as [|x s IH]; simpl; [split; [by intros ?%elem_of_nil|by intros (i & a & Hi & _)]|].
  destruct (tick_slots t s) as [ws s']. cbn [fst] in IH.
  assert (Hrest : w ∈ ws <-> exists i a, (x :: s) !! S i = Some (Some a) /\ alarm_at a <= t /\
                                      alarm_waker a = Some w) by exact IH.
  assert (Hcase : (exists i a, (x :: s) !! i = Some (Some a) /\ alarm_at a <= t /\
                              alarm_waker a = Some w) <->
    (exists a, x = Some a /\ alarm_at a <= t /\ alarm_waker a = Some w) \/ w ∈ ws).
  { rewrite Hrest. split.
    - intros ([|i] & a & Hi & ?); [left; simplify_eq/=; eauto|right; eauto].
    - intros [(a & -> & ?)|(i & a & Hi & ?)]; [by exists 0%nat, a|by exists (S i), a]. }
  rewrite Hcase. destruct x as [b|]; [destruct (Z.leb_spec (alarm_at b) t) as [Hle|Hgt]|]; cbn [fst].
  - rewrite elem_of_app, elem_of_option_list'. split; intros [H'|H']; [left; eauto|by right| |by right].
    left. by destruct H' as (a & [= ->] & _ & ?).
  - split; [by right|]. intros [(a & [= ->] & ? & _)|?]; [lia|done].
  - split; [by right|]. by intros [(a & ? & _)|?].
Qed.

Lemma tick_slots_nodup t s : unique s -> NoDup (tick_slots t s).1.
Proof.
  induction s as [|x s IH]; intros Hu; simpl; [constructor|].
  specialize (IH (unique_tail _ _ Hu)). pose proof (fun w => tick_slots_woken t s w) as Hw.
  destruct (tick_slots t s) as [ws s']. cbn [fst] in *.
  destruct x as [b|]; [destruct (alarm_at b <=? t)|]; try done.
  destruct (alarm_waker b) as [w|] eqn:Hb; [|done]. simpl. constructor; [|done].
  intros (i & a & Hi & _ & Ha)%Hw. destruct Hu as [_ Hu].
  by specialize (Hu 0%nat (S i) b a eq_refl Hi ltac:(congruence)).
Qed.

Lemma on_timer_tick_map d cpu tsc s :
  alarms d !! Z.to_nat (slot_of cpu) = Some s -> slots_wf s -> 0 < tsc_per_us d ->
  let t := tsc / tsc_per_us d in
  exists ws s', on_timer_tick cpu tsc d = Ret (ws, set_alarms (Z.to_nat (slot_of cpu)) s' d) /\
    slots_wf s' /\ NoDup ws /\
    (forall w, w ∈ ws <-> exists at_, alarm_map s !! w = Some at_ /\ at_ <= t) /\
    alarm_map s' = filter (fun '(_, at_) => t < at_) (alarm_map s).
Proof.
  intros Hs [Hlen Hu] Htsc t.
  exists (tick_slots t s).1, (tick_slots t s).2. split_and!.
  - unfold on_timer_tick. erewrite bind_Ret by (by apply driver_now_ok). cbv beta zeta.
    erewrite bind_Ret by done. rewrite (bind_lift _ _ _ s) by (by apply index_ok). fold t.
    by destruct (tick_slots t s).
  - split; [by rewrite tick_slots_length|by apply tick_slots_unique].
  - by apply tick_slots_nodup.
  - intros w. rewrite tick_slots_woken. split.
    + intros (i & [at_ wk] & Hi & Hat & Hw). simpl in *. subst wk. exists at_. split; [|done].
      apply alarm_map_lookup; [done|]. by exists i.
    + intros (at_ & Hm & Hat). apply alarm_map_lookup in Hm as [i Hi]; [|done].
      by exists i, (alarm at_ w).
  - apply map_eq. intros w. apply option_eq. intros at_.
    rewrite map_lookup_filter_Some, !alarm_map_lookup by (done || by apply tick_slots_unique).
    split.
    + intros [i Hi]. apply tick_slots_lookup in Hi as [Hi Ht]. eauto.
    + intros [[i Hi] Ht]. exists i. by apply tick_slots_lookup.
Qed.

Lemma set_alarms_set_alarms i s s' d : set_alarms i s (set_alarms i s' d) = set_alarms i s d.
Proof. unfold set_alarms. simpl. by rewrite list_insert_insert_eq. Qed.

Lemma alarms_set_alarms i s s' d :
  alarms d !! i = Some s -> alarms (set_alarms i s' d) !! i = Some s'.
Proof. intros Hi. apply list_lookup_insert_eq. by eapply lookup_lt_Some. Qed.

(** ** The claims *)

(** C16: on each CPU the driver implements a bounded map from wakers to times.
    [schedule_wake] wakes the waker at once when its time has passed or all
    eight slots are taken by other wakers; otherwise the waker's entry becomes
    the new time, whether or not it had one.  A timer interrupt wakes exactly
    the wakers whose time has come, each once, and removes exactly those
    entries.  Only the calling CPU's table changes. *)
Theorem time_driver_refines d cpu tsc s :
  alarms d !! Z.to_nat (slot_of cpu) = Some s -> slots_wf s -> 0 < tsc_per_us d ->
  let t := tsc / tsc_per_us d in
  let update s' := set_alarms (Z.to_nat (slot_of cpu)) s' d in
  (forall at_ w, exists s',
     schedule_wake cpu tsc at_ w d = Ret ((schedule_map (alarm_map s) t at_ w).1, update s') /\
     slots_wf s' /\ alarm_map s' = (schedule_map (alarm_map s) t at_ w).2) /\
  (exists ws s', on_timer_tick cpu tsc d = Ret (ws, update s') /\ slots_wf s' /\ NoDup ws /\
     (forall w, w ∈ ws <-> exists at_, alarm_map s !! w = Some at_ /\ at_ <= t) /\
     alarm_map s' = filter (fun '(_, at_) => t < at_) (alarm_map s)).
Proof.
  intros Hs Hwf Htsc t update.
  split; [intros at_ w; by apply schedule_wake_map|by apply on_timer_tick_map].
Qed.

(** C17: a task that waits for two moments is only woken for the one it
    scheduled last.  When it has scheduled [at1] and then the later [at2], the
    entry for [at1] is gone: a timer interrupt between the two moments does
    not wake it, and leaves it waiting for [at2]. *)
Theorem schedule_wake_forgets_earlier d cpu tsc1 tsc2 tsc3 at1 at2 w s :
  alarms d !! Z.to_nat (slot_of cpu) = Some s -> slots_wf s -> 0 < tsc_per_us d ->
  is_Some (alarm_map s !! w) \/ (size (alarm_map s) < MAX_ALARMS)%nat ->
  tsc1 / tsc_per_us d < at1 -> tsc2 / tsc_per_us d < at1 ->
  at1 <= tsc3 / tsc_per_us d < at2 ->
  exists ws s', (_ ← schedule_wake cpu tsc1 at1 w; _ ← schedule_wake cpu tsc2 at2 w;
                 on_timer_tick cpu tsc3) d = Ret (ws, set_alarms (Z.to_nat (slot_of cpu)) s' d) /\
    (w ∉ ws) /\ alarm_map s' !! w = Some at2.
Proof.
  intros Hs Hwf Htsc Hroom Ht1 Ht2 Ht3.
  destruct (schedule_wake_map d cpu tsc1 at1 w s Hs Hwf Htsc) as (s1 & E1 & Hwf1 & Hm1).
  set (d1 := set_alarms (Z.to_nat (slot_of cpu)) s1 d) in *.
  assert (Hs1 : alarms d1 !! Z.to_nat (slot_of cpu) = Some s1) by (by eapply alarms_set_alarms).
  destruct (schedule_wake_map d1 cpu tsc2 at2 w s1 Hs1 Hwf1 Htsc) as (s2 & E2 & Hwf2 & Hm2).
  set (d2 := set_alarms (Z.to_nat (slot_of cpu)) s2 d1) in *.
  assert (Hs2 : alarms d2 !! Z.to_nat (slot_of cpu) = Some s2) by (by eapply alarms_set_alarms).
  destruct (on_timer_tick_map d2 cpu tsc3 s2 Hs2 Hwf2 Htsc) as (ws & s3 & E3 & _ & _ & Hw & Hm3).
  exists ws, s3. erewrite bind_Ret by exact E1. cbv beta. erewrite bind_Ret by exact E2. cbv beta.
  rewrite E3. unfold d2, d1 at 1. rewrite !set_alarms_set_alarms. split; [done|].
  assert (H1 : alarm_map s1 !! w = Some at1).
  { rewrite Hm1. unfold schedule_map. rewrite (proj2 (Z.leb_gt _ _)) by lia.
    replace (_ || _) with true; [cbn [snd]; by rewrite lookup_insert_eq|].
    symmetry. apply orb_true_iff. rewrite bool_decide_eq_true, Nat.ltb_lt. done. }
  change (tsc_per_us d1) with (tsc_per_us d) in Hm2. change (tsc_per_us d2) with (tsc_per_us d) in *.
  assert (H2 : alarm_map s2 !! w = Some at2).
  { rewrite Hm2. unfold schedule_map. rewrite (proj2 (Z.leb_gt _ _)) by lia.
    rewrite bool_decide_true by eauto. cbn [snd orb]. by rewrite lookup_insert_eq. }
  split.
  - rewrite Hw. intros (at_ & Hat & Hle). simplify_eq. lia.
  - rewrite Hm3. apply map_lookup_filter_Some. split; [done|lia].
Qed.

(** ** Witnesses *)

Lemma slots_wf_new : slots_wf (replicate MAX_ALARMS None).
Proof.
  split; [done|]. split.
  - intros i a Hi. by apply lookup_replicate in Hi as [? _].
  - intros i j a b Hi. by apply lookup_replicate in Hi as [? _].
Qed.

Definition one_alarm : AlarmSlots := Some (alarm 100 7) :: replicate 7 None.

Lemma slots_wf_one : slots_wf one_alarm.
Proof.
  split; [done|]. split.
  - intros [|i] a Hi; simpl in Hi; [by simplify_eq|]. by apply (lookup_replicate 7) in Hi as [? _].
  - intros [|i] [|j] a b Hi Hj; simpl in *; try done; exfalso.
    + by apply (lookup_replicate 7) in Hj as [? _].
    + by apply (lookup_replicate 7) in Hi as [? _].
    + by apply (lookup_replicate 7) in Hj as [? _].
Qed.

Lemma time_driver_refines_witness :
  let d := set_alarms 0 one_alarm DRIVER in
  (exists s', schedule_wake Bsp 200 300 8 d = Ret ([], set_alarms 0 s' d) /\
     alarm_map s' = {[7 := 100; 8 := 300]}) /\
  (exists ws s', on_timer_tick Bsp 200 d = Ret (ws, set_alarms 0 s' d) /\
     7 ∈ ws /\ alarm_map s' !! 7 = None).
Proof.
  intros d.
  destruct (time_driver_refines d Bsp 200 one_alarm eq_refl slots_wf_one ltac:(done)) as [Hs Ht].
  split.
  - destruct (Hs 300 8) as (s' & E & _ & Hm). exists s'. split; [exact E|rewrite Hm; by vm_compute].
  - destruct Ht as (ws & s' & E & _ & _ & Hw & Hm). exists ws, s'. split; [exact E|]. split.
    + apply Hw. exists 100. by split; vm_compute.
    + rewrite Hm. by vm_compute.
Defined.

Lemma schedule_wake_forgets_earlier_witness :
  exists ws s', (_ ← schedule_wake Bsp 50 100 7; _ ← schedule_wake Bsp 60 500 7;
                 on_timer_tick Bsp 200) DRIVER = Ret (ws, set_alarms 0 s' DRIVER) /\
    (7 ∉ ws) /\ alarm_map s' !! 7 = Some 500.
Proof.
  apply (schedule_wake_forgets_earlier DRIVER Bsp 50 60 200 100 500 7 (replicate MAX_ALARMS None));
    [reflexivity|exact slots_wf_new|reflexivity|right; vm_compute; lia
    |vm_compute; reflexivity|vm_compute; reflexivity|vm_compute; split; congruence].
Defined.
