(* ===== verification/Cmdline.v ===== *)
(** The kernel command line ([crates/embclox-hal-x86/src/cmdline.rs]): the
    network mode, the driver filter and the SMP settings.  A [&str] is its
    list of bytes; the methods of [str] the source uses come first. *)

From Stdlib Require Import Ascii String.
From S2P Require Import Prelude.

#[export] Instance ascii_eq_dec : EqDecision ascii := Ascii.ascii_dec.

Abbreviation str := (list ascii).

Definition lit (s : string) : str := list_ascii_of_string s.

(** ** The standard library's text functions *)

Definition code (c : ascii) : Z := Z.of_nat (nat_of_ascii c).

(** Space, tab, line feed, form feed and carriage return. *)
Definition is_ascii_whitespace (c : ascii) : bool :=
  (code c =? 32) || (code c =? 9) || (code c =? 10) || (code c =? 12) || (code c =? 13).

Definition to_ascii_lowercase (c : ascii) : ascii :=
  if (65 <=? code c) && (code c <=? 90) then ascii_of_nat (nat_of_ascii c + 32) else c.

Definition eq_ignore_ascii_case (s t : str) : bool :=
  bool_decide (map to_ascii_lowercase s = map to_ascii_lowercase t).

Fixpoint strip_prefix (pre s : str) : option str :=
  match pre, s with
  | [], _ => Some s
  | p :: pre', c :: s' => if bool_decide (p = c) then strip_prefix pre' s' else None
  | _ :: _, [] => None
  end.

(** The pieces of [s] between the characters that satisfy [p]. *)
Fixpoint split (p : ascii -> bool) (s : str) : list str :=
  match s with
  | [] => [[]]
  | c :: s' =>
      if p c then [] :: split p s' else
      match split p s' with
      | w :: ws => (c :: w) :: ws
      | [] => [[c]]
      end
  end.

Definition split_ascii_whitespace (s : str) : list str :=
  filter (fun w => w <> []) (split is_ascii_whitespace s).

Fixpoint split_once (sep : ascii) (s : str) : option (str * str) :=
  match s with
  | [] => None
  | c :: s' =>
      if bool_decide (c = sep) then Some ([], s') else
      '(a, b) ← split_once sep s'; Some (c :: a, b)
  end.

Definition to_digit (c : ascii) : option Z :=
  if (48 <=? code c) && (code c <=? 57) then Some (code c - 48) else None.

Fixpoint parse_digits (max acc : Z) (s : str) : option Z :=
  match s with
  | [] => Some acc
  | c :: s' =>
      d ← to_digit c;
      if 10 * acc + d <=? max then parse_digits max (10 * acc + d) s' else None
  end.

(** [str::parse] at an unsigned type with the largest value [max]. *)
Definition parse_uint (max : Z) (s : str) : option Z :=
  match s with
  | [] => None
  | c :: s' =>
      if bool_decide (c = "+"%char \/ c = "-"%char) && bool_decide (s' = []) then None
      else if bool_decide (c = "+"%char) then parse_digits max 0 s'
      else parse_digits max 0 s
  end.

Definition parse_u8 : str -> option Z := parse_uint 255.
Definition parse_usize : str -> option Z := parse_uint (2 ^ 64 - 1).

(** ** cmdline.rs *)

Abbreviation octets := (list Z).

Inductive NetMode :=
| Dhcp
| Static (ip : octets) (prefix : Z) (gw : octets).

Record StaticDefaults := {
  default_ip : octets;
  default_prefix : Z;
  default_gw : octets;
}.

(** [parts.next()?.parse::<u8>().ok()?] *)
Definition next_u8 (parts : list str) : option (Z * list str) :=
  match parts with
  | [] => None
  | p :: rest => n ← parse_u8 p; Some (n, rest)
  end.

Definition parse_ipv4 (s : str) : option octets :=
  let parts := split (fun c => bool_decide (c = "."%char)) s in
  '(a, parts) ← next_u8 parts;
  '(b, parts) ← next_u8 parts;
  '(c, parts) ← next_u8 parts;
  '(d, parts) ← next_u8 parts;
  match parts with
  | [] => Some [a; b; c; d]
  | _ => None
  end.

Definition parse_ipv4_cidr (s : str) : option (octets * Z) :=
  '(ip_part, prefix_part) ← split_once "/"%char s;
  ip ← parse_ipv4 ip_part;
  prefix ← parse_u8 prefix_part;
  if 32 <? prefix then None else Some (ip, prefix).

(** One round of the token loop of [parse_net_mode]. *)
Definition net_token (st : str * option str * option str) (tok : str)
  : str * option str * option str :=
  let '(mode, ip_cidr, gw) := st in
  match strip_prefix (lit "net=") tok with
  | Some rest => (rest, ip_cidr, gw)
  | None =>
      match strip_prefix (lit "ip=") tok with
      | Some rest => (mode, Some rest, gw)
      | None =>
          match strip_prefix (lit "gw=") tok with
          | Some rest => (mode, ip_cidr, Some rest)
          | None => st
          end
      end
  end.

Definition parse_net_mode (cmdline : str) (defaults : StaticDefaults) : NetMode :=
  let '(mode, ip_cidr, gw) :=
    fold_left net_token (split_ascii_whitespace cmdline) (lit "static", None, None) in
  if eq_ignore_ascii_case mode (lit "dhcp") then Dhcp else
  let '(ip, prefix) :=
    default (default_ip defaults, default_prefix defaults) (ip_cidr ≫= parse_ipv4_cidr) in
  let gw := default (default_gw defaults) (gw ≫= parse_ipv4) in
  Static ip prefix gw.

Fixpoint find_map {A B} (f : A -> option B) (l : list A) : option B :=
  match l with
  | [] => None
  | x :: l' => match f x with Some y => Some y | None => find_map f l' end
  end.

Definition parse_nic_filter (cmdline : str) : option str :=
  match find_map (strip_prefix (lit "nic=")) (split_ascii_whitespace cmdline) with
  | Some s => if bool_decide (s = []) then None else Some s
  | None => None
  end.

Record SmpConfig := {
  enabled : bool;
  max_aps : option Z;
}.

Definition DISABLED : SmpConfig := {| enabled := false; max_aps := None |}.

(** One round of the token loop of [parse_smp]. *)
Definition smp_token (st : bool * option Z) (tok : str) : bool * option Z :=
  let '(enabled, max_aps) := st in
  match strip_prefix (lit "smp=") tok with
  | Some rest => if eq_ignore_ascii_case rest (lit "on") then (true, max_aps) else st
  | None =>
      match strip_prefix (lit "cpus=") tok with
      | Some rest =>
          match parse_usize rest with
          | Some n => if 0 <? n then (enabled, Some (Z.max 0 (n - 1))) else st
          | None => st
          end
      | None => st
      end
  end.

Definition parse_smp (cmdline : str) : SmpConfig :=
  let '(enabled, max_aps) :=
    fold_left smp_token (split_ascii_whitespace cmdline) (false, None) in
  {| enabled := enabled; max_aps := max_aps |}.

(** ** Numerals *)

Definition is_digit (c : ascii) : Prop := 48 <= code c <= 57.

Fixpoint value (acc : Z) (s : str) : Z :=
  match s with
  | [] => acc
  | c :: s' => value (10 * acc + (code c - 48)) s'
  end.

(** [s] writes the number [n], at most [max], in decimal: digits, leading
    zeros allowed, after an optional plus sign. *)
Definition numeral (max : Z) (s : str) (n : Z) : Prop :=
  exists ds, (s = ds \/ s = "+"%char :: ds) /\ ds <> [] /\ Forall is_digit ds /\
    value 0 ds = n /\ n <= max.

Lemma to_digit_Some c d : to_digit c = Some d <-> is_digit c /\ d = code c - 48.
Proof.
  unfold to_digit, is_digit.
  destruct (Z.leb_spec 48 (code c)), (Z.leb_spec (code c) 57); simpl; split; intros; simplify_eq; try lia.
  destruct_and!; subst; done.
Qed.

Lemma value_le acc s : 0 <= acc -> Forall is_digit s -> acc <= value acc s.
Proof.
  revert acc. induction s as [|c s IH]; intros acc Hacc Hs; simpl; [lia|].
  inversion_clear Hs as [|? ? Hc Hs']. unfold is_digit in Hc.
  specialize (IH (10 * acc + (code c - 48)) ltac:(lia) Hs'). lia.
Qed.

Lemma parse_digits_spec max acc s n :
  0 <= acc <= max ->
  parse_digits max acc s = Some n <-> Forall is_digit s /\ value acc s = n /\ n <= max.
Proof.
  revert acc. induction s as [|c s IH]; intros acc Hacc; simpl.
  - split; [intros [= ->]; split_and!; [constructor|done|lia]|by intros (_ & -> & _)].
  - destruct (to_digit c) as [d|] eqn:Hd; simpl.
    + apply to_digit_Some in Hd as [Hc ->]. pose proof Hc as Hrange. unfold is_digit in Hrange.
      destruct (Z.leb_spec (10 * acc + (code c - 48)) max).
      * rewrite IH by lia. rewrite Forall_cons. tauto.
      * split; [done|]. intros (Hs & <- & Hn). inversion_clear Hs as [|? ? _ Hs'].
        pose proof (value_le (10 * acc + (code c - 48)) s ltac:(lia) Hs'). lia.
    + split; [done|]. intros (Hs & _). inversion_clear Hs as [|? ? Hc _].
      by rewrite (proj2 (to_digit_Some c (code c - 48))) in Hd.
Qed.

Lemma parse_uint_spec max s n : 0 <= max -> parse_uint max s = Some n <-> numeral max s n.
Proof.
  intros Hmax. unfold parse_uint, numeral.
  assert (Hplus : ~ is_digit "+"%char) by (intros H; by vm_compute in H; destruct H).
  destruct s as [|c s]; [split; [done|]; by intros (ds & [<-|?] & ? & _)|].
  destruct (bool_decide (c = "+"%char \/ c = "-"%char) && bool_decide (s = [])) eqn:Hsign.
  - apply andb_true_iff in Hsign as [Hc%bool_decide_eq_true ->%bool_decide_eq_true].
    split; [done|]. intros (ds & [<-|[= -> <-]] & Hne & Hds & _); [|done].
    inversion_clear Hds as [|? ? Hd _]. exfalso.
    destruct Hc as [->| ->]; [done|]. vm_compute in Hd. by destruct Hd.
  - destruct (decide (c = "+"%char)) as [Hc|Hc];
      [rewrite bool_decide_true by done|rewrite bool_decide_false by done].
    + subst c. rewrite parse_digits_spec by lia. split.
      * intros (Hs & Hv & Hn). exists s. split_and!; try done; [by right|]. intros ->. by vm_compute in Hsign.
      * intros (ds & [<-|[= <-]] & Hne & Hds & ?); [by inversion_clear Hds|done].
    + rewrite parse_digits_spec by lia. split.
      * intros (Hs & Hv & Hn). exists (c :: s). split_and!; try done. by left.
      * intros (ds & [<-|[= -> <-]] & Hne & Hds & ?); done.
Qed.

(** A character that is neither a digit nor a plus sign is in no numeral. *)
Lemma numeral_free max s n c : numeral max s n -> ~ is_digit c -> c <> "+"%char -> c ∉ s.
Proof.
  intros (ds & Hs & _ & Hds & _) Hc Hp Hin. rewrite Forall_forall in Hds.
  destruct Hs as [->| ->]; [by apply Hc, Hds|].
  apply elem_of_cons in Hin as [->|Hin]; [done|]. by apply Hc, Hds.
Qed.

(** ** Splitting *)

Lemma split_free p s : Forall (fun c => p c = false) s -> split p s = [s].
Proof. induction 1 as [|c s Hc _ IH]; [done|]. simpl. by rewrite Hc, IH. Qed.

Lemma split_app p s c r :
  Forall (fun c => p c = false) s -> p c = true -> split p (s ++ c :: r) = s :: split p r.
Proof. intros Hs Hc. induction Hs as [|d s Hd _ IH]; simpl; [by rewrite Hc|]. by rewrite Hd, IH. Qed.

Lemma split_nonempty p s : split p s <> [].
Proof. destruct s as [|c s]; simpl; [done|]. destruct (p c); [done|]. by destruct (split p s). Qed.

Lemma split_inv p s w ws :
  split p s = w :: ws ->
  Forall (fun c => p c = false) w /\
  match ws with
  | [] => s = w
  | _ => exists c r, s = w ++ c :: r /\ p c = true /\ split p r = ws
  end.
Proof.
  revert w ws. induction s as [|c s IH]; intros w ws; simpl; [intros [= <- <-]; by split|].
  pose proof (split_nonempty p s) as Hne. destruct (p c) eqn:Hc.
  - intros [= <- <-]. split; [done|]. destruct (split p s) as [|w' ws'] eqn:Hs; [done|by exists c, s].
  - destruct (split p s) as [|w' ws']; [done|].
    intros [= <- <-]. destruct (IH w' ws' eq_refl) as [Hw Hws]. split; [by constructor|].
    destruct ws' as [|w2 ws']; [by subst|]. destruct Hws as (d & r & -> & Hd & Hr). by exists d, r.
Qed.

Lemma split_once_spec sep s a b : split_once sep s = Some (a, b) <-> s = a ++ sep :: b /\ sep ∉ a.
Proof.
  revert a. induction s as [|c s IH]; intros a; simpl.
  - split; [done|]. intros [H _]. by destruct a.
  - case_bool_decide as Hc.
    + subst c. split; [intros [= <- <-]; split; [done|apply not_elem_of_nil]|].
      intros [H Ha]. destruct a as [|c a]; [by injection H as <-|].
      injection H as <- _. by destruct Ha; left.
    + destruct (split_once sep s) as [[a' b']|] eqn:Hs; simpl.
      * split.
        -- intros [= <- <-]. destruct (proj1 (IH a')) as [-> Ha]; [done|]. split; [done|].
           by apply not_elem_of_cons.
        -- intros [H Ha]. destruct a as [|c' a]; [by injection H as -> _|].
           injection H as <- H. apply not_elem_of_cons in Ha as [_ Ha].
           specialize (proj2 (IH a) (conj H Ha)) as [= -> ->]. done.
      * split; [done|]. intros [H Ha]. destruct a as [|c' a]; [by injection H as -> _|].
        injection H as <- H. apply not_elem_of_cons in Ha as [_ Ha].
        by specialize (proj2 (IH a) (conj H Ha)).
Qed.

Lemma numeral_split max s n sep :
  numeral max s n -> ~ is_digit sep -> sep <> "+"%char ->
  Forall (fun c => bool_decide (c = sep) = false) s.
Proof.
  intros Hn Hd Hp. apply Forall_forall. intros c Hc. apply bool_decide_eq_false. intros ->.
  by eapply numeral_free.
Qed.

Lemma not_digit_dot : ~ is_digit "."%char.
Proof. intros [H _]. by vm_compute in H. Qed.

Lemma not_digit_slash : ~ is_digit "/"%char.
Proof. intros [H _]. by vm_compute in H. Qed.

Lemma next_u8_spec parts n rest :
  next_u8 parts = Some (n, rest) <-> exists p, parts = p :: rest /\ numeral 255 p n.
Proof.
  destruct parts as [|p parts]; simpl; [split; [done|]; by intros (? & ? & _)|].
  pose proof (fun n => parse_uint_spec 255 p n ltac:(lia)) as Hp. unfold parse_u8.
  destruct (parse_uint 255 p) as [m|]; simpl; split.
  - intros [= <- <-]. exists p. split; [done|by apply Hp].
  - intros (q & [= <- <-] & Hq%Hp). by injection Hq as ->.
  - done.
  - by intros (q & [= <- <-] & Hq%Hp).
Qed.

(** Texts of the form [a.b.c.d]. *)
Definition dotted (s : str) (ip : octets) : Prop :=
  exists a b c d n1 n2 n3 n4,
    s = a ++ "."%char :: b ++ "."%char :: c ++ "."%char :: d /\ ip = [n1; n2; n3; n4] /\
    numeral 255 a n1 /\ numeral 255 b n2 /\ numeral 255 c n3 /\ numeral 255 d n4.

Lemma split_dot s w w' ws :
  split (fun c => bool_decide (c = "."%char)) s = w :: w' :: ws ->
  exists r, s = w ++ "."%char :: r /\ split (fun c => bool_decide (c = "."%char)) r = w' :: ws.
Proof.
  intros Hs. apply split_inv in Hs as [_ (c & r & -> & Hc & Hr)].
  apply bool_decide_eq_true in Hc as ->. by exists r.
Qed.

Lemma parse_ipv4_spec s ip : parse_ipv4 s = Some ip <-> dotted s ip.
Proof.
  unfold parse_ipv4, dotted. set (p := fun c => bool_decide (c = "."%char)). split.
  - intros H.
    apply bind_Some in H as ([n1 l1] & (a & Ha & Hn1)%next_u8_spec & H).
    apply bind_Some in H as ([n2 l2] & (b & -> & Hn2)%next_u8_spec & H).
    apply bind_Some in H as ([n3 l3] & (c & -> & Hn3)%next_u8_spec & H).
    apply bind_Some in H as ([n4 l4] & (d & -> & Hn4)%next_u8_spec & H).
    destruct l4 as [|]; [|done]. injection H as <-.
    apply split_dot in Ha as (r1 & -> & Hr). apply split_dot in Hr as (r2 & -> & Hr).
    apply split_dot in Hr as (r3 & -> & Hr). apply split_inv in Hr as [_ ->].
    by exists a, b, c, d, n1, n2, n3, n4.
  - intros (a & b & c & d & n1 & n2 & n3 & n4 & -> & -> & Ha & Hb & Hc & Hd).
    assert (Hfree : forall w n, numeral 255 w n -> Forall (fun c => p c = false) w).
    { intros w n Hw. eapply numeral_split; [exact Hw|exact not_digit_dot|done]. }
    do 3 (rewrite (split_app p) by eauto). rewrite split_free by eauto.
    apply (parse_uint_spec 255) in Ha, Hb, Hc, Hd; [|lia..].
    unfold next_u8, parse_u8. by rewrite Ha; simpl; rewrite Hb; simpl; rewrite Hc; simpl; rewrite Hd.
Qed.

(** ** Words *)

Definition blank (s : str) : Prop := Forall (fun c => is_ascii_whitespace c = true) s.
Definition word (w : str) : Prop := w <> [] /\ Forall (fun c => is_ascii_whitespace c = false) w.

(** [s] consists of the words [ws] with white space around and between them. *)
Inductive spells : str -> list str -> Prop :=
| spells_end gap : blank gap -> spells gap []
| spells_last gap w : blank gap -> word w -> spells (gap ++ w) [w]
| spells_word gap w c s ws :
    blank gap -> word w -> is_ascii_whitespace c = true -> spells s ws ->
    spells (gap ++ w ++ c :: s) (w :: ws).

Lemma split_ws_blank gap s :
  blank gap -> split_ascii_whitespace (gap ++ s) = split_ascii_whitespace s.
Proof.
  unfold split_ascii_whitespace. induction 1 as [|c gap Hc _ IH]; [done|].
  simpl. rewrite Hc. by rewrite filter_cons_False by (intros H; by apply H).
Qed.

Lemma split_ws_spells s ws : spells s ws -> split_ascii_whitespace s = ws.
Proof.
  induction 1 as [gap Hg|gap w Hg [Hne Hw]|gap w c s ws Hg [Hne Hw] Hc _ IH].
  - rewrite <- (app_nil_r gap). by rewrite split_ws_blank.
  - rewrite split_ws_blank by done. unfold split_ascii_whitespace.
    by rewrite split_free, filter_cons_True.
  - rewrite split_ws_blank by done. unfold split_ascii_whitespace in *.
    by rewrite split_app, filter_cons_True, IH.
Qed.

(** The values given for a key, in order. *)
Definition values (key : string) (toks : list str) : list str :=
  omap (strip_prefix (lit key)) toks.

(** Keys that differ in their first character exclude each other. *)
Lemma strip_prefix_head a k s v : strip_prefix (a :: k) s = Some v -> head s = Some a.
Proof. destruct s as [|c s]; simpl; [done|]. by case_bool_decide; subst. Qed.

Lemma values_cons key tok toks :
  values key (tok :: toks) =
  match strip_prefix (lit key) tok with Some v => v :: values key toks | None => values key toks end.
Proof. done. Qed.

Lemma default_last_cons {A} (x d : A) l : default d (last (x :: l)) = default x (last l).
Proof. rewrite last_cons. by destruct (last l). Qed.

(** A later value replaces an earlier one. *)
Definition later {A} (l : list A) (o : option A) : option A :=
  match last l with Some x => Some x | None => o end.

Lemma later_cons {A} (x : A) l o : later (x :: l) o = later l (Some x).
Proof. unfold later. rewrite last_cons. by destruct (last l). Qed.

Lemma net_tokens toks m i g :
  fold_left net_token toks (m, i, g) =
  (default m (last (values "net=" toks)), later (values "ip=" toks) i, later (values "gw=" toks) g).
Proof.
  revert m i g. induction toks as [|tok toks IH]; intros m i g; [done|].
  cbn [fold_left]. rewrite !values_cons. unfold net_token at 2.
  destruct (strip_prefix (lit "net=") tok) as [v|] eqn:H1;
    destruct (strip_prefix (lit "ip=") tok) as [v2|] eqn:H2;
    destruct (strip_prefix (lit "gw=") tok) as [v3|] eqn:H3;
    try apply strip_prefix_head in H1; try apply strip_prefix_head in H2;
    try apply strip_prefix_head in H3; try congruence;
    by rewrite IH, ?default_last_cons, ?later_cons.
Qed.

(** The number of application processors a [cpus=] value stands for. *)
Definition ap_cap (v : str) : option Z :=
  n ← parse_usize v; if 0 <? n then Some (n - 1) else None.

Lemma smp_tokens toks e m :
  fold_left smp_token toks (e, m) =
  (e || existsb (fun v => eq_ignore_ascii_case v (lit "on")) (values "smp=" toks),
   later (omap ap_cap (values "cpus=" toks)) m).
Proof.
  revert e m. induction toks as [|tok toks IH]; intros e m; [by simpl; rewrite orb_false_r|].
  cbn [fold_left]. rewrite !values_cons. unfold smp_token at 2.
  destruct (strip_prefix (lit "smp=") tok) as [v|] eqn:H1;
    destruct (strip_prefix (lit "cpus=") tok) as [v2|] eqn:H2;
    try apply strip_prefix_head in H1; try apply strip_prefix_head in H2; try congruence.
  - cbn [existsb]. destruct (eq_ignore_ascii_case v (lit "on")); rewrite IH; [|done].
    by rewrite orb_true_r.
  - change (omap ap_cap (v2 :: values "cpus=" toks)) with
      (match ap_cap v2 with Some n => n :: omap ap_cap (values "cpus=" toks)
                          | None => omap ap_cap (values "cpus=" toks) end).
    unfold ap_cap at 1. destruct (parse_usize v2) as [n|]; simpl; [|by rewrite IH].
    destruct (Z.ltb_spec 0 n); rewrite IH; [|done]. by rewrite Z.max_r, later_cons by lia.
Qed.

Lemma find_map_head {A B} (f : A -> option B) l : find_map f l = head (omap f l).
Proof. induction l as [|x l IH]; [done|]. simpl. by destruct (f x). Qed.

(** ** The claims *)

(** C18: [parse_ipv4_cidr] accepts exactly the texts [a.b.c.d/n] whose five
    parts are decimal numerals, of at most 255 for the octets and at most 32
    for the prefix, and returns their values. *)
Theorem parse_ipv4_cidr_grammar s ip prefix :
  parse_ipv4_cidr s = Some (ip, prefix) <->
  exists addr p, s = addr ++ "/"%char :: p /\ dotted addr ip /\ numeral 32 p prefix.
Proof.
  unfold parse_ipv4_cidr. split.
  - intros H. apply bind_Some in H as ([addr p] & [-> _]%split_once_spec & H).
    apply bind_Some in H as (ip' & Hip & H). apply bind_Some in H as (n & Hn & H).
    apply parse_ipv4_spec in Hip. apply parse_uint_spec in Hn; [|lia].
    destruct (Z.ltb_spec 32 n); [done|]. injection H as -> ->.
    exists addr, p. split_and!; [done..|]. destruct Hn as (ds & ? & ? & ? & ? & _). by exists ds.
  - intros (addr & p & -> & Hip & Hn).
    assert (Hp : prefix <= 32) by (by destruct Hn as (? & _ & _ & _ & _ & ?)).
    assert (Hslash : "/"%char ∉ addr).
    { destruct Hip as (a & b & c & d & n1 & n2 & n3 & n4 & -> & _ & Ha & Hb & Hc & Hd).
      repeat (rewrite elem_of_app || rewrite elem_of_cons).
      assert (Hfree : forall w n, numeral 255 w n -> "/"%char ∉ w).
      { intros w n Hw. by apply (numeral_free 255 w n "/"%char Hw not_digit_slash). }
      intros [H|[?|[H|[?|[H|[?|H]]]]]]; try discriminate; revert H; by eapply Hfree. }
    rewrite (proj2 (split_once_spec _ _ addr p)) by done. simpl.
    rewrite (proj2 (parse_ipv4_spec _ ip)) by done. simpl.
    unfold parse_u8. rewrite (proj2 (parse_uint_spec 255 p prefix ltac:(lia))).
    + simpl. by rewrite (proj2 (Z.ltb_ge _ _)).
    + destruct Hn as (ds & ? & ? & ? & ? & _). exists ds. split_and!; [done..|lia].
Qed.

(** The three readers of the command line depend only on its words, in
    any white space.  The last [net=], [ip=] and [gw=] words decide the
    network mode, and a malformed last one stands for the default; any
    [smp=on] enables the other processors, and the last [cpus=] word with a
    positive number sets their limit; the first [nic=] word is the filter
    unless it is empty; all other words are ignored. *)
Theorem cmdline_settings s toks d :
  spells s toks ->
  parse_net_mode s d =
    (if eq_ignore_ascii_case (default (lit "static") (last (values "net=" toks))) (lit "dhcp")
     then Dhcp
     else let '(ip, prefix) := default (default_ip d, default_prefix d)
                                 (last (values "ip=" toks) ≫= parse_ipv4_cidr) in
          Static ip prefix (default (default_gw d) (last (values "gw=" toks) ≫= parse_ipv4))) /\
  parse_smp s =
    {| enabled := existsb (fun v => eq_ignore_ascii_case v (lit "on")) (values "smp=" toks);
       max_aps := last (omap ap_cap (values "cpus=" toks)) |} /\
  parse_nic_filter s = (v ← head (values "nic=" toks); if bool_decide (v = []) then None else Some v).
Proof.
  intros Hs. unfold parse_net_mode, parse_smp, parse_nic_filter.
  rewrite (split_ws_spells s toks Hs), net_tokens, smp_tokens, find_map_head.
  split_and!.
  - unfold later. destruct (eq_ignore_ascii_case _ _); [done|].
    by destruct (last (values "ip=" toks)), (last (values "gw=" toks)).
  - simpl. unfold later. by destruct (last _).
  - unfold values. by destruct (head _).
Qed.

Lemma cmdline_settings_witness :
  let d := {| default_ip := [10; 0; 0; 5]; default_prefix := 24; default_gw := [10; 0; 0; 1] |} in
  let s := lit " quiet  ip=192.168.1.50/16 smp=ON" in
  parse_net_mode s d = Static [192; 168; 1; 50] 16 [10; 0; 0; 1] /\
  parse_smp s = {| enabled := true; max_aps := None |} /\ parse_nic_filter s = None.
Proof.
  set (d := {| default_ip := _ |}). intros d0 s.
  assert (Hs : spells s [lit "quiet"; lit "ip=192.168.1.50/16"; lit "smp=ON"]).
  { apply (spells_word (lit " ") (lit "quiet") " "%char);
      [by repeat constructor|split; [done|by repeat constructor]|done|].
    apply (spells_word (lit " ") (lit "ip=192.168.1.50/16") " "%char);
      [by repeat constructor|split; [done|by repeat constructor]|done|].
    apply (spells_last [] (lit "smp=ON")); [constructor|split; [done|by repeat constructor]]. }
  destruct (cmdline_settings s _ d Hs) as (H1 & H2 & H3).
  split_and!; [exact H1|exact H2|exact H3].
Defined.
