(* ===== verification/Serial.v ===== *)
(** The serial console ([crates/embclox-hal-x86/src/serial.rs]): the format of
    a log record, the filter of the [log] facade, and the processors that
    print under one spin lock.  What the port sends for a text is a
    parameter. *)

From Stdlib Require Import String Ascii.
From S2P Require Import Prelude Cmdline.

(** ** Records: [SimpleLogger] *)

(** [log::Level], the most severe first. *)
Inductive Level := Error | Warn | Info | Debug | Trace.

Definition level_num (l : Level) : Z :=
  match l with Error => 1 | Warn => 2 | Info => 3 | Debug => 4 | Trace => 5 end.

Definition level_name (l : Level) : str :=
  lit match l with Error => "ERROR" | Warn => "WARN" | Info => "INFO" | Debug => "DEBUG" | Trace => "TRACE" end.

(** The text of [format_args!("[{:5}] {}\n", record.level(), record.args())]. *)
Definition record_text (l : Level) (args : str) : str :=
  lit "[" ++ level_name l ++ replicate (5 - length (level_name l)) " "%char ++ lit "] " ++ args ++ ["010"%char].

Definition enabled (l : Level) : bool := level_num l <=? level_num Trace.

(** The statics of the [log] crate: whether a logger is set, and the least
    severe level that its macros pass on, 0 at first. *)
Record facade := {
  logger_set : bool;
  max_level : Z;
}.

Definition init_logger : M facade (result unit unit) :=
  set ← gets logger_set;
  if set : bool then mret (Err tt) else
  _ ← modify (fun _ => {| logger_set := true; max_level := level_num Info |});
  mret (Ok tt).

(** [init_global], for what [Uart16550Tty::new_port] returns: the port goes
    to [SERIAL1], and the logger is set. *)
Definition init_global {E} (new_port : result unit E) : M (bool * facade) unit :=
  match new_port with
  | Err _ => panic Expect
  | Ok _ =>
      _ ← modify (fun s => (true, s.2));
      _ ← zoom snd (fun f s => (s.1, f)) init_logger;
      mret tt
  end.

(** What a log macro hands to [_print]. *)
Definition log (f : facade) (l : Level) (args : str) : option str :=
  if negb (logger_set f && (level_num l <=? max_level f)) then None else
  if enabled l then Some (record_text l args) else None.

(** After [init_global] exactly errors, warnings and information are
    printed, and a second initialisation of the logger changes nothing. *)
Lemma log_filter l args :
  exists f, init_global (E := unit) (Ok tt) (false, {| logger_set := false; max_level := 0 |}) = Ret (tt, (true, f)) /\
    log f l args = (if level_num l <=? 3 then Some (record_text l args) else None) /\
    init_logger f = Ret (Err tt, f).
Proof. eexists. split; [reflexivity|]. by destruct l. Qed.

(** The level takes five columns, so that the messages are aligned. *)
Lemma record_text_aligned l args : drop 8 (record_text l args) = args ++ ["010"%char].
Proof. by destruct l. Qed.

(** ** Printing: [_print] on several processors *)

Section console.
Context (encode : str -> list byte).

Inductive printing := Outside | Inside (rest : list byte).

(** A processor: the texts it has yet to print, and what it has yet to send
    while it holds the lock. *)
Record printer := {
  todo : list str;
  at_ : printing;
}.

Record console := {
  SERIAL1 : bool;            (** the port is initialised *)
  held : bool;               (** its lock *)
  sent : list byte;
  printers : list printer;
}.

Definition set_printer (c : console) (h : bool) (out : list byte) (i : nat) (p : printer) : console :=
  {| SERIAL1 := SERIAL1 c; held := h; sent := out; printers := <[i := p]> (printers c) |}.

(** One step of processor [i]: taking the lock, sending a byte, and dropping
    the guard.  A processor that finds the lock taken spins. *)
Definition print_step (i : nat) (c : console) : option console :=
  match printers c !! i with
  | None => None
  | Some p =>
      match at_ p, todo p with
      | Outside, [] => None
      | Outside, l :: rest =>
          if held c then None else
          Some (set_printer c true (sent c) i
            {| todo := rest; at_ := Inside (if SERIAL1 c then encode l else []) |})
      | Inside (b :: rest), ls =>
          Some (set_printer c (held c) (sent c ++ [b]) i {| todo := ls; at_ := Inside rest |})
      | Inside [], ls => Some (set_printer c false (sent c) i {| todo := ls; at_ := Outside |})
      end
  end.

(** The port fails: [expect] panics with the guard alive, and the panic
    handler prints its message. *)
Definition print_fails (panic_text : str) (i : nat) (c : console) : option console :=
  match printers c !! i with
  | Some {| at_ := Inside (_ :: _) |} =>
      Some (set_printer c (held c) (sent c) i {| todo := [panic_text]; at_ := Outside |})
  | _ => None
  end.

Definition step (c c' : console) : Prop := exists i, print_step i c = Some c'.
Definition step_or_fail (c c' : console) : Prop :=
  step c c' \/ exists text i, print_fails text i c = Some c'.

Definition console_of (progs : list (list str)) : console :=
  {| SERIAL1 := true; held := false; sent := [];
     printers := (fun ls => {| todo := ls; at_ := Outside |}) <$> progs |}.

(** ** Lines are printed whole *)

(** The texts in the order in which their processors took the lock. *)
Abbreviation order := (list (nat * str)).

Definition bytes_of (L : order) : list byte := mjoin ((fun x => encode x.2) <$> L).
Definition texts_of (i : nat) (L : order) : list str :=
  omap (fun x => if bool_decide (x.1 = i) then Some x.2 else None) L.

Lemma bytes_of_app L1 L2 : bytes_of (L1 ++ L2) = bytes_of L1 ++ bytes_of L2.
Proof. unfold bytes_of. by rewrite fmap_app, join_app. Qed.

Lemma texts_of_app i L1 L2 : texts_of i (L1 ++ L2) = texts_of i L1 ++ texts_of i L2.
Proof. apply omap_app. Qed.

Lemma texts_of_one i j l : texts_of i [(j, l)] = if bool_decide (j = i) then [l] else [].
Proof. unfold texts_of. simpl. by case_bool_decide. Qed.

(** The order accounts for what was sent and for what each processor has
    printed of its program, and the lock for who is inside. *)
Record accounts (progs : list (list str)) (L : order) (c : console) : Prop := {
  ac_on : SERIAL1 c = true;
  ac_progs : forall i p, printers c !! i = Some p -> progs !! i = Some (texts_of i L ++ todo p);
  ac_lock : if held c
    then exists i p rest, printers c !! i = Some p /\ at_ p = Inside rest /\ sent c ++ rest = bytes_of L /\
           forall j q, printers c !! j = Some q -> j <> i -> at_ q = Outside
    else sent c = bytes_of L /\ forall j q, printers c !! j = Some q -> at_ q = Outside;
}.

Lemma accounts_start progs : accounts progs [] (console_of progs).
Proof.
  split; [done| |split; [done|]]; intros i p Hp; cbn [console_of printers] in Hp;
    rewrite list_lookup_fmap in Hp; destruct (progs !! i) as [ls|]; by simplify_eq/=.
Qed.

(** A processor inside is the one that holds the lock. *)
Lemma accounts_inside progs L c i p rest :
  accounts progs L c -> printers c !! i = Some p -> at_ p = Inside rest ->
  held c = true /\ sent c ++ rest = bytes_of L /\
  forall j q, printers c !! j = Some q -> j <> i -> at_ q = Outside.
Proof.
  intros Ha Hp Hi. pose proof (ac_lock _ _ _ Ha) as Hl. destruct (held c).
  - destruct Hl as (k & q & rest' & Hq & Hk & Hs & Ho). destruct (decide (i = k)) as [->|Hne].
    + rewrite Hp in Hq. injection Hq as <-. rewrite Hi in Hk. by injection Hk as <-.
    + rewrite (Ho i p Hp Hne) in Hi. discriminate Hi.
  - destruct Hl as [_ Ho]. rewrite (Ho i p Hp) in Hi. discriminate Hi.
Qed.

Lemma lookup_set_printer c h out i p j q :
  printers (set_printer c h out i p) !! j = Some q ->
  (j = i /\ q = p) \/ (j <> i /\ printers c !! j = Some q).
Proof.
  cbn [set_printer printers]. intros [(-> & -> & _)|[Hne Hj]]%list_lookup_insert_Some; auto.
Qed.

Lemma accounts_acquire progs L c i p l rest :
  accounts progs L c -> printers c !! i = Some p -> at_ p = Outside -> todo p = l :: rest -> held c = false ->
  accounts progs (L ++ [(i, l)])
    (set_printer c true (sent c) i {| todo := rest; at_ := Inside (if SERIAL1 c then encode l else []) |}).
Proof.
  intros [Hon Hp Hl] Hi Ho Ht Hh. rewrite Hh in Hl. destruct Hl as [Hs Hout].
  pose proof (lookup_lt_Some _ _ _ Hi) as Hlt. rewrite Hon. split; [done|..].
  - intros j q [[-> ->]|[Hne Hj]]%lookup_set_printer; rewrite texts_of_app, texts_of_one.
    + rewrite bool_decide_true by done. cbn [todo]. by rewrite (Hp i p Hi), Ht, <- app_assoc.
    + rewrite bool_decide_false, app_nil_r by (intros ->; done). by apply Hp.
  - cbn [set_printer held]. exists i, {| todo := rest; at_ := Inside (encode l) |}, (encode l). split_and!.
    + cbn [set_printer printers]. by apply list_lookup_insert_eq.
    + done.
    + cbn [set_printer sent]. rewrite bytes_of_app, Hs. unfold bytes_of at 3. cbn. by rewrite app_nil_r.
    + intros j q [[-> ->]|[_ Hj]]%lookup_set_printer Hne; [done|]. by eapply Hout.
Qed.

(** Sending a byte, or dropping the guard after the last one. *)
Lemma accounts_inside_step progs L c c' i p rest :
  accounts progs L c -> printers c !! i = Some p -> at_ p = Inside rest ->
  print_step i c = Some c' -> accounts progs L c'.
Proof.
  intros Ha Hi Hin E. destruct (accounts_inside _ _ _ _ _ _ Ha Hi Hin) as (Hh & Hs & Ho).
  pose proof (lookup_lt_Some _ _ _ Hi) as Hlt. destruct Ha as [Hon Hp _].
  unfold print_step in E. rewrite Hi, Hin in E.
  assert (Hprogs : forall h out a j q,
    printers (set_printer c h out i {| todo := todo p; at_ := a |}) !! j = Some q ->
    progs !! j = Some (texts_of j L ++ todo q)).
  { intros h out a j q [[-> ->]|[_ Hj]]%lookup_set_printer; [exact (Hp i p Hi)|by apply Hp]. }
  destruct rest as [|b rest]; injection E as <-; (split; [exact Hon|apply Hprogs|]).
  - cbn [set_printer held sent]. rewrite app_nil_r in Hs. split; [exact Hs|].
    intros j q [[-> ->]|[Hne Hj]]%lookup_set_printer; [done|]. by eapply Ho.
  - cbn [set_printer held]. rewrite Hh. exists i, {| todo := todo p; at_ := Inside rest |}, rest. split_and!.
    + cbn [set_printer printers]. by apply list_lookup_insert_eq.
    + done.
    + cbn [set_printer sent]. by rewrite <- app_assoc.
    + intros j q [[-> ->]|[_ Hj]]%lookup_set_printer Hne; [done|]. by eapply Ho.
Qed.

Lemma accounts_step progs L c c' : accounts progs L c -> step c c' -> exists L', accounts progs L' c'.
Proof.
  intros Ha [i E]. pose proof E as E'. unfold print_step in E'.
  destruct (printers c !! i) as [p|] eqn:Hi; [|done]. destruct (at_ p) as [|rest] eqn:Hat.
  - destruct (todo p) as [|l rest] eqn:Ht; [done|]. destruct (held c) eqn:Hh; [done|]. injection E' as <-.
    eexists. by eapply accounts_acquire.
  - exists L. by eapply accounts_inside_step.
Qed.

Lemma accounts_reachable progs c : rtc step (console_of progs) c -> exists L, accounts progs L c.
Proof.
  assert (Hgen : forall c0, rtc step c0 c -> (exists L, accounts progs L c0) -> exists L, accounts progs L c).
  { intros c0 Hr. induction Hr as [|c0 c1 c2 Hs _ IH]; [done|]. intros [L Ha]. apply IH.
    by eapply accounts_step. }
  intros Hr. apply (Hgen _ Hr). exists []. apply accounts_start.
Qed.

(** Unless all is printed, some processor can go on. *)
Lemma accounts_progress progs L c i p :
  accounts progs L c -> printers c !! i = Some p -> todo p <> [] \/ at_ p <> Outside -> exists c', step c c'.
Proof.
  intros Ha Hi Hleft. pose proof (ac_lock _ _ _ Ha) as Hl. destruct (held c) eqn:Hh.
  - destruct Hl as (k & q & rest & Hq & Hk & _). destruct rest; eexists; exists k; unfold print_step;
      rewrite Hq, Hk; reflexivity.
  - destruct Hl as [_ Ho]. specialize (Ho i p Hi). destruct Hleft as [Ht|?]; [|done].
    destruct (todo p) as [|l rest] eqn:Et; [done|]. eexists. exists i. unfold print_step.
    rewrite Hi, Ho, Et, Hh. reflexivity.
Qed.

(** ** Printing ends *)

Definition printer_left (p : printer) : nat :=
  (sum_list_with (fun l => 2 + length (encode l)) (todo p) +
   match at_ p with Outside => 0 | Inside rest => 1 + length rest end)%nat.

Lemma print_left c c' :
  step c c' -> (sum_list_with printer_left (printers c') < sum_list_with printer_left (printers c))%nat.
Proof.
  intros [i E]. unfold print_step in E. destruct (printers c !! i) as [p|] eqn:Hi; [|done].
  assert (Hgo : forall h out q, (printer_left q < printer_left p)%nat ->
    (sum_list_with printer_left (printers (set_printer c h out i q)) <
     sum_list_with printer_left (printers c))%nat).
  { intros h out q Hq. cbn [set_printer printers]. pose proof (sum_list_with_insert printer_left _ _ _ q Hi). lia. }
  destruct p as [ls a]. cbn [at_ todo] in E. unfold printer_left in Hgo at 1 2. cbn [at_ todo] in Hgo.
  destruct a as [|[|b rest]].
  - destruct ls as [|l rest]; [done|]. destruct (held c); [done|]. injection E as <-. apply Hgo.
    cbn [at_ todo sum_list_with]. destruct (SERIAL1 c); cbn [length]; lia.
  - injection E as <-. apply Hgo. cbn [at_ todo length]. lia.
  - injection E as <-. apply Hgo. cbn [at_ todo length]. lia.
Qed.

Lemma print_sn c : sn step c.
Proof.
  induction c as [c IH] using (induction_ltof1 _ (fun c => sum_list_with printer_left (printers c))).
  constructor. intros c' Hs. by apply IH, print_left.
Qed.

(** ** After a failure *)

(** The lock is taken by nobody. *)
Definition dead (c : console) : Prop :=
  held c = true /\ forall i p, printers c !! i = Some p -> at_ p = Outside.

Lemma dead_stuck c c' : dead c -> step_or_fail c c' -> False.
Proof.
  intros [Hh Ho] [[i E]|(text & i & E)].
  - unfold print_step in E. destruct (printers c !! i) as [p|] eqn:Hi; [|done].
    rewrite (Ho i p Hi), Hh in E. by destruct (todo p).
  - unfold print_fails in E. destruct (printers c !! i) as [[ls a]|] eqn:Hi; [|done].
    specialize (Ho i _ Hi). cbn [at_] in Ho. by subst a.
Qed.

Lemma fails_dead progs L text i c c' :
  accounts progs L c -> print_fails text i c = Some c' -> dead c'.
Proof.
  intros Ha E. unfold print_fails in E. destruct (printers c !! i) as [[ls a]|] eqn:Hi; [|done].
  destruct a as [|[|b rest]]; [done..|]. injection E as <-.
  destruct (accounts_inside _ _ _ _ _ _ Ha Hi eq_refl) as (Hh & _ & Ho). split; [exact Hh|].
  intros j q [[-> ->]|[Hne Hj]]%lookup_set_printer; [done|]. by eapply Ho.
Qed.

End console.

(** C39: lines are printed whole.  Processors that print under the lock, in
    whatever order they run: what was sent is, up to the line that is being
    sent, the lines of the processors one after the other, each line in one
    piece and each processor's lines in the order of its program; at most
    one processor is inside; as long as anything is left to print some
    processor can go on, and no run goes on for ever. *)
Theorem console_lines_whole encode progs c :
  rtc (step encode) (console_of progs) c ->
  (exists L rest, sent c ++ rest = bytes_of encode L /\ (held c = false -> rest = []) /\
    forall i p, printers c !! i = Some p -> progs !! i = Some (texts_of i L ++ todo p)) /\
  (forall i j p q, printers c !! i = Some p -> printers c !! j = Some q ->
    at_ p <> Outside -> at_ q <> Outside -> i = j) /\
  (forall i p, printers c !! i = Some p -> todo p <> [] \/ at_ p <> Outside -> exists c', step encode c c') /\
  sn (step encode) c.
Proof.
  intros (L & Ha)%accounts_reachable. split_and!.
  - pose proof (ac_lock _ _ _ _ Ha) as Hl. exists L. destruct (held c) eqn:Hh.
    + destruct Hl as (_ & _ & rest & _ & _ & Hs & _). exists rest. split_and!; [done..|by apply (ac_progs _ _ _ _ Ha)].
    + exists []. rewrite app_nil_r. split_and!; [apply Hl|done|apply (ac_progs _ _ _ _ Ha)].
  - intros i j p q Hp Hq Hi Hj. destruct (at_ p) as [|rest] eqn:Ea; [done|].
    destruct (accounts_inside _ _ _ _ _ _ _ Ha Hp Ea) as (_ & _ & Ho).
    destruct (decide (j = i)) as [|Hne]; [done|]. by rewrite (Ho j q Hq Hne) in Hj.
  - intros i p. by eapply accounts_progress.
  - apply print_sn.
Qed.

(** The steps of the given processors, one after the other. *)
Definition schedule encode (turns : list nat) (c : console) : option console :=
  foldl (fun oc i => oc ≫= print_step encode i) (Some c) turns.

Lemma schedule_rtc encode turns c c' : schedule encode turns c = Some c' -> rtc (step encode) c c'.
Proof.
  revert c. induction turns as [|i turns IH]; intros c; unfold schedule; cbn.
  - intros [= ->]. reflexivity.
  - destruct (print_step encode i c) as [c1|] eqn:E.
    + intros H. eapply rtc_l; [by exists i|]. by apply IH.
    + intros H. exfalso. revert H. clear. by induction turns.
Qed.

(** Two processors, one byte to a character. *)
Definition demo_encode : str -> list byte := fmap byte_of_ascii.
Definition demo_lines : list (list str) := [[record_text Info (lit "a")]; [record_text Warn (lit "b"); lit "c"]].
Definition demo_turns : list nat := replicate 12 1%nat ++ replicate 3 0%nat.
Definition demo_half : option console := schedule demo_encode demo_turns (console_of demo_lines).

Lemma console_lines_whole_witness :
  exists c, demo_half = Some c /\ held c = true /\ sn (step demo_encode) c.
Proof.
  eexists. split; [vm_compute; reflexivity|]. split; [reflexivity|].
  eapply (console_lines_whole demo_encode demo_lines).
  eapply (schedule_rtc _ demo_turns). vm_compute. reflexivity.
Defined.

(** A failed write silences the console for good.  The panic happens
    with the lock taken, and the panic handler prints its message through
    the same lock: no processor sends anything any more, whatever it has to
    print, and the panic message stays unsent. *)
Theorem failed_write_silences encode progs c text i c1 :
  rtc (step encode) (console_of progs) c -> print_fails text i c = Some c1 ->
  (exists p, printers c1 !! i = Some p /\ todo p = [text]) /\
  forall c2, rtc (step_or_fail encode) c1 c2 -> c2 = c1.
Proof.
  intros (L & Ha)%accounts_reachable E. split.
  - unfold print_fails in E. destruct (printers c !! i) as [[ls a]|] eqn:Hi; [|done].
    destruct a as [|[|b rest]]; [done..|]. injection E as <-.
    exists {| todo := [text]; at_ := Outside |}. split; [|done].
    cbn [set_printer printers]. apply list_lookup_insert_eq. by eapply lookup_lt_Some.
  - intros c2 Hr. pose proof (fails_dead _ _ _ _ _ _ _ Ha E) as Hd.
    destruct Hr as [|c1 c3 c2 Hs _]; [done|]. by destruct (dead_stuck _ _ _ Hd Hs).
Qed.

Lemma failed_write_silences_witness :
  exists c c1, demo_half = Some c /\ print_fails (lit "PANIC") 0 c = Some c1 /\
    forall c2, rtc (step_or_fail demo_encode) c1 c2 -> c2 = c1.
Proof.
  eexists _, _. split; [vm_compute; reflexivity|]. split; [vm_compute; reflexivity|].
  eapply (failed_write_silences demo_encode demo_lines _ (lit "PANIC") 0).
  - apply (schedule_rtc _ demo_turns). vm_compute. reflexivity.
  - vm_compute. reflexivity.
Defined.
