(* ===== verification/VectorAlloc.v ===== *)
(** The interrupt vector allocator
    ([crates/embclox-hal-x86/src/vector_alloc.rs]): a 32-bit map of taken
    vectors over a range of the IDT. *)

From S2P Require Import Prelude Bits.

Record VectorAllocator := {
  used : Z;
  start : Z;
  end_ : Z;
}.

(** [1 << i] on [u32], [i < 32]. *)
Definition bit (i : Z) : Z := Z.shiftl 1 i.

(** Marks the reserved vectors that fall into the range. *)
Definition reserve (a : VectorAllocator) (reserved : list Z) : VectorAllocator :=
  foldl (fun a v =>
    if (start a <=? v) && (v <=? end_ a)
    then {| used := Z.lor (used a) (bit (v - start a)); start := start a; end_ := end_ a |}
    else a) a reserved.

Definition new (start_ end' : Z) (reserved : list Z) : outcome VectorAllocator :=
  _ ← rassert (32 <=? start_);
  _ ← rassert (start_ <=? end');
  _ ← rassert (end' - start_ <? 32);
  mret (reserve {| used := 0; start := start_; end_ := end' |} reserved).

(** [end - start + 1] in [u8] arithmetic. *)
Definition span (a : VectorAllocator) : outcome Z :=
  d ← usub (end_ a) (start a);
  if d + 1 <? U8 then mret (d + 1) else Panic ArithOverflow.

(** The scan from bit [i] with [n] bits to go. *)
Fixpoint scan (n : nat) (i : Z) (a : VectorAllocator) : outcome (option Z * VectorAllocator) :=
  match n with
  | O => mret (None, a)
  | S n' =>
      if Z.land (used a) (bit i) =? 0 then
        let a' := {| used := Z.lor (used a) (bit i); start := start a; end_ := end_ a |} in
        if start a' + as_u8 i <? U8 then mret (Some (start a' + as_u8 i), a')
        else Panic ArithOverflow
      else scan n' (i + 1) a
  end.

Definition allocate (a : VectorAllocator) : outcome (option Z * VectorAllocator) :=
  s ← span a; scan (Z.to_nat s) 0 a.

Definition free_count (a : VectorAllocator) : outcome Z :=
  s ← span a;
  let mask := if s =? 32 then U32 - 1 else bit s - 1 in
  mret (count_ones (Z.land (U32 - 1 - used a) mask)).

(** ** Invariant *)

(** The range is one of at most 32 vectors above the CPU exceptions, and the
    map has no bit outside it. *)
Definition wf (a : VectorAllocator) : Prop :=
  32 <= start a <= end_ a /\ end_ a < U8 /\ end_ a - start a < 32 /\ 0 <= used a /\
  (forall i, end_ a - start a < i -> Z.testbit (used a) i = false).

(** Vector [v] of the range is taken. *)
Definition taken (a : VectorAllocator) (v : Z) : bool := Z.testbit (used a) (v - start a).

Lemma bit_testbit i j : 0 <= i -> Z.testbit (bit i) j = bool_decide (i = j).
Proof.
  intros Hi. unfold bit. rewrite Z.shiftl_1_l. case_bool_decide as E.
  - subst. by apply Z.pow2_bits_true.
  - by apply Z.pow2_bits_false.
Qed.

Lemma land_bit_0 x i : 0 <= i -> (Z.land x (bit i) =? 0) = negb (Z.testbit x i).
Proof.
  intros Hi. destruct (Z.testbit x i) eqn:E; simpl.
  - apply Z.eqb_neq. intros H. apply (f_equal (fun z => Z.testbit z i)) in H.
    rewrite Z.land_spec, bit_testbit, bool_decide_true, E, Z.testbit_0_l in H by done. done.
  - apply Z.eqb_eq. apply Z.bits_inj'. intros j Hj.
    rewrite Z.land_spec, bit_testbit, Z.testbit_0_l by done.
    case_bool_decide; [subst; by rewrite E|by rewrite andb_false_r].
Qed.

Definition mark (a : VectorAllocator) (i : Z) : VectorAllocator :=
  {| used := Z.lor (used a) (bit i); start := start a; end_ := end_ a |}.

Lemma mark_wf a i : wf a -> 0 <= i <= end_ a - start a -> wf (mark a i).
Proof.
  intros (H1 & H2 & H3 & H4 & H5) Hi. unfold wf, mark; simpl. split_and!; try lia.
  - apply Z.lor_nonneg. split; [done|]. unfold bit. apply Z.shiftl_nonneg. lia.
  - intros j Hj. rewrite Z.lor_spec, bit_testbit, H5 by lia. simpl.
    apply bool_decide_false. lia.
Qed.

Lemma mark_taken a i v :
  0 <= i -> taken (mark a i) v = taken a v || bool_decide (v = start a + i).
Proof.
  intros Hi. unfold taken, mark; simpl. rewrite Z.lor_spec, bit_testbit by done.
  f_equal. apply bool_decide_ext. lia.
Qed.

Lemma span_ok a : wf a -> span a = Ret (end_ a - start a + 1).
Proof.
  intros (H1 & H2 & H3 & _). unfold span. rewrite usub_ok by lia.
  cbn [mbind outcome_bind]. by rewrite (proj2 (Z.ltb_lt _ _)) by (unfold U8; lia).
Qed.

(** The scan takes the first free bit at or above [i]. *)
Lemma scan_spec n i a :
  wf a -> 0 <= i -> i + Z.of_nat n = end_ a - start a + 1 ->
  (exists j, scan n i a = Ret (Some (start a + j), mark a j) /\ i <= j <= end_ a - start a /\
     taken a (start a + j) = false /\
     forall k, i <= k < j -> taken a (start a + k) = true) \/
  (scan n i a = Ret (None, a) /\
     forall k, i <= k <= end_ a - start a -> taken a (start a + k) = true).
Proof.
  intros Hwf. pose proof Hwf as (H1 & H2 & H3 & _).
  revert i. induction n as [|n IH]; intros i Hi Hn; simpl.
  { right. split; [done|]. intros. lia. }
  assert (Ht : taken a (start a + i) = Z.testbit (used a) i).
  { unfold taken. f_equal. lia. }
  rewrite land_bit_0 by done. destruct (Z.testbit (used a) i) eqn:E; simpl.
  - destruct (IH (i + 1)) as [(j & Hs & Hj & Hf & Hk)|[Hs Hk]]; [lia..| |].
    + left. exists j. split_and!; [done|lia..|done|]. intros k Hk'.
      destruct (decide (k = i)) as [->|]; [done|]. apply Hk. lia.
    + right. split; [done|]. intros k Hk'.
      destruct (decide (k = i)) as [->|]; [done|]. apply Hk. lia.
  - left. exists i. unfold as_u8, U8 in *. rewrite Z.mod_small by lia.
    rewrite (proj2 (Z.ltb_lt _ _)) by lia. split_and!; [done|lia..|done|]. intros. lia.
Qed.

Lemma reserve_spec reserved a :
  wf a -> wf (reserve a reserved) /\
  start (reserve a reserved) = start a /\ end_ (reserve a reserved) = end_ a /\
  forall v, start a <= v <= end_ a ->
    taken (reserve a reserved) v = taken a v || bool_decide (v ∈ reserved).
Proof.
  revert a. induction reserved as [|r rs IH]; intros a Hwf; simpl.
  { split_and!; [done..|]. intros v _. by rewrite orb_false_r. }
  destruct ((start a <=? r) && (r <=? end_ a)) eqn:E.
  - apply andb_true_iff in E as [E1%Z.leb_le E2%Z.leb_le].
    assert (Hm : wf (mark a (r - start a))) by (apply mark_wf; [done|lia]).
    destruct (IH _ Hm) as (Hw & Hs & He & Ht). split_and!; [done..|]. intros v Hv.
    change (reserve {| used := _; start := _; end_ := _ |} rs) with
      (reserve (mark a (r - start a)) rs).
    rewrite Ht by done. rewrite mark_taken by lia. rewrite <- orb_assoc. f_equal.
    rewrite <- bool_decide_or. apply bool_decide_ext. rewrite elem_of_cons. intuition lia.
  - destruct (IH _ Hwf) as (Hw & Hs & He & Ht). split_and!; [done..|]. intros v Hv.
    rewrite Ht by done. f_equal. apply bool_decide_ext. rewrite elem_of_cons.
    split; [tauto|]. intros [->|]; [|done].
    rewrite (proj2 (Z.leb_le _ _)), (proj2 (Z.leb_le _ _)) in E by lia. done.
Qed.

(** The vectors of the range that are not taken. *)
Definition free_vectors (a : VectorAllocator) : list Z :=
  List.filter (fun v => negb (taken a v)) (seqZ (start a) (end_ a - start a + 1)).

Lemma elem_of_free_vectors a v :
  v ∈ free_vectors a <-> start a <= v <= end_ a /\ taken a v = false.
Proof.
  unfold free_vectors. rewrite list_elem_of_In, filter_In, <- list_elem_of_In, elem_of_seqZ.
  rewrite negb_true_iff. intuition lia.
Qed.

(** An allocation takes the lowest free vector, or finds none. *)
Lemma allocate_cases a :
  wf a ->
  exists r a', allocate a = Ret (r, a') /\ wf a' /\
    match r with
    | Some v => free_vectors a = v :: free_vectors a'
    | None => a' = a /\ free_vectors a = []
    end.
Proof.
  intros Hwf. pose proof Hwf as (H1 & H2 & H3 & _). unfold allocate. rewrite span_ok by done.
  cbn [mbind outcome_bind].
  destruct (scan_spec (Z.to_nat (end_ a - start a + 1)) 0 a)
    as [(j & -> & Hj & Hf & Hk)|[-> Hk]]; [done|lia..| |].
  - do 2 eexists. split; [done|]. split; [by apply mark_wf|].
    apply sorted_ext.
    + apply filter_sorted, seqZ_sorted.
    + constructor; [apply filter_sorted, seqZ_sorted|]. apply Forall_forall. intros x.
      rewrite elem_of_free_vectors, mark_taken by lia. cbn [start end_ mark].
      intros [Hx [Hx1 Hx2]%orb_false_iff]. apply bool_decide_eq_false in Hx2.
      apply Z.nle_gt. intros Hle. specialize (Hk (x - start a)).
      replace (start a + (x - start a)) with x in Hk by lia. rewrite Hk in Hx1 by lia. done.
    + intros x. rewrite elem_of_cons, !elem_of_free_vectors, mark_taken by lia.
      cbn [start end_ mark]. rewrite orb_false_iff, bool_decide_eq_false.
      split; [|intros [->|]; [split; [lia|done]|tauto]].
      intros. destruct (decide (x = start a + j)); tauto.
  - do 2 eexists. split; [done|]. split; [done|]. split; [done|].
    apply elem_of_nil_inv. intros v Hv. apply elem_of_free_vectors in Hv as [Hv Ht].
    specialize (Hk (v - start a)). replace (start a + (v - start a)) with v in Hk by lia.
    rewrite Hk in Ht by lia. done.
Qed.

Lemma free_count_ok a : wf a -> free_count a = Ret (zlen (free_vectors a)).
Proof.
  intros Hwf. pose proof Hwf as (H1 & H2 & H3 & H4 & H5). unfold free_count.
  rewrite span_ok by done. cbn [mbind outcome_bind]. unfold mret, outcome_ret. f_equal.
  set (s := end_ a - start a + 1).
  assert (Hmask : (if s =? 32 then U32 - 1 else bit s - 1) = Z.ones s).
  { unfold bit. rewrite Z.shiftl_1_l, Z.ones_equiv.
    destruct (Z.eqb_spec s 32) as [->|]; [done|lia]. }
  rewrite Hmask, Z.land_ones by lia.
  rewrite (count_ones_set_bits (Z.to_nat s) _ (start a)).
  2: { rewrite Z2Nat.id by lia. apply Z.mod_pos_bound. apply Z.pow_pos_nonneg; lia. }
  f_equal. apply sorted_ext.
  - apply set_bits_from_sorted.
  - apply filter_sorted, seqZ_sorted.
  - intros x. rewrite elem_of_set_bits_from, elem_of_free_vectors, Z2Nat.id by lia.
    unfold taken. split.
    + intros [Hx Hb]. split; [lia|].
      rewrite Z.mod_pow2_bits_low in Hb by lia. unfold U32 in Hb.
      rewrite testbit_not in Hb by lia. by apply negb_true_iff.
    + intros [Hx Hb]. split; [lia|]. rewrite Z.mod_pow2_bits_low by lia. unfold U32.
      rewrite testbit_not by lia. by rewrite Hb.
Qed.

(** Repeated allocation. *)
Fixpoint allocate_n (n : nat) (a : VectorAllocator) : outcome (list Z * VectorAllocator) :=
  match n with
  | O => mret ([], a)
  | S n' =>
      '(r, a1) ← allocate a;
      match r with
      | None => mret ([], a1)
      | Some v => '(vs, a2) ← allocate_n n' a1; mret (v :: vs, a2)
      end
  end.

Lemma allocate_n_ok n a :
  wf a -> exists a', allocate_n n a = Ret (take n (free_vectors a), a') /\ wf a' /\
    free_vectors a' = drop n (free_vectors a).
Proof.
  revert a. induction n as [|n IH]; intros a Hwf; [by exists a|]. cbn [allocate_n].
  destruct (allocate_cases a Hwf) as (r & a1 & -> & Hwf1 & Hr).
  cbn [mbind outcome_bind]. destruct r as [v|].
  - destruct (IH a1 Hwf1) as (a2 & -> & Hwf2 & Hd). exists a2. rewrite Hr.
    cbn [mbind outcome_bind]. done.
  - destruct Hr as [-> Hf]. exists a. by rewrite Hf.
Qed.

(** The vectors a fresh allocator can hand out. *)
Definition pool (start_ end' : Z) (reserved : list Z) : list Z :=
  List.filter (fun v => negb (bool_decide (v ∈ reserved))) (seqZ start_ (end' - start_ + 1)).

(** C8: an allocator over a valid range hands out, in increasing order, each
    vector of the range that is not reserved, once, and then [None]: the
    first [n] allocations return the first [n] vectors of that pool, nothing
    overflows, and [free_count] always is the number of vectors left; an
    invalid range fails an assertion. *)
Theorem allocator_hands_out_pool start_ end' reserved n :
  0 <= start_ < U8 -> 0 <= end' < U8 ->
  if (32 <=? start_) && (start_ <=? end') && (end' - start_ <? 32) then
    exists a a', new start_ end' reserved = Ret a /\
      allocate_n n a = Ret (take n (pool start_ end' reserved), a') /\
      free_count a' = Ret (zlen (drop n (pool start_ end' reserved)))
  else new start_ end' reserved = Panic AssertFailed.
Proof.
  intros Hs He. unfold new, rassert.
  destruct (Z.leb_spec 32 start_); [|done]. destruct (Z.leb_spec start_ end'); [|done].
  destruct (Z.ltb_spec (end' - start_) 32); [|done]. cbn [andb mbind outcome_bind].
  set (a0 := {| used := 0; start := start_; end_ := end' |}).
  assert (Hwf0 : wf a0).
  { unfold wf; simpl. split_and!; try lia. intros. apply Z.testbit_0_l. }
  destruct (reserve_spec reserved a0 Hwf0) as (Hwf & Hst & Hen & Ht).
  set (a := reserve a0 reserved) in *. exists a.
  destruct (allocate_n_ok n a Hwf) as (a' & Ha & Hwf' & Hd).
  assert (Hpool : free_vectors a = pool start_ end' reserved).
  { unfold free_vectors, pool. rewrite Hst, Hen. simpl. apply filter_ext_in. intros v Hv.
    rewrite <- list_elem_of_In, elem_of_seqZ in Hv. rewrite Ht by (simpl; lia).
    unfold taken at 1. simpl. by rewrite Z.testbit_0_l. }
  exists a'. rewrite <- Hpool, <- Hd. split_and!; [done|done|by apply free_count_ok].
Qed.

Lemma allocator_hands_out_pool_witness :
  exists a a', new 33 47 [32; 34; 39] = Ret a /\
    allocate_n 3 a = Ret ([33; 35; 36], a') /\ free_count a' = Ret 10.
Proof. exact (allocator_hands_out_pool 33 47 [32; 34; 39] 3 ltac:(done) ltac:(done)). Defined.
