(* ===== verification/Nic.v ===== *)
(** What the drivers of PCI network adapters share: memory-mapped registers,
    descriptors in memory, and loops.  An adapter is hardware: it is the state
    [HW] and the class [Mmio], whose operations act when the driver accesses a
    register, and may then also change the rings and buffers in memory. *)

From S2P Require Import Prelude Mem.

Class Mmio (HW : Type) := {
  mmio_read32 : Z -> mem * HW -> Z * (mem * HW);
  mmio_write32 : Z -> Z -> mem * HW -> mem * HW;
}.

Definition read_volatile {HW} `{Mmio HW} (p : Z) : M (mem * HW) Z := fun s => Ret (mmio_read32 p s).

Definition write_volatile {HW} `{Mmio HW} (p v : Z) : M (mem * HW) unit :=
  modify (mmio_write32 p v).

(** [!x] at 32 bits. *)
Definition not_u32 (x : Z) : Z := U32 - 1 - x.

Definition load_le (n : nat) (m : mem) (a : Z) : Z := le_combine (load_bytes m a n).
Definition store_le (n : nat) (a v : Z) (m : mem) : mem := store_bytes m a (le_split n v).

Section nic.
Context {HW : Type}.
Abbreviation N := (M (mem * HW)).

Definition load (f : mem -> Z) : N Z := gets (fun s => f s.1).
Definition store (f : mem -> mem) : N unit := modify (fun s => (f s.1, s.2)).

(** [for i in l]. *)
Fixpoint for_each {A} (l : list A) (body : A -> N unit) : N unit :=
  match l with
  | [] => mret tt
  | x :: l' => _ ← body x; for_each l' body
  end.

Definition expect {T} (o : option T) : N T :=
  match o with Some x => mret x | None => panic Expect end.

(** *** Lemmas *)

Lemma bind_load {B} (f : mem -> Z) (k : Z -> M (mem * HW) B) m h : (load f ≫= k) (m, h) = k (f m) (m, h).
Proof. done. Qed.

Lemma bind_store {B} (f : mem -> mem) (k : unit -> M (mem * HW) B) m h :
  (store f ≫= k) (m, h) = k tt (f m, h).
Proof. done. Qed.

Lemma for_each_inv {A} (l : list A) (body : A -> M (mem * HW) unit)
    (P : nat -> mem * HW -> Prop) s :
  P 0%nat s ->
  (forall k x s', l !! k = Some x -> P k s' -> exists s'', body x s' = Ret (tt, s'') /\ P (S k) s'') ->
  exists s', for_each l body s = Ret (tt, s') /\ P (length l) s'.
Proof.
  revert P s. induction l as [|x l IH]; intros P s H0 Hstep; [by exists s|].
  destruct (Hstep 0%nat x s eq_refl H0) as (s1 & E1 & H1).
  destruct (IH (fun k => P (S k)) s1 H1) as (s2 & E2 & H2).
  { intros k y s' Hk. by apply (Hstep (S k)). }
  exists s2. split; [|done]. cbn [for_each]. by erewrite bind_Ret by exact E1.
Qed.

End nic.

(** ** Memory *)

Lemma load_le_ext n m m' a :
  (forall x, a <= x < a + Z.of_nat n -> load_byte m' x = load_byte m x) ->
  load_le n m' a = load_le n m a.
Proof. intros H. unfold load_le. f_equal. by apply load_bytes_ext. Qed.

Lemma load_le_store_bytes_ne n m a bs x :
  x + Z.of_nat n <= a \/ a + zlen bs <= x -> load_le n (store_bytes m a bs) x = load_le n m x.
Proof. intros H. unfold load_le. by rewrite load_bytes_store_ne. Qed.

Lemma load_le_store_ne n k m a v x :
  x + Z.of_nat n <= a \/ a + Z.of_nat k <= x -> load_le n (store_le k a v m) x = load_le n m x.
Proof. intros H. apply load_le_store_bytes_ne. by rewrite zlen_le_split. Qed.

Lemma load_le_store_eq n m a v : load_le n (store_le n a v m) a = v mod 2 ^ (8 * Z.of_nat n).
Proof.
  unfold load_le, store_le. pose proof (load_bytes_store_eq m a (le_split n v)) as H.
  rewrite length_le_split in H. rewrite H, le_combine_split. do 2 f_equal; lia.
Qed.

(** Reads back the fields of a descriptor after stores to them. *)
Ltac load_fields :=
  repeat first
    [ rewrite load_le_store_eq
    | rewrite load_le_store_ne by lia
    | rewrite load_le_store_bytes_ne by (autorewrite with zlen; lia) ].

(** *** Rings of 16-byte descriptors *)

Definition outside_ring (base n : Z) (m m' : mem) : Prop :=
  forall x, x < base \/ base + n * 16 <= x -> load_byte m' x = load_byte m x.

(** Only descriptor [i] of the ring at [base] has changed. *)
Definition only_desc (base i : Z) (m m' : mem) : Prop :=
  forall x, x < base + i * 16 \/ base + i * 16 + 16 <= x -> load_byte m' x = load_byte m x.

Section init.
Context {HW : Type}.

(** A loop that fills the descriptors of a ring one by one. *)
Lemma init_loop {D} n (desc : mem -> Z -> D) (fresh : Z -> D) (body : Z -> M (mem * HW) unit) base m h :
  (forall m m' a, (forall x, a <= x < a + 16 -> load_byte m' x = load_byte m x) ->
     desc m' a = desc m a) ->
  (forall i m, 0 <= i < n -> exists m', body i (m, h) = Ret (tt, (m', h)) /\
     desc m' (base + i * 16) = fresh i /\ only_desc base i m m') ->
  exists m', for_each (seqZ 0 n) body (m, h) = Ret (tt, (m', h)) /\
    (forall i, 0 <= i < n -> desc m' (base + i * 16) = fresh i) /\ outside_ring base n m m'.
Proof.
  intros Hext Hbody.
  destruct (for_each_inv (seqZ 0 n) body (fun k s =>
    s.2 = h /\ (forall i, 0 <= i < Z.of_nat k -> desc s.1 (base + i * 16) = fresh i) /\
    outside_ring base n m s.1) (m, h)) as ([m' h'] & E & Hh & Hd & Ho).
  - split_and!; [done|lia|done].
  - intros k x [m1 h1] Hx (Hh & Hd & Ho). cbn [fst snd] in *. subst h1.
    apply lookup_seqZ in Hx as [-> Hk]. rewrite Z.add_0_l.
    destruct (Hbody (Z.of_nat k) m1) as (m2 & E & Hf & Hon); [lia|].
    exists (m2, h). cbn [fst snd]. split_and!; [done|done| |].
    + intros i Hi. destruct (decide (i = Z.of_nat k)) as [->|Hne]; [done|].
      rewrite <- (Hd i) by lia. apply Hext. intros x Hx. apply Hon. lia.
    + intros x Hx. rewrite <- (Ho x Hx). apply Hon. lia.
  - exists m'. cbn [fst snd] in *. subst h'. split_and!; [done| |done].
    intros i Hi. apply Hd. rewrite length_seqZ. lia.
Qed.

End init.
