(* ===== verification/Pci.v ===== *)
(** PCI configuration space ([crates/embclox-hal-x86/src/pci.rs]): access
    through the ports 0xCF8 and 0xCFC, and the scan of bus 0.  The ports are
    hardware, the class [Ports]. *)

From S2P Require Import Prelude.

Class Ports (St : Type) := {
  port_write : Z -> Z -> St -> St;
  port_read : Z -> St -> Z * St;
}.

Definition PCI_CONFIG_ADDR : Z := 0xCF8.
Definition PCI_CONFIG_DATA : Z := 0xCFC.
Definition PCI_COMMAND : Z := 0x04.
Definition PCI_HEADER_TYPE : Z := 0x0E.
Definition PCI_CLASS_REV : Z := 0x08.

Record PciDevice := {
  bus : Z;
  dev : Z;
  func : Z;
  vendor : Z;
  device : Z;
  class : Z;
  subclass : Z;
}.

Definition pci_config_address (bus dev func offset : Z) : Z :=
  Z.lor (Z.lor (Z.lor (Z.lor (Z.shiftl 1 31) (Z.shiftl bus 16)) (Z.shiftl dev 11))
           (Z.shiftl func 8)) (Z.land offset 0xFC).

Section pci.
Context {St : Type} `{Ports St}.

Definition out32 (port v : Z) : M St unit := modify (port_write port v).
Definition in32 (port : Z) : M St Z := fun s => Ret (port_read port s).

Definition pci_read32 (bus dev func offset : Z) : M St Z :=
  let addr := pci_config_address bus dev func offset in
  _ ← out32 PCI_CONFIG_ADDR addr;
  in32 PCI_CONFIG_DATA.

Definition pci_write32 (bus dev func offset val : Z) : M St unit :=
  let addr := pci_config_address bus dev func offset in
  _ ← out32 PCI_CONFIG_ADDR addr;
  out32 PCI_CONFIG_DATA val.

Definition pci_read16 (bus dev func offset : Z) : M St Z :=
  val ← pci_read32 bus dev func (Z.land offset 0xFC);
  mret (as_u16 (Z.land (Z.shiftr val (Z.land offset 2 * 8)) 0xFFFF)).

(** The new register contents that [pci_write16] writes. *)
Definition replace16 (old offset val : Z) : Z :=
  let shift := Z.land offset 2 * 8 in
  let mask := U32 - 1 - as_u32 (Z.shiftl 0xFFFF shift) in
  Z.lor (Z.land old mask) (as_u32 (Z.shiftl val shift)).

Definition pci_write16 (bus dev func offset val : Z) : M St unit :=
  old ← pci_read32 bus dev func (Z.land offset 0xFC);
  pci_write32 bus dev func (Z.land offset 0xFC) (replace16 old offset val).

Definition read_class (bus dev func : Z) : M St (Z * Z) :=
  w ← pci_read32 bus dev func PCI_CLASS_REV;
  mret (as_u8 (Z.land (Z.shiftr w 24) 0xFF), as_u8 (Z.land (Z.shiftr w 16) 0xFF)).

Definition id_vendor (id : Z) : Z := as_u16 (Z.land id 0xFFFF).
Definition id_device (id : Z) : Z := as_u16 (Z.land (Z.shiftr id 16) 0xFFFF).

(** The device of a function whose first register reads [id]. *)
Definition describe (bus dev func id : Z) : M St PciDevice :=
  '(c, sc) ← read_class bus dev func;
  mret {| bus := bus; dev := dev; func := func; vendor := id_vendor id; device := id_device id;
          class := c; subclass := sc |}.

Definition push_dev (out : list PciDevice) (bus dev func id : Z) : M St (list PciDevice) :=
  d ← describe bus dev func id; mret (out ++ [d]).

(** The loop of [find_device_any] from [devs] on; [find_device] is the loop
    for a single device id. *)
Fixpoint find_loop (vendor_id : Z) (device_ids : list Z) (devs : list Z) : M St (option PciDevice) :=
  match devs with
  | [] => mret None
  | dev :: rest =>
      id ← pci_read32 0 dev 0 0;
      if id =? 0xFFFFFFFF then find_loop vendor_id device_ids rest else
      if (id_vendor id =? vendor_id) && bool_decide (id_device id ∈ device_ids) then
        d ← describe 0 dev 0 id; mret (Some d)
      else find_loop vendor_id device_ids rest
  end.

Definition find_device_any (vendor_id : Z) (device_ids : list Z) : M St (option PciDevice) :=
  find_loop vendor_id device_ids (seqZ 0 32).

Definition find_device (vendor_id device_id : Z) : M St (option PciDevice) :=
  find_loop vendor_id [device_id] (seqZ 0 32).

Fixpoint enum_funcs (dev : Z) (funcs : list Z) (out : list PciDevice) : M St (list PciDevice) :=
  match funcs with
  | [] => mret out
  | func :: rest =>
      idf ← pci_read32 0 dev func 0;
      if idf =? 0xFFFFFFFF then enum_funcs dev rest out else
      out ← push_dev out 0 dev func idf;
      enum_funcs dev rest out
  end.

Fixpoint enum_devs (devs : list Z) (out : list PciDevice) : M St (list PciDevice) :=
  match devs with
  | [] => mret out
  | dev :: rest =>
      id0 ← pci_read32 0 dev 0 0;
      if id0 =? 0xFFFFFFFF then enum_devs rest out else
      out ← push_dev out 0 dev 0 id0;
      h ← pci_read32 0 dev 0 (Z.land PCI_HEADER_TYPE 0xFC);
      let header := as_u8 (Z.shiftr h (Z.land PCI_HEADER_TYPE 3 * 8)) in
      out ← (if negb (Z.land header 0x80 =? 0) then enum_funcs dev (seqZ 1 7) out else mret out);
      enum_devs rest out
  end.

Definition enumerate : M St (list PciDevice) := enum_devs (seqZ 0 32) [].

Definition enable_bus_mastering (d : PciDevice) : M St unit :=
  cmd ← pci_read16 (bus d) (dev d) (func d) PCI_COMMAND;
  _ ← pci_write16 (bus d) (dev d) (func d) PCI_COMMAND (Z.lor cmd 0x07);
  _ ← pci_read16 (bus d) (dev d) (func d) PCI_COMMAND;
  mret tt.

Definition read_bar (d : PciDevice) (bar : Z) : M St Z :=
  o ← lift (u8 (bar * 4));
  offset ← lift (u8 (0x10 + o));
  raw ← pci_read32 (bus d) (dev d) (func d) offset;
  let low := Z.land raw (U32 - 1 - 0xF) in
  if Z.land (Z.shiftr raw 1) 0x3 =? 0x2 then
    offset' ← lift (u8 (offset + 4));
    upper ← pci_read32 (bus d) (dev d) (func d) offset';
    mret (Z.lor (Z.shiftl upper 32) low)
  else mret low.

Definition read_config (d : PciDevice) (offset : Z) : M St Z :=
  pci_read32 (bus d) (dev d) (func d) offset.

Definition write_config (d : PciDevice) (offset val : Z) : M St unit :=
  pci_write32 (bus d) (dev d) (func d) offset val.

End pci.

(** ** Properties *)

(** What the ports do: a read of the data port gives the register selected
    last, and reading changes no register. *)
Class ConfigSpace (St : Type) `{Ports St} := {
  config : St -> Z -> Z;
  config_read a s : exists s',
    port_read PCI_CONFIG_DATA (port_write PCI_CONFIG_ADDR a s) = (config s a, s') /\
    forall b, config s' b = config s b;
}.

Section view.
Variable cfg : Z -> Z.

Definition id_of (d f : Z) : Z := cfg (pci_config_address 0 d f 0).
Definition present (d f : Z) : bool := negb (id_of d f =? 0xFFFFFFFF).
Definition multi_function (d : Z) : bool :=
  negb (Z.land (as_u8 (Z.shiftr (cfg (pci_config_address 0 d 0 0x0C)) 16)) 0x80 =? 0).

Definition info (d f : Z) : PciDevice :=
  let w := cfg (pci_config_address 0 d f PCI_CLASS_REV) in
  {| bus := 0; dev := d; func := f; vendor := id_vendor (id_of d f); device := id_device (id_of d f);
     class := as_u8 (Z.land (Z.shiftr w 24) 0xFF); subclass := as_u8 (Z.land (Z.shiftr w 16) 0xFF) |}.

(** The functions of device [d] that answer. *)
Definition functions (d : Z) : list PciDevice :=
  if present d 0 then
    info d 0 :: (if multi_function d then info d <$> filter (fun f => present d f) (seqZ 1 7) else [])
  else [].

Definition functions_of (devs : list Z) : list PciDevice := flat_map functions devs.

Lemma elem_of_functions d x :
  x ∈ functions d <->
  exists f, 0 <= f < 8 /\ x = info d f /\ present d 0 = true /\ present d f = true /\
    (f = 0 \/ multi_function d = true).
Proof.
  unfold functions. destruct (present d 0) eqn:H0.
  - rewrite elem_of_cons. destruct (multi_function d) eqn:Hm.
    + rewrite list_elem_of_fmap. setoid_rewrite list_elem_of_filter. setoid_rewrite elem_of_seqZ. split.
      * intros [->|(f & -> & Hp & Hf)]; [by exists 0; split_and!; [lia..| | | |left]|].
        exists f. apply Is_true_true in Hp. split_and!; [lia..|done|done|done|by right].
      * intros (f & Hf & -> & _ & Hp & _). destruct (decide (f = 0)) as [->|]; [by left|right].
        exists f. split_and!; [done|by apply Is_true_true|lia..].
    + split.
      * intros [->|Hin]; [|by apply elem_of_nil in Hin]. exists 0. split_and!; [lia..| | | |left]; done.
      * intros (f & _ & -> & _ & _ & [->|?]); [by left|done].
  - split; [by intros ?%elem_of_nil|]. intros (f & _ & _ & ? & _). done.
Qed.
End view.

(** The computation yields [a] whenever the registers read as [cfg], and
    leaves them so. *)
Definition runs {St A} `{ConfigSpace St} (cfg : Z -> Z) (c : M St A) (a : A) : Prop :=
  forall s, (forall b, config s b = cfg b) ->
  exists s', c s = Ret (a, s') /\ forall b, config s' b = cfg b.

Section runs.
Context {St : Type} `{ConfigSpace St} (cfg : Z -> Z).

Lemma runs_ret {A} (a : A) : runs cfg (mret a) a.
Proof. intros s Hs. by exists s. Qed.

Lemma runs_bind {A B} (c : M St A) (k : A -> M St B) a b :
  runs cfg c a -> runs cfg (k a) b -> runs cfg (c ≫= k) b.
Proof.
  intros Hc Hk s Hs. destruct (Hc s Hs) as (s1 & E1 & Hs1). destruct (Hk s1 Hs1) as (s2 & E2 & Hs2).
  exists s2. split; [|done]. by erewrite bind_Ret by exact E1.
Qed.

Lemma runs_read32 b d f o : runs cfg (pci_read32 b d f o) (cfg (pci_config_address b d f o)).
Proof.
  intros s Hs. destruct (config_read (pci_config_address b d f o) s) as (s' & E & Hs').
  exists s'. split; [|intros; by rewrite Hs'].
  unfold pci_read32, out32, in32, mbind, M_bind, modify. by rewrite E, Hs.
Qed.

Lemma runs_describe d f : runs cfg (describe 0 d f (id_of cfg d f)) (info cfg d f).
Proof.
  eapply runs_bind; [eapply runs_bind; [apply runs_read32|apply runs_ret]|]. apply runs_ret.
Qed.

Lemma runs_enum_funcs d fs out :
  runs cfg (enum_funcs d fs out) (out ++ (info cfg d <$> filter (fun f => present cfg d f) fs)).
Proof.
  revert out. induction fs as [|f fs IH]; intros out; [rewrite app_nil_r; apply runs_ret|].
  cbn [enum_funcs]. eapply runs_bind; [apply runs_read32|]. fold (id_of cfg d f).
  destruct (id_of cfg d f =? 0xFFFFFFFF) eqn:Hid.
  - rewrite filter_cons_False by (unfold present; rewrite Hid; tauto). apply IH.
  - rewrite filter_cons_True by (unfold present; rewrite Hid; exact I).
    eapply runs_bind; [eapply runs_bind; [apply runs_describe|apply runs_ret]|].
    specialize (IH (out ++ [info cfg d f])). rewrite <- app_assoc in IH. exact IH.
Qed.

Lemma runs_enum_devs ds out : runs cfg (enum_devs ds out) (out ++ functions_of cfg ds).
Proof.
  revert out. induction ds as [|d ds IH]; intros out; [rewrite app_nil_r; apply runs_ret|].
  cbn [enum_devs functions_of flat_map]. eapply runs_bind; [apply runs_read32|]. fold (id_of cfg d 0).
  unfold functions, present at 1. destruct (id_of cfg d 0 =? 0xFFFFFFFF) eqn:Hid; cbn [negb].
  - apply IH.
  - eapply runs_bind; [eapply runs_bind; [apply runs_describe|apply runs_ret]|].
    eapply runs_bind; [apply runs_read32|]. cbv zeta.
    change (Z.land PCI_HEADER_TYPE 0xFC) with 0x0C. change (Z.land PCI_HEADER_TYPE 3 * 8) with 16.
    fold (multi_function cfg d). destruct (multi_function cfg d).
    + eapply runs_bind; [apply runs_enum_funcs|].
      specialize (IH ((out ++ [info cfg d 0]) ++
                      (info cfg d <$> filter (fun f => present cfg d f) (seqZ 1 7)))).
      rewrite <- !app_assoc in *. exact IH.
    + eapply runs_bind; [apply runs_ret|].
      specialize (IH (out ++ [info cfg d 0])). rewrite <- app_assoc in IH. exact IH.
Qed.

End runs.

Definition key (x : PciDevice) : Z * Z * Z := (bus x, dev x, func x).

Lemma functions_NoDup cfg d : NoDup (key <$> functions cfg d).
Proof.
  unfold functions. destruct (present cfg d 0); [|constructor].
  destruct (multi_function cfg d); [|repeat constructor; by intros ?%elem_of_nil].
  rewrite fmap_cons, <- list_fmap_compose. constructor.
  - intros (f & Hf & Hin)%list_elem_of_fmap. apply list_elem_of_filter in Hin as [_ Hin%elem_of_seqZ].
    injection Hf. lia.
  - apply NoDup_fmap_2; [|by apply NoDup_filter, NoDup_seqZ]. by intros ?? [= ->].
Qed.

Lemma functions_of_NoDup cfg ds : NoDup ds -> NoDup (key <$> functions_of cfg ds).
Proof.
  induction 1 as [|d ds Hd _ IH]; [constructor|]. cbn [functions_of flat_map]. rewrite fmap_app.
  apply NoDup_app. split_and!; [apply functions_NoDup| |exact IH].
  intros k (x & -> & Hx)%list_elem_of_fmap (y & Hk & Hy)%list_elem_of_fmap.
  apply elem_of_functions in Hx as (f & _ & -> & _).
  unfold functions_of in Hy. apply list_elem_of_In, in_flat_map in Hy as (d' & Hd' & Hy).
  apply list_elem_of_In, elem_of_functions in Hy as (f' & _ & -> & _).
  injection Hk as -> _. by apply Hd, list_elem_of_In.
Qed.

Definition wanted (v : Z) (ids : list Z) (x : PciDevice) : bool :=
  (func x =? 0) && ((vendor x =? v) && bool_decide (device x ∈ ids)).

Lemma find_app {A} (p : A -> bool) l1 l2 :
  List.find p (l1 ++ l2) = match List.find p l1 with Some x => Some x | None => List.find p l2 end.
Proof. induction l1 as [|x l1 IH]; [done|]. simpl. by destruct (p x). Qed.

Lemma find_functions cfg v ids d :
  List.find (wanted v ids) (functions cfg d) =
  if present cfg d 0 && ((vendor (info cfg d 0) =? v) && bool_decide (device (info cfg d 0) ∈ ids))
  then Some (info cfg d 0) else None.
Proof.
  unfold functions. destruct (present cfg d 0); [|done]. cbn [List.find andb].
  unfold wanted at 1. cbn [func info]. cbn [Z.eqb andb].
  destruct ((vendor (info cfg d 0) =? v) && _); [done|].
  destruct (List.find _ _) as [x|] eqn:Hf; [|done]. exfalso.
  apply find_some in Hf as [Hin Hw]. destruct (multi_function cfg d); [|done].
  apply list_elem_of_In, list_elem_of_fmap in Hin as (f & -> & Hin).
  apply list_elem_of_filter in Hin as [_ Hin%elem_of_seqZ]. unfold wanted in Hw. cbn [func info] in Hw.
  by rewrite (proj2 (Z.eqb_neq f 0)) in Hw by lia.
Qed.

Lemma runs_find {St} `{ConfigSpace St} cfg v ids ds :
  runs cfg (find_loop v ids ds) (List.find (wanted v ids) (functions_of cfg ds)).
Proof.
  induction ds as [|d ds IH]; [apply runs_ret|].
  cbn [find_loop functions_of flat_map]. rewrite find_app, find_functions.
  eapply runs_bind; [apply runs_read32|]. fold (id_of cfg d 0). unfold present at 1.
  destruct (id_of cfg d 0 =? 0xFFFFFFFF); cbn [negb andb]; [apply IH|].
  change (vendor (info cfg d 0)) with (id_vendor (id_of cfg d 0)).
  change (device (info cfg d 0)) with (id_device (id_of cfg d 0)).
  destruct ((id_vendor _ =? v) && _); [|apply IH].
  eapply runs_bind; [apply runs_describe|apply runs_ret].
Qed.

Lemma elem_of_functions_of cfg ds x :
  x ∈ functions_of cfg ds <-> exists d, d ∈ ds /\ x ∈ functions cfg d.
Proof.
  unfold functions_of. rewrite list_elem_of_In, in_flat_map. by setoid_rewrite list_elem_of_In.
Qed.

(** C24: [enumerate] lists exactly the functions of bus 0 that answer, where
    functions 1 to 7 are looked at only for a device whose function 0 answers
    and has the multi-function bit; no function is listed twice, each is
    described by its registers, and the registers are left as they were.
    [find_device_any] finds the first function 0 of that list with the vendor
    and one of the device ids. *)
Theorem enumerate_exact {St} `{ConfigSpace St} (s : St) :
  exists devs s', enumerate s = Ret (devs, s') /\ (forall a, config s' a = config s a) /\
    NoDup (key <$> devs) /\
    (forall x, x ∈ devs <-> exists d f, 0 <= d < 32 /\ 0 <= f < 8 /\ x = info (config s) d f /\
       present (config s) d 0 = true /\ present (config s) d f = true /\
       (f = 0 \/ multi_function (config s) d = true)) /\
    forall v ids, exists s'', find_device_any v ids s = Ret (List.find (wanted v ids) devs, s'').
Proof.
  destruct (runs_enum_devs (config s) (seqZ 0 32) [] s (fun _ => eq_refl)) as (s' & E & Hs').
  exists (functions_of (config s) (seqZ 0 32)), s'. split_and!; [exact E|exact Hs'| | |].
  - apply functions_of_NoDup, NoDup_seqZ.
  - intros x. rewrite elem_of_functions_of. setoid_rewrite elem_of_seqZ.
    setoid_rewrite elem_of_functions. split.
    + intros (d & Hd & f & Hf). exists d, f. split; [lia|tauto].
    + intros (d & f & Hd & Hf). exists d. split; [lia|]. by exists f.
  - intros v ids. destruct (runs_find (config s) v ids (seqZ 0 32) s (fun _ => eq_refl)) as (s'' & E'' & _).
    by exists s''.
Qed.

(** *** Register writes of 16 bits *)

Lemma lor_shiftl a b n : 0 <= n -> 0 <= b < 2 ^ n -> Z.lor (Z.shiftl a n) b = a * 2 ^ n + b.
Proof.
  intros Hn Hb. rewrite <- Z.shiftl_mul_pow2 by done.
  assert (Hl : Z.land (Z.shiftl a n) b = 0).
  { apply Z.bits_inj'. intros i Hi. rewrite Z.land_spec, Z.bits_0.
    destruct (Z.lt_ge_cases i n); [by rewrite Z.shiftl_spec_low|].
    rewrite <- (Z.mod_small b (2 ^ n)) by done. rewrite Z.mod_pow2_bits_high by lia. apply andb_false_r. }
  rewrite <- Z.lxor_lor by done. symmetry. by apply Z.add_nocarry_lxor.
Qed.

(** The address as a number. *)
Lemma pci_config_address_sum b d f off :
  0 <= b < U8 -> 0 <= d < 32 -> 0 <= f < 8 -> 0 <= off < U8 ->
  pci_config_address b d f off = 2 ^ 31 + b * 2 ^ 16 + d * 2 ^ 11 + f * 2 ^ 8 + off / 4 * 4.
Proof.
  unfold U8. intros Hb Hd Hf Ho. unfold pci_config_address. rewrite <- !Z.lor_assoc.
  assert (Hoff : Z.land off 0xFC = off / 4 * 4).
  { change 0xFC with (Z.land 0xFF (not_u64 (2 ^ 2 - 1))). rewrite Z.land_assoc.
    change 0xFF with (Z.ones 8). rewrite Z.land_ones, Z.mod_small by lia.
    by rewrite (land_not_low off 2) by (unfold U64; lia). }
  rewrite Hoff. pose proof (Z_div_mod_eq_full off 4). pose proof (Z.mod_pos_bound off 4 ltac:(lia)).
  rewrite (lor_shiftl f) by lia. rewrite (lor_shiftl d) by lia. rewrite (lor_shiftl b) by lia.
  rewrite (lor_shiftl 1) by lia. lia.
Qed.

(** C25: the address written to select a register is a 32-bit word with the
    enable bit, and each of its fields is the bus, device, function and
    dword offset asked for, so that no two registers share an address. *)
Theorem pci_config_address_fields b d f off :
  0 <= b < U8 -> 0 <= d < 32 -> 0 <= f < 8 -> 0 <= off < U8 ->
  let a := pci_config_address b d f off in
  0 <= a < U32 /\ a / 2 ^ 31 = 1 /\ a / 2 ^ 16 mod 2 ^ 8 = b /\ a / 2 ^ 11 mod 2 ^ 5 = d /\
  a / 2 ^ 8 mod 2 ^ 3 = f /\ a mod 2 ^ 8 = off / 4 * 4.
Proof.
  intros Hb Hd Hf Ho a. unfold a. rewrite pci_config_address_sum by done. clear a.
  unfold U8 in *. pose proof (Z_div_mod_eq_full off 4). pose proof (Z.mod_pos_bound off 4 ltac:(lia)).
  set (o := off / 4 * 4) in *. assert (0 <= o < 256) by lia. split_and!.
  - lia.
  - unfold U32. lia.
  - symmetry. apply (Z.div_unique _ _ _ (b * 2 ^ 16 + d * 2 ^ 11 + f * 2 ^ 8 + o)); lia.
  - rewrite <- (Z.div_unique _ (2 ^ 16) (2 ^ 15 + b) (d * 2 ^ 11 + f * 2 ^ 8 + o)) by lia.
    symmetry. apply (Z.mod_unique _ _ 128); lia.
  - rewrite <- (Z.div_unique _ (2 ^ 11) (2 ^ 20 + b * 2 ^ 5 + d) (f * 2 ^ 8 + o)) by lia.
    symmetry. apply (Z.mod_unique _ _ (2 ^ 15 + b)); lia.
  - rewrite <- (Z.div_unique _ (2 ^ 8) (2 ^ 23 + b * 2 ^ 8 + d * 2 ^ 3 + f) o) by lia.
    symmetry. apply (Z.mod_unique _ _ (2 ^ 20 + b * 2 ^ 5 + d)); lia.
  - symmetry. apply (Z.mod_unique _ _ (2 ^ 23 + b * 2 ^ 8 + d * 2 ^ 3 + f)); lia.
Qed.

Lemma pci_config_address_fields_witness :
  pci_config_address 0 3 5 0x3D = 0x80001D3C /\ pci_config_address 0 3 5 0x3D mod 2 ^ 8 = 0x3C.
Proof.
  split; [reflexivity|].
  destruct (pci_config_address_fields 0 3 5 0x3D ltac:(done) ltac:(done) ltac:(done) ltac:(done))
    as (_ & _ & _ & _ & _ & E). exact E.
Defined.

(** [pci_write16] replaces one half of the register and writes the other half
    back as it was read. *)
Lemma replace16_halves old offset val :
  0 <= old < U32 -> 0 <= val < U16 -> offset = 0 \/ offset = 2 ->
  let new := replace16 old offset val in
  if offset =? 2 then new mod U16 = old mod U16 /\ new / U16 = val
  else new mod U16 = val /\ new / U16 = old / U16.
Proof.
  intros Ho Hv Hoff. unfold replace16, as_u32.
  destruct Hoff as [-> | ->].
  - change (Z.land 0 2 * 8) with 0. rewrite !Z.shiftl_0_r. change (65535 mod U32) with 65535.
    rewrite (Z.mod_small val U32) by (unfold U16, U32 in *; lia).
    change (U32 - 1 - 65535) with (Z.shiftl (Z.ones 16) 16).
    assert (Hh : Z.land old (Z.shiftl (Z.ones 16) 16) = Z.shiftl (old / U16) 16).
    { apply Z.bits_inj'. intros i Hi. rewrite Z.land_spec. destruct (Z.lt_ge_cases i 16).
      - rewrite !Z.shiftl_spec_low by done. apply andb_false_r.
      - rewrite !Z.shiftl_spec by lia. unfold U16. rewrite Z.div_pow2_bits by lia.
        replace (i - 16 + 16) with i by lia. destruct (Z.lt_ge_cases (i - 16) 16).
        + rewrite Z.ones_spec_low by lia. apply andb_true_r.
        + rewrite <- (Z.mod_small old (2 ^ 32)) by done. rewrite Z.mod_pow2_bits_high by lia. done. }
    rewrite Hh, lor_shiftl by (unfold U16 in Hv; lia). change (2 ^ 16) with U16.
    cbn [Z.eqb]. split.
    + rewrite Z.add_comm, Z_mod_plus_full. by apply Z.mod_small.
    + rewrite Z.div_add_l by done. rewrite (Z.div_small val) by done. lia.
  - change (Z.land 2 2 * 8) with 16. change (Z.shiftl 65535 16 mod U32) with (Z.shiftl 65535 16).
    change (U32 - 1 - Z.shiftl 65535 16) with (Z.ones 16). rewrite Z.land_ones by lia.
    rewrite (Z.mod_small (Z.shiftl val 16)).
    2: { rewrite Z.shiftl_mul_pow2 by lia. unfold U16, U32 in *. lia. }
    rewrite Z.lor_comm, lor_shiftl by (lia || by apply Z.mod_pos_bound). change (2 ^ 16) with U16.
    cbn [Z.eqb Pos.eqb]. pose proof (Z.mod_pos_bound old U16 ltac:(done)). split.
    + rewrite Z.add_comm, Z_mod_plus_full. by apply Z.mod_small.
    + rewrite Z.div_add_l by done. rewrite (Z.div_small (old mod U16)) by done. lia.
Qed.

(** ** Witness *)

(** A bus with a bridge at 0 and a two-function device at 3; the state is the
    selected address. *)
Definition demo_config (a : Z) : Z :=
  if a =? pci_config_address 0 0 0 0 then 0x12378086
  else if a =? pci_config_address 0 3 0 0 then 0x100E8086
  else if a =? pci_config_address 0 3 0 0x0C then 0x00800000
  else if a =? pci_config_address 0 3 5 0 then 0x00091011
  else if Z.land a 0xFC =? 0 then 0xFFFFFFFF else 0.

#[local] Instance demo_ports : Ports Z :=
  {| port_write port v s := if port =? PCI_CONFIG_ADDR then v else s;
     port_read _ s := (demo_config s, s) |}.

#[local] Instance demo_bus : ConfigSpace Z.
Proof. exists (fun _ => demo_config). intros a s. by exists a. Defined.

Lemma enumerate_exact_witness :
  exists devs s', enumerate 0 = Ret (devs, s') /\ (key <$> devs) = [(0, 0, 0); (0, 3, 0); (0, 3, 5)] /\
    NoDup (key <$> devs).
Proof.
  destruct (enumerate_exact 0) as (devs & s' & E & _ & Hnd & _).
  exists devs, s'. split; [exact E|]. split; [|exact Hnd].
  assert (Hv : value_of (enumerate 0) = Some devs) by (by rewrite E).
  vm_compute in Hv. injection Hv as <-. reflexivity.
Defined.
