(* ===== verification/Ioapic.v ===== *)
(** The I/O APIC ([crates/embclox-hal-x86/src/ioapic.rs]): indirect registers
    and the redirection table.  The registers are hardware, reached through
    [Nic.Mmio]. *)

From S2P Require Import Prelude Mem Nic.

Definition IOREGSEL : Z := 0x00.
Definition IOWIN : Z := 0x10.
Definition IOAPICID : Z := 0x00.
Definition IOAPICVER : Z := 0x01.
Definition IOREDTBL_BASE : Z := 0x10.

Record IoApic := { ioapic_base : Z }.

Section ioapic.
Context {HW : Type} `{Mmio HW}.
Abbreviation N := (M (mem * HW)).

Definition ioapic_read (a : IoApic) (reg : Z) : N Z :=
  p ← lift (uadd (ioapic_base a) IOREGSEL);
  _ ← write_volatile p reg;
  q ← lift (uadd (ioapic_base a) IOWIN);
  read_volatile q.

Definition ioapic_write (a : IoApic) (reg value : Z) : N unit :=
  p ← lift (uadd (ioapic_base a) IOREGSEL);
  _ ← write_volatile p reg;
  q ← lift (uadd (ioapic_base a) IOWIN);
  write_volatile q value.

Definition max_entries (a : IoApic) : N Z :=
  v ← ioapic_read a IOAPICVER;
  lift (u8 (as_u8 (Z.land (Z.shiftr v 16) 0xFF) + 1)).

(** [IOREDTBL_BASE + irq * 2]. *)
Definition reg_low (irq : Z) : outcome Z := d ← u8 (irq * 2); u8 (IOREDTBL_BASE + d).

Definition enable_irq (a : IoApic) (irq vector lapic_id : Z) : N unit :=
  lo ← lift (reg_low irq);
  hi ← lift (u8 (lo + 1));
  let low := vector in
  let high := as_u32 (Z.shiftl lapic_id 24) in
  _ ← ioapic_write a hi high;
  ioapic_write a lo low.

Definition disable_irq (a : IoApic) (irq : Z) : N unit :=
  lo ← lift (reg_low irq);
  low ← ioapic_read a lo;
  ioapic_write a lo (Z.lor low (Z.shiftl 1 16)).

End ioapic.

(** ** Properties *)

(** The bits of a register that hold what was written: all but delivery
    status (12) and remote IRR (14) of a redirection entry. *)
Definition STABLE : Z := not_u32 0x5000.

(** What the hardware does: IOREGSEL selects the register that IOWIN reads
    and writes. *)
Class IoapicHw (HW : Type) `{Mmio HW} (a : IoApic) := {
  ioreg : mem * HW -> Z -> Z;
  ioreg_read r s : exists s',
    mmio_read32 (ioapic_base a + IOWIN) (mmio_write32 (ioapic_base a + IOREGSEL) r s) = (ioreg s r, s') /\
    forall r', Z.land (ioreg s' r') STABLE = Z.land (ioreg s r') STABLE;
  ioreg_write r v s r' : IOREDTBL_BASE <= r ->
    Z.land (ioreg (mmio_write32 (ioapic_base a + IOWIN) v
                     (mmio_write32 (ioapic_base a + IOREGSEL) r s)) r') STABLE =
    Z.land (if r' =? r then v else ioreg s r') STABLE;
}.
#[global] Arguments ioreg {HW H} a {_} s r.

(** A redirection entry. *)
Record Route := {
  to_vector : Z;
  active_low : bool;
  level_triggered : bool;
  masked : bool;
  to_lapic : Z;
}.

Definition route_of (lo hi : Z) : Route :=
  {| to_vector := Z.land lo 0xFF; active_low := Z.testbit lo 13; level_triggered := Z.testbit lo 15;
     masked := Z.testbit lo 16; to_lapic := Z.land (Z.shiftr hi 24) 0xFF |}.

Lemma route_of_stable lo hi lo' hi' :
  Z.land lo STABLE = Z.land lo' STABLE -> Z.land hi STABLE = Z.land hi' STABLE ->
  route_of lo hi = route_of lo' hi'.
Proof.
  intros Hl Hh.
  assert (Hb : forall x y n, Z.land x STABLE = Z.land y STABLE -> Z.testbit STABLE n = true ->
    Z.testbit x n = Z.testbit y n).
  { intros x y n E Hn. apply (f_equal (fun z => Z.testbit z n)) in E.
    by rewrite !Z.land_spec, Hn, !andb_true_r in E. }
  unfold route_of. f_equal; [|by apply Hb..|].
  - change 0xFF with (Z.land STABLE 0xFF). by rewrite !Z.land_assoc, Hl.
  - change 0xFF with (Z.land (Z.shiftr STABLE 24) 0xFF).
    by rewrite !Z.land_assoc, <- !Z.shiftr_land, Hh.
Qed.

(** The entry [enable_irq] programs. *)
Lemma route_of_programmed vector lapic :
  0 <= vector < U8 -> 0 <= lapic < U8 ->
  route_of vector (as_u32 (Z.shiftl lapic 24)) =
  {| to_vector := vector; active_low := false; level_triggered := false; masked := false;
     to_lapic := lapic |}.
Proof.
  unfold U8. intros Hv Hl. unfold route_of, as_u32.
  assert (Hhigh : forall n, 8 <= n -> Z.testbit vector n = false).
  { intros n Hn. rewrite <- (Z.mod_small vector (2 ^ 8)) by done. by apply Z.mod_pow2_bits_high. }
  rewrite !Hhigh by lia. change 255 with (Z.ones 8). rewrite !Z.land_ones by lia. f_equal.
  - by apply Z.mod_small.
  - rewrite (Z.mod_small (Z.shiftl lapic 24)) by (unfold U32; rewrite Z.shiftl_mul_pow2 by lia; lia).
    rewrite Z.shiftr_shiftl_l by lia. rewrite Z.shiftl_0_r. by apply Z.mod_small.
Qed.

Section facts.
Context {HW : Type} `{IoapicHw HW a}.
Hypothesis base_ok : 0 <= ioapic_base a < U64 - IOWIN.

(** Entry [pin] of the redirection table. *)
Definition route (s : mem * HW) (pin : Z) : Route :=
  route_of (ioreg a s (IOREDTBL_BASE + pin * 2)) (ioreg a s (IOREDTBL_BASE + pin * 2 + 1)).

Definition entries (s : mem * HW) : Z := as_u8 (Z.land (Z.shiftr (ioreg a s IOAPICVER) 16) 0xFF) + 1.

Lemma entries_stable s s' :
  Z.land (ioreg a s IOAPICVER) STABLE = Z.land (ioreg a s' IOAPICVER) STABLE -> entries s = entries s'.
Proof.
  intros E. unfold entries. change 0xFF with (Z.land (Z.shiftr STABLE 16) 0xFF).
  by rewrite !Z.land_assoc, <- !Z.shiftr_land, E.
Qed.

Lemma route_stable s s' pin :
  (forall r, Z.land (ioreg a s r) STABLE = Z.land (ioreg a s' r) STABLE) -> route s pin = route s' pin.
Proof. intros E. by apply route_of_stable. Qed.

Lemma ioapic_read_ok r s : exists s', ioapic_read a r s = Ret (ioreg a s r, s') /\
  forall r', Z.land (ioreg a s' r') STABLE = Z.land (ioreg a s r') STABLE.
Proof.
  destruct (ioreg_read r s) as (s' & E & Hs'). exists s'. split; [|done].
  unfold ioapic_read. unfold IOWIN, IOREGSEL in *.
  rewrite (bind_lift _ _ _ (ioapic_base a + 0)) by (apply uadd_ok; lia).
  erewrite bind_Ret by reflexivity. cbv beta.
  rewrite (bind_lift _ _ _ (ioapic_base a + 0x10)) by (apply uadd_ok; lia).
  unfold read_volatile. by rewrite E.
Qed.

Lemma ioapic_write_ok r v s : IOREDTBL_BASE <= r -> exists s', ioapic_write a r v s = Ret (tt, s') /\
  forall r', Z.land (ioreg a s' r') STABLE = Z.land (if r' =? r then v else ioreg a s r') STABLE.
Proof.
  intros Hr. eexists. split; [|intros r'; by apply ioreg_write].
  unfold ioapic_write. unfold IOWIN, IOREGSEL in *.
  rewrite (bind_lift _ _ _ (ioapic_base a + 0)) by (apply uadd_ok; lia).
  erewrite bind_Ret by reflexivity. cbv beta.
  by rewrite (bind_lift _ _ _ (ioapic_base a + 0x10)) by (apply uadd_ok; lia).
Qed.

Lemma reg_low_ok irq : 0 <= irq < 120 -> reg_low irq = Ret (IOREDTBL_BASE + irq * 2).
Proof.
  intros. unfold reg_low, IOREDTBL_BASE. rewrite u8_ok by (unfold U8; lia). cbn [mbind outcome_bind].
  by rewrite u8_ok by (unfold U8; lia).
Qed.

Lemma reg_low_overflow irq : 120 <= irq -> reg_low irq = Panic ArithOverflow.
Proof.
  intros. unfold reg_low, IOREDTBL_BASE. destruct (decide (irq < 128)).
  - rewrite u8_ok by (unfold U8; lia). cbn [mbind outcome_bind]. by rewrite u8_overflow by (unfold U8; lia).
  - by rewrite u8_overflow by (unfold U8; lia).
Qed.

Lemma max_entries_ok s : exists s', 
  max_entries a s = (if entries s =? U8 then Panic ArithOverflow else Ret (entries s, s')) /\
  forall r, Z.land (ioreg a s' r) STABLE = Z.land (ioreg a s r) STABLE.
Proof.
  destruct (ioapic_read_ok IOAPICVER s) as (s' & E & Hs'). exists s'. split; [|done].
  unfold max_entries. erewrite bind_Ret by exact E. cbv beta. fold (entries s).
  pose proof (Z.mod_pos_bound (Z.land (Z.shiftr (ioreg a s IOAPICVER) 16) 0xFF) U8 ltac:(done)) as Hb.
  fold (as_u8 (Z.land (Z.shiftr (ioreg a s IOAPICVER) 16) 0xFF)) in Hb.
  destruct (Z.eqb_spec (entries s) U8) as [E8|E8].
  - unfold lift. by rewrite u8_overflow by lia.
  - unfold lift. rewrite u8_ok by (unfold entries in *; lia). done.
Qed.

Lemma enable_irq_ok irq vector lapic s :
  0 <= irq < 120 -> 0 <= vector < U8 -> 0 <= lapic < U8 ->
  exists s', enable_irq a irq vector lapic s = Ret (tt, s') /\ entries s' = entries s /\
    forall pin, 0 <= pin -> route s' pin = if pin =? irq then
      {| to_vector := vector; active_low := false; level_triggered := false; masked := false;
         to_lapic := lapic |} else route s pin.
Proof.
  intros Hi Hv Hl.
  destruct (ioapic_write_ok (IOREDTBL_BASE + irq * 2 + 1) (as_u32 (Z.shiftl lapic 24)) s) as (s1 & E1 & H1);
    [unfold IOREDTBL_BASE; lia|].
  destruct (ioapic_write_ok (IOREDTBL_BASE + irq * 2) vector s1) as (s2 & E2 & H2);
    [unfold IOREDTBL_BASE; lia|].
  exists s2. split_and!.
  - unfold enable_irq. rewrite (bind_lift _ _ _ _ (reg_low_ok irq Hi)).
    rewrite (bind_lift _ _ _ (IOREDTBL_BASE + irq * 2 + 1)) by (apply u8_ok; unfold IOREDTBL_BASE, U8; lia).
    cbv zeta. by erewrite bind_Ret by exact E1.
  - apply entries_stable. rewrite H2. unfold IOAPICVER, IOREDTBL_BASE.
    rewrite (proj2 (Z.eqb_neq _ _)) by lia. rewrite H1. unfold IOREDTBL_BASE.
    by rewrite (proj2 (Z.eqb_neq _ _)) by lia.
  - intros pin Hp. unfold route. unfold IOREDTBL_BASE in *. destruct (Z.eqb_spec pin irq) as [->|Hne].
    + rewrite <- route_of_programmed by done. apply route_of_stable; rewrite H2.
      * by rewrite Z.eqb_refl.
      * rewrite (proj2 (Z.eqb_neq _ _)) by lia. by rewrite H1, Z.eqb_refl.
    + apply route_of_stable; rewrite H2, (proj2 (Z.eqb_neq _ _)) by lia;
        by rewrite H1, (proj2 (Z.eqb_neq _ _)) by lia.
Qed.

Lemma route_of_masked lo hi :
  route_of (Z.lor lo (Z.shiftl 1 16)) hi =
  {| to_vector := to_vector (route_of lo hi); active_low := active_low (route_of lo hi);
     level_triggered := level_triggered (route_of lo hi); masked := true;
     to_lapic := to_lapic (route_of lo hi) |}.
Proof.
  change (Z.shiftl 1 16) with (2 ^ 16). unfold route_of. cbn [to_vector active_low level_triggered masked to_lapic].
  rewrite !Z.lor_spec, !Z.pow2_bits_eqb by lia. cbn [Z.eqb Pos.eqb]. rewrite !orb_false_r, orb_true_r.
  f_equal. rewrite Z.land_lor_distr_l. change (Z.land (2 ^ 16) 0xFF) with 0. apply Z.lor_0_r.
Qed.

Lemma disable_irq_ok irq s :
  0 <= irq < 120 ->
  exists s', disable_irq a irq s = Ret (tt, s') /\ entries s' = entries s /\
    forall pin, 0 <= pin -> route s' pin = if pin =? irq then
      {| to_vector := to_vector (route s irq); active_low := active_low (route s irq);
         level_triggered := level_triggered (route s irq); masked := true;
         to_lapic := to_lapic (route s irq) |} else route s pin.
Proof.
  intros Hi. destruct (ioapic_read_ok (IOREDTBL_BASE + irq * 2) s) as (s1 & E1 & H1).
  destruct (ioapic_write_ok (IOREDTBL_BASE + irq * 2)
    (Z.lor (ioreg a s (IOREDTBL_BASE + irq * 2)) (Z.shiftl 1 16)) s1) as (s2 & E2 & H2);
    [unfold IOREDTBL_BASE; lia|].
  exists s2. split_and!.
  - unfold disable_irq. rewrite (bind_lift _ _ _ _ (reg_low_ok irq Hi)).
    by erewrite bind_Ret by exact E1.
  - apply entries_stable. rewrite H2. unfold IOAPICVER, IOREDTBL_BASE.
    rewrite (proj2 (Z.eqb_neq _ _)) by lia. apply H1.
  - intros pin Hp. unfold route. unfold IOREDTBL_BASE in *. destruct (Z.eqb_spec pin irq) as [->|Hne].
    + rewrite <- route_of_masked. apply route_of_stable; rewrite H2.
      * by rewrite Z.eqb_refl.
      * rewrite (proj2 (Z.eqb_neq _ _)) by lia. apply H1.
    + apply route_of_stable; rewrite H2, (proj2 (Z.eqb_neq _ _)) by lia; apply H1.
Qed.

End facts.

Arguments route {HW _} a {_} s pin.
Arguments entries {HW _} a {_} s.


(** ** Witness *)

(** An I/O APIC at address 0 with 24 entries; the state is the selected
    register and the registers. *)
#[local] Instance demo_ioapic_mmio : Mmio (Z * gmap Z Z) :=
  {| mmio_read32 p s := (if p =? IOWIN then default 0 (s.2.2 !! s.2.1) else s.2.1, s);
     mmio_write32 p v s :=
       if p =? IOWIN then (s.1, (s.2.1, <[s.2.1 := v]> s.2.2)) else (s.1, (v, s.2.2)) |}.

Definition demo_ioapic : IoApic := {| ioapic_base := 0 |}.

#[local] Instance demo_ioapic_hw : IoapicHw (Z * gmap Z Z) demo_ioapic.
Proof.
  exists (fun s r => default 0 (s.2.2 !! r)).
  - intros r s. eexists. split; [reflexivity|]. done.
  - intros r v s r' _. simpl. destruct (Z.eqb_spec r' r) as [->|].
    + by rewrite lookup_insert_eq.
    + by rewrite lookup_insert_ne.
Defined.

