(* ===== verification/Memory.v ===== *)
(** MMIO mappings ([crates/embclox-hal-x86/src/memory.rs]): a mapper that
    takes consecutive pages of a window of the address space, with an
    unmapped page after each mapping.  Page tables are those of the [x86_64]
    crate, the class [PageTables]. *)

From S2P Require Import Prelude Dma.

Inductive PageTableFlag := PRESENT | WRITABLE | NO_CACHE.

(** [OffsetPageTable]: where the level-4 table is, and the offset of the
    physical memory mapping. *)
Record OffsetPageTable := {
  l4_table : Z;
  table_offset : Z;
}.

(** The operations of the [x86_64] crate the mapper uses; pages and frames
    are given by their start addresses. *)
Class PageTables (St : Type) := {
  cr3_start_address : St -> Z;
  VirtAddr_new : Z -> outcome Z;
  PhysAddr_new : Z -> outcome Z;
  page_containing : Z -> Z;
  frame_containing : Z -> Z;
  map_to : OffsetPageTable -> M St (option Z) -> Z -> Z -> list PageTableFlag -> M St (result unit unit);
  unmap : OffsetPageTable -> Z -> M St (result Z unit);
  translate : OffsetPageTable -> Z -> M St (option Z);
}.

Definition MMIO_VIRT_BASE : Z := 0x400000000000.

Record MmioMapping := {
  map_vaddr : Z;
  map_size : Z;
}.

Record MemoryMapper := {
  mm_phys_offset : Z;
  mm_kernel_offset : Z;
  next_vaddr : Z;
}.

Definition new_mapper (phys_offset kernel_offset : Z) : MemoryMapper :=
  {| mm_phys_offset := phys_offset; mm_kernel_offset := kernel_offset; next_vaddr := MMIO_VIRT_BASE |}.

Section memory.
Context {St : Type} `{PageTables St} `{GlobalAlloc St}.

Definition page_table_mapper (phys_offset : Z) : M St OffsetPageTable :=
  cr3_phys ← gets cr3_start_address;
  l4 ← lift (uadd cr3_phys phys_offset);
  off ← lift (VirtAddr_new phys_offset);
  mret {| l4_table := l4; table_offset := off |}.

(** [HeapFrameAllocator::allocate_frame]: a zeroed page of the heap. *)
Definition allocate_frame (kernel_offset : Z) : M St (option Z) :=
  ptr ← alloc_zeroed 4096 4096;
  if ptr =? 0 then mret None else
  paddr ← lift (usub ptr kernel_offset);
  p ← lift (PhysAddr_new paddr);
  mret (Some (frame_containing p)).

(** [.expect(..)] on a result. *)
Definition expect_ok {A} (r : result A unit) : M St A :=
  match r with Ok a => mret a | Err _ => panic Expect end.

(** [for i in 0..num_pages] of [map_mmio] and [map_code], from [i] on. *)
Fixpoint map_pages (n : nat) (i : Z) (mapper : OffsetPageTable) (kernel_offset virt_base phys_base : Z)
    (flags : list PageTableFlag) : M St unit :=
  match n with
  | O => mret tt
  | S n' =>
      o ← lift (umul i 0x1000);
      va ← lift (uadd virt_base o);
      v ← lift (VirtAddr_new va);
      let page := page_containing v in
      pa ← lift (uadd phys_base o);
      p ← lift (PhysAddr_new pa);
      let frame := frame_containing p in
      r ← map_to mapper (allocate_frame kernel_offset) page frame flags;
      _ ← expect_ok r;
      map_pages n' (i + 1) mapper kernel_offset virt_base phys_base flags
  end.

Definition map_region (flags : list PageTableFlag) (mm : MemoryMapper) (phys_base size : Z)
    : M St (MmioMapping * MemoryMapper) :=
  mapper ← page_table_mapper (mm_phys_offset mm);
  let virt_base := next_vaddr mm in
  let num_pages := div_ceil size 0x1000 in
  _ ← map_pages (Z.to_nat num_pages) 0 mapper (mm_kernel_offset mm) virt_base phys_base flags;
  n1 ← lift (uadd num_pages 1);
  o ← lift (umul n1 0x1000);
  next ← lift (uadd virt_base o);
  mret ({| map_vaddr := virt_base; map_size := size |},
        {| mm_phys_offset := mm_phys_offset mm; mm_kernel_offset := mm_kernel_offset mm;
           next_vaddr := next |}).

Definition map_mmio := map_region [PRESENT; WRITABLE; NO_CACHE].
Definition map_code := map_region [PRESENT; WRITABLE].

Definition translate_addr (mm : MemoryMapper) (vaddr : Z) : M St (option Z) :=
  mapper ← page_table_mapper (mm_phys_offset mm);
  v ← lift (VirtAddr_new vaddr);
  translate mapper v.

Fixpoint unmap_pages (n : nat) (i : Z) (mapper : OffsetPageTable) (virt_base : Z) : M St unit :=
  match n with
  | O => mret tt
  | S n' =>
      o ← lift (umul i 0x1000);
      va ← lift (uadd virt_base o);
      v ← lift (VirtAddr_new va);
      r ← unmap mapper (page_containing v);
      _ ← expect_ok r;
      unmap_pages n' (i + 1) mapper virt_base
  end.

Definition unmap_mmio (mm : MemoryMapper) (mapping : MmioMapping) : M St unit :=
  mapper ← page_table_mapper (mm_phys_offset mm);
  let num_pages := div_ceil (map_size mapping) 0x1000 in
  unmap_pages (Z.to_nat num_pages) 0 mapper (map_vaddr mapping).

End memory.

(** ** Properties *)

(** What the [x86_64] crate documents.  [pages] are the 4 KiB pages mapped by
    the active tables, [frames] how many page-table frames [allocate_frame]
    can still provide; a mapping needs at most three. *)
Class Paging (St : Type) `{PageTables St} `{GlobalAlloc St} (po ko : Z) := {
  pages : St -> Z -> option (Z * list PageTableFlag);
  frames : St -> nat;
  virt_addr_ok v : 0 <= v < 2 ^ 47 -> VirtAddr_new v = Ret v;
  phys_addr_ok p : 0 <= p < 2 ^ 52 -> PhysAddr_new p = Ret p;
  page_containing_ok v : page_containing v = v / 4096 * 4096;
  frame_containing_ok p : frame_containing p = p / 4096 * 4096;
  mapper_ok s : exists t, page_table_mapper po s = Ret (t, s);
  map_to_ok s t page frame flags :
    page_table_mapper po s = Ret (t, s) ->
    pages s page = None -> (3 <= frames s)%nat ->
    exists s', map_to t (allocate_frame ko) page frame flags s = Ret (Ok tt, s') /\
      page_table_mapper po s' = Ret (t, s') /\ (frames s - 3 <= frames s')%nat /\
      forall p, pages s' p = if p =? page then Some (frame, flags) else pages s p;
  unmap_ok s t page frame flags :
    page_table_mapper po s = Ret (t, s) -> pages s page = Some (frame, flags) ->
    exists s', unmap t page s = Ret (Ok frame, s') /\
      page_table_mapper po s' = Ret (t, s') /\
      forall p, pages s' p = if p =? page then None else pages s p;
  translate_ok s t v :
    page_table_mapper po s = Ret (t, s) ->
    translate t v s =
      Ret (option_map (fun f => f.1 + v mod 4096) (pages s (v / 4096 * 4096)), s);
}.
#[global] Arguments pages {St _ _} po ko {_} s p.
#[global] Arguments frames {St _ _} po ko {_} s.

Section facts.
Context {St : Type} `{Paging St po ko}.

(** The mapping that [n] pages from page [i] on add. *)
Definition mapped (n i virt phys : Z) (flags : list PageTableFlag) (p : Z) : option (Z * list PageTableFlag) :=
  if (virt + i * 4096 <=? p) && (p <? virt + (i + n) * 4096) && (p mod 4096 =? 0)
  then Some (phys / 4096 * 4096 + (p - virt), flags) else None.

Lemma align_shift x i : (x + i * 4096) / 4096 * 4096 = x / 4096 * 4096 + i * 4096.
Proof. rewrite Z.div_add by lia. lia. Qed.

Lemma mapped_S n i virt phys flags p :
  virt mod 4096 = 0 -> 0 <= n ->
  mapped (n + 1) i virt phys flags p =
  if p =? virt + i * 4096 then Some (phys / 4096 * 4096 + i * 4096, flags)
  else mapped n (i + 1) virt phys flags p.
Proof.
  intros Hv Hn. unfold mapped. pose proof (Z_div_mod_eq_full virt 4096).
  pose proof (Z_div_mod_eq_full p 4096). pose proof (Z.mod_pos_bound p 4096 ltac:(lia)).
  destruct (Z.eqb_spec p (virt + i * 4096)) as [->|Hne].
  - rewrite (proj2 (Z.leb_le _ _)), (proj2 (Z.ltb_lt _ _)) by lia.
    rewrite Z.mod_add by lia. rewrite Hv. simpl. do 2 f_equal. lia.
  - replace (i + 1 + n) with (i + (n + 1)) by lia.
    destruct (Z.eqb_spec (p mod 4096) 0); [|by rewrite !andb_false_r]. rewrite !andb_true_r.
    destruct (Z.leb_spec (virt + i * 4096) p), (Z.leb_spec (virt + (i + 1) * 4096) p); try lia; done.
Qed.

Lemma map_pages_ok n i t virt phys flags s :
  page_table_mapper po s = Ret (t, s) ->
  virt mod 4096 = 0 -> 0 <= i -> 0 <= virt -> 0 <= phys ->
  virt + (i + Z.of_nat n) * 4096 <= 2 ^ 47 -> phys + (i + Z.of_nat n) * 4096 <= 2 ^ 52 ->
  (forall p, virt + i * 4096 <= p < virt + (i + Z.of_nat n) * 4096 -> pages po ko s p = None) ->
  (3 * n <= frames po ko s)%nat ->
  exists s', map_pages n i t ko virt phys flags s = Ret (tt, s') /\
    page_table_mapper po s' = Ret (t, s') /\
    (frames po ko s - 3 * n <= frames po ko s')%nat /\
    forall p, pages po ko s' p = match mapped (Z.of_nat n) i virt phys flags p with
                              | Some x => Some x | None => pages po ko s p end.
Proof.
  revert i s. induction n as [|n IH]; intros i s Ht Hv Hi Hvp Hp Hve Hpe Hfree Hfr.
  { exists s. split_and!; [done..|lia|]. intros p. unfold mapped.
    rewrite (proj2 (andb_false_iff (virt + i * 4096 <=? p) (p <? virt + (i + Z.of_nat 0) * 4096))); [done|].
    destruct (Z.leb_spec (virt + i * 4096) p); [right; apply Z.ltb_ge; lia|by left]. }
  rewrite Nat2Z.inj_succ in *. cbn [map_pages].
  rewrite (bind_lift _ _ _ (i * 0x1000)) by (apply umul_ok; unfold U64; lia).
  rewrite (bind_lift _ _ _ (virt + i * 0x1000)) by (apply uadd_ok; unfold U64; lia).
  rewrite (bind_lift _ _ _ (virt + i * 0x1000)) by (apply virt_addr_ok; lia). cbv zeta.
  rewrite (bind_lift _ _ _ (phys + i * 0x1000)) by (apply uadd_ok; unfold U64; lia).
  rewrite (bind_lift _ _ _ (phys + i * 0x1000)) by (apply phys_addr_ok; lia).
  rewrite page_containing_ok, frame_containing_ok, !align_shift.
  pose proof (Z_div_mod_eq_full virt 4096). replace (virt / 4096 * 4096) with virt by lia.
  destruct (map_to_ok s t (virt + i * 4096) (phys / 4096 * 4096 + i * 4096) flags Ht)
    as (s1 & E1 & Ht1 & Hf1 & Hp1); [apply Hfree; lia|lia|].
  erewrite bind_Ret by exact E1. cbv beta. erewrite bind_Ret by reflexivity. cbv beta.
  destruct (IH (i + 1) s1 Ht1) as (s2 & E2 & Ht2 & Hf2 & Hp2); [done|lia..| |lia|].
  { intros p Hpr. rewrite Hp1, (proj2 (Z.eqb_neq _ _)) by lia. apply Hfree. lia. }
  exists s2. split_and!; [done..|lia|]. intros p. rewrite Hp2, Hp1. unfold Z.succ. rewrite mapped_S by lia.
  destruct (Z.eqb_spec p (virt + i * 4096)) as [->|]; [|done].
  unfold mapped. by rewrite (proj2 (Z.leb_gt (virt + (i + 1) * 4096) _)) by lia.
Qed.

Lemma unmap_pages_ok n i t virt phys flags s :
  page_table_mapper po s = Ret (t, s) ->
  virt mod 4096 = 0 -> 0 <= i -> 0 <= virt -> virt + (i + Z.of_nat n) * 4096 <= 2 ^ 47 ->
  (forall p, is_Some (mapped (Z.of_nat n) i virt phys flags p) ->
     pages po ko s p = mapped (Z.of_nat n) i virt phys flags p) ->
  exists s', unmap_pages n i t virt s = Ret (tt, s') /\
    forall p, pages po ko s' p = match mapped (Z.of_nat n) i virt phys flags p with
                              | Some _ => None | None => pages po ko s p end.
Proof.
  revert i s. induction n as [|n IH]; intros i s Ht Hv Hi Hvp Hve Hm.
  { exists s. split; [done|]. intros p. unfold mapped.
    rewrite (proj2 (andb_false_iff (virt + i * 4096 <=? p) (p <? virt + (i + Z.of_nat 0) * 4096))); [done|].
    destruct (Z.leb_spec (virt + i * 4096) p); [right; apply Z.ltb_ge; lia|by left]. }
  rewrite Nat2Z.inj_succ in *. cbn [unmap_pages].
  rewrite (bind_lift _ _ _ (i * 0x1000)) by (apply umul_ok; unfold U64; lia).
  rewrite (bind_lift _ _ _ (virt + i * 0x1000)) by (apply uadd_ok; unfold U64; lia).
  rewrite (bind_lift _ _ _ (virt + i * 0x1000)) by (apply virt_addr_ok; lia).
  rewrite page_containing_ok, align_shift.
  pose proof (Z_div_mod_eq_full virt 4096). replace (virt / 4096 * 4096) with virt by lia.
  destruct (unmap_ok s t (virt + i * 4096) (phys / 4096 * 4096 + i * 4096) flags Ht) as (s1 & E1 & Ht1 & Hp1).
  { rewrite Hm; unfold Z.succ; rewrite mapped_S, Z.eqb_refl by lia; done. }
  erewrite bind_Ret by exact E1. cbv beta. erewrite bind_Ret by reflexivity. cbv beta.
  assert (Hout : forall p, is_Some (mapped (Z.of_nat n) (i + 1) virt phys flags p) -> p <> virt + i * 4096).
  { intros p [x Hx] ->. unfold mapped in Hx. by rewrite (proj2 (Z.leb_gt (virt + (i + 1) * 4096) _)) in Hx by lia. }
  destruct (IH (i + 1) s1 Ht1) as (s2 & E2 & Hp2); [done|lia..| |].
  { intros p Hs. pose proof (Hout p Hs). rewrite Hp1, (proj2 (Z.eqb_neq _ _)) by done.
    rewrite Hm; unfold Z.succ; rewrite mapped_S, (proj2 (Z.eqb_neq _ _)) by lia; done. }
  exists s2. split; [done|]. intros p. rewrite Hp2, Hp1. unfold Z.succ. rewrite mapped_S by lia.
  destruct (Z.eqb_spec p (virt + i * 4096)) as [->|]; [|done]. by destruct (mapped _ _ _ _ _ _).
Qed.

(** The invariant of a mapper: everything from [next_vaddr] to the end of the
    lower half is unmapped. *)
Definition window_free (mm : MemoryMapper) (s : St) : Prop :=
  mm_phys_offset mm = po /\ mm_kernel_offset mm = ko /\ next_vaddr mm mod 4096 = 0 /\
  MMIO_VIRT_BASE <= next_vaddr mm /\
  forall p, next_vaddr mm <= p < 2 ^ 47 -> pages po ko s p = None.

(** The pages of a region of [size] bytes. *)
Abbreviation npages size := (div_ceil size 0x1000).

Lemma npages_bounds size : 0 < size -> 0 < npages size /\ size <= npages size * 4096 < size + 4096.
Proof.
  intros. unfold div_ceil. pose proof (Z_div_mod_eq_full (size + 4096 - 1) 4096).
  pose proof (Z.mod_pos_bound (size + 4096 - 1) 4096 ltac:(lia)).
  split; [apply Z.div_str_pos; lia|lia].
Qed.

Definition after (mm : MemoryMapper) (size : Z) : MemoryMapper :=
  {| mm_phys_offset := mm_phys_offset mm; mm_kernel_offset := mm_kernel_offset mm;
     next_vaddr := next_vaddr mm + (npages size + 1) * 0x1000 |}.

Lemma map_region_ok flags mm phys size s :
  window_free mm s -> 0 <= phys -> 0 < size ->
  phys + npages size * 4096 <= 2 ^ 52 -> next_vaddr mm + npages size * 4096 < 2 ^ 47 ->
  (3 * Z.to_nat (npages size) <= frames po ko s)%nat ->
  exists t s', map_region flags mm phys size s =
      Ret (({| map_vaddr := next_vaddr mm; map_size := size |}, after mm size), s') /\
    page_table_mapper po s' = Ret (t, s') /\
    forall p, pages po ko s' p = match mapped (npages size) 0 (next_vaddr mm) phys flags p with
                                 | Some x => Some x | None => pages po ko s p end.
Proof.
  intros (Hpo & Hko & Hal & Hlow & Hfree) Hp Hs Hpe Hve Hfr.
  pose proof (npages_bounds size Hs) as [Hn0 _]. unfold MMIO_VIRT_BASE in Hlow.
  destruct (mapper_ok s) as (t & Ht).
  destruct (map_pages_ok (Z.to_nat (npages size)) 0 t (next_vaddr mm) phys flags s Ht)
    as (s' & E & Ht' & _ & Hp'); [done|lia..| |done|].
  { intros p Hpr. apply Hfree. lia. }
  rewrite Z2Nat.id in Hp' by lia. exists t, s'. split_and!; [|done..].
  unfold map_region. rewrite Hpo, Hko. erewrite bind_Ret by exact Ht. cbv beta zeta.
  erewrite bind_Ret by exact E. cbv beta.
  rewrite (bind_lift _ _ _ (npages size + 1)) by (apply uadd_ok; unfold U64; lia).
  rewrite (bind_lift _ _ _ ((npages size + 1) * 0x1000)) by (apply umul_ok; unfold U64; lia).
  rewrite (bind_lift _ _ _ (next_vaddr mm + (npages size + 1) * 0x1000)) by (apply uadd_ok; unfold U64; lia).
  unfold after. by rewrite Hpo, Hko.
Qed.

Lemma mapped_at n virt phys flags off :
  virt mod 4096 = 0 -> 0 <= off < n * 4096 ->
  mapped n 0 virt phys flags ((virt + off) / 4096 * 4096) =
    Some (phys / 4096 * 4096 + off / 4096 * 4096, flags).
Proof.
  intros Hv Ho. pose proof (Z_div_mod_eq_full virt 4096). pose proof (Z_div_mod_eq_full off 4096).
  pose proof (Z.mod_pos_bound off 4096 ltac:(lia)).
  assert (E : (virt + off) / 4096 * 4096 = virt + off / 4096 * 4096).
  { replace (virt + off) with (off + virt / 4096 * 4096) by lia. rewrite Z.div_add by lia. lia. }
  rewrite E. unfold mapped. rewrite (proj2 (Z.leb_le _ _)), (proj2 (Z.ltb_lt _ _)) by lia.
  rewrite Z.mod_add by lia. rewrite Hv. simpl. do 2 f_equal. lia.
Qed.

Lemma mapped_outside n virt phys flags p :
  p < virt \/ virt + n * 4096 <= p -> mapped n 0 virt phys flags p = None.
Proof.
  intros Hp. unfold mapped. destruct (Z.leb_spec (virt + 0 * 4096) p); [|done].
  by rewrite (proj2 (Z.ltb_ge _ _)) by lia.
Qed.

Lemma translate_addr_ok mm s t v :
  mm_phys_offset mm = po -> page_table_mapper po s = Ret (t, s) -> 0 <= v < 2 ^ 47 ->
  translate_addr mm v s =
    Ret (option_map (fun f => f.1 + v mod 4096) (pages po ko s (v / 4096 * 4096)), s).
Proof.
  intros Hpo Ht Hv. unfold translate_addr. rewrite Hpo. erewrite bind_Ret by exact Ht. cbv beta.
  rewrite (bind_lift _ _ _ v) by (by apply virt_addr_ok). by apply translate_ok.
Qed.

End facts.

Arguments window_free {St _ _} po ko {_} mm s.

(** C28: [map_mmio] and [map_code] return when the window and the frames
    suffice, keep the mapper's invariant, and map exactly the next free
    addresses with the given flags: byte [off] of the mapping is physical
    byte [off] from the base rounded down to a page, the page after it stays
    unmapped and nothing below changes, so that no two mappings overlap or
    touch. *)
Theorem map_region_translates {St} `{Paging St po ko} flags mm phys size (s : St) :
  window_free po ko mm s -> 0 <= phys -> 0 < size ->
  phys + div_ceil size 0x1000 * 4096 <= 2 ^ 52 ->
  next_vaddr mm + div_ceil size 0x1000 * 4096 < 2 ^ 47 ->
  (3 * Z.to_nat (div_ceil size 0x1000) <= frames po ko s)%nat ->
  exists mapping mm' s', map_region flags mm phys size s = Ret ((mapping, mm'), s') /\
    map_vaddr mapping = next_vaddr mm /\ map_size mapping = size /\ window_free po ko mm' s' /\
    (forall off, 0 <= off < size ->
      translate_addr mm' (map_vaddr mapping + off) s' = Ret (Some (phys / 4096 * 4096 + off), s') /\
      option_map snd (pages po ko s' ((map_vaddr mapping + off) / 4096 * 4096)) = Some flags) /\
    (forall p, map_vaddr mapping + div_ceil size 0x1000 * 4096 <= p < next_vaddr mm' -> p < 2 ^ 47 ->
      pages po ko s' p = None) /\
    map_vaddr mapping + div_ceil size 0x1000 * 4096 + 4096 = next_vaddr mm' /\
    (forall p, p < map_vaddr mapping -> pages po ko s' p = pages po ko s p).
Proof.
  intros Hw Hp Hs Hpe Hve Hfr. pose proof (npages_bounds size Hs) as [Hn0 Hn].
  destruct (map_region_ok flags mm phys size s Hw Hp Hs Hpe Hve Hfr) as (t & s' & E & Ht & Hp').
  destruct Hw as (Hpo & Hko & Hal & Hlow & Hfree).
  exists {| map_vaddr := next_vaddr mm; map_size := size |}, (after mm size), s'.
  cbn [map_vaddr map_size after next_vaddr]. split_and!; try done.
  - unfold window_free. cbn [after mm_phys_offset mm_kernel_offset next_vaddr]. split_and!; [done..| | |].
    + by rewrite Z.mod_add by lia.
    + lia.
    + intros p Hpr. rewrite Hp', mapped_outside by lia. apply Hfree. lia.
  - intros off Ho. unfold MMIO_VIRT_BASE in Hlow.
    assert (Hat : pages po ko s' ((next_vaddr mm + off) / 4096 * 4096) =
      Some (phys / 4096 * 4096 + off / 4096 * 4096, flags)) by (by rewrite Hp', mapped_at by lia).
    rewrite (translate_addr_ok _ _ t) by (done || lia). rewrite Hat. split; [|done]. simpl. do 3 f_equal.
    replace (next_vaddr mm + off) with (off + next_vaddr mm / 4096 * 4096)
      by (pose proof (Z_div_mod_eq_full (next_vaddr mm) 4096); lia).
    rewrite Z.mod_add by lia. pose proof (Z_div_mod_eq_full off 4096). lia.
  - intros p Hpr Hlt. rewrite Hp', mapped_outside by lia. apply Hfree. lia.
  - lia.
  - intros p Hlt. by rewrite Hp', mapped_outside by lia.
Qed.

(** Unmapping a mapping right after it was made returns, and every page
    of the address space is mapped as it was before. *)
Theorem map_unmap_roundtrip {St} `{Paging St po ko} flags mm phys size (s : St) :
  window_free po ko mm s -> 0 <= phys -> 0 < size ->
  phys + div_ceil size 0x1000 * 4096 <= 2 ^ 52 ->
  next_vaddr mm + div_ceil size 0x1000 * 4096 < 2 ^ 47 ->
  (3 * Z.to_nat (div_ceil size 0x1000) <= frames po ko s)%nat ->
  exists mapping mm' s' s'', map_region flags mm phys size s = Ret ((mapping, mm'), s') /\
    unmap_mmio mm' mapping s' = Ret (tt, s'') /\ forall p, pages po ko s'' p = pages po ko s p.
Proof.
  intros Hw Hp Hs Hpe Hve Hfr. pose proof (npages_bounds size Hs) as [Hn0 Hn].
  destruct (map_region_ok flags mm phys size s Hw Hp Hs Hpe Hve Hfr) as (t & s' & E & Ht & Hp').
  destruct Hw as (Hpo & Hko & Hal & Hlow & Hfree). unfold MMIO_VIRT_BASE in Hlow.
  assert (Hn' : Z.of_nat (Z.to_nat (div_ceil size 0x1000)) = div_ceil size 0x1000) by lia.
  destruct (unmap_pages_ok (Z.to_nat (div_ceil size 0x1000)) 0 t (next_vaddr mm) phys flags s' Ht)
    as (s'' & E2 & Hp''); [done|lia..| |].
  { intros p [x Hx]. rewrite Hn' in *. by rewrite Hp', Hx. }
  exists {| map_vaddr := next_vaddr mm; map_size := size |}, (after mm size), s', s''.
  split_and!; [done| |].
  - unfold unmap_mmio. cbn [after mm_phys_offset map_size map_vaddr]. rewrite Hpo.
    erewrite bind_Ret by exact Ht. exact E2.
  - intros p. rewrite Hp'', Hp', Hn'.
    destruct (mapped (div_ceil size 0x1000) 0 (next_vaddr mm) phys flags p) eqn:Hm; [|done].
    symmetry. apply Hfree. unfold mapped in Hm.
    destruct ((next_vaddr mm + 0 * 4096 <=? p) && (p <? next_vaddr mm + (0 + div_ceil size 0x1000) * 4096))
      eqn:Hr; [|done].
    apply andb_true_iff in Hr as [Hge%Z.leb_le Hlt%Z.ltb_lt]. lia.
Qed.

(** ** Witnesses *)

(** Page tables as a finite map, and a heap of a given number of pages. *)
Definition demo_tables : Type := nat * gmap Z (Z * list PageTableFlag).

#[local] Instance demo_heap : GlobalAlloc demo_tables :=
  {| alloc_zeroed _ _ s := Ret (if (s.1 =? 0)%nat then 0 else 0x10000, (pred s.1, s.2));
     dealloc _ _ _ s := Ret (tt, s) |}.

#[local] Instance demo_page_tables : PageTables demo_tables :=
  {| cr3_start_address _ := 0x1000;
     VirtAddr_new v := if v <? 2 ^ 47 then Ret v else Panic Expect;
     PhysAddr_new p := if p <? 2 ^ 52 then Ret p else Panic Expect;
     page_containing v := v / 4096 * 4096;
     frame_containing p := p / 4096 * 4096;
     map_to _ _ page frame flags s :=
       match s.2 !! page with
       | Some _ => Ret (Err tt, s)
       | None => Ret (Ok tt, ((s.1 - 3)%nat, <[page := (frame, flags)]> s.2))
       end;
     unmap _ page s :=
       match s.2 !! page with
       | Some (frame, _) => Ret (Ok frame, (s.1, delete page s.2))
       | None => Ret (Err tt, s)
       end;
     translate _ v s := Ret (option_map (fun f => f.1 + v mod 4096) (s.2 !! (v / 4096 * 4096)), s) |}.

#[local] Instance demo_paging : Paging demo_tables 0 0.
Proof.
  exists (fun s p => s.2 !! p) fst; try done.
  - intros v Hv. simpl. by rewrite (proj2 (Z.ltb_lt _ _)) by lia.
  - intros v Hv. simpl. by rewrite (proj2 (Z.ltb_lt _ _)) by lia.
  - intros s. by eexists.
  - intros s t page frame flags Ht Hp Hf. vm_compute in Ht. injection Ht as <-. simpl in Hp. simpl. rewrite Hp. eexists.
    split_and!; [done|reflexivity|simpl; lia|]. intros p. simpl. destruct (Z.eqb_spec p page) as [->|].
    + by rewrite lookup_insert_eq.
    + by rewrite lookup_insert_ne.
  - intros s t page frame flags Ht Hp. vm_compute in Ht. injection Ht as <-. simpl in Hp. simpl. rewrite Hp. eexists.
    split_and!; [done|reflexivity|]. intros p. simpl. destruct (Z.eqb_spec p page) as [->|].
    + by rewrite lookup_delete_eq.
    + by rewrite lookup_delete_ne.
Defined.

Lemma demo_window_free n : window_free 0 0 (new_mapper 0 0) ((n, ∅) : demo_tables).
Proof. split_and!; try done. Qed.

Lemma map_region_translates_witness :
  exists mapping mm' s', map_mmio (new_mapper 0 0) 0xFEBC0010 0x2000 ((100%nat, ∅) : demo_tables) =
      Ret ((mapping, mm'), s') /\
    translate_addr mm' (map_vaddr mapping + 0x1004) s' = Ret (Some 0xFEBC1004, s').
Proof.
  destruct (map_region_translates [PRESENT; WRITABLE; NO_CACHE] (new_mapper 0 0) 0xFEBC0010 0x2000
    ((100%nat, ∅) : demo_tables) (demo_window_free 100)) as (mapping & mm' & s' & E & _ & _ & _ & Htr & _);
    [done|done|vm_compute; discriminate|reflexivity|vm_compute; lia|].
  exists mapping, mm', s'. split; [exact E|]. exact (proj1 (Htr 0x1004 ltac:(lia))).
Defined.

Lemma map_unmap_roundtrip_witness :
  exists mapping mm' s' s'', map_code (new_mapper 0 0) 0x5000 0x1000 ((100%nat, ∅) : demo_tables) =
      Ret ((mapping, mm'), s') /\
    unmap_mmio mm' mapping s' = Ret (tt, s'') /\ forall p, pages 0 0 s'' p = None.
Proof.
  destruct (map_unmap_roundtrip [PRESENT; WRITABLE] (new_mapper 0 0) 0x5000 0x1000
    ((100%nat, ∅) : demo_tables) (demo_window_free 100)) as (mapping & mm' & s' & s'' & E & E' & Hp);
    [done|done|vm_compute; discriminate|reflexivity|vm_compute; lia|].
  exists mapping, mm', s', s''. split; [exact E|]. split; [exact E'|]. exact Hp.
Defined.
