(* ===== verification/Idt.v ===== *)
(** The interrupt descriptor table ([crates/embclox-hal-x86/src/idt.rs]): one
    table for all processors, which maps vectors to the handlers of the
    crates. *)

From S2P Require Import Prelude.

Inductive handler :=
| default_handler
| apic_timer_isr
| spurious_isr
| vmbus_handler
| e1000_handler
| tulip_handler.

#[export] Instance handler_eq_dec : EqDecision handler.
Proof. solve_decision. Defined.

(** The entries that are present. *)
Abbreviation IDT := (gmap Z handler).

(** [for i in 32u8..48] of [idt::init], and loading the table. *)
Definition idt_init : M IDT unit :=
  modify (fun t => foldl (fun t i => <[i := default_handler]> t) t (seqZ 32 16)).

Definition set_handler (vector : Z) (h : handler) : M IDT unit :=
  _ ← lift (rassert (32 <=? vector));
  modify (fun t => <[vector := h]> t).

Lemma set_handler_ok vector h t : 32 <= vector -> set_handler vector h t = Ret (tt, <[vector := h]> t).
Proof. intros. unfold set_handler, rassert. by rewrite (proj2 (Z.leb_le _ _)). Qed.

(** After [init], exactly the sixteen device vectors are present. *)
Lemma idt_init_lookup v : exists t, idt_init ∅ = Ret (tt, t) /\
  t !! v = if (32 <=? v) && (v <? 48) then Some default_handler else None.
Proof.
  eexists. split; [reflexivity|].
  assert (Hf : forall l (t : IDT), foldl (fun t i => <[i := default_handler]> t) t l !! v =
    if bool_decide (v ∈ l) then Some default_handler else t !! v).
  { intros l. induction l as [|x l IH]; intros t; [done|]. cbn [foldl]. rewrite IH.
    destruct (decide (v ∈ l)); [by rewrite !bool_decide_true by (done || by right)|].
    rewrite bool_decide_false by done. destruct (decide (v = x)) as [->|Hne].
    - by rewrite bool_decide_true, lookup_insert_eq by left.
    - rewrite bool_decide_false by (intros [?|?]%elem_of_cons; done). by rewrite lookup_insert_ne. }
  rewrite Hf, lookup_empty. destruct (Z.leb_spec 32 v), (Z.ltb_spec v 48); simpl.
  - by rewrite bool_decide_true by (apply elem_of_seqZ; lia).
  - by rewrite bool_decide_false by (rewrite elem_of_seqZ; lia).
  - by rewrite bool_decide_false by (rewrite elem_of_seqZ; lia).
  - by rewrite bool_decide_false by (rewrite elem_of_seqZ; lia).
Qed.
