(* ===== verification/Apic.v ===== *)
(** The local APIC ([crates/embclox-hal-x86/src/apic.rs]), the periodic timer
    of [runtime.rs], the legacy interrupt controller ([pic.rs]) and the
    calibration of the time stamp counter ([pit.rs]).  Registers, ports and
    counters are hardware. *)

From S2P Require Import Prelude Mem Nic Idt.

Definition APIC_ID : Z := 0x020.
Definition APIC_TPR : Z := 0x080.
Definition APIC_EOI : Z := 0x0B0.
Definition APIC_SVR : Z := 0x0F0.
Definition APIC_LVT_TIMER : Z := 0x320.
Definition APIC_TIMER_INIT_CNT : Z := 0x380.
Definition APIC_TIMER_CURR_CNT : Z := 0x390.
Definition APIC_TIMER_DIV : Z := 0x3E0.
Definition APIC_SVR_ENABLE : Z := 0x100.
Definition APIC_TIMER_PERIODIC : Z := Z.shiftl 1 17.
Definition APIC_TIMER_MASKED : Z := Z.shiftl 1 16.

Section apic.
Context {HW : Type} `{Mmio HW}.
(** The value of the static that [apic::init] sets. *)
Context (LAPIC_VADDR : Z).
Abbreviation N := (M (mem * HW)).

Definition apic_read (offset : Z) : N Z := p ← lift (uadd LAPIC_VADDR offset); read_volatile p.
Definition apic_write (offset value : Z) : N unit :=
  p ← lift (uadd LAPIC_VADDR offset); write_volatile p value.

Definition enable : N unit :=
  _ ← apic_write APIC_SVR (Z.lor APIC_SVR_ENABLE 39);
  apic_write APIC_TPR 0.

Definition divider_code (divider : Z) : option Z :=
  if divider =? 1 then Some 11
  else if divider =? 2 then Some 0
  else if divider =? 4 then Some 1
  else if divider =? 8 then Some 2
  else if divider =? 16 then Some 3
  else if divider =? 32 then Some 8
  else if divider =? 64 then Some 9
  else if divider =? 128 then Some 10
  else None.

Definition set_divider (divider : Z) : N unit :=
  match divider_code divider with
  | Some val => apic_write APIC_TIMER_DIV val
  | None => panic AssertFailed
  end.

Definition set_timer_periodic (vector divider initial_count : Z) : N unit :=
  _ ← set_divider divider;
  _ ← apic_write APIC_LVT_TIMER (Z.lor APIC_TIMER_PERIODIC vector);
  apic_write APIC_TIMER_INIT_CNT initial_count.

Definition mask_timer : N unit :=
  lvt ← apic_read APIC_LVT_TIMER;
  apic_write APIC_LVT_TIMER (Z.lor lvt APIC_TIMER_MASKED).

Definition timer_current_count : N Z := apic_read APIC_TIMER_CURR_CNT.
Definition set_timer_initial_count (count : Z) : N unit := apic_write APIC_TIMER_INIT_CNT count.

Definition set_timer_oneshot_masked (divider : Z) : N unit :=
  _ ← set_divider divider;
  apic_write APIC_LVT_TIMER (Z.lor APIC_TIMER_MASKED 32).

Definition eoi : N unit := apic_write APIC_EOI 0.

Definition id : N Z := v ← apic_read APIC_ID; mret (as_u8 (Z.shiftr v 24)).

End apic.

(** ** The periodic timer ([runtime.rs]) *)

Definition APIC_TIMER_VECTOR : Z := 32.
Definition SPURIOUS_VECTOR : Z := 39.
Definition APIC_TIMER_PERIOD_US : Z := 1000.
Definition APIC_TIMER_DIVIDER : Z := 16.

Definition timer_count (tsc_per_us : Z) : outcome Z :=
  p ← umul tsc_per_us APIC_TIMER_PERIOD_US; mret (as_u32 (p / APIC_TIMER_DIVIDER)).

Section timer.
Context {HW : Type} `{Mmio HW} (LAPIC_VADDR : Z).

(** [ap_start_apic_timer]. *)
Definition ap_start_apic_timer (tsc_per_us : Z) : M (mem * HW) unit :=
  count ← lift (timer_count tsc_per_us);
  set_timer_periodic LAPIC_VADDR APIC_TIMER_VECTOR APIC_TIMER_DIVIDER count.

(** [start_apic_timer]: the handlers, then the timer. *)
Definition start_apic_timer (tsc_per_us : Z) : M (IDT * (mem * HW)) unit :=
  let on_idt {A} := zoom (A := A) fst (fun t s => (t, s.2)) in
  _ ← on_idt (set_handler APIC_TIMER_VECTOR apic_timer_isr);
  _ ← on_idt (set_handler SPURIOUS_VECTOR spurious_isr);
  zoom snd (fun h s => (s.1, h)) (ap_start_apic_timer tsc_per_us).
End timer.

(** ** Ports and time stamps: [pic.rs], [pit.rs] *)

Class BytePorts (St : Type) := {
  inb : Z -> St -> Z * St;
  outb : Z -> Z -> St -> St;
  rdtsc : St -> Z * St;
}.

Section ports.
Context {St : Type} `{BytePorts St}.

Definition port_read8 (p : Z) : M St Z := fun s => Ret (inb p s).
Definition port_write8 (p v : Z) : M St unit := modify (outb p v).
Definition read_tsc : M St Z := fun s => Ret (rdtsc s).

Fixpoint port_writes (l : list (Z * Z)) : M St unit :=
  match l with
  | [] => mret tt
  | (p, v) :: rest => _ ← port_write8 p v; port_writes rest
  end.

Definition pic_disable : M St unit :=
  port_writes [(0x20, 0x11); (0xA0, 0x11); (0x21, 0x20); (0xA1, 0x28); (0x21, 0x04); (0xA1, 0x02);
               (0x21, 0x01); (0xA1, 0x01); (0x21, 0xFF); (0xA1, 0xFF)].

Definition PIT_CH2_DATA : Z := 0x42.
Definition PIT_CMD : Z := 0x43.
Definition PIT_FREQ_HZ : Z := 1193182.
Definition pit_count : Z := 11932.
Definition expected_us : Z := pit_count * 1000000 / PIT_FREQ_HZ.

(** The wait for the output bit, with [n] reads to go. *)
Fixpoint pit_wait (n : nat) : M St bool :=
  match n with
  | O => mret false
  | S n' =>
      v ← port_read8 0x61;
      if negb (Z.land v 0x20 =? 0) then mret true else pit_wait n'
  end.

(** The loop gives up once its counter exceeds this. *)
Definition PIT_BUDGET : Z := 100000000.

Definition calibrate_tsc_mhz : M St (option Z) :=
  val ← port_read8 0x61;
  _ ← port_write8 0x61 (Z.land (Z.lor val 0x01) (U8 - 1 - 0x02));
  _ ← port_write8 PIT_CMD 0xB0;
  _ ← port_write8 PIT_CH2_DATA (as_u8 pit_count);
  _ ← port_write8 PIT_CH2_DATA (as_u8 (Z.shiftr pit_count 8));
  tsc_start ← read_tsc;
  asserted ← pit_wait (Z.to_nat (PIT_BUDGET + 1));
  if negb asserted then mret None else
  tsc_end ← read_tsc;
  tsc_elapsed ← lift (usub tsc_end tsc_start);
  let tsc_per_us := tsc_elapsed / expected_us in
  if tsc_per_us =? 0 then mret None else mret (Some tsc_per_us).

End ports.

(** ** Properties *)

(** What the hardware does: these registers of the local APIC hold what was
    last written to them. *)
Class LapicHw (HW : Type) `{Mmio HW} (va : Z) := {
  lapic_reg : mem * HW -> Z -> Z;
  lapic_write r v s r' : r ∈ [APIC_SVR; APIC_TPR; APIC_LVT_TIMER; APIC_TIMER_INIT_CNT; APIC_TIMER_DIV] ->
    lapic_reg (mmio_write32 (va + r) v s) r' = if r' =? r then v else lapic_reg s r';
}.
#[global] Arguments lapic_reg {HW _} va {_} s r.

Section facts.
Context {HW : Type} `{LapicHw HW va}.
Hypothesis va_ok : 0 <= va < U64 - 0x1000.

Lemma apic_write_ok r v s : 0 <= r < 0x1000 ->
  apic_write va r v s = Ret (tt, mmio_write32 (va + r) v s).
Proof.
  intros. unfold apic_write. by rewrite (bind_lift _ _ _ (va + r)) by (apply uadd_ok; lia).
Qed.

(** The three registers of the timer after [set_timer_periodic]. *)
Lemma set_timer_periodic_ok vector divider count code s :
  divider_code divider = Some code ->
  exists s', set_timer_periodic va vector divider count s = Ret (tt, s') /\
    lapic_reg va s' APIC_TIMER_DIV = code /\
    lapic_reg va s' APIC_LVT_TIMER = Z.lor APIC_TIMER_PERIODIC vector /\
    lapic_reg va s' APIC_TIMER_INIT_CNT = count.
Proof.
  intros Hc. eexists. split.
  - unfold set_timer_periodic, set_divider. rewrite Hc.
    erewrite bind_Ret by (by apply apic_write_ok). cbv beta.
    erewrite bind_Ret by (by apply apic_write_ok). cbv beta. by apply apic_write_ok.
  - by rewrite !lapic_write by (repeat (left || right)).
Qed.

End facts.

Lemma timer_count_ok tsc :
  0 <= tsc -> tsc <= 68719476 -> timer_count tsc = Ret (tsc * 1000 / 16).
Proof.
  intros. unfold timer_count, APIC_TIMER_PERIOD_US, APIC_TIMER_DIVIDER.
  rewrite umul_ok by (unfold U64; lia). cbn [mbind outcome_bind]. unfold mret, outcome_ret, as_u32.
  rewrite Z.mod_small; [done|]. split; [apply Z.div_pos; lia|apply Z.div_lt_upper_bound; unfold U32; lia].
Qed.

(** Starting the timer installs its handler and the spurious handler,
    and leaves no other vector touched; for a time stamp counter of at most
    68.7 THz the timer registers then request an unmasked periodic interrupt
    on vector 32 whose period is within 16 counter ticks below one
    millisecond.  Above that the count is cut to 32 bits and the period falls
    short by at least 2^36 ticks, or the product overflows 64 bits. *)
Theorem timer_period {HW} `{LapicHw HW va} tsc_per_us t s :
  0 <= va < U64 - 0x1000 -> 0 <= tsc_per_us < U64 ->
  if tsc_per_us <=? 68719476 then
    exists s' count, start_apic_timer va tsc_per_us (t, s) =
        Ret (tt, (<[SPURIOUS_VECTOR := spurious_isr]> (<[APIC_TIMER_VECTOR := apic_timer_isr]> t), s')) /\
      lapic_reg va s' APIC_TIMER_INIT_CNT = count /\ 0 <= count < U32 /\
      count * 16 <= tsc_per_us * 1000 < count * 16 + 16 /\
      lapic_reg va s' APIC_TIMER_DIV = 3 /\
      Z.land (lapic_reg va s' APIC_LVT_TIMER) 0xFF = 32 /\
      Z.testbit (lapic_reg va s' APIC_LVT_TIMER) 16 = false /\
      Z.testbit (lapic_reg va s' APIC_LVT_TIMER) 17 = true
  else match timer_count tsc_per_us with
       | Ret count => tsc_per_us * 1000 < U64 /\ count * 16 + 2 ^ 36 <= tsc_per_us * 1000
       | Panic f => f = ArithOverflow /\ U64 <= tsc_per_us * 1000
       end.
Proof.
  intros Hva Ht. destruct (Z.leb_spec tsc_per_us 68719476) as [Hle|Hgt].
  - destruct (set_timer_periodic_ok Hva APIC_TIMER_VECTOR APIC_TIMER_DIVIDER (tsc_per_us * 1000 / 16) 3 s)
      as (s' & E & Hd & Hl & Hc); [done|].
    exists s', (tsc_per_us * 1000 / 16).
    pose proof (Z_div_mod_eq_full (tsc_per_us * 1000) 16).
    pose proof (Z.mod_pos_bound (tsc_per_us * 1000) 16 ltac:(lia)).
    split_and!; [|done|lia|unfold U32; lia|lia|lia|done|by rewrite Hl..].
    unfold start_apic_timer. cbv zeta. erewrite bind_Ret by (apply zoom_Ret; reflexivity). cbv beta.
    erewrite bind_Ret by (apply zoom_Ret; reflexivity). cbv beta.
    erewrite zoom_Ret; [reflexivity|]. cbn [fst snd]. unfold ap_start_apic_timer.
    by rewrite (bind_lift _ _ _ (tsc_per_us * 1000 / 16)) by (apply timer_count_ok; lia).
  - unfold timer_count, APIC_TIMER_PERIOD_US, APIC_TIMER_DIVIDER, umul.
    destruct (Z.ltb_spec (tsc_per_us * 1000) U64); cbn [mbind outcome_bind]; [|done].
    unfold mret, outcome_ret, as_u32. split; [done|]. set (q := tsc_per_us * 1000 / 16).
    pose proof (Z_div_mod_eq_full (tsc_per_us * 1000) 16) as Hq. fold q in Hq.
    pose proof (Z.mod_pos_bound (tsc_per_us * 1000) 16 ltac:(lia)).
    assert (U32 <= q) by (unfold U32; lia). pose proof (Z_div_mod_eq_full q U32).
    assert (1 <= q / U32) by (apply Z.div_le_lower_bound; [done|lia]). unfold U32 in *. lia.
Qed.

(** ** Witness *)

#[local] Instance demo_lapic_mmio : Mmio (gmap Z Z) :=
  {| mmio_read32 p s := (default 0 (s.2 !! p), s);
     mmio_write32 p v s := (s.1, <[p := v]> s.2) |}.

#[local] Instance demo_lapic : LapicHw (gmap Z Z) 0x1000.
Proof.
  exists (fun s r => default 0 (s.2 !! (0x1000 + r))). intros r v s r' _. cbn [mmio_write32 demo_lapic_mmio snd].
  destruct (Z.eqb_spec r' r) as [->|].
  - by rewrite lookup_insert_eq.
  - rewrite lookup_insert_ne by lia. done.
Defined.

Lemma timer_period_witness :
  exists s' count, start_apic_timer 0x1000 2400 (∅, (∅, ∅)) =
      Ret (tt, (<[SPURIOUS_VECTOR := spurious_isr]> (<[APIC_TIMER_VECTOR := apic_timer_isr]> ∅), s')) /\
    lapic_reg 0x1000 s' APIC_TIMER_INIT_CNT = count /\ count * 16 <= 2400000 < count * 16 + 16.
Proof.
  destruct (timer_period 2400 ∅ (∅, ∅) ltac:(done) ltac:(done)) as (s' & count & E & Hc & _ & Hp & _).
  exists s', count. split; [exact E|]. split; [exact Hc|]. exact Hp.
Defined.
