(* ===== verification/Smp.v ===== *)
(** Start-up of the application processors
    ([crates/embclox-hal-x86/src/smp.rs], [ap_entry] of
    [examples-kernel/src/app.rs]).  The boot processor walks the list of
    processors of the boot loader and releases them one by one; each released
    processor sets itself up while the others run.  The processors interleave
    at their accesses to shared state. *)

From S2P Require Import Prelude Mem Nic CpuLocal Idt Apic.

(** [limine::mp::Cpu]: what the boot loader shares per processor; the
    processor starts when [goto_address] is written. *)
Record Cpu := {
  lapic_id : Z;
  extra : Z;
  goto_address : bool;
}.

Record ApInit := {
  ap_cpu_id : CpuId;
  ap_apic_id : Z;
  ap_tsc_per_us : Z;
}.

Definition store_extra (v : Z) (c : Cpu) : Cpu :=
  {| lapic_id := lapic_id c; extra := v; goto_address := goto_address c |}.
Definition write_goto (c : Cpu) : Cpu :=
  {| lapic_id := lapic_id c; extra := extra c; goto_address := true |}.

Definition ap_init_from (AP_TSC_PER_US : Z) (cpu : Cpu) : ApInit :=
  {| ap_cpu_id := Ap (as_u8 (extra cpu)); ap_apic_id := as_u8 (lapic_id cpu);
     ap_tsc_per_us := AP_TSC_PER_US |}.

(** The loop of [bring_up_aps] from [started] on. *)
Fixpoint bring_up_loop (bsp_lapic_id cap started : Z) (cpus : list Cpu) : Z * list Cpu :=
  match cpus with
  | [] => (started, [])
  | cpu :: rest =>
      if cap <=? started then (started, cpu :: rest) else
      if lapic_id cpu =? bsp_lapic_id then
        let '(n, rest') := bring_up_loop bsp_lapic_id cap started rest in (n, cpu :: rest')
      else
        let processor_id := as_u8 (started + 1) in
        let cpu' := write_goto (store_extra processor_id cpu) in
        let '(n, rest') := bring_up_loop bsp_lapic_id cap (started + 1) rest in (n, cpu' :: rest')
  end.

Definition ap_cap (max_aps : Z) : Z := Z.min max_aps (Z.of_nat MAX_CPUS - 1).

Definition bring_up_aps (bsp_lapic_id max_aps : Z) (cpus : list Cpu) : Z * list Cpu :=
  bring_up_loop bsp_lapic_id (ap_cap max_aps) 0 cpus.

(** [bsp_lapic_id]: the 32-bit id of the boot loader's answer, as an xAPIC id. *)
Definition bsp_lapic_id_u8 (mp_bsp_lapic_id : Z) : Z := as_u8 mp_bsp_lapic_id.

(** *** Time stamps: [check_tsc_sync] *)

(** The difference, and whether the warning was logged. *)
Definition check_tsc_sync {St} `{BytePorts St} (bsp_tsc_at_ap_release tsc_per_us : Z) : M St (Z * bool) :=
  ap_tsc ← read_tsc;
  delta ← lift (i64 (as_i64 ap_tsc - as_i64 bsp_tsc_at_ap_release));
  one_ms_ticks ← lift (i64 (as_i64 tsc_per_us * 1000));
  mret (delta, one_ms_ticks <? as_i64 (Z.abs delta)).

Section setup.
Context {HW : Type} `{Mmio HW} (LAPIC_VADDR : Z).

Definition on_cpus {A} (c : M cpus A) : M (cpus * (mem * HW)) A := zoom fst (fun t s => (t, s.2)) c.
Definition on_lapic {A} (c : M (mem * HW) A) : M (cpus * (mem * HW)) A := zoom snd (fun t s => (s.1, t)) c.

(** [ap_setup]; loading the interrupt table has no effect on this state. *)
Definition ap_setup (init : ApInit) : M (cpus * (mem * HW)) unit :=
  processor_id ← match ap_cpu_id init with Bsp => panic AssertFailed | Ap n => mret n end;
  _ ← on_cpus (init_ap processor_id (ap_apic_id init));
  _ ← on_lapic (enable LAPIC_VADDR);
  on_lapic (ap_start_apic_timer LAPIC_VADDR (ap_tsc_per_us init)).

(** ** The processors together *)

(** Where an application processor is in [ap_entry]. *)
Inductive ap_pc :=
| Spin                      (** in the boot loader, before [goto_address] *)
| Entered (init : ApInit)   (** after [ap_init_from] *)
| Ready (init : ApInit)     (** after [ap_setup] *)
| Running (init : ApInit)   (** after the executor was initialised *)
| Panicked (f : fault).

(** What belongs to one processor: its position, [GS_BASE] and local APIC. *)
Record ap_local := {
  pc : ap_pc;
  ap_gs : Z;
  ap_hw : mem * HW;
}.

(** Where the boot processor is in [bring_up_aps]: before the entry [idx];
    between the two stores to it; or past the loop. *)
Inductive bsp_pc :=
| BspAt (idx : nat) (started : Z)
| BspStored (idx : nat) (started : Z)
| BspDone (idx : nat) (started : Z).

Record sys := {
  bsp : bsp_pc;
  mp : list Cpu;
  locals : list ap_local;
  slots : list (option CpuLocal);   (** [CPU_LOCALS] *)
  executors : list bool;            (** [AP_EXECUTORS]: initialised or not *)
}.

Context (bsp_lapic_id cap AP_TSC_PER_US : Z).

Definition bsp_step (s : sys) : option sys :=
  let go pc' mp' := Some {| bsp := pc'; mp := mp'; locals := locals s; slots := slots s;
                            executors := executors s |} in
  match bsp s with
  | BspAt idx started =>
      match mp s !! idx with
      | None => go (BspDone idx started) (mp s)
      | Some cpu =>
          if cap <=? started then go (BspDone idx started) (mp s) else
          if lapic_id cpu =? bsp_lapic_id then go (BspAt (S idx) started) (mp s) else
          go (BspStored idx started) (alter (store_extra (as_u8 (started + 1))) idx (mp s))
      end
  | BspStored idx started => go (BspAt (S idx) (started + 1)) (alter write_goto idx (mp s))
  | BspDone _ _ => None
  end.

(** [AP_EXECUTORS[(processor_id - 1)].init(..)]: a [StaticCell] can be
    initialised once. *)
Definition init_executor (init : ApInit) (ex : list bool) : outcome (list bool) :=
  match ap_cpu_id init with
  | Bsp => Panic AssertFailed
  | Ap n =>
      k ← usub n 1;
      used ← index ex k;
      if (used : bool) then Panic Expect else mret (<[Z.to_nat k := true]> ex)
  end.

Definition ap_step (i : nat) (s : sys) : option sys :=
  let go l sl ex := Some {| bsp := bsp s; mp := mp s; locals := <[i := l]> (locals s);
                            slots := sl; executors := ex |} in
  match mp s !! i, locals s !! i with
  | Some cpu, Some l =>
      let at_ p := {| pc := p; ap_gs := ap_gs l; ap_hw := ap_hw l |} in
      match pc l with
      | Spin =>
          if goto_address cpu
          then go (at_ (Entered (ap_init_from AP_TSC_PER_US cpu))) (slots s) (executors s)
          else None
      | Entered init =>
          match ap_setup init ({| CPU_LOCALS := slots s; gs_base := ap_gs l |}, ap_hw l) with
          | Ret (_, (c, hw)) =>
              go {| pc := Ready init; ap_gs := gs_base c; ap_hw := hw |} (CPU_LOCALS c) (executors s)
          | Panic f => go (at_ (Panicked f)) (slots s) (executors s)
          end
      | Ready init =>
          match init_executor init (executors s) with
          | Ret ex => go (at_ (Running init)) (slots s) ex
          | Panic f => go (at_ (Panicked f)) (slots s) (executors s)
          end
      | Running _ | Panicked _ => None
      end
  | _, _ => None
  end.

Inductive step (s : sys) : sys -> Prop :=
| step_bsp s' : bsp_step s = Some s' -> step s s'
| step_ap i s' : ap_step i s = Some s' -> step s s'.

Definition reachable (s0 s : sys) : Prop := rtc step s0 s.

(** The boot loader waits with every processor, and only the boot processor
    has its slot. *)
Definition booted (lids : list Z) (hw : list (mem * HW)) (b : CpuLocal) : sys :=
  {| bsp := BspAt 0 0;
     mp := (fun l => {| lapic_id := l; extra := 0; goto_address := false |}) <$> lids;
     locals := (fun h => {| pc := Spin; ap_gs := 0; ap_hw := h |}) <$> hw;
     slots := Some b :: replicate (MAX_CPUS - 1) None;
     executors := replicate (MAX_CPUS - 1) false |}.

End setup.

(** ** Properties *)

(** Readings below 2^63 are compared exactly: the difference is the signed
    one, and the warning is logged for more than a millisecond either way. *)
Lemma check_tsc_sync_exact {St} `{BytePorts St} b tsc s :
  0 <= b < I63 -> 0 <= (rdtsc s).1 < I63 -> 0 <= tsc -> tsc * 1000 < I63 ->
  check_tsc_sync b tsc s =
    let delta := (rdtsc s).1 - b in Ret ((delta, tsc * 1000 <? Z.abs delta), (rdtsc s).2).
Proof.
  assert (Hi : forall x, 0 <= x < I63 -> as_i64 x = x)
    by (intros x Hx; unfold as_i64, I63, U64 in *; rewrite Z.mod_small by lia; lia).
  intros Hb Ha Ht Htt. unfold check_tsc_sync, read_tsc, mbind, M_bind, lift.
  destruct (rdtsc s) as [a s']. cbn [fst snd] in *. cbv zeta.
  rewrite !Hi, i64_ok by lia. rewrite i64_ok by lia. cbn. by rewrite Hi by (unfold I63 in *; lia).
Qed.

(** How many of the processors are not the boot processor. *)
Definition others (bsp_lapic_id : Z) (lids : list Z) : Z :=
  zlen (List.filter (fun l => negb (l =? bsp_lapic_id)) lids).

Section count.
Context (b : Z) (lids : list Z).
Abbreviation before i := (others b (take i lids)).

Lemma others_nonneg l : 0 <= others b l.
Proof. apply zlen_nonneg. Qed.

Lemma before_S i l : lids !! i = Some l -> before (S i) = before i + (if l =? b then 0 else 1).
Proof.
  intros Hl. unfold others. rewrite (take_S_r _ _ _ Hl), List.filter_app, zlen_app. f_equal.
  simpl. by destruct (l =? b).
Qed.

Lemma before_mono i j : (i <= j)%nat -> before i <= before j.
Proof.
  intros Hij. unfold others. rewrite <- (take_drop i (take j lids)), take_take, Nat.min_l by done.
  rewrite List.filter_app, zlen_app. pose proof (zlen_nonneg (List.filter (fun l => negb (l =? b)) (drop i (take j lids)))).
  lia.
Qed.

Lemma before_lt i j l : lids !! i = Some l -> l <> b -> (i < j)%nat -> before i + 1 <= before j.
Proof.
  intros Hl Hne Hij. pose proof (before_S i l Hl) as E. rewrite (proj2 (Z.eqb_neq l b)) in E by done.
  rewrite <- E. by apply before_mono.
Qed.

Lemma before_inj i j l l' :
  lids !! i = Some l -> l <> b -> lids !! j = Some l' -> l' <> b -> before i = before j -> i = j.
Proof.
  intros Hi Hl Hj Hl' E. destruct (lt_eq_lt_dec i j) as [[Hlt|]|Hlt]; [|done|].
  - pose proof (before_lt i j l Hi Hl Hlt). lia.
  - pose proof (before_lt j i l' Hj Hl' Hlt). lia.
Qed.

End count.

(** The sequential reading of [bring_up_aps]: as many processors as there
    are and the cap allows. *)
Lemma bring_up_loop_count b cap started cpus :
  started <= cap -> (bring_up_loop b cap started cpus).1 =
    Z.min cap (started + others b (lapic_id <$> cpus)).
Proof.
  revert started. induction cpus as [|c cpus IH]; intros started Hs.
  { unfold others, zlen. simpl. lia. }
  pose proof (others_nonneg b (lapic_id <$> c :: cpus)). cbn [bring_up_loop].
  destruct (Z.leb_spec cap started); [cbn [fst]; lia|].
  assert (E : others b (lapic_id <$> c :: cpus) =
    (if lapic_id c =? b then 0 else 1) + others b (lapic_id <$> cpus)).
  { unfold others, zlen. rewrite fmap_cons. cbn [List.filter].
    destruct (lapic_id c =? b); cbn [negb length]; lia. }
  rewrite E. destruct (lapic_id c =? b).
  - specialize (IH started Hs). destruct (bring_up_loop b cap started cpus). cbn [fst] in *. lia.
  - specialize (IH (started + 1) ltac:(lia)). destruct (bring_up_loop b cap (started + 1) cpus).
    cbn [fst] in *. lia.
Qed.

Section invariant.
Context {HW : Type} `{Mmio HW} (va b cap tsc : Z) (lids : list Z).
Hypothesis va_ok : 0 <= va < U64 - 0x1000.
Hypothesis tsc_ok : 0 <= tsc /\ tsc * 1000 < U64.
Hypothesis cap_ok : 0 <= cap <= 7.
Abbreviation before i := (others b (take i lids)).
Abbreviation sys := (@sys HW).
Abbreviation ap_local := (@ap_local HW).

Definition pos (p : bsp_pc) : nat :=
  match p with BspAt i _ | BspStored i _ | BspDone i _ => i end.

Definition bsp_ok (s : sys) : Prop :=
  match bsp s with
  | BspAt i n => n = before i /\ n <= cap /\ (i <= length lids)%nat
  | BspStored i n => n = before i /\ n < cap /\
      exists cpu, mp s !! i = Some cpu /\ lapic_id cpu <> b /\ extra cpu = n + 1
  | BspDone i n => n = before i /\ n <= cap /\ (i <= length lids)%nat /\ (i = length lids \/ n = cap)
  end.

(** Processor [i] was released and entered with [init]. *)
Definition entered (s : sys) (i : nat) (init : ApInit) : Prop :=
  exists cpu, mp s !! i = Some cpu /\ goto_address cpu = true /\ init = ap_init_from tsc cpu.

(** ... and is set up: it finds itself by its own [GS_BASE]. *)
Definition set_up (s : sys) (i : nat) (l : ap_local) (init : ApInit) : Prop :=
  entered s i init /\ ap_gs l = before i + 1 /\
  slots s !! Z.to_nat (before i + 1) =
    Some (Some {| cpu_id := ap_cpu_id init; apic_id := ap_apic_id init |}).

Definition ap_ok (s : sys) (i : nat) (l : ap_local) : Prop :=
  match pc l with
  | Spin => True
  | Entered init => entered s i init
  | Ready init | Running init => set_up s i l init
  | Panicked _ => False
  end.

Definition is_set_up (p : ap_pc) : bool := match p with Ready _ | Running _ => true | _ => false end.
Definition is_running (p : ap_pc) : bool := match p with Running _ => true | _ => false end.

Record inv (s : sys) : Prop := {
  inv_lids : lapic_id <$> mp s = lids;
  inv_slots_len : length (slots s) = MAX_CPUS;
  inv_exec_len : length (executors s) = 7%nat;
  inv_bsp : bsp_ok s;
  inv_goto : forall i cpu, mp s !! i = Some cpu -> goto_address cpu = true ->
    lapic_id cpu <> b /\ (i < pos (bsp s))%nat /\ extra cpu = before i + 1;
  inv_ap : forall i l, locals s !! i = Some l -> ap_ok s i l;
  inv_slots : forall k c, slots s !! k = Some (Some c) -> k = 0%nat \/
    exists i l, locals s !! i = Some l /\ is_set_up (pc l) = true /\ Z.of_nat k = before i + 1;
  inv_exec : forall k, executors s !! k = Some true ->
    exists i l, locals s !! i = Some l /\ is_running (pc l) = true /\ Z.of_nat k = before i;
}.

Lemma lids_lookup s i cpu : inv s -> mp s !! i = Some cpu -> lids !! i = Some (lapic_id cpu).
Proof. intros Hi Hc. rewrite <- (inv_lids s Hi), list_lookup_fmap, Hc. done. Qed.

(** A released processor has an id between 1 and 7. *)
Lemma entered_id s i init :
  inv s -> entered s i init ->
  0 <= before i < cap /\ ap_cpu_id init = Ap (before i + 1) /\ ap_tsc_per_us init = tsc /\
  exists l, lids !! i = Some l /\ l <> b /\ ap_apic_id init = as_u8 l.
Proof.
  intros Hi (cpu & Hc & Hg & ->). destruct (inv_goto s Hi i cpu Hc Hg) as (Hne & Hlt & He).
  pose proof (lids_lookup s i cpu Hi Hc) as Hl. pose proof (before_lt b lids i _ _ Hl Hne Hlt) as Hb.
  pose proof (others_nonneg b (take i lids)).
  assert (before (pos (bsp s)) <= cap).
  { pose proof (inv_bsp s Hi) as Hbsp. unfold bsp_ok in Hbsp. destruct (bsp s); simpl; lia. }
  split; [lia|]. unfold ap_init_from, as_u8. cbn [ap_cpu_id ap_tsc_per_us ap_apic_id].
  rewrite He, Z.mod_small by (unfold U8; lia). split_and!; [done..|]. by exists (lapic_id cpu).
Qed.

(** Two released processors with the same id are one. *)
Lemma entered_inj s i j init init' :
  inv s -> entered s i init -> entered s j init' -> before i = before j -> i = j.
Proof.
  intros Hi Hei Hej. destruct (entered_id s i init Hi Hei) as (_ & _ & _ & l & Hl & Hne & _).
  destruct (entered_id s j init' Hi Hej) as (_ & _ & _ & l' & Hl' & Hne' & _).
  eapply before_inj; eauto.
Qed.

Lemma ap_ok_entered s i l : ap_ok s i l -> is_set_up (pc l) = true -> exists init, entered s i init.
Proof. unfold ap_ok, set_up. destruct (pc l); [done..| | |done]; intros [He _] _; eauto. Qed.

(** Setting up a processor whose slot is free. *)
Lemma ap_setup_ok sl gs hw p apic :
  1 <= p <= 7 -> length sl = MAX_CPUS -> sl !! Z.to_nat p = Some None ->
  exists hw', ap_setup va {| ap_cpu_id := Ap p; ap_apic_id := apic; ap_tsc_per_us := tsc |}
      ({| CPU_LOCALS := sl; gs_base := gs |}, hw) =
    Ret (tt, ({| CPU_LOCALS := <[Z.to_nat p := Some {| cpu_id := Ap p; apic_id := apic |}]> sl;
                 gs_base := p |}, hw')).
Proof.
  intros Hp Hl Hs. eexists. unfold ap_setup. cbn [ap_cpu_id ap_apic_id ap_tsc_per_us].
  erewrite bind_Ret by reflexivity. cbv beta. unfold on_cpus, on_lapic.
  erewrite bind_Ret; [|apply zoom_Ret; unfold init_ap; cbn [fst];
    rewrite (bind_lift _ _ _ tt) by (unfold rassert; by rewrite (proj2 (Z.eqb_neq _ _)) by lia);
    rewrite (bind_lift _ _ _ tt) by (unfold rassert; by rewrite (proj2 (Z.ltb_lt _ _)) by (unfold MAX_CPUS; lia));
    reflexivity].
  cbv beta. cbn [fst snd]. unfold call_once, set_current. cbn [CPU_LOCALS gs_base]. rewrite Hs.
  erewrite bind_Ret; [|apply zoom_Ret; unfold enable; cbn [snd];
    erewrite bind_Ret by (by apply apic_write_ok); by apply apic_write_ok].
  cbv beta. cbn [fst snd]. erewrite zoom_Ret; [reflexivity|]. cbn [snd].
  unfold ap_start_apic_timer, timer_count, APIC_TIMER_PERIOD_US. rewrite umul_ok by lia.
  erewrite bind_lift by reflexivity. cbv beta. unfold set_timer_periodic, set_divider. simpl divider_code.
  cbv iota. erewrite bind_Ret by (by apply apic_write_ok). cbv beta.
  erewrite bind_Ret by (by apply apic_write_ok). cbv beta. by apply apic_write_ok.
Qed.

(** Moving the boot processor on keeps the invariant when the entries it has
    passed stay, and the others are not released or released properly. *)
Lemma inv_move s p' mp' :
  let s' := {| bsp := p'; mp := mp'; locals := locals s; slots := slots s; executors := executors s |} in
  inv s -> lapic_id <$> mp' = lids -> (pos (bsp s) <= pos p')%nat ->
  (forall i, (i < pos (bsp s))%nat -> mp' !! i = mp s !! i) ->
  (forall i cpu, mp' !! i = Some cpu -> goto_address cpu = true -> (pos (bsp s) <= i)%nat ->
     lapic_id cpu <> b /\ (i < pos p')%nat /\ extra cpu = before i + 1) ->
  bsp_ok s' -> inv s'.
Proof.
  intros s' [Hlids Hsl Hel Hbsp Hgoto Hap Hslots Hexec] Hl' Hp Hsame Hnew Hb. split; try done.
  - intros i cpu Hc Hg. destruct (decide (i < pos (bsp s))%nat) as [Hlt|Hge].
    + simpl in Hc. rewrite Hsame in Hc by done. destruct (Hgoto i cpu Hc Hg) as (? & ? & ?).
      split_and!; [done|simpl; lia|done].
    + apply (Hnew i cpu Hc Hg). lia.
  - intros i l Hl. specialize (Hap i l Hl).
    assert (He : forall init, entered s i init -> entered s' i init).
    { intros init (cpu & Hc & Hg & Hin). exists cpu. split_and!; [|done..].
      simpl. destruct (Hgoto i cpu Hc Hg) as (_ & Hlt & _). by rewrite Hsame by done. }
    unfold ap_ok in *. destruct (pc l); [done|by apply He| | |done];
      destruct Hap as (? & ? & ?); split_and!; (done || by apply He).
Qed.

Lemma not_released s i cpu :
  inv s -> mp s !! i = Some cpu -> goto_address cpu = true -> (pos (bsp s) <= i)%nat -> False.
Proof. intros Hi Hc Hg. destruct (inv_goto s Hi i cpu Hc Hg) as (_ & ? & _). lia. Qed.

(** Storing to an entry does not change the ids. *)
Lemma fmap_alter_id (f : Cpu -> Cpu) (i : nat) (l : list Cpu) :
  (forall c, lapic_id (f c) = lapic_id c) -> lapic_id <$> alter f i l = lapic_id <$> l.
Proof.
  intros Hf. apply list_eq. intros j. rewrite !list_lookup_fmap. destruct (decide (i = j)) as [->|].
  - rewrite list_lookup_alter_eq. destruct (l !! j); simpl; [by rewrite Hf|done].
  - by rewrite list_lookup_alter_ne.
Qed.

Lemma inv_bsp_store s idx n cpu :
  inv s -> bsp s = BspAt idx n -> mp s !! idx = Some cpu -> n < cap -> lapic_id cpu <> b ->
  inv {| bsp := BspStored idx n; mp := alter (store_extra (as_u8 (n + 1))) idx (mp s);
         locals := locals s; slots := slots s; executors := executors s |}.
Proof.
  intros Hi Hpc Hc Hn Hne. pose proof (inv_bsp s Hi) as Hb. unfold bsp_ok in Hb. rewrite Hpc in Hb.
  apply inv_move; [done|by rewrite fmap_alter_id, (inv_lids s Hi)|by rewrite Hpc|..].
  - intros j Hj. rewrite Hpc in Hj. simpl in Hj. by rewrite list_lookup_alter_ne by lia.
  - intros j c' Hc' Hg Hj. exfalso. rewrite Hpc in Hj. destruct (decide (idx = j)) as [->|].
    + rewrite list_lookup_alter_eq, Hc in Hc'. simplify_eq/=. eapply not_released; [done..|by rewrite Hpc].
    + rewrite list_lookup_alter_ne in Hc' by done. eapply not_released; [done..|by rewrite Hpc].
  - unfold bsp_ok. cbn [bsp mp]. split_and!; [lia|done|]. eexists. rewrite list_lookup_alter_eq, Hc.
    split_and!; [done|done|]. simpl. unfold as_u8. pose proof (others_nonneg b (take idx lids)).
    apply Z.mod_small. unfold U8. lia.
Qed.

Lemma inv_bsp_release s idx n :
  inv s -> bsp s = BspStored idx n ->
  inv {| bsp := BspAt (S idx) (n + 1); mp := alter write_goto idx (mp s);
         locals := locals s; slots := slots s; executors := executors s |}.
Proof.
  intros Hi Hpc. pose proof (inv_bsp s Hi) as Hb. unfold bsp_ok in Hb. rewrite Hpc in Hb.
  destruct Hb as (Hn & Hcap & cpu & Hc & Hne & Hex).
  pose proof (lids_lookup s idx cpu Hi Hc) as Hl. pose proof (before_S b lids idx _ Hl) as HS.
  rewrite (proj2 (Z.eqb_neq _ _)) in HS by done. pose proof (lookup_lt_Some _ _ _ Hl).
  apply inv_move; [done|by rewrite fmap_alter_id, (inv_lids s Hi)|rewrite Hpc; simpl; lia|..].
  - intros j Hj. rewrite Hpc in Hj. simpl in Hj. by rewrite list_lookup_alter_ne by lia.
  - intros j c' Hc' Hg Hj. rewrite Hpc in Hj. destruct (decide (idx = j)) as [->|].
    + rewrite list_lookup_alter_eq, Hc in Hc'. simplify_eq/=. split_and!; [done|lia|lia].
    + exfalso. rewrite list_lookup_alter_ne in Hc' by done. eapply not_released; [done..|by rewrite Hpc].
  - unfold bsp_ok. cbn [bsp mp]. lia.
Qed.

Lemma inv_bsp_step s s' : inv s -> bsp_step b cap s = Some s' -> inv s'.
Proof.
  intros Hi. pose proof (inv_bsp s Hi) as Hb. unfold bsp_step, bsp_ok in *.
  assert (Hlen : length (mp s) = length lids) by (by rewrite <- (inv_lids s Hi), length_fmap).
  assert (Hmove : forall p', (pos (bsp s) <= pos p')%nat ->
    let s1 := {| bsp := p'; mp := mp s; locals := locals s; slots := slots s; executors := executors s |} in
    bsp_ok s1 -> inv s1).
  { intros p' Hp s1 Hb1. apply inv_move; [done|by apply inv_lids|done..| |done].
    intros i cpu Hc Hg Hge. exfalso. by eapply not_released. }
  destruct (bsp s) as [idx n|idx n|idx n] eqn:Hpc; [| |done].
  - destruct Hb as (Hn & Hcap & Hidx). destruct (mp s !! idx) as [cpu|] eqn:Hc.
    + pose proof (lids_lookup s idx cpu Hi Hc) as Hl. pose proof (before_S b lids idx _ Hl) as HS.
      pose proof (lookup_lt_Some _ _ _ Hl). destruct (Z.leb_spec cap n).
      * intros [= <-]. apply Hmove; [done|]. unfold bsp_ok. cbn [bsp mp]. split_and!; [done..|right; lia].
      * destruct (Z.eqb_spec (lapic_id cpu) b).
        -- intros [= <-]. apply Hmove; unfold bsp_ok; cbn [bsp mp pos]; lia.
        -- intros [= <-]. by eapply inv_bsp_store.
    + intros [= <-]. apply lookup_ge_None in Hc. apply Hmove; [done|].
      unfold bsp_ok. cbn [bsp mp]. split_and!; [done..|left; lia].
  - intros [= <-]. by apply inv_bsp_release.
Qed.

(** An application processor that moves from [l] to [l'] without touching the
    slots or the executors. *)
Lemma inv_ap_move s i l l' sl ex :
  let s' := {| bsp := bsp s; mp := mp s; locals := <[i := l']> (locals s); slots := sl; executors := ex |} in
  inv s -> locals s !! i = Some l ->
  length sl = MAX_CPUS -> length ex = 7%nat ->
  (is_set_up (pc l) = true -> is_set_up (pc l') = true) -> is_running (pc l) = false ->
  ap_ok s' i l' ->
  (forall k c, slots s !! k = Some (Some c) -> sl !! k = Some (Some c)) ->
  (forall k c, sl !! k = Some (Some c) -> slots s !! k = Some (Some c) \/
     is_set_up (pc l') = true /\ Z.of_nat k = before i + 1) ->
  (forall k, ex !! k = Some true -> executors s !! k = Some true \/
     is_running (pc l') = true /\ Z.of_nat k = before i) ->
  inv s'.
Proof.
  intros s' [Hlids Hsl Hel Hbsp Hgoto Hap Hslots Hexec] Hl Hsl' Hel' Hup Hrun Hok Hkeep Hnew Hex.
  pose proof (lookup_lt_Some _ _ _ Hl) as Hlt.
  assert (Hat : locals s' !! i = Some l') by (by apply list_lookup_insert_eq).
  assert (Hne : forall j, j <> i -> locals s' !! j = locals s !! j) by (intros; by apply list_lookup_insert_ne).
  split; try done.
  - intros j lj Hj. destruct (decide (j = i)) as [->|Hji]; [rewrite Hat in Hj; by simplify_eq|].
    rewrite Hne in Hj by done. specialize (Hap j lj Hj). unfold ap_ok, set_up in *.
    destruct (pc lj); [done..| | |done]; destruct Hap as (? & ? & ?); split_and!; (done || by apply Hkeep).
  - intros k c Hk. destruct (Hnew k c Hk) as [Hold|[Hs Hkb]]; [|right; by exists i, l'].
    destruct (Hslots k c Hold) as [->|(j & lj & Hj & Hs & Hkb)]; [by left|right].
    destruct (decide (j = i)) as [->|Hji].
    + rewrite Hl in Hj. injection Hj as <-. exists i, l'. split_and!; [done|by apply Hup|done].
    + exists j, lj. by rewrite Hne.
  - intros k Hk. destruct (Hex k Hk) as [Hold|[Hs Hkb]]; [|by exists i, l'].
    destruct (Hexec k Hold) as (j & lj & Hj & Hs & Hkb). exists j, lj.
    rewrite Hne; [done|]. intros ->. rewrite Hl in Hj. injection Hj as <-. congruence.
Qed.

(** The slot of a processor that is about to be set up is free. *)
Lemma slot_free s i l init :
  inv s -> locals s !! i = Some l -> pc l = Entered init -> entered s i init ->
  slots s !! Z.to_nat (before i + 1) = Some None.
Proof.
  intros Hi Hl Hpc He. destruct (entered_id s i init Hi He) as (Hb & _).
  destruct (lookup_lt_is_Some_2 (slots s) (Z.to_nat (before i + 1))) as [o Hs].
  { rewrite (inv_slots_len s Hi). unfold MAX_CPUS. lia. }
  destruct o as [c|]; [exfalso|done].
  destruct (inv_slots s Hi _ _ Hs) as [?|(j & lj & Hj & Hup & Hk)]; [lia|].
  destruct (ap_ok_entered s j lj (inv_ap s Hi j lj Hj) Hup) as (init' & He').
  assert (i = j) as <- by (eapply entered_inj; [done..|lia]).
  rewrite Hl in Hj. injection Hj as <-. by rewrite Hpc in Hup.
Qed.

(** The executor of a processor that is ready is not initialised. *)
Lemma executor_free s i l init :
  inv s -> locals s !! i = Some l -> pc l = Ready init -> entered s i init ->
  init_executor init (executors s) = Ret (<[Z.to_nat (before i) := true]> (executors s)).
Proof.
  intros Hi Hl Hpc He. destruct (entered_id s i init Hi He) as (Hb & Hid & _).
  unfold init_executor. rewrite Hid, usub_ok by lia. cbn [mbind outcome_bind].
  replace (before i + 1 - 1) with (before i) by lia. unfold index.
  destruct (lookup_lt_is_Some_2 (executors s) (Z.to_nat (before i))) as [u Hu].
  { rewrite (inv_exec_len s Hi). lia. }
  rewrite Hu. cbn [mbind outcome_bind]. destruct u; [|done]. exfalso.
  destruct (inv_exec s Hi _ Hu) as (j & lj & Hj & Hrun & Hk).
  destruct (ap_ok_entered s j lj (inv_ap s Hi j lj Hj)) as (init' & He'); [by destruct (pc lj)|].
  assert (i = j) as <- by (eapply entered_inj; [done..|lia]).
  rewrite Hl in Hj. injection Hj as <-. by rewrite Hpc in Hrun.
Qed.

Lemma inv_setup_step s i l init :
  inv s -> locals s !! i = Some l -> pc l = Entered init ->
  exists c hw, ap_setup va init ({| CPU_LOCALS := slots s; gs_base := ap_gs l |}, ap_hw l) =
      Ret (tt, (c, hw)) /\
    inv {| bsp := bsp s; mp := mp s;
           locals := <[i := {| pc := Ready init; ap_gs := gs_base c; ap_hw := hw |}]> (locals s);
           slots := CPU_LOCALS c; executors := executors s |}.
Proof.
  intros Hi Hl Hpc. assert (He : entered s i init).
  { pose proof (inv_ap s Hi i l Hl) as Hok. unfold ap_ok in Hok. by rewrite Hpc in Hok. }
  destruct (entered_id s i init Hi He) as (Hb & Hid & Ht & lid & Hlid & _ & Hapic).
  pose proof (slot_free s i l init Hi Hl Hpc He) as Hfree.
  pose proof (inv_slots_len s Hi) as Hsl. pose proof (inv_exec_len s Hi) as Hel.
  destruct (ap_setup_ok (slots s) (ap_gs l) (ap_hw l) (before i + 1) (ap_apic_id init)) as (hw & E);
    [lia|done..|].
  replace {| ap_cpu_id := _; ap_apic_id := _; ap_tsc_per_us := _ |} with init in E
    by (destruct init; simpl in *; congruence).
  eexists _, hw. split; [exact E|]. cbn [CPU_LOCALS gs_base].
  pose proof (lookup_lt_Some _ _ _ Hfree) as Hlt.
  apply inv_ap_move with (l := l); try done; [by rewrite length_insert|by rewrite Hpc| | | |].
  - split_and!; [exact He|done|]. cbn [slots]. rewrite list_lookup_insert_eq by done. by rewrite Hid.
  - intros k c Hk. rewrite list_lookup_insert_ne; [done|]. intros <-. congruence.
  - intros k c Hk. destruct (decide (Z.to_nat (before i + 1) = k)) as [<-|Hne].
    + right. split; [done|lia].
    + left. by rewrite list_lookup_insert_ne in Hk by done.
  - intros k Hk. by left.
Qed.

Lemma inv_executor_step s i l init :
  inv s -> locals s !! i = Some l -> pc l = Ready init ->
  exists ex, init_executor init (executors s) = Ret ex /\
    inv {| bsp := bsp s; mp := mp s;
           locals := <[i := {| pc := Running init; ap_gs := ap_gs l; ap_hw := ap_hw l |}]> (locals s);
           slots := slots s; executors := ex |}.
Proof.
  intros Hi Hl Hpc. pose proof (inv_ap s Hi i l Hl) as Hok. unfold ap_ok in Hok. rewrite Hpc in Hok.
  destruct (entered_id s i init Hi (proj1 Hok)) as (Hb & _).
  eexists. split; [by eapply executor_free; [..|apply Hok]|].
  apply inv_ap_move with (l := l); try done;
    [by apply inv_slots_len|by rewrite length_insert, inv_exec_len|by rewrite Hpc|by intros; left|].
  intros k Hk. destruct (decide (Z.to_nat (before i) = k)) as [<-|Hne].
  - right. split; [done|lia].
  - left. by rewrite list_lookup_insert_ne in Hk by done.
Qed.

Lemma inv_ap_step s s' i : inv s -> ap_step va tsc i s = Some s' -> inv s'.
Proof.
  intros Hi. unfold ap_step. destruct (mp s !! i) as [cpu|] eqn:Hc; [|done].
  destruct (locals s !! i) as [l|] eqn:Hl; [|done]. destruct (pc l) as [|init|init| |] eqn:Hpc; try done.
  - destruct (goto_address cpu) eqn:Hg; [|done]. intros [= <-].
    apply inv_ap_move with (l := l); try done;
      [by apply inv_slots_len|by apply inv_exec_len|by rewrite Hpc..| |by intros; left|by intros; left].
    by exists cpu.
  - destruct (inv_setup_step s i l init Hi Hl Hpc) as (c & hw & -> & Hi'). by intros [= <-].
  - destruct (inv_executor_step s i l init Hi Hl Hpc) as (ex & -> & Hi'). by intros [= <-].
Qed.

Lemma inv_reachable s0 s : inv s0 -> reachable va b cap tsc s0 s -> inv s.
Proof.
  intros Hi Hr. induction Hr as [|s0 s1 s2 Hstep _ IH]; [done|]. apply IH.
  destruct Hstep as [s' E|i s' E]; [by eapply inv_bsp_step|by eapply inv_ap_step].
Qed.

Lemma inv_booted hw bl : inv (booted lids hw bl).
Proof.
  split; try done.
  - cbn [booted mp]. rewrite <- list_fmap_compose. apply list_fmap_id.
  - cbn. split_and!; [by rewrite take_0|lia|lia].
  - intros i cpu Hc Hg. cbn [booted mp] in Hc. rewrite list_lookup_fmap in Hc.
    destruct (lids !! i); [|done]. simpl in Hc. by simplify_eq.
  - intros i l Hl. cbn [booted locals] in Hl. rewrite list_lookup_fmap in Hl.
    destruct (hw !! i); [|done]. simpl in Hl. by simplify_eq.
  - intros [|k] c Hk; [by left|]. cbn [booted slots] in Hk.
    change ((Some bl :: replicate (MAX_CPUS - 1) None) !! S k)
      with (replicate (MAX_CPUS - 1) (@None CpuLocal) !! k) in Hk.
    by apply lookup_replicate in Hk as [? _].
  - intros k Hk. cbn [booted executors] in Hk. by apply lookup_replicate in Hk as [? _].
Qed.

Lemma set_up_current s i (l : ap_local) init :
  inv s -> entered s i init -> ap_gs l = before i + 1 ->
  slots s !! Z.to_nat (before i + 1) =
    Some (Some {| cpu_id := ap_cpu_id init; apic_id := ap_apic_id init |}) ->
  exists p lid, lids !! i = Some lid /\ 1 <= p <= 7 /\
    init = {| ap_cpu_id := Ap p; ap_apic_id := as_u8 lid; ap_tsc_per_us := tsc |} /\
    current {| CPU_LOCALS := slots s; gs_base := ap_gs l |} =
      Ret {| cpu_id := Ap p; apic_id := as_u8 lid |}.
Proof.
  intros Hi He Hgs Hs. destruct (entered_id s i init Hi He) as (Hb & Hid & Ht & lid & Hlid & _ & Hapic).
  exists (before i + 1), lid. split_and!; [done|lia|lia|by destruct init; simpl in *; subst|].
  unfold current, current_cpu_id, by_id. cbn [CPU_LOCALS gs_base]. rewrite slot_of_cpu_id_of, Hgs.
  unfold as_u8 at 1. rewrite Z.mod_small by (unfold U8; lia). by rewrite Hs, Hid, Hapic.
Qed.

Lemma ap_ok_gs s i l :
  ap_ok s i l -> is_set_up (pc l) = true -> exists init, entered s i init /\ ap_gs l = before i + 1.
Proof. unfold ap_ok, set_up. destruct (pc l); [done..| | |done]; intros (He & Hg & _) _; eauto. Qed.

End invariant.

(** The steps of the boot processor alone carry out [bring_up_loop]. *)
Lemma bring_up_loop_steps {HW} `{Mmio HW} va b cap tsc pre cpus started (s : @sys HW) :
  bsp s = BspAt (length pre) started -> mp s = pre ++ cpus ->
  exists idx s', reachable va b cap tsc s s' /\
    bsp s' = BspDone idx (bring_up_loop b cap started cpus).1 /\
    mp s' = pre ++ (bring_up_loop b cap started cpus).2.
Proof.
  revert pre started s. induction cpus as [|c cpus IH]; intros pre started s Hb Hm;
    pose (done_at n := {| bsp := BspDone (length pre) n; mp := mp s; locals := locals s;
                          slots := slots s; executors := executors s |}).
  { exists (length pre), (done_at started). split_and!; [|done..]. apply rtc_once, step_bsp. unfold bsp_step.
    assert (Hn : mp s !! length pre = None) by (rewrite Hm, app_nil_r; by apply lookup_ge_None_2).
    by rewrite Hb, Hn. }
  assert (Hat : mp s !! length pre = Some c) by (rewrite Hm; by apply list_lookup_middle).
  cbn [bring_up_loop]. destruct (Z.leb_spec cap started) as [Hle|Hgt].
  { exists (length pre), (done_at started). split_and!; [|done..]. apply rtc_once, step_bsp. unfold bsp_step.
    by rewrite Hb, Hat, (proj2 (Z.leb_le _ _)). }
  destruct (lapic_id c =? b) eqn:Hc.
  - edestruct (IH (pre ++ [c]) started
      {| bsp := BspAt (S (length pre)) started; mp := mp s; locals := locals s; slots := slots s;
         executors := executors s |}) as (idx & s' & Hr & Hb' & Hm').
    { cbn [bsp]. rewrite length_app, Nat.add_1_r. done. }
    { cbn [mp]. by rewrite <- app_assoc. }
    destruct (bring_up_loop b cap started cpus) as [n rest]. exists idx, s'.
    split_and!; [|exact Hb'|rewrite <- app_assoc in Hm'; exact Hm'].
    eapply rtc_l; [|exact Hr]. apply step_bsp. unfold bsp_step.
    by rewrite Hb, Hat, (proj2 (Z.leb_gt _ _)), Hc by lia.
  - set (c' := write_goto (store_extra (as_u8 (started + 1)) c)).
    edestruct (IH (pre ++ [c']) (started + 1)
      {| bsp := BspAt (S (length pre)) (started + 1); mp := pre ++ c' :: cpus; locals := locals s;
         slots := slots s; executors := executors s |}) as (idx & s' & Hr & Hb' & Hm').
    { cbn [bsp]. rewrite length_app, Nat.add_1_r. done. }
    { cbn [mp]. by rewrite <- app_assoc. }
    destruct (bring_up_loop b cap (started + 1) cpus) as [n rest]. exists idx, s'.
    split_and!; [|exact Hb'|rewrite <- app_assoc in Hm'; exact Hm'].
    eapply rtc_l; [apply step_bsp; unfold bsp_step;
      by rewrite Hb, Hat, (proj2 (Z.leb_gt _ _)), Hc by lia|].
    eapply rtc_l; [apply step_bsp; reflexivity|]. cbn [bsp mp locals slots executors].
    rewrite Hm, !alter_app_r_alt, Nat.sub_diag by done. exact Hr.
Qed.

(** C29: however the processors interleave, start-up is safe.  No processor
    panics; a released processor can always go on until it runs; once it is
    set up it has an id between 1 and 7, finds its own slot through
    [GS_BASE], with its own local APIC id, and knows the frequency of the
    boot processor; no two processors have the same id; and when the boot
    processor is done it has started as many as [bring_up_aps] returns: the
    other processors, up to the cap. *)
Theorem aps_start_safely {HW} `{Mmio HW} va b max_aps tsc lids (hw : list (mem * HW)) bl s :
  0 <= va < U64 - 0x1000 -> 0 <= tsc -> tsc * 1000 < U64 -> 0 <= max_aps ->
  reachable va b (ap_cap max_aps) tsc (booted lids hw bl) s ->
  (forall i l, locals s !! i = Some l ->
    match pc l with
    | Panicked _ => False
    | Running init | Ready init => exists p lid, lids !! i = Some lid /\ 1 <= p <= 7 /\
        init = {| ap_cpu_id := Ap p; ap_apic_id := as_u8 lid; ap_tsc_per_us := tsc |} /\
        current {| CPU_LOCALS := slots s; gs_base := ap_gs l |} =
          Ret {| cpu_id := Ap p; apic_id := as_u8 lid |}
    | Entered _ | Spin => True
    end) /\
  (forall i cpu l, mp s !! i = Some cpu -> goto_address cpu = true -> locals s !! i = Some l ->
    is_running (pc l) = true \/ exists s', ap_step va tsc i s = Some s') /\
  (forall i j l l', locals s !! i = Some l -> locals s !! j = Some l' ->
    is_set_up (pc l) = true -> is_set_up (pc l') = true -> ap_gs l = ap_gs l' -> i = j) /\
  (forall idx n, bsp s = BspDone idx n ->
    n = (bring_up_aps b max_aps (mp (booted lids hw bl))).1 /\ n = Z.min (ap_cap max_aps) (others b lids)).
Proof.
  intros Hva Ht0 Ht Hmax Hr.
  assert (Hcap : 0 <= ap_cap max_aps <= 7) by (unfold ap_cap, MAX_CPUS; lia).
  assert (Hi : inv b (ap_cap max_aps) tsc lids s) by (eapply inv_reachable; [done..|by apply inv_booted|done]).
  pose proof (inv_ap _ _ _ _ s Hi) as Hap. split_and!.
  - intros i l Hl. specialize (Hap i l Hl). unfold ap_ok in Hap.
    destruct (pc l) as [|?|init|init|]; [done..| | |done];
      destruct Hap as (He & Hgs & Hs); eapply set_up_current; eauto.
  - intros i cpu l Hc Hg Hl. unfold ap_step. rewrite Hc, Hl. specialize (Hap i l Hl). unfold ap_ok in Hap.
    destruct (pc l); [right; rewrite Hg; eauto|right..|by left|done].
    + destruct (ap_setup _ _ _) as [[? []]|]; eauto.
    + destruct (init_executor _ _); eauto.
  - intros i j l l' Hl Hl' Hu Hu' Hgs.
    pose proof (ap_ok_gs _ _ _ s i l (Hap i l Hl) Hu) as (init & He & E).
    pose proof (ap_ok_gs _ _ _ s j l' (Hap j l' Hl') Hu') as (init' & He' & E').
    eapply entered_inj; [done..|lia].
  - intros idx n Hb. pose proof (inv_bsp _ _ _ _ s Hi) as Hbsp. unfold bsp_ok in Hbsp. rewrite Hb in Hbsp.
    destruct Hbsp as (Hn & Hle & Hidx & Hend). unfold bring_up_aps.
    rewrite bring_up_loop_count by lia. cbn [booted mp]. rewrite <- list_fmap_compose, list_fmap_id.
    assert (n = Z.min (ap_cap max_aps) (others b lids)); [|lia].
    pose proof (before_mono b lids idx (length lids) Hidx) as Hm. rewrite firstn_all in Hm.
    destruct Hend as [-> | ->]; [rewrite firstn_all in *|]; lia.
Qed.

(** ** Witness *)

(** A run of the processors in a given order: [None] is the boot processor. *)
Fixpoint run {HW} `{Mmio HW} va b cap tsc (sched : list (option nat)) (s : @sys HW) : option (@sys HW) :=
  match sched with
  | [] => Some s
  | who :: rest =>
      match match who with None => bsp_step b cap s | Some i => ap_step va tsc i s end with
      | Some s' => run va b cap tsc rest s'
      | None => None
      end
  end.

Lemma run_reachable {HW} `{Mmio HW} va b cap tsc sched (s s' : @sys HW) :
  run va b cap tsc sched s = Some s' -> reachable va b cap tsc s s'.
Proof.
  revert s. induction sched as [|who rest IH]; intros s Hr; [injection Hr as <-; apply rtc_refl|].
  cbn [run] in Hr. destruct who as [i|].
  - destruct (ap_step va tsc i s) as [s1|] eqn:E; [|done]. eapply rtc_l; [by eapply step_ap|by apply IH].
  - destruct (bsp_step b cap s) as [s1|] eqn:E; [|done]. eapply rtc_l; [by eapply step_bsp|by apply IH].
Qed.

#[local] Instance quiet : Mmio unit := {| mmio_read32 _ s := (0, s); mmio_write32 _ _ s := s |}.

(** Three processors, of which the second sets itself up while the boot
    processor still releases the third. *)
Definition demo_schedule : list (option nat) :=
  [None; None; None; Some 1; None; Some 1; None; Some 2; Some 1; Some 2; Some 2; None]%nat.

Lemma aps_start_safely_witness :
  let b := {| cpu_id := Bsp; apic_id := 0 |} in
  exists s, run 0x1000 0 7 2400 demo_schedule (booted [0; 2; 4] [(∅, tt); (∅, tt); (∅, tt)] b) = Some s /\
    bsp s = BspDone 3 2 /\ 2 = Z.min 7 (others 0 [0; 2; 4]) /\
    forall l, locals s !! 2%nat = Some l -> is_running (pc l) = true /\
      current {| CPU_LOCALS := slots s; gs_base := ap_gs l |} = Ret {| cpu_id := Ap 2; apic_id := 4 |}.
Proof.
  intros b. eexists. split; [vm_compute; reflexivity|]. match goal with |- bsp ?s = _ /\ _ => set (fin := s) end.
  destruct (aps_start_safely 0x1000 0 7 2400 [0; 2; 4] [(∅, tt); (∅, tt); (∅, tt)] b fin)
    as (Hap & _ & _ & Hb); [done..| |].
  - apply (run_reachable _ _ _ _ demo_schedule). vm_compute. reflexivity.
  - split; [reflexivity|]. split; [exact (proj2 (Hb _ _ eq_refl))|].
    intros l Hl. specialize (Hap 2%nat l Hl). vm_compute in Hl. injection Hl as <-.
    split; [reflexivity|]. cbn [pc] in Hap. destruct Hap as (p & lid & Hlid & _ & Hinit & Hc).
    injection Hinit as <- _. simpl in Hlid. injection Hlid as <-. exact Hc.
Defined.
