(* ===== verification/SmpLive.v ===== *)
(** Start-up of the application processors comes to an end: progress of the
    processors of [Smp], whatever the order in which they run. *)

From S2P Require Import Prelude Mem Nic CpuLocal Idt Apic Smp.

Section live.
Context {HW : Type} `{Mmio HW} (va b cap tsc : Z) (lids : list Z).
Hypothesis va_ok : 0 <= va < U64 - 0x1000.
Hypothesis tsc_ok : 0 <= tsc /\ tsc * 1000 < U64.
Hypothesis cap_ok : 0 <= cap <= 7.
Abbreviation sys := (@sys HW).
Abbreviation step := (step va b cap tsc).

(** ** What remains to be done *)

Definition ap_left (l : @ap_local HW) : nat :=
  match pc l with Spin => 3 | Entered _ => 2 | Ready _ => 1 | Running _ | Panicked _ => 0 end.

Definition bsp_left (n : nat) (p : bsp_pc) : nat :=
  match p with BspAt i _ => 2 * (n - i) + 1 | BspStored i _ => 2 * (n - i) | BspDone _ _ => 0 end.

Definition steps_left (s : sys) : nat :=
  bsp_left (length (mp s)) (bsp s) + sum_list_with ap_left (locals s).

Lemma bsp_step_left s s' :
  inv b cap tsc lids s -> bsp_step b cap s = Some s' -> (steps_left s' < steps_left s)%nat.
Proof.
  intros Hi. pose proof (inv_bsp _ _ _ _ s Hi) as Hb. unfold bsp_step, bsp_ok, steps_left in *.
  destruct (bsp s) as [idx n|idx n|idx n] eqn:Hpc; [| |done].
  - destruct (mp s !! idx) as [cpu|] eqn:Hc.
    + pose proof (lookup_lt_Some _ _ _ Hc). destruct (cap <=? n); [|destruct (_ =? b)];
        intros [= <-]; cbn [bsp mp locals bsp_left]; rewrite ?length_alter; lia.
    + intros [= <-]. cbn [bsp mp locals bsp_left]. lia.
  - destruct Hb as (_ & _ & cpu & Hc & _). pose proof (lookup_lt_Some _ _ _ Hc).
    intros [= <-]. cbn [bsp mp locals bsp_left]. rewrite length_alter. lia.
Qed.

Lemma ap_step_left s s' i : ap_step va tsc i s = Some s' -> (steps_left s' < steps_left s)%nat.
Proof.
  unfold ap_step, steps_left. destruct (mp s !! i); [|done]. destruct (locals s !! i) as [l|] eqn:Hl; [|done].
  assert (Hgo : forall l', (ap_left l' < ap_left l)%nat ->
    (sum_list_with ap_left (<[i := l']> (locals s)) < sum_list_with ap_left (locals s))%nat).
  { intros l' Hlt. pose proof (sum_list_with_insert ap_left _ _ _ l' Hl). lia. }
  unfold ap_left in Hgo at 1 2.
  destruct (pc l) as [|init|init| |] eqn:Hpc; try done.
  - destruct (goto_address _); [|done]. intros [= <-]. apply Nat.add_lt_mono_l, Hgo. cbn. lia.
  - destruct (ap_setup _ _ _) as [[? []]|]; intros [= <-]; apply Nat.add_lt_mono_l, Hgo; cbn; lia.
  - destruct (init_executor _ _); intros [= <-]; apply Nat.add_lt_mono_l, Hgo; cbn; lia.
Qed.

Lemma inv_step s s' : inv b cap tsc lids s -> step s s' -> inv b cap tsc lids s'.
Proof. intros Hi Hs. eapply inv_reachable; [done..|by apply rtc_once]. Qed.

Lemma step_left s s' : inv b cap tsc lids s -> step s s' -> (steps_left s' < steps_left s)%nat.
Proof. intros Hi [s1 E|i s1 E]; [by eapply bsp_step_left|by eapply ap_step_left]. Qed.

Lemma nsteps_left n s s' : inv b cap tsc lids s -> nsteps step n s s' -> (n <= steps_left s)%nat.
Proof.
  intros Hi Hn. induction Hn as [|n s s1 s2 Hs _ IH]; [lia|].
  pose proof (step_left s s1 Hi Hs). specialize (IH (inv_step s s1 Hi Hs)). lia.
Qed.

Lemma inv_sn s : inv b cap tsc lids s -> sn step s.
Proof.
  induction s as [s IH] using (induction_ltof1 _ steps_left). intros Hi. constructor. intros s' Hs.
  apply IH; [by apply step_left|by eapply inv_step].
Qed.

(** ** Every processor the loop has passed is released *)

Definition released (s : sys) : Prop :=
  forall i cpu, mp s !! i = Some cpu -> (i < pos (bsp s))%nat -> lapic_id cpu <> b -> goto_address cpu = true.

Lemma released_bsp_step s s' : released s -> bsp_step b cap s = Some s' -> released s'.
Proof.
  unfold bsp_step, released. intros Hr. destruct (bsp s) as [idx n|idx n|idx n] eqn:Hpc; [| |done];
    cbn [pos] in Hr.
  - destruct (mp s !! idx) as [cpu|] eqn:Hc; [|by intros [= <-]].
    destruct (cap <=? n); [by intros [= <-]|]. destruct (Z.eqb_spec (lapic_id cpu) b) as [Hl|Hl];
      intros [= <-]; cbn [mp bsp pos]; intros j c Hj Hlt Hne.
    + destruct (decide (j = idx)) as [->|]; [congruence|]. apply (Hr j c Hj); [lia|done].
    + rewrite list_lookup_alter_ne in Hj by lia. by apply (Hr j c Hj).
  - intros [= <-]. cbn [mp bsp pos]. intros j c Hj Hlt Hne. destruct (decide (idx = j)) as [->|].
    + rewrite list_lookup_alter_eq in Hj. destruct (mp s !! j); by simplify_eq/=.
    + rewrite list_lookup_alter_ne in Hj by done. apply (Hr j c Hj); [lia|done].
Qed.

Lemma ap_step_frame s s' i :
  ap_step va tsc i s = Some s' ->
  mp s' = mp s /\ bsp s' = bsp s /\ length (locals s') = length (locals s).
Proof.
  unfold ap_step. intros E. repeat case_match; simplify_eq/=; split_and!; (done || by rewrite length_insert).
Qed.

Lemma released_reachable s0 s :
  reachable va b cap tsc s0 s -> released s0 ->
  released s /\ length (locals s) = length (locals s0).
Proof.
  intros Hr. induction Hr as [|s0 s1 s2 Hs _ IH]; intros H0; [done|].
  assert (Hs1 : released s1 /\ length (locals s1) = length (locals s0)).
  { destruct Hs as [s1 E|i s1 E].
    - split; [by eapply released_bsp_step|]. unfold bsp_step in E. by repeat case_match; simplify_eq/=.
    - destruct (ap_step_frame s0 s1 i E) as (Hm & Hb & Hl). unfold released. by rewrite Hm, Hb, Hl. }
  destruct Hs1 as [Hr1 Hl1]. destruct (IH Hr1) as [? ->]. done.
Qed.

(** ** Where nothing moves any more *)

Lemma stuck_bsp s : nf step s -> exists idx n, bsp s = BspDone idx n.
Proof.
  intros Hn. destruct (bsp s) as [idx n|idx n|idx n] eqn:E; [exfalso..|eauto];
    apply Hn; destruct (bsp_step b cap s) as [s'|] eqn:Es;
    [by exists s'; apply step_bsp| |by exists s'; apply step_bsp|];
    unfold bsp_step in Es; rewrite E in Es; by repeat case_match.
Qed.

Lemma stuck_ap s i cpu l :
  inv b cap tsc lids s -> nf step s -> mp s !! i = Some cpu -> goto_address cpu = true ->
  locals s !! i = Some l -> is_running (pc l) = true.
Proof.
  intros Hi Hn Hc Hg Hl. pose proof (inv_ap _ _ _ _ s Hi i l Hl) as Hok. unfold ap_ok in Hok.
  assert (Hs : ap_step va tsc i s = None).
  { destruct (ap_step va tsc i s) as [s'|] eqn:E; [|done]. destruct Hn. exists s'. by eapply step_ap. }
  unfold ap_step in Hs. rewrite Hc, Hl in Hs. destruct (pc l); [by rewrite Hg in Hs|..]; [| |done|done];
    by repeat case_match.
Qed.

(** The processors the cap allows are those before the position of the boot
    processor. *)
Lemma done_passed (s : sys) i lid idx n :
  inv b cap tsc lids s -> bsp s = BspDone idx n -> lids !! i = Some lid -> lid <> b ->
  others b (take i lids) < cap -> (i < idx)%nat.
Proof.
  intros Hi Hd Hl Hne Hlt. pose proof (inv_bsp _ _ _ _ s Hi) as Hb. unfold bsp_ok in Hb. rewrite Hd in Hb.
  pose proof (lookup_lt_Some _ _ _ Hl). destruct Hb as (Hn & _ & _ & [->| ->]); [done|].
  destruct (decide (i < idx)%nat) as [|Hge]; [done|].
  pose proof (before_mono b lids idx i ltac:(lia)). lia.
Qed.

End live.

(** C35: start-up of the processors ends, and it ends with all of them
    running.  However the processors interleave, no run has more than five
    steps per processor and one more, so that none goes on for ever; and
    where no processor can move any more, the boot processor has left the
    loop, having counted the processors it released, and every processor
    that is not the boot processor and that the cap allows is running its
    executor. *)
Theorem aps_all_run {HW} `{Mmio HW} va b max_aps tsc lids (hw : list (mem * HW)) bl :
  0 <= va < U64 - 0x1000 -> 0 <= tsc -> tsc * 1000 < U64 -> 0 <= max_aps -> length hw = length lids ->
  let run := step va b (ap_cap max_aps) tsc in
  sn run (booted lids hw bl) /\
  (forall n s, nsteps run n (booted lids hw bl) s -> (n <= 5 * length lids + 1)%nat) /\
  (forall s, rtc run (booted lids hw bl) s -> nf run s ->
    (exists idx, bsp s = BspDone idx (Z.min (ap_cap max_aps) (others b lids))) /\
    forall i lid, lids !! i = Some lid -> lid <> b -> others b (take i lids) < ap_cap max_aps ->
      exists l, locals s !! i = Some l /\ is_running (pc l) = true).
Proof.
  intros Hva Ht0 Ht Hmax Hlen run.
  assert (Hcap : 0 <= ap_cap max_aps <= 7) by (unfold ap_cap, MAX_CPUS; lia).
  pose proof (inv_booted b (ap_cap max_aps) tsc lids Hcap hw bl) as Hi0. split_and!.
  - by eapply inv_sn.
  - intros n s Hn. apply nsteps_left with (lids := lids) in Hn; [|done..]. revert Hn. unfold steps_left.
    cbn [booted bsp bsp_left mp locals]. rewrite length_fmap, Nat.sub_0_r.
    assert (E : sum_list_with ap_left ((fun h => {| pc := Spin; ap_gs := 0; ap_hw := h |}) <$> hw) =
      (3 * length hw)%nat) by (clear; induction hw; [done|]; cbn in *; lia).
    rewrite E. lia.
  - intros s Hr Hnf.
    assert (Hi : inv b (ap_cap max_aps) tsc lids s) by (by eapply inv_reachable).
    destruct (released_reachable va b _ tsc _ s Hr) as [Hrel Hll].
    { intros i cpu _ Hlt. cbn in Hlt. lia. }
    destruct (stuck_bsp va b _ tsc s Hnf) as (idx & n & Hd). pose proof (inv_bsp _ _ _ _ s Hi) as Hb.
    unfold bsp_ok in Hb. rewrite Hd in Hb. split.
    + exists idx. rewrite Hd. f_equal. destruct Hb as (Hn & Hc & Hidx & [->|Hncap]).
      * rewrite firstn_all in Hn. lia.
      * pose proof (before_mono b lids idx (length lids) Hidx) as Hm. rewrite firstn_all in Hm. lia.
    + intros i lid Hl Hne Hlt. pose proof (done_passed b _ tsc lids s i lid idx n Hi Hd Hl Hne Hlt) as Hlti.
      pose proof (lookup_lt_Some _ _ _ Hl) as Hil.
      destruct (lookup_lt_is_Some_2 (locals s) i) as [l Hloc].
      { rewrite Hll. cbn [booted locals]. rewrite length_fmap. lia. }
      exists l. split; [done|]. pose proof (inv_lids _ _ _ _ s Hi) as Hids.
      rewrite <- Hids, list_lookup_fmap in Hl. destruct (mp s !! i) as [cpu|] eqn:Hcpu; [|done].
      injection Hl as Hl. eapply stuck_ap; [done..| |done]. apply (Hrel i cpu Hcpu); [by rewrite Hd|congruence].
Qed.

#[local] Instance silent : Mmio unit := {| mmio_read32 _ s := (0, s); mmio_write32 _ _ s := s |}.

(** Three processors, of which the first is the boot processor: at most
    sixteen steps. *)
Lemma aps_all_run_witness :
  let start := booted [0; 2; 4] [(∅, tt); (∅, tt); (∅, tt)] {| cpu_id := Bsp; apic_id := 0 |} in
  sn (step 0x1000 0 (ap_cap 7) 2400) start /\
  forall n s, nsteps (step 0x1000 0 (ap_cap 7) 2400) n start s -> (n <= 16)%nat.
Proof.
  intros start.
  destruct (aps_all_run 0x1000 0 7 2400 [0; 2; 4] [(∅, tt); (∅, tt); (∅, tt)]
    {| cpu_id := Bsp; apic_id := 0 |}) as (Hsn & Hn & _); [unfold U64; lia..|reflexivity|].
  split; [exact Hsn|exact Hn].
Defined.
