(* ===== verification/Runtime.v ===== *)
(** The executor loop of a processor ([run_executor], [apic_timer_isr] of
    [crates/embclox-hal-x86/src/runtime.rs]) and the critical sections
    ([critical_section_impl.rs]).  Interrupts arrive between any two steps of
    the loop; the tasks and the handlers of devices are parameters. *)

From S2P Require Import Prelude Mem Nic CpuLocal TimeDriver Apic.

(** ** Critical sections *)

Section critical.
Context {St : Type}.

(** The first component of the state is the interrupt flag. *)
Definition acquire : M (bool * St) bool := fun s => Ret (s.1, (false, s.2)).
Definition release (was_enabled : bool) : M (bool * St) unit :=
  modify (fun s => (if was_enabled then true else s.1, s.2)).

(** [critical_section::with]. *)
Definition with_cs {A} (c : M (bool * St) A) : M (bool * St) A :=
  restore_state ← acquire;
  r ← c;
  _ ← release restore_state;
  mret r.

(** What runs in a critical section runs with interrupts off, and if it
    leaves them so, as the release of an inner section does, the flag is
    afterwards what it was before. *)
Lemma with_cs_restores {A} (c : M (bool * St) A) f s a s' :
  c (false, s) = Ret (a, (false, s')) -> with_cs c (f, s) = Ret (a, (f, s')).
Proof.
  intros E. unfold with_cs. rewrite (bind_Ret _ _ _ f (false, s)) by done. cbv beta.
  erewrite bind_Ret by exact E. by destruct f.
Qed.

Lemma with_cs_nested {A} (c : M (bool * St) A) f s a s' :
  c (false, s) = Ret (a, (false, s')) -> with_cs (with_cs c) (f, s) = Ret (a, (f, s')).
Proof. intros E. by apply with_cs_restores, with_cs_restores. Qed.

End critical.

(** ** The timer interrupt *)

Section timer.
Context {HW : Type} `{Mmio HW} `{BytePorts (mem * HW)} (LAPIC_VADDR : Z) (cpu : CpuId).

(** What the tasks and the handlers of one processor share. *)
Record shared := {
  driver : ApicTimeDriver;
  lapic : mem * HW;
}.

Definition on_driver {A} : M ApicTimeDriver A -> M (bool * shared) A :=
  zoom (fun s => driver s.2) (fun t s => (s.1, {| driver := t; lapic := lapic s.2 |})).
Definition on_lapic {A} : M (mem * HW) A -> M (bool * shared) A :=
  zoom (fun s => lapic s.2) (fun t s => (s.1, {| driver := driver s.2; lapic := t |})).

Definition lapic_eoi : M (bool * shared) unit := on_lapic (eoi LAPIC_VADDR).

(** The handler; its result is the tasks it wakes. *)
Definition apic_timer_isr : M (bool * shared) (list Z) :=
  tsc ← on_lapic read_tsc;
  woken ← with_cs (on_driver (on_timer_tick cpu tsc));
  _ ← lapic_eoi;
  mret woken.

(** The handler runs with interrupts off throughout, wakes the tasks whose
    time has come and acknowledges the interrupt. *)
Lemma apic_timer_isr_wakes d h s :
  let tsc := (rdtsc h).1 in
  0 <= LAPIC_VADDR < U64 - 0x1000 -> 0 < tsc_per_us d ->
  alarms d !! Z.to_nat (slot_of cpu) = Some s -> slots_wf s ->
  exists ws s', apic_timer_isr (false, {| driver := d; lapic := h |}) =
      Ret (ws, (false, {| driver := set_alarms (Z.to_nat (slot_of cpu)) s' d;
                          lapic := mmio_write32 (LAPIC_VADDR + APIC_EOI) 0 (rdtsc h).2 |})) /\
    slots_wf s' /\
    (forall w, w ∈ ws <-> exists at_, alarm_map s !! w = Some at_ /\ at_ <= tsc / tsc_per_us d) /\
    alarm_map s' = filter (fun '(_, at_) => tsc / tsc_per_us d < at_) (alarm_map s).
Proof.
  intros tsc Hva Htsc Hs Hwf.
  destruct (on_timer_tick_map d cpu tsc s Hs Hwf Htsc) as (ws & s' & E & Hwf' & _ & Hw & Hm).
  exists ws, s'. split_and!; [|done..]. unfold apic_timer_isr.
  rewrite (bind_Ret _ _ _ tsc (false, {| driver := d; lapic := (rdtsc h).2 |}))
    by (unfold on_lapic, read_tsc, zoom, tsc; cbn [lapic snd fst]; by destruct (rdtsc h)).
  cbv beta. erewrite bind_Ret.
  2: { apply with_cs_restores. unfold on_driver, zoom. cbn [driver snd fst]. by rewrite E. }
  cbv beta. unfold lapic_eoi, on_lapic. erewrite bind_Ret; [reflexivity|].
  erewrite zoom_Ret; [reflexivity|]. unfold eoi. by apply apic_write_ok.
Qed.

End timer.
Arguments shared HW : clear implicits.

(** ** The executor loop *)

Section executor.
Context {D : Type}.
(** The handler of a vector, with the tasks it wakes, and the work of a batch
    of tasks, with the tasks that they wake.  The executor is that of the
    library: polling it takes the tasks woken so far and runs them. *)
Context (isr : Z -> M (bool * D) (list Z)) (run_tasks : gset Z -> D -> outcome (gset Z * D)).

(** Where the processor is in [run_executor]. *)
Inductive exec_pc :=
| AtEnable                    (** before the loop *)
| AtPoll                      (** at [executor.poll()] *)
| InPoll (batch : gset Z)     (** in it, with the tasks it took *)
| AtDisable                   (** at [disable] *)
| AtHlt                       (** at [enable_and_hlt] *)
| Halted                      (** asleep *)
| Crashed.

Record exec := {
  epc : exec_pc;
  iflag : bool;               (** the interrupt flag *)
  irqs : gset Z;              (** vectors raised and not yet delivered *)
  queue : gset Z;             (** tasks woken and not yet taken *)
  dev : D;
}.

Definition cpu_step (s : exec) : option exec :=
  let go p f := Some {| epc := p; iflag := f; irqs := irqs s; queue := queue s; dev := dev s |} in
  match epc s with
  | AtEnable => go AtPoll true
  | AtPoll => Some {| epc := InPoll (queue s); iflag := iflag s; irqs := irqs s; queue := ∅; dev := dev s |}
  | InPoll batch =>
      match run_tasks batch (dev s) with
      | Ret (woken, d) =>
          Some {| epc := AtDisable; iflag := iflag s; irqs := irqs s; queue := queue s ∪ woken; dev := d |}
      | Panic _ => go Crashed false
      end
  | AtDisable => go AtHlt false
  | AtHlt => go Halted true
  | Halted | Crashed => None
  end.

(** An interrupt: the handler runs with interrupts off, and its return
    restores the flag; a processor that slept goes on with the loop. *)
Definition deliver (v : Z) (s : exec) : option exec :=
  if negb (iflag s && bool_decide (v ∈ irqs s)) then None else
  match isr v (false, dev s) with
  | Ret (woken, (_, d)) =>
      Some {| epc := match epc s with Halted => AtPoll | p => p end; iflag := true;
              irqs := irqs s ∖ {[v]}; queue := queue s ∪ list_to_set woken; dev := d |}
  | Panic _ => Some {| epc := Crashed; iflag := false; irqs := irqs s; queue := queue s; dev := dev s |}
  end.

Inductive event := Raise (v : Z) | Deliver (v : Z) | Cpu.

Definition estep (e : event) (s : exec) : option exec :=
  match e with
  | Raise v => Some {| epc := epc s; iflag := iflag s; irqs := irqs s ∪ {[v]}; queue := queue s; dev := dev s |}
  | Deliver v => deliver v s
  | Cpu => cpu_step s
  end.

Fixpoint erun (tr : list event) (s : exec) : option exec :=
  match tr with
  | [] => Some s
  | e :: rest => match estep e s with Some s' => erun rest s' | None => None end
  end.

(** The tasks that ran along a run. *)
Fixpoint polled (tr : list event) (s : exec) : gset Z :=
  match tr with
  | [] => ∅
  | e :: rest =>
      match estep e s with
      | Some s' =>
          match e, epc s with Cpu, InPoll batch => batch | _, _ => ∅ end ∪ polled rest s'
      | None => ∅
      end
  end.

Definition is_cpu (e : event) : bool := match e with Cpu => true | _ => false end.
Definition cpu_steps (tr : list event) : nat := length (List.filter is_cpu tr).

(** ** Interrupts are off at one point of the loop only *)

Definition flag_ok (s : exec) : Prop :=
  match epc s with AtEnable | Crashed => True | AtHlt => iflag s = false | _ => iflag s = true end.

Lemma flag_ok_step e s s' : estep e s = Some s' -> flag_ok s -> flag_ok s'.
Proof.
  unfold flag_ok. destruct e as [v|v|]; simpl.
  - by intros [= <-].
  - unfold deliver. destruct (negb _) eqn:E; [done|]. apply negb_false_iff, andb_true_iff in E as [Hf _].
    destruct (isr v _) as [[ws [f d]]|]; intros [= <-]; cbn [epc iflag]; [|done].
    rewrite Hf. by destruct (epc s).
  - unfold cpu_step. destruct (epc s); try done; try (intros [= <-]; done).
    destruct (run_tasks _ _) as [[? ?]|]; by intros [= <-].
Qed.

Lemma flag_ok_run tr s s' : erun tr s = Some s' -> flag_ok s -> flag_ok s'.
Proof.
  revert s. induction tr as [|e tr IH]; intros s; simpl; [by intros [= ->]|].
  destruct (estep e s) as [s1|] eqn:E; [|done]. intros Hr Hf. by eapply IH, flag_ok_step.
Qed.

(** A processor that is asleep wakes up for every interrupt. *)
Lemma halted_wakes s v :
  flag_ok s -> epc s = Halted -> v ∈ irqs s ->
  exists s', deliver v s = Some s' /\ (epc s' = AtPoll \/ epc s' = Crashed).
Proof.
  unfold flag_ok, deliver. intros Hf Hp Hv. rewrite Hp in *. rewrite Hf, bool_decide_true by done.
  cbn [andb negb]. destruct (isr v _) as [[ws [f d]]|]; eauto.
Qed.

(** ** A woken task runs *)

(** Steps of the loop until a task that is in the queue has run. *)
Definition distance (p : exec_pc) : nat :=
  match p with
  | AtEnable => 3 | AtPoll => 2 | InPoll _ => 5 | AtDisable => 4 | AtHlt => 3 | Halted => 2 | Crashed => 0
  end.

Definition waits (t : Z) (k : nat) (s : exec) : Prop :=
  match epc s with
  | Crashed => (1 <= k)%nat
  | InPoll batch => t ∈ batch /\ (1 <= k)%nat \/ t ∈ queue s /\ (5 <= k)%nat
  | p => t ∈ queue s /\ (distance p <= k)%nat
  end.

Lemma waits_pos t k s : waits t k s -> (1 <= k)%nat.
Proof. unfold waits. destruct (epc s); cbn [distance]; intros; lia. Qed.

Lemma waits_deliver t k v s s' : deliver v s = Some s' -> waits t k s -> waits t k s'.
Proof.
  intros E Hw. pose proof (waits_pos t k s Hw) as Hk. revert E Hw. unfold deliver, waits.
  destruct (negb _); [done|]. destruct (isr v _) as [[ws [f d]]|]; intros [= <-]; cbn [epc queue]; [|done].
  destruct (epc s); try done; cbn [distance]; rewrite elem_of_union; tauto.
Qed.

Lemma waits_cpu t k s s' :
  cpu_step s = Some s' -> waits t k s ->
  (exists batch, epc s = InPoll batch /\ t ∈ batch) \/ waits t (k - 1) s'.
Proof.
  unfold cpu_step, waits. destruct (epc s) as [| |batch| | | |] eqn:Hp; try done; cbn [distance].
  - intros [= <-] [? ?]. right. cbn [epc queue distance]. split; [done|lia].
  - intros [= <-] [? ?]. right. cbn [epc]. left. split; [done|lia].
  - intros E [[Hb _]|[Hq Hk]]; [by left; exists batch|right].
    destruct (run_tasks _ _) as [[? ?]|]; injection E as <-; cbn [epc queue distance]; [|lia].
    split; [by apply elem_of_union_l|lia].
  - intros [= <-] [? ?]. right. cbn [epc queue distance]. split; [done|lia].
  - intros [= <-] [? ?]. right. cbn [epc queue distance]. split; [done|lia].
Qed.

Lemma waits_run t k tr s s' :
  erun tr s = Some s' -> waits t k s -> (k <= cpu_steps tr)%nat -> t ∈ polled tr s.
Proof.
  revert k s. induction tr as [|e tr IH]; intros k s Hr Hw Hk;
    pose proof (waits_pos t k s Hw); [unfold cpu_steps in Hk; simpl in Hk; lia|].
  cbn [erun polled] in *. destruct (estep e s) as [s1|] eqn:E; [|done]. apply elem_of_union.
  destruct e as [v|v|].
  - right. injection E as <-. by apply (IH k).
  - right. apply (IH k); [done|by eapply waits_deliver|done].
  - change (cpu_steps (Cpu :: tr)) with (S (cpu_steps tr)) in *.
    destruct (waits_cpu t k s s1 E Hw) as [(batch & -> & Hb)|Hw1]; [by left|right].
    apply (IH (k - 1)%nat); [done..|lia].
Qed.

Lemma queued_waits t s : t ∈ queue s -> waits t 5 s.
Proof. intros Hq. unfold waits. destruct (epc s); cbn [distance]; (lia || (right + idtac; split; [done|lia])). Qed.

(** A handler that wakes a task whenever it returns makes it run. *)
Lemma delivered_polls t v tr s s' :
  (forall ws f d, isr v (false, dev s) = Ret (ws, (f, d)) -> t ∈ ws) ->
  erun (Deliver v :: tr) s = Some s' -> (5 <= cpu_steps tr)%nat -> t ∈ polled (Deliver v :: tr) s.
Proof.
  intros Hw Hr Hk. cbn [erun polled estep] in *. destruct (deliver v s) as [s1|] eqn:E; [|done].
  apply elem_of_union_r. eapply waits_run; [exact Hr| |exact Hk]. revert E. unfold deliver.
  destruct (negb _); [done|]. destruct (isr v (false, dev s)) as [[ws [f d]]|] eqn:Ei; intros [= <-].
  - apply queued_waits. cbn [queue]. by eapply elem_of_union_r, elem_of_list_to_set, Hw.
  - unfold waits. cbn [epc]. lia.
Qed.

(** What the handlers and the tasks leave alone, the loop does. *)
Lemma erun_keeps (I : D -> Prop) tr s s' :
  (forall v, keeps (fun st => I st.2) (isr v)) ->
  (forall batch d woken d', run_tasks batch d = Ret (woken, d') -> I d -> I d') ->
  erun tr s = Some s' -> I (dev s) -> I (dev s').
Proof.
  intros Hisr Htasks. revert s. induction tr as [|e tr IH]; intros s; cbn [erun]; [by intros [= ->]|].
  destruct (estep e s) as [s1|] eqn:E; [|done]. intros Hr Hi. apply (IH s1 Hr). clear IH Hr.
  destruct e as [v|v|]; simpl in E; [by injection E as <-| |].
  - unfold deliver in E. destruct (negb _); [done|].
    destruct (isr v (false, dev s)) as [[ws [f d]]|] eqn:Ei; injection E as <-; [|done].
    exact (Hisr v (false, dev s) ws (f, d) Hi Ei).
  - unfold cpu_step in E. destruct (epc s); try (by injection E as <-); try discriminate.
    destruct (run_tasks _ _) as [[woken d]|] eqn:Et; injection E as <-; [|done]. by eapply Htasks.
Qed.

End executor.

(** ** A lost wake-up *)

(** C37: the loop can go to sleep although a task is ready.  Interrupts are
    on between the end of [poll] and [disable], so that an interrupt that
    is delivered there wakes a task, and the two steps that follow halt the
    processor with that task in the queue; so do the two steps after a
    [poll] in which one task wakes another, without any interrupt.  The
    task runs after the next interrupt, not before. *)
Theorem executor_sleeps_on_wakeup {D} (isr : Z -> M (bool * D) (list Z))
    (run_tasks : gset Z -> D -> outcome (gset Z * D)) (s : exec) t :
  (forall v ws f d, epc s = AtDisable -> iflag s = true -> v ∈ irqs s ->
    isr v (false, dev s) = Ret (ws, (f, d)) -> t ∈ ws ->
    exists s', erun isr run_tasks [Deliver v; Cpu; Cpu] s = Some s' /\ epc s' = Halted /\ t ∈ queue s' /\
      irqs s' = irqs s ∖ {[v]} /\ polled isr run_tasks [Deliver v; Cpu; Cpu] s = ∅) /\
  (forall batch woken d, epc s = InPoll batch -> run_tasks batch (dev s) = Ret (woken, d) -> t ∈ woken ->
    exists s', erun isr run_tasks [Cpu; Cpu; Cpu] s = Some s' /\ epc s' = Halted /\ t ∈ queue s' /\
      irqs s' = irqs s /\ polled isr run_tasks [Cpu; Cpu; Cpu] s = batch).
Proof.
  split.
  - intros v ws f d Hp Hf Hv E Ht. cbn [erun polled estep]. unfold deliver.
    rewrite Hf, bool_decide_true, E, Hp by done. cbn [andb negb]. unfold cpu_step. cbn [epc queue irqs].
    eexists. split_and!; [reflexivity|done| |done|by rewrite !(left_id_L ∅ (∪))].
    cbn [queue]. by apply elem_of_union_r, elem_of_list_to_set.
  - intros batch woken d Hp E Ht. cbn [erun polled estep]. unfold cpu_step.
    rewrite Hp, E. cbn [epc queue irqs].
    eexists. split_and!; [reflexivity|done| |done|by rewrite !(right_id_L ∅ (∪))].
    cbn [queue]. by apply elem_of_union_r.
Qed.

(** ** Witness *)

(** Vector 40 wakes task 7; the tasks do nothing. *)
Definition demo_isr (v : Z) : M (bool * unit) (list Z) := mret (if v =? 40 then [7] else []).
Definition idle (batch : gset Z) (d : unit) : outcome (gset Z * unit) := Ret (∅, d).

Definition demo_exec : @exec unit :=
  {| epc := AtDisable; iflag := true; irqs := {[40]}; queue := ∅; dev := tt |}.

Lemma executor_sleeps_on_wakeup_witness :
  exists s, erun demo_isr idle [Deliver 40; Cpu; Cpu] demo_exec = Some s /\
    epc s = Halted /\ 7 ∈ queue s /\ irqs s = ∅.
Proof.
  destruct (proj1 (executor_sleeps_on_wakeup demo_isr idle demo_exec 7) 40 [7] false tt)
    as (s & E & Hp & Hq & Hi & _); [reflexivity..| |reflexivity|apply list_elem_of_singleton; reflexivity|].
  - apply elem_of_singleton. reflexivity.
  - exists s. split_and!; [exact E|exact Hp|exact Hq|]. rewrite Hi. vm_compute. reflexivity.
Defined.
