(* ===== verification/Echo.v ===== *)
(** The tasks of the example kernel ([examples-kernel/src/app.rs]): the
    heartbeat of the application processors and the TCP echo server.  The
    socket is that of the network stack. *)

From Stdlib Require Import String.
From S2P Require Import Prelude CpuLocal Cmdline.

(** ** Heartbeats *)

(** [AP_COUNTERS[processor_id].fetch_add(1)], which wraps around. *)
Definition heartbeat (processor_id : Z) : M (list Z) unit :=
  counters ← gets id;
  n ← lift (index counters processor_id);
  modify (fun c => <[Z.to_nat processor_id := (n + 1) mod U64]> c).

(** The snapshot that is logged: [heapless::Vec::push] into a vector of
    capacity [cap] refuses what does not fit. *)
Fixpoint snapshot_loop (cap : nat) (counts counters : list Z) : list Z :=
  match counters with
  | [] => counts
  | c :: rest => snapshot_loop cap (if (length counts <? cap)%nat then counts ++ [c] else counts) rest
  end.

Definition snapshot (counters : list Z) : list Z := snapshot_loop MAX_CPUS [] counters.

(** ** The echo server *)

(** [embassy_net::tcp::TcpSocket]: [read] into a buffer of the given size
    answers the bytes read, none at the end of the stream. *)
Class TcpSocket (St : Type) := {
  tcp_accept : Z -> St -> result unit unit * St;
  tcp_read : Z -> St -> result (list byte) unit * St;
  tcp_write_all : list byte -> St -> result unit unit * St;
}.

(** The rest of the network stack and of the kernel, as the task sees them:
    the address and the gateway as they are printed, the time that passes
    while the others run, and the counters of the heartbeats. *)
Class Stack (St : Type) := {
  config_v4 : St -> option (str * option str);
  elapse : Z -> St -> St;
  AP_COUNTERS : St -> list Z;
}.

(** What the task logs. *)
Inductive line :=
| Ipv4Configured (address : str)
| GatewayIs (gateway : str)
| EchoReady
| SmpCheck (counts : list Z)
| Connected
| Disconnected.

Section echo.
Context {St : Type} `{TcpSocket St} `{Stack St}.

(** The inner loop, for a connection that was accepted.  The result is
    whether it ended at a [read]. *)
Fixpoint echo_loop (fuel : nat) : M St bool :=
  match fuel with
  | O => panic OutOfFuel
  | S n => fun s =>
      let '(r, s1) := tcp_read 256 s in
      match r with
      | Ok [] | Err _ => Ret (true, s1)
      | Ok data =>
          let '(w, s2) := tcp_write_all data s1 in
          match w with
          | Err _ => Ret (false, s2)
          | Ok _ => echo_loop n s2
          end
      end
  end.

Abbreviation Tx := (M (St * list line)).

Definition info (l : line) : Tx unit := modify (fun s => (s.1, s.2 ++ [l])).
Definition on_stack {A} : M St A -> Tx A := zoom fst (fun t s => (t, s.2)).
Definition after_millis (ms : Z) : Tx unit := on_stack (modify (elapse ms)).

(** The loop that waits for an address. *)
Fixpoint wait_config (fuel : nat) : Tx unit :=
  match fuel with
  | O => panic OutOfFuel
  | S n =>
      cfg ← on_stack (gets config_v4);
      match cfg with
      | Some (address, gateway) =>
          _ ← info (Ipv4Configured address);
          match gateway with Some gw => info (GatewayIs gw) | None => mret tt end
      | None =>
          _ ← after_millis 100;
          wait_config n
      end
  end.

(** One turn of the outer loop; the result is [None] when the socket did not
    accept. *)
Definition serve (fuel : nat) : Tx (option bool) :=
  a ← on_stack (fun s => Ret (tcp_accept 1234 s));
  match a with
  | Err _ => mret None
  | Ok _ =>
      _ ← info Connected;
      ended ← on_stack (echo_loop fuel);
      _ ← info Disconnected;
      mret (Some ended)
  end.

(** [turns] turns of the loop, with the state each of them ended in. *)
Fixpoint serve_loop (turns fuel : nat) : Tx (list (option bool * St)) :=
  match turns with
  | O => mret []
  | S n =>
      o ← serve fuel;
      s ← gets fst;
      outs ← serve_loop n fuel;
      mret ((o, s) :: outs)
  end.

Definition echo_task (wait turns fuel : nat) : Tx (list (option bool * St)) :=
  _ ← wait_config wait;
  _ ← info EchoReady;
  _ ← after_millis 100;
  counters ← on_stack (gets AP_COUNTERS);
  _ ← info (SmpCheck (snapshot counters));
  serve_loop turns fuel.

(** ** What the socket promises *)

(** The bytes of the current connection read and written so far, and the
    number of reads that can still answer data. *)
Class TcpStream := {
  received : St -> list byte;
  sent : St -> list byte;
  reads_left : St -> nat;
  accept_fresh p s s' : tcp_accept p s = (Ok tt, s') -> received s' = [] /\ sent s' = [];
  read_ok n s bs s' : tcp_read n s = (Ok bs, s') -> bs <> [] ->
    received s' = received s ++ bs /\ sent s' = sent s /\ zlen bs <= n /\ (reads_left s' < reads_left s)%nat;
  read_end n s r s' : tcp_read n s = (r, s') -> r = Ok [] \/ (exists e, r = Err e) ->
    received s' = received s /\ sent s' = sent s;
  write_sends bs s r s' : tcp_write_all bs s = (r, s') ->
    received s' = received s /\ (reads_left s' <= reads_left s)%nat /\
    exists k, sent s' = sent s ++ take k bs /\ (r = Ok tt -> take k bs = bs);
}.

Context `{TcpStream}.

Lemma echo_loop_echoes fuel s :
  (reads_left s < fuel)%nat -> sent s = received s ->
  exists ended s', echo_loop fuel s = Ret (ended, s') /\ sent s' `prefix_of` received s' /\
    (ended = true -> sent s' = received s') /\
    exists more, received s' = received s ++ more.
Proof.
  revert s. induction fuel as [|n IH]; intros s Hf Heq; [lia|]. cbn [echo_loop].
  destruct (tcp_read 256 s) as [r s1] eqn:Er.
  assert (Hend : r = Ok [] \/ (exists e, r = Err e) -> exists ended s', Ret (true, s1) = Ret (ended, s') /\
    sent s' `prefix_of` received s' /\ (ended = true -> sent s' = received s') /\
    exists more, received s' = received s ++ more).
  { intros Hr. destruct (read_end _ _ _ _ Er Hr) as [Hr1 Hs1]. exists true, s1. rewrite Hr1, Hs1, Heq.
    split_and!; [done..|exists []; by rewrite app_nil_r]. }
  destruct r as [[|b bs]|e]; [by apply Hend; left| |apply Hend; right; by eexists].
  destruct (read_ok _ _ _ _ Er ltac:(done)) as (Hr1 & Hs1 & _ & Hl1).
  destruct (tcp_write_all (b :: bs) s1) as [w s2] eqn:Ew.
  destruct (write_sends _ _ _ _ Ew) as (Hr2 & Hl2 & k & Hs2 & Hk). destruct w as [[]|e].
  - destruct (IH s2) as (ended & s' & E & Hp & He & more & Hm); [lia| |].
    { by rewrite Hs2, Hk, Hr2, Hr1, Hs1, Heq. }
    exists ended, s'. split_and!; [done..|]. exists ((b :: bs) ++ more). by rewrite Hm, Hr2, Hr1, app_assoc.
  - exists false, s2. rewrite Hs2, Hs1, Hr2, Hr1, Heq. split_and!; [done| |done|by eexists].
    apply prefix_app. exists (drop k (b :: bs)). by rewrite take_drop.
Qed.

End echo.
Arguments TcpStream St {_}.

(** Every counter is in the snapshot, since the vector has room for them. *)
Lemma snapshot_all counters : length counters = MAX_CPUS -> snapshot counters = counters.
Proof.
  intros Hl. unfold snapshot.
  assert (Hgen : forall counts, (length counts + length counters <= MAX_CPUS)%nat ->
    snapshot_loop MAX_CPUS counts counters = counts ++ counters).
  { clear Hl. induction counters as [|c cs IH]; intros counts Hc; cbn [snapshot_loop]; [by rewrite app_nil_r|].
    cbn [length] in Hc. rewrite (proj2 (Nat.ltb_lt _ _)) by lia.
    rewrite IH by (rewrite length_app; simpl; lia). by rewrite <- app_assoc. }
  apply Hgen. simpl. lia.
Qed.

(** What a turn did: what was written back is a prefix of what was received,
    in order and without gaps, and all of it when the connection ended at a
    read. *)
Definition echoed {St} `{TcpStream St} (out : option bool * St) : Prop :=
  match out.1 with
  | Some ended => sent out.2 `prefix_of` received out.2 /\ (ended = true -> sent out.2 = received out.2)
  | None => True
  end.

Section task.
Context {St : Type} `{TcpStream St} `{Stack St}.

Definition turn_lines (out : option bool * St) : list line :=
  match out.1 with Some _ => [Connected; Disconnected] | None => [] end.

(** A turn ends, and echoes; it logs a line when the connection starts and
    one when it ends. *)
Lemma serve_echoes fuel s l :
  (forall s, reads_left s < fuel)%nat ->
  exists o s', serve fuel (s, l) = Ret (o, (s', l ++ turn_lines (o, s'))) /\ echoed (o, s').
Proof.
  intros Hf. unfold serve. destruct (tcp_accept 1234 s) as [[[]|e] s1] eqn:Ea.
  - destruct (accept_fresh _ _ _ Ea) as [Hr Hs].
    destruct (echo_loop_echoes fuel s1 (Hf s1)) as (ended & s' & E & Hp & He & _); [congruence|].
    exists (Some ended), s'. split; [|done]. unfold mbind, M_bind, on_stack, zoom. cbn [fst]. rewrite Ea. cbn.
    rewrite E. cbn. by rewrite <- app_assoc.
  - exists None, s1. split; [|done]. unfold mbind, M_bind, on_stack, zoom. cbn [fst]. rewrite Ea.
    by rewrite app_nil_r.
Qed.

Lemma serve_loop_echoes turns fuel s l :
  (forall s, reads_left s < fuel)%nat ->
  exists outs s', serve_loop turns fuel (s, l) = Ret (outs, (s', l ++ mjoin (turn_lines <$> outs))) /\
    length outs = turns /\ Forall echoed outs.
Proof.
  intros Hf. revert s l. induction turns as [|n IH]; intros s l; cbn [serve_loop].
  - exists [], s. by rewrite app_nil_r.
  - destruct (serve_echoes fuel s l Hf) as (o & s1 & E & Ho). rewrite (bind_Ret _ _ _ _ _ E).
    destruct (IH s1 (l ++ turn_lines (o, s1))) as (outs & s' & E' & Hl & Hall).
    exists ((o, s1) :: outs), s'. split; [|split; [by f_equal/=|by constructor]].
    unfold mbind, M_bind, gets. cbn [fst]. rewrite E'. unfold mret, M_ret. by rewrite <- app_assoc.
Qed.

(** The state after [k] waits. *)
Definition waited (k : nat) (s : St) : St := Nat.iter k (elapse 100) s.

Lemma wait_config_returns k wait s l a g :
  config_v4 (waited k s) = Some (a, g) -> (forall j, (j < k)%nat -> config_v4 (waited j s) = None) ->
  (k < wait)%nat ->
  wait_config wait (s, l) =
    Ret (tt, (waited k s, l ++ Ipv4Configured a :: match g with Some gw => [GatewayIs gw] | None => [] end)).
Proof.
  revert wait s. induction k as [|k IH]; intros wait s Hc Hn Hw; (destruct wait as [|w]; [lia|]); cbn [wait_config].
  - cbn in Hc. rewrite (bind_Ret _ _ _ _ _ (eq_refl : on_stack (gets config_v4) (s, l) = Ret (config_v4 s, (s, l)))).
    rewrite Hc. destruct g; unfold mbind, M_bind, info, modify; cbn [fst snd]; by rewrite <- ?app_assoc.
  - rewrite (bind_Ret _ _ _ _ _ (eq_refl : on_stack (gets config_v4) (s, l) = Ret (config_v4 s, (s, l)))).
    rewrite (Hn 0%nat ltac:(lia) : config_v4 s = None).
    rewrite (bind_Ret _ _ _ _ _ (eq_refl : after_millis 100 (s, l) = Ret (tt, (elapse 100 s, l)))).
    unfold waited in *. rewrite Nat.iter_succ_r in *. apply IH; [done| |lia].
    intros j Hj. rewrite <- Nat.iter_succ_r. apply Hn. lia.
Qed.
End task.


(** ** Witness *)

(** A peer that sends one piece in each connection, and a stack that has an
    address after 200 milliseconds: the time, whether the piece is left to
    read, what was read and what was written. *)
Definition peer : Type := Z * bool * (list byte * list byte).

#[local] Instance peer_socket : TcpSocket peer := {|
  tcp_accept _ s := (Ok tt, (s.1.1, true, ([], [])));
  tcp_read n s :=
    if s.1.2 && (2 <=? n)
    then (Ok [Byte.x68; Byte.x69], (s.1.1, false, (s.2.1 ++ [Byte.x68; Byte.x69], s.2.2)))
    else (Ok [], s);
  tcp_write_all bs s := (Ok tt, (s.1, (s.2.1, s.2.2 ++ bs)));
|}.

#[local] Program Instance peer_stream : TcpStream peer := {|
  received s := s.2.1; sent s := s.2.2; reads_left s := if s.1.2 then 1%nat else 0%nat;
|}.
Next Obligation. by intros p s s' [= <-]. Qed.
Next Obligation.
  intros n [[t [|]] [r w]] bs s' E Hne; cbn in E.
  - destruct (Z.leb_spec 2 n); injection E as <- <-; [|done].
    split_and!; [done..|unfold zlen; cbn; lia|cbn; lia].
  - by injection E as <- <-.
Qed.
Next Obligation.
  intros n [[t [|]] [rc w]] r s' E Hr; cbn in E.
  - destruct (2 <=? n); injection E as <- <-; [|done]. destruct Hr as [Hr|[e He]]; [discriminate Hr|discriminate He].
  - by injection E as <- <-.
Qed.
Next Obligation.
  intros bs s r s' [= <- <-]. simpl. split_and!; [done..|]. exists (length bs). rewrite firstn_all. by split.
Qed.

#[local] Instance peer_stack : Stack peer := {|
  config_v4 s := if 200 <=? s.1.1 then Some (lit "10.0.2.15/24", Some (lit "10.0.2.2")) else None;
  elapse ms s := (s.1.1 + ms, s.1.2, s.2);
  AP_COUNTERS s := [0; s.1.1 / 10; 0; 0; 0; 0; 0; 0];
|}.

