(* ===== verification/World.v ===== *)
(** The machine a Hyper-V guest runs on: shared memory, the clock, the
    static counters of the crate, and the events the hypervisor observes.
    What the hypervisor does is not part of this repository: it is the class
    [Hypervisor], whose operations the components call at the points where
    the hypervisor can act (hypercalls, MSR writes, while the processor
    halts, and between two accesses of the guest). *)

From S2P Require Import Prelude Mem Dma.

(** What the guest did that the hypervisor sees.  A hypercall is recorded
    with the memory it was made in. *)
Inductive event :=
| EvHypercall (code input_gpa output_gpa : Z) (m : mem)
| EvWrmsr (reg value : Z)
| EvSetHandler (vector : Z)
| EvRegister (waker : Z)
| EvWake (waker : Z).

Record world := {
  wmem : mem;
  now : Z;              (** [embassy_time::Instant::now()], microseconds *)
  next_gpadl : Z;       (** [channel.rs]: [NEXT_GPADL] *)
  trace : list event;   (** newest first *)
  hostq : list (list byte);  (** the hypervisor's own state: messages it has
                                 queued for the guest and not yet delivered *)
}.

Definition set_mem (m : mem) (w : world) : world :=
  {| wmem := m; now := now w; next_gpadl := next_gpadl w; trace := trace w;
     hostq := hostq w |}.
Definition set_next_gpadl (n : Z) (w : world) : world :=
  {| wmem := wmem w; now := now w; next_gpadl := n; trace := trace w;
     hostq := hostq w |}.
Definition log_event (e : event) (w : world) : world :=
  {| wmem := wmem w; now := now w; next_gpadl := next_gpadl w; trace := e :: trace w;
     hostq := hostq w |}.

(** Computations of the Hyper-V crates. *)
Abbreviation W := (M world).

(** A computation on memory alone. *)
Definition on_mem {A} (c : M mem A) : W A :=
  fun w => match c (wmem w) with
           | Ret (a, m) => Ret (a, set_mem m w)
           | Panic f => Panic f
           end.

Class Hypervisor := {
  (** A hypercall: RCX, RDX, R8 in, RAX out. *)
  hv_call : Z -> Z -> Z -> world -> Z * world;
  (** An MSR write. *)
  hv_wrmsr : Z -> Z -> world -> world;
  (** What the host does between two accesses of the guest. *)
  hv_async : world -> world;
  (** [sti; hlt]: up to and including the next interrupt. *)
  hv_park : world -> world;
}.

(** Where the host may act: between two accesses and during a hypercall. *)
Definition host_step `{Hypervisor} (w w' : world) : Prop :=
  w' = hv_async w \/ exists code a b, w' = (hv_call code a b w).2.

Definition wrmsr `{Hypervisor} (reg value : Z) : W unit :=
  fun w => Ret (tt, hv_wrmsr reg value (log_event (EvWrmsr reg value) w)).

Definition host_activity `{Hypervisor} : W unit := modify hv_async.

(** ** Errors of the crate ([lib.rs]) *)

Inductive HvError :=
| NotHyperV
| NoSynIC
| NoHypercall
| HypercallFailed (status : Z)
| HypercallRetryExhausted
| VersionRejected
| Timeout.

(** ** Running a future ([crates/embclox-async/src/lib.rs]) *)

Inductive poll (A : Type) :=
| Ready (a : A)
| Pending.
Arguments Ready {A} a.
Arguments Pending {A}.

(** [block_on_with]: poll; return when ready, otherwise park and poll again.
    [F] is the state of the future. *)
Fixpoint block_on_with {F R : Type} (fuel : nat) (poll_fn : F -> W (poll R * F))
    (park : W unit) (fut : F) : W (R * F) :=
  match fuel with
  | O => panic OutOfFuel
  | S n =>
      '(p, fut') ← poll_fn fut;
      match p with
      | Ready r => mret (r, fut')
      | Pending => _ ← park; block_on_with n poll_fn park fut'
      end
  end.

(** [embclox_hal_x86::runtime::block_on_hlt]. *)
Definition block_on_hlt `{Hypervisor} {F R : Type} (fuel : nat)
    (poll_fn : F -> W (poll R * F)) (fut : F) : W (R * F) :=
  block_on_with fuel poll_fn (modify hv_park) fut.

(** ** Lemmas *)

Lemma set_mem_set_mem m m' w : set_mem m (set_mem m' w) = set_mem m w.
Proof. done. Qed.

Lemma on_mem_Ret {A} (c : M mem A) w a m :
  c (wmem w) = Ret (a, m) -> on_mem c w = Ret (a, set_mem m w).
Proof. unfold on_mem. by intros ->. Qed.

(** Enough fuel: when every pending poll leaves a smaller measure after the
    park, and every poll from a good state returns, the runner returns. *)
Lemma block_on_with_returns {F R : Type} (poll_fn : F -> W (poll R * F)) park
    (good : F -> world -> Prop) (measure : world -> nat) :
  (forall f w, good f w -> exists p f' w', poll_fn f w = Ret ((p, f'), w') /\
     (p = Pending -> exists w'', park w' = Ret (tt, w'') /\ good f' w'' /\
                      (measure w'' < measure w)%nat)) ->
  forall fuel f w, good f w -> (measure w < fuel)%nat ->
  exists r f' w', block_on_with fuel poll_fn park f w = Ret ((r, f'), w').
Proof.
  intros Hstep fuel. induction fuel as [|n IH]; intros f w Hgood Hfuel; [lia|].
  destruct (Hstep f w Hgood) as (p & f' & w' & Hp & Hpend). simpl.
  unfold mbind, M_bind. rewrite Hp. destruct p as [r|]; [by repeat eexists|].
  destruct (Hpend eq_refl) as (w'' & Hpark & Hgood' & Hlt). rewrite Hpark.
  apply IH; [done|lia].
Qed.

(** An invariant of the state that every poll and park keeps, and that
    relates every completed poll to its result, holds of the runner's. *)
Lemma block_on_with_inv {F R : Type} (poll_fn : F -> W (poll R * F)) park
    (inv : F -> world -> Prop) (post : R -> F -> world -> Prop) :
  (forall f w p f' w', inv f w -> poll_fn f w = Ret ((p, f'), w') ->
     match p with
     | Ready r => post r f' w'
     | Pending => forall w'', park w' = Ret (tt, w'') -> inv f' w''
     end) ->
  forall fuel f w r f' w', inv f w ->
    block_on_with fuel poll_fn park f w = Ret ((r, f'), w') -> post r f' w'.
Proof.
  intros Hstep fuel. induction fuel as [|n IH]; intros f w r f' w' Hinv Hrun; [done|].
  simpl in Hrun. unfold mbind, M_bind in Hrun.
  destruct (poll_fn f w) as [[[p f1] w1]|] eqn:Hp; [|done].
  specialize (Hstep _ _ _ _ _ Hinv Hp). destruct p as [r'|].
  - unfold mret, M_ret in Hrun. by simplify_eq.
  - destruct (park w1) as [[[] w2]|] eqn:Hpk; [|done]. by eapply IH; [apply Hstep|].
Qed.
