(* ===== verification/Hypercall.v ===== *)
(** The hypercall page ([crates/embclox-hyperv/src/hypercall.rs] and
    [msr.rs]): HvPostMessage with its bounded retry, and HvSignalEvent. *)

From S2P Require Import Prelude Mem Dma World.

(** ** Constants *)

Definition HV_POST_MESSAGE : Z := 0x005C.
Definition HV_SIGNAL_EVENT : Z := 0x005D.
Definition HV_HYPERCALL_FAST : Z := Z.shiftl 1 16.

Definition MSR_GUEST_OS_ID : Z := 0x40000000.
Definition MSR_HYPERCALL : Z := 0x40000001.
Definition MSR_SCONTROL : Z := 0x40000080.
Definition MSR_SIEFP : Z := 0x40000082.
Definition MSR_SIMP : Z := 0x40000083.
Definition MSR_EOM : Z := 0x40000084.
Definition MSR_SINT0 : Z := 0x40000090.
Definition VMBUS_SINT : Z := 2.
Definition VMBUS_VECTOR : Z := 34.

(** ** The page *)

(** The executable mapping of the code page is the hypervisor's; the model
    keeps the physical page and the message buffer. *)
Record HypercallPage := {
  hpage : DmaRegion;
  msg_buffer : DmaRegion;
}.

(** The [HvPostMessageInput] structure at the start of the message buffer. *)
Definition post_message_input (connection_id msg_type : Z) (data : list byte) : list byte :=
  le_split 4 connection_id ++ le_split 4 0 ++ le_split 4 msg_type ++
  le_split 4 (as_u32 (zlen data)) ++ data ++ replicate (240 - length data) Byte.x00.

Section hypercall.
Context `{Hypervisor} `{DmaAllocator world}.

Definition set_guest_os_id : W unit :=
  let guest_id := Z.lor (Z.lor (Z.shiftl 0x8100 48) (Z.shiftl 0x00060500 16)) 0x0001 in
  wrmsr MSR_GUEST_OS_ID guest_id.

Definition HypercallPage_new : W (result HypercallPage HvError) :=
  page ← alloc_coherent 4096 4096;
  _ ← wrmsr MSR_HYPERCALL (Z.lor (paddr page) 1);
  buf ← alloc_coherent 4096 4096;
  mret (Ok {| hpage := page; msg_buffer := buf |}).

Definition raw_call (h : HypercallPage) (code input_gpa output_gpa : Z) : W Z :=
  fun w => Ret (hv_call code input_gpa output_gpa
                  (log_event (EvHypercall code input_gpa output_gpa (wmem w)) w)).

(** The loop of [post_message], [n] attempts left. *)
Fixpoint post_attempts (h : HypercallPage) (n : nat) : W (result unit HvError) :=
  match n with
  | O => mret (Err HypercallRetryExhausted)
  | S n' =>
      status ← raw_call h HV_POST_MESSAGE (paddr (msg_buffer h)) 0;
      if as_u16 status =? 0 then mret (Ok tt) else
      if as_u16 status =? 0x13 then post_attempts h n' else
      mret (Err (HypercallFailed (as_u16 status)))
  end.

Definition post_message (h : HypercallPage) (connection_id msg_type : Z) (data : list byte)
  : W (result unit HvError) :=
  _ ← lift (rassert (zlen data <=? 240));
  let input := vaddr (msg_buffer h) in
  _ ← on_mem (modify (fun m => store_u32 m input connection_id));
  _ ← on_mem (modify (fun m => store_u32 m (input + 4) 0));
  _ ← on_mem (modify (fun m => store_u32 m (input + 8) msg_type));
  _ ← on_mem (modify (fun m => store_u32 m (input + 12) (as_u32 (zlen data))));
  _ ← on_mem (modify (fun m => store_bytes m (input + 16) (replicate 240 Byte.x00)));
  _ ← on_mem (modify (fun m => store_bytes m (input + 16) data));
  post_attempts h 10.

Definition signal_event (h : HypercallPage) (connection_id : Z) : W unit :=
  let code := Z.lor HV_SIGNAL_EVENT HV_HYPERCALL_FAST in
  _ ← raw_call h code connection_id 0;
  mret tt.
End hypercall.

(** ** Facts *)

Section facts.
Context `{Hypervisor} `{DmaAllocator world}.

(** The HvPostMessage call on a world: its status and the world after it. *)
Definition post_once (h : HypercallPage) (w : world) : Z * world :=
  hv_call HV_POST_MESSAGE (paddr (msg_buffer h)) 0
    (log_event (EvHypercall HV_POST_MESSAGE (paddr (msg_buffer h)) 0 (wmem w)) w).

Definition post_world (h : HypercallPage) (k : nat) (w : world) : world :=
  Nat.iter k (fun w => (post_once h w).2) w.

(** The low 16 bits of the status of call [k] (from 0). *)
Definition post_status (h : HypercallPage) (k : nat) (w : world) : Z :=
  as_u16 (post_once h (post_world h k w)).1.

(** The outcome of [n] attempts: the first [k] calls are told to retry, and
    then either the attempts are used up or call [k] is final. *)
Definition attempts_result (h : HypercallPage) (n : nat) (w : world)
    (res : result unit HvError) (w' : world) : Prop :=
  exists k, (forall j, (j < k)%nat -> post_status h j w = 0x13) /\
    ((k = n /\ res = Err HypercallRetryExhausted /\ w' = post_world h n w) \/
     ((k < n)%nat /\ post_status h k w <> 0x13 /\ w' = post_world h (S k) w /\
      res = if post_status h k w =? 0 then Ok tt
            else Err (HypercallFailed (post_status h k w)))).

Lemma post_world_S h k w : post_world h (S k) w = post_world h k (post_once h w).2.
Proof. unfold post_world. by rewrite Nat.iter_succ_r. Qed.

Lemma post_attempts_result h n w :
  exists res w', post_attempts h n w = Ret (res, w') /\ attempts_result h n w res w'.
Proof.
  revert w. induction n as [|n IH]; intros w; simpl.
  - do 2 eexists. split; [done|]. exists 0%nat. split; [lia|]. by left.
  - unfold mbind, M_bind, raw_call. fold (post_once h w).
    pose proof (eq_refl : as_u16 (post_once h w).1 = post_status h 0 w) as Hs.
    destruct (post_once h w) as [st w1] eqn:Hp. simpl in Hs. rewrite Hs.
    destruct (Z.eqb_spec (post_status h 0 w) 0) as [E0|N0].
    { do 2 eexists. split; [done|]. exists 0%nat. split; [lia|]. right.
      rewrite E0. split_and!; [lia|done| |done]. unfold post_world. simpl. by rewrite Hp. }
    destruct (Z.eqb_spec (post_status h 0 w) 0x13) as [E13|N13].
    + destruct (IH w1) as (res & w' & Hrun & k & Hk & Hcase). exists res, w'.
      split; [done|]. exists (S k).
      assert (Hshift : forall j, post_status h (S j) w = post_status h j w1).
      { intros j. unfold post_status. by rewrite post_world_S, Hp. }
      assert (Hw : forall j, post_world h (S j) w = post_world h j w1).
      { intros j. by rewrite post_world_S, Hp. }
      split. { intros [|j] Hj; [done|]. rewrite Hshift. apply Hk. lia. }
      rewrite Hshift, !Hw. destruct Hcase as [(-> & ? & ?)|(? & ? & ? & ?)]; [left|right];
        split_and!; (done || lia).
    + do 2 eexists. split; [done|]. exists 0%nat. split; [lia|]. right.
      rewrite (proj2 (Z.eqb_neq _ _)) by done.
      split_and!; [lia|done| |done]. unfold post_world. simpl. by rewrite Hp.
Qed.

(** The six writes of [post_message] are one store of the input structure. *)
Lemma input_bytes m a connection_id msg_type data :
  zlen data <= 240 ->
  store_bytes (store_bytes (store_u32 (store_u32 (store_u32 (store_u32 m
    a connection_id) (a + 4) 0) (a + 8) msg_type) (a + 12) (as_u32 (zlen data)))
    (a + 16) (replicate 240 Byte.x00)) (a + 16) data =
  store_bytes m a (post_message_input connection_id msg_type data).
Proof.
  intros Hlen. rewrite store_bytes_overwrite
    by (rewrite length_replicate; unfold zlen in *; lia).
  rewrite drop_replicate. unfold store_u32, post_message_input.
  rewrite !store_bytes_app, !zlen_le_split. f_equal; [by rewrite <- !Z.add_assoc|lia].
Qed.

Lemma zlen_post_message_input c t data :
  zlen data <= 240 -> zlen (post_message_input c t data) = 256.
Proof.
  unfold post_message_input. intros. autorewrite with zlen. unfold zlen in *. lia.
Qed.

Lemma post_message_closed h connection_id msg_type data w :
  post_message h connection_id msg_type data w =
  if zlen data <=? 240 then
    post_attempts h 10 (set_mem (store_bytes (wmem w) (vaddr (msg_buffer h))
                          (post_message_input connection_id msg_type data)) w)
  else Panic AssertFailed.
Proof.
  unfold post_message, rassert. destruct (Z.leb_spec (zlen data) 240); [|done].
  by rewrite <- input_bytes.
Qed.

(** The errors of [post_message] are the hypervisor's. *)
Lemma post_message_err h connection_id msg_type data w e w' :
  post_message h connection_id msg_type data w = Ret (Err e, w') ->
  e = HypercallRetryExhausted \/ exists st, e = HypercallFailed st.
Proof.
  rewrite post_message_closed. destruct (zlen data <=? 240); [|done].
  edestruct (post_attempts_result h 10) as (res & w1 & -> & k & _ & Hcase).
  intros [= -> ->]. destruct Hcase as [(_ & [= ->] & _)|(_ & _ & _ & Hres)]; [by left|].
  right. destruct (_ =? 0); [done|]. by simplify_eq; eexists.
Qed.
End facts.

(** [post_message] on a payload of at most 240 bytes writes the input
    structure (connection, type, size, payload, zero fill) into the message
    page and nothing else, then makes between 1 and 10 HvPostMessage calls,
    stopping at the first status other than [INSUFFICIENT_BUFFERS]: it returns
    [Ok] exactly when that status is success, the status as an error when it
    is not, and [HypercallRetryExhausted] after ten retries; a larger payload
    fails the assertion before anything is written. *)
Theorem post_message_spec `{Hypervisor} h connection_id msg_type data w :
  if zlen data <=? 240 then
    let w1 := set_mem (store_bytes (wmem w) (vaddr (msg_buffer h))
                         (post_message_input connection_id msg_type data)) w in
    zlen (post_message_input connection_id msg_type data) = 256 /\
    exists res w', post_message h connection_id msg_type data w = Ret (res, w') /\
                   attempts_result h 10 w1 res w'
  else post_message h connection_id msg_type data w = Panic AssertFailed.
Proof.
  rewrite post_message_closed.
  destruct (Z.leb_spec (zlen data) 240) as [Hlen|]; [|done].
  split; [by apply zlen_post_message_input|]. apply post_attempts_result.
Qed.
