(* ===== verification/Synic.v ===== *)
(** The synthetic interrupt controller ([crates/embclox-hyperv/src/synic.rs]):
    the message slot of the VMBus SINT in the shared SIMP page, and the
    future that feeds its messages to a matcher until one matches or a
    deadline passes. *)

From S2P Require Import Prelude Mem Dma World Hypercall.

Record SynIC := {
  simp : DmaRegion;
  siefp : DmaRegion;
}.

(** Field offsets of [HvMessage]. *)
Definition HV_MESSAGE_TYPE : Z := 0.
Definition HV_PAYLOAD_SIZE : Z := 4.
Definition HV_MESSAGE_FLAGS : Z := 5.
Definition HV_PAYLOAD : Z := 16.

Definition message_slot (s : SynIC) : Z := vaddr (simp s) + VMBUS_SINT * 256.

(** The waker ids of the events: the SIMP waker, and one per channel. *)
Definition SIMP_WAKER : Z := -1.

(** What the slot holds: the payload of the message in it, if any. *)
Definition slot_message (s : SynIC) (m : mem) : option (list byte) :=
  let slot := message_slot s in
  if load_u32 m (slot + HV_MESSAGE_TYPE) =? 0 then None else
  let sz := byte.unsigned (load_byte m (slot + HV_PAYLOAD_SIZE)) in
  Some (load_bytes m (slot + HV_PAYLOAD) (Z.to_nat (Z.min sz 240))).

Section synic.
Context `{Hypervisor} `{DmaAllocator world}.

Definition SynIC_new : W SynIC :=
  simp ← alloc_coherent 4096 4096;
  siefp ← alloc_coherent 4096 4096;
  _ ← wrmsr MSR_SCONTROL 1;
  _ ← wrmsr MSR_SIMP (Z.lor (paddr simp) 1);
  _ ← wrmsr MSR_SIEFP (Z.lor (paddr siefp) 1);
  let sint_value := Z.lor VMBUS_VECTOR (Z.shiftl 1 17) in
  _ ← wrmsr (MSR_SINT0 + VMBUS_SINT) sint_value;
  mret {| simp := simp; siefp := siefp |}.

(** The host may have acted since the previous access. *)
Definition poll_message (s : SynIC) : W (option (list byte)) :=
  _ ← host_activity;
  gets (fun w => slot_message s (wmem w)).

Definition ack_message (s : SynIC) : W unit :=
  let slot := message_slot s in
  fl ← gets (fun w => byte.unsigned (load_byte (wmem w) (slot + HV_MESSAGE_FLAGS)));
  _ ← on_mem (modify (fun m => store_u32 m (slot + HV_MESSAGE_TYPE) 0));
  if negb (Z.land fl 1 =? 0) then wrmsr MSR_EOM 0 else mret tt.

Definition register_waker (waker : Z) : W unit := modify (log_event (EvRegister waker)).

(** One poll of [WaitForMatch]; [matcher] is the [FnMut] with its captured
    state.  The loop takes fuel. *)
Fixpoint wait_poll {S R : Type} (fuel : nat) (synic : SynIC) (deadline : Z)
    (matcher : S -> list byte -> option R * S) (st : S)
  : W (poll (result R HvError) * S) :=
  match fuel with
  | O => panic OutOfFuel
  | Datatypes.S n =>
      payload_opt ← poll_message synic;
      match payload_opt with
      | Some payload =>
          let '(res, st') := matcher st payload in
          _ ← ack_message synic;
          match res with
          | Some r => mret (Ready (Ok r), st')
          | None => wait_poll n synic deadline matcher st'
          end
      | None =>
          _ ← register_waker SIMP_WAKER;
          again ← poll_message synic;
          match again with
          | Some _ => wait_poll n synic deadline matcher st
          | None =>
              t ← gets now;
              if deadline <=? t then mret (Ready (Err Timeout), st)
              else mret (Pending, st)
          end
      end
  end.

(** [block_on_hlt(wait_for_match(synic, deadline, matcher))]: [fuel] bounds
    the parks, [pfuel] the loop of each poll. *)
Definition wait_for_match {S R : Type} (fuel pfuel : nat) (synic : SynIC) (deadline : Z)
    (matcher : S -> list byte -> option R * S) (st : S) : W (result R HvError * S) :=
  block_on_hlt fuel (wait_poll pfuel synic deadline matcher) st.
End synic.

(** ** What the hypervisor promises about the message page *)

(** The world after [ack_message]. *)
Definition acked `{Hypervisor} (s : SynIC) (w : world) : world :=
  match ack_message s w with Ret (_, w') => w' | Panic _ => w end.

(** The hypervisor side of the SIMP protocol.  [inbox] is the sequence of
    messages the host has queued for the SINT, the one in the slot first.
    Messages may become visible at any time; an occupied slot is left alone
    until the guest frees it; freeing it removes exactly that message; new
    messages are queued while the processor halts; and time advances over
    every halt (the periodic timer interrupt). *)
Class SimpProtocol `{Hypervisor} (s : SynIC) := {
  inbox : world -> list (list byte);
  inbox_visible : forall w p, slot_message s (wmem w) = Some p ->
    exists rest, inbox w = p :: rest;
  inbox_async : forall w, inbox (hv_async w) = inbox w;
  slot_stable : forall w p, slot_message s (wmem w) = Some p ->
    slot_message s (wmem (hv_async w)) = Some p;
  inbox_ack : forall w p rest, slot_message s (wmem w) = Some p ->
    inbox w = p :: rest -> inbox (acked s w) = rest;
  inbox_log : forall e w, inbox (log_event e w) = inbox w;
  inbox_park : forall w, exists new, inbox (hv_park w) = inbox w ++ new;
  time_async : forall w, now w <= now (hv_async w);
  time_ack : forall w, now w <= now (acked s w);
  time_park : forall w, now w < now (hv_park w);
}.

(** A host whose queue stays bounded: an invariant of its worlds under which
    at most [backlog] messages are queued. *)
Class SimpBounded `{Hv : Hypervisor} (s : SynIC) `{!SimpProtocol s}
    (good : world -> Prop) (backlog : nat) := {
  good_bound : forall w, good w -> (length (inbox w) <= backlog)%nat;
  good_async : forall w, good w -> good (hv_async w);
  good_log : forall e w, good w -> good (log_event e w);
  good_ack : forall w, good w -> good (acked s w);
  good_park : forall w, good w -> good (hv_park w);
}.

(** A run of the matcher that matches nothing. *)
Inductive unmatched {S R} (matcher : S -> list byte -> option R * S)
  : S -> list (list byte) -> S -> Prop :=
| unmatched_nil s : unmatched matcher s [] s
| unmatched_cons s m s1 ms s2 :
    matcher s m = (None, s1) -> unmatched matcher s1 ms s2 ->
    unmatched matcher s (m :: ms) s2.

Lemma unmatched_app {S R} (matcher : S -> list byte -> option R * S) s ms1 s1 ms2 s2 :
  unmatched matcher s ms1 s1 -> unmatched matcher s1 ms2 s2 ->
  unmatched matcher s (ms1 ++ ms2) s2.
Proof. induction 1; [done|]. intros. simpl. by econstructor; [|apply IHunmatched]. Qed.

Section wait.
Context `{Hv : Hypervisor} (synic : SynIC) `{!SimpProtocol synic}.
Context {S R : Type} (matcher : S -> list byte -> option R * S) (deadline : Z).

(** What a poll that consumed [msgs] returns. *)
Definition poll_post (st : S) (msgs : list (list byte)) (p : poll (result R HvError))
    (st' : S) (w' : world) : Prop :=
  match p with
  | Ready (Ok r) => exists pre m st1, msgs = pre ++ [m] /\ unmatched matcher st pre st1 /\
                      matcher st1 m = (Some r, st')
  | Ready (Err e) => e = Timeout /\ unmatched matcher st msgs st' /\ deadline <= now w'
  | Pending => unmatched matcher st msgs st' /\ now w' < deadline
  end.

Lemma ack_message_acked w : ack_message synic w = Ret (tt, acked synic w).
Proof.
  unfold acked, ack_message, mbind, M_bind, gets, on_mem, modify. simpl.
  by destruct (negb _).
Qed.

Lemma wait_poll_step n st w :
  wait_poll (Datatypes.S n) synic deadline matcher st w =
  let w1 := hv_async w in
  match slot_message synic (wmem w1) with
  | Some payload =>
      let '(res, st') := matcher st payload in
      match res with
      | Some r => Ret ((Ready (Ok r), st'), acked synic w1)
      | None => wait_poll n synic deadline matcher st' (acked synic w1)
      end
  | None =>
      let w2 := hv_async (log_event (EvRegister SIMP_WAKER) w1) in
      match slot_message synic (wmem w2) with
      | Some _ => wait_poll n synic deadline matcher st w2
      | None => Ret (if deadline <=? now w2 then (Ready (Err Timeout), st)
                     else (Pending, st), w2)
      end
  end.
Proof.
  cbn [wait_poll].
  unfold poll_message, host_activity, register_waker, modify, gets, mbind, M_bind.
  cbv zeta. destruct (slot_message synic (wmem (hv_async w))) as [payload|].
  - destruct (matcher st payload) as [[r|] st']; by rewrite ack_message_acked.
  - destruct (slot_message synic (wmem (hv_async (log_event _ _)))); [done|].
    unfold gets. by destruct (deadline <=? _).
Qed.

(** Consuming one more unmatched message in front. *)
Lemma poll_post_cons st p st1 msgs pr st' w' :
  matcher st p = (None, st1) -> poll_post st1 msgs pr st' w' ->
  poll_post st (p :: msgs) pr st' w'.
Proof.
  intros Hm. destruct pr as [[r|e]|]; simpl.
  - intros (pre & m & st2 & -> & Hu & Hr). exists (p :: pre), m, st2.
    split_and!; [done|by econstructor|done].
  - intros (-> & Hu & Hd). split_and!; [done|by econstructor|done].
  - intros (Hu & Hd). split; [by econstructor|done].
Qed.

Lemma wait_poll_post n st w p st' w' :
  wait_poll n synic deadline matcher st w = Ret ((p, st'), w') ->
  exists msgs, inbox w = msgs ++ inbox w' /\ now w <= now w' /\ poll_post st msgs p st' w'.
Proof.
  revert st w. induction n as [|n IH]; intros st w; [done|].
  rewrite wait_poll_step. cbv zeta. pose proof (time_async w) as Ht1.
  destruct (slot_message synic (wmem (hv_async w))) as [payload|] eqn:Hs.
  - destruct (inbox_visible _ _ Hs) as [rest Hrest].
    pose proof (inbox_ack _ _ _ Hs Hrest) as Hack. pose proof (time_ack (hv_async w)) as Ht2.
    rewrite inbox_async in Hrest.
    destruct (matcher st payload) as [[r|] st1] eqn:Hm.
    + intros [= <- <- <-]. exists [payload]. rewrite Hack, Hrest.
      split_and!; [done|lia|]. by exists [], payload, st; split_and!; [|constructor|].
    + intros Hrun. destruct (IH _ _ Hrun) as (msgs & Hin & Ht & Hpost).
      exists (payload :: msgs). rewrite Hrest. rewrite <- Hack, Hin.
      split_and!; [done|lia|by eapply poll_post_cons].
  - set (w2 := hv_async (log_event (EvRegister SIMP_WAKER) (hv_async w))).
    pose proof (time_async (log_event (EvRegister SIMP_WAKER) (hv_async w))) as Ht2.
    assert (Hin2 : inbox w = inbox w2).
    { unfold w2. by rewrite inbox_async, inbox_log, inbox_async. }
    fold w2 in Ht2. simpl in Ht2.
    destruct (slot_message synic (wmem w2)).
    + intros Hrun. destruct (IH _ _ Hrun) as (msgs & Hin & Ht & Hpost).
      exists msgs. rewrite Hin2. split_and!; [done|lia|done].
    + intros Hres. exists []. destruct (Z.leb_spec deadline (now w2)); simplify_eq;
        (split_and!; [done|lia|]); repeat constructor; done.
Qed.

(** A poll returns: every message takes at most two rounds of its loop. *)
Lemma wait_poll_returns n st w :
  (2 * length (inbox w) + 1 < n)%nat ->
  exists p st' w', wait_poll n synic deadline matcher st w = Ret ((p, st'), w').
Proof.
  revert st w. induction n as [n IH] using lt_wf_ind. intros st w Hn.
  destruct n as [|n]; [lia|]. rewrite wait_poll_step. cbv zeta.
  assert (Hsome : forall n' w payload, (n' <= n)%nat ->
    (2 * length (inbox w) < n' + 1)%nat -> slot_message synic (wmem (hv_async w)) = Some payload ->
    forall st1, exists p st' w',
      wait_poll n' synic deadline matcher st1 (acked synic (hv_async w)) = Ret ((p, st'), w')).
  { intros n' w0 payload Hle Hlt Hs st1.
    destruct (inbox_visible _ _ Hs) as [rest Hrest].
    pose proof (inbox_ack _ _ _ Hs Hrest) as Hack.
    rewrite inbox_async in Hrest. rewrite Hrest in Hlt. simpl in Hlt.
    apply IH; [lia|]. rewrite Hack. lia. }
  destruct (slot_message synic (wmem (hv_async w))) as [payload|] eqn:Hs.
  - destruct (matcher st payload) as [[r|] st1]; [by repeat eexists|].
    eapply Hsome; [done|lia|done].
  - set (w2 := hv_async (log_event (EvRegister SIMP_WAKER) (hv_async w))).
    destruct (slot_message synic (wmem w2)) eqn:Hs2; [|by destruct (deadline <=? now w2); repeat eexists].
    assert (Hin2 : inbox w2 = inbox w).
    { unfold w2. by rewrite inbox_async, inbox_log, inbox_async. }
    destruct n as [|n]; [lia|]. rewrite wait_poll_step. cbv zeta.
    rewrite (slot_stable _ _ Hs2). destruct (matcher st _) as [[r|] st1]; [by repeat eexists|].
    eapply (Hsome n); [lia| |by apply slot_stable].
    destruct (inbox_visible _ _ Hs2) as [rest Hrest]. rewrite Hin2 in *. lia.
Qed.

(** The inbox after some parks, and what the polls so far consumed. *)
Definition wait_inv (st0 : S) (w0 : world) (st : S) (w : world) : Prop :=
  exists arrivals msgs, inbox w0 ++ arrivals = msgs ++ inbox w /\ unmatched matcher st0 msgs st.

End wait.

(** What [wait_for_match] returns, in terms of the messages it consumed. *)
Definition match_post {S R : Type} (matcher : S -> list byte -> option R * S) (deadline : Z)
    (st : S) (msgs : list (list byte)) (res : result R HvError) (st' : S) (w' : world) : Prop :=
  match res with
  | Ok r => exists pre m st1, msgs = pre ++ [m] /\ unmatched matcher st pre st1 /\
              matcher st1 m = (Some r, st')
  | Err e => e = Timeout /\ unmatched matcher st msgs st' /\ deadline <= now w'
  end.

Lemma wait_for_match_post `{Hv : Hypervisor} (synic : SynIC) `{!SimpProtocol synic}
    {S R : Type} (matcher : S -> list byte -> option R * S) deadline fuel pfuel st w res st' w' :
  wait_for_match fuel pfuel synic deadline matcher st w = Ret ((res, st'), w') ->
  exists arrivals msgs,
    inbox w ++ arrivals = msgs ++ inbox w' /\ match_post matcher deadline st msgs res st' w'.
Proof.
  intros Hrun.
  apply (block_on_with_inv _ _ (wait_inv synic matcher st w)
    (fun res st' w' => exists arrivals msgs,
       inbox w ++ arrivals = msgs ++ inbox w' /\
       poll_post matcher deadline st msgs (Ready res) st' w')) in Hrun; [done| |].
  - clear Hrun. intros st1 w1 p st2 w2 (arr & ms & Hin & Hu) Hp.
    destruct (wait_poll_post synic matcher deadline _ _ _ _ _ _ Hp) as (ms2 & Hin2 & _ & Hpost).
    rewrite Hin2, app_assoc in Hin. destruct p as [[r|e]|]; simpl in Hpost.
    + destruct Hpost as (pre & m & st3 & -> & Hu2 & Hr).
      exists arr, (ms ++ pre ++ [m]). split; [done|]. exists (ms ++ pre), m, st3.
      rewrite app_assoc. split_and!; [done|by eapply unmatched_app|done].
    + destruct Hpost as (-> & Hu2 & Hd). exists arr, (ms ++ ms2). split; [done|].
      split_and!; [done|by eapply unmatched_app|done].
    + destruct Hpost as (Hu2 & Hd). intros w3 [= <-].
      destruct (inbox_park w2) as [new Hnew]. exists (arr ++ new), (ms ++ ms2).
      rewrite Hnew, !app_assoc, Hin. split; [done|by eapply unmatched_app].
  - exists [], []. rewrite app_nil_r. split; [done|constructor].
Qed.


Lemma wait_poll_good `{Hv : Hypervisor} (synic : SynIC) `{!SimpProtocol synic}
    `{!SimpBounded synic good backlog} {S R : Type}
    (matcher : S -> list byte -> option R * S) deadline n st w p st' w' :
  good w -> wait_poll n synic deadline matcher st w = Ret ((p, st'), w') -> good w'.
Proof.
  revert st w. induction n as [|n IH]; intros st w Hg; [done|].
  rewrite wait_poll_step. cbv zeta. pose proof (good_async _ Hg) as Hg1.
  destruct (slot_message synic (wmem (hv_async w))) as [payload|].
  - pose proof (good_ack _ Hg1). destruct (matcher st payload) as [[r|] st1].
    + by intros [= <- <- <-].
    + by apply IH.
  - pose proof (good_async _ (good_log (EvRegister SIMP_WAKER) _ Hg1)) as Hg2.
    destruct (slot_message _ _); [by apply IH|].
    by destruct (deadline <=? _); intros [= <- <- <-].
Qed.

(** C7: [wait_for_match] returns, by a match or by timeout: the polling loop
    ends because the host's queue is bounded, and the parks end because time
    passes over each of them. *)
Theorem wait_for_match_returns `{Hv : Hypervisor} (synic : SynIC) `{!SimpProtocol synic}
    good backlog `{!SimpBounded synic good backlog}
    {S R : Type} (matcher : S -> list byte -> option R * S) deadline st w fuel pfuel :
  good w -> (Z.to_nat (deadline - now w) < fuel)%nat -> (2 * backlog + 1 < pfuel)%nat ->
  exists res st' w',
    wait_for_match fuel pfuel synic deadline matcher st w = Ret ((res, st'), w').
Proof.
  intros Hgood Hfuel Hpfuel. unfold wait_for_match, block_on_hlt.
  apply (block_on_with_returns _ _ (fun _ => good) (fun w => Z.to_nat (deadline - now w)));
    [|done|done].
  intros st1 w1 Hg. pose proof (good_bound _ Hg).
  destruct (wait_poll_returns synic matcher deadline pfuel st1 w1) as (p & st2 & w2 & Hp); [lia|].
  exists p, st2, w2. split; [done|]. intros ->.
  destruct (wait_poll_post synic matcher deadline _ _ _ _ _ _ Hp) as (ms & _ & Ht & Hpost).
  simpl in Hpost. destruct Hpost as [_ Hd]. pose proof (time_park w2).
  exists (hv_park w2). split_and!; [done| |lia].
  apply good_park. by eapply wait_poll_good.
Qed.

(** ** A concrete host *)

(** The content of the slot of a message of type 1, flagged when more follow. *)
Definition slot_bytes (more : bool) (p : list byte) : list byte :=
  le_split 4 1 ++ le_split 1 (zlen p) ++ le_split 1 (if more then 1 else 0) ++
  le_split 2 0 ++ le_split 8 0 ++ p.

(** Moves the next queued message into the slot when it is free. *)
Definition deliver (s : SynIC) (w : world) : world :=
  match slot_message s (wmem w), hostq w with
  | None, p :: q =>
      {| wmem := store_bytes (wmem w) (message_slot s)
           (slot_bytes (negb (bool_decide (q = []))) (take 240 p));
         now := now w; next_gpadl := next_gpadl w; trace := trace w; hostq := q |}
  | _, _ => w
  end.

(** A host that accepts every hypercall, delivers its queue message by
    message, and whose timer ticks every millisecond while the guest halts. *)
Definition queue_host (s : SynIC) : Hypervisor := {|
  hv_call _ _ _ w := (0, w);
  hv_wrmsr reg _ w := if reg =? MSR_EOM then deliver s w else w;
  hv_async w := deliver s w;
  hv_park w := {| wmem := wmem w; now := now w + 1000; next_gpadl := next_gpadl w;
                  trace := trace w; hostq := hostq w |};
|}.

Definition queue_inbox (s : SynIC) (w : world) : list (list byte) :=
  option_list (slot_message s (wmem w)) ++ (take 240 <$> hostq w).

Lemma slot_message_stored s m more p :
  zlen p <= 240 ->
  slot_message s (store_bytes m (message_slot s) (slot_bytes more p)) = Some p.
Proof.
  intros Hp. set (a := message_slot s).
  assert (Hparts : store_bytes m a (slot_bytes more p) =
    store_bytes (store_bytes (store_bytes (store_bytes m a (le_split 4 1)) (a + 4)
      (le_split 1 (zlen p))) (a + 5) (le_split 1 (if more then 1 else 0) ++ le_split 2 0 ++
      le_split 8 0)) (a + 16) p).
  { unfold slot_bytes. rewrite (app_assoc (le_split 1 (if more then 1 else 0))).
    rewrite (app_assoc (_ ++ _)). rewrite !store_bytes_app. autorewrite with zlen.
    repeat (f_equal; try lia). }
  unfold slot_message. fold a. rewrite Hparts. unfold HV_MESSAGE_TYPE, HV_PAYLOAD_SIZE, HV_PAYLOAD.
  rewrite Z.add_0_r. rewrite !load_u32_store_bytes_ne by (autorewrite with zlen; lia).
  change (load_u32 (store_bytes m a (le_split 4 1)) a) with (load_u32 (store_u32 m a 1) a).
  rewrite load_u32_store_eq. change (1 mod U32 =? 0) with false. cbv iota.
  rewrite !load_byte_store_ne by (autorewrite with zlen; lia).
  rewrite <- (Z.add_0_r (a + 4)) at 3.
  rewrite (load_byte_store_eq _ (a + 4) (le_split 1 (zlen p)) 0 (byte.of_Z (zlen p))) by done.
  rewrite byte.unsigned_of_Z. unfold byte.wrap. pose proof (zlen_nonneg p).
  rewrite Z.mod_small, Z.min_l by lia. unfold zlen. rewrite Nat2Z.id.
  by rewrite load_bytes_store_eq.
Qed.

Lemma queue_deliver s w :
  queue_inbox s (deliver s w) = queue_inbox s w /\ now (deliver s w) = now w /\
  (forall p, slot_message s (wmem w) = Some p -> deliver s w = w).
Proof.
  unfold deliver, queue_inbox.
  destruct (slot_message s (wmem w)) as [p|] eqn:E; [by rewrite E|].
  destruct (hostq w) as [|p q] eqn:Eq; [by rewrite E, Eq|].
  cbn [wmem hostq]. rewrite slot_message_stored; [done|]. unfold zlen. rewrite length_take. lia.
Qed.

Lemma queue_acked s w :
  queue_inbox s (@acked (queue_host s) s w) = (take 240 <$> hostq w) /\
  now (@acked (queue_host s) s w) = now w.
Proof.
  set (m' := store_u32 (wmem w) (message_slot s + 0) 0).
  assert (Hnone : slot_message s m' = None).
  { unfold slot_message, m'. by rewrite load_u32_store_eq. }
  assert (Hw : exists w1, wmem w1 = m' /\ hostq w1 = hostq w /\ now w1 = now w /\
    (@acked (queue_host s) s w = w1 \/ @acked (queue_host s) s w = deliver s w1)).
  { unfold acked, ack_message, mbind, M_bind, gets, on_mem, modify, wrmsr.
    simpl. destruct (negb _); simpl; [|by exists (set_mem m' w); eauto].
    exists (log_event (EvWrmsr MSR_EOM 0) (set_mem m' w)). eauto. }
  destruct Hw as (w1 & Hm & Hq & Hn & [->| ->]).
  - unfold queue_inbox. by rewrite Hm, Hnone, Hq.
  - destruct (queue_deliver s w1) as (-> & -> & _). unfold queue_inbox.
    by rewrite Hm, Hnone, Hq.
Qed.

#[export] Instance queue_protocol (s : SynIC) : @SimpProtocol (queue_host s) s.
Proof.
  refine (@Build_SimpProtocol (queue_host s) s (queue_inbox s) _ _ _ _ _ _ _ _ _); simpl.
  - intros w p E. unfold queue_inbox. rewrite E. by eexists.
  - intros w. apply queue_deliver.
  - intros w p E. by rewrite (proj2 (proj2 (queue_deliver s w)) p E).
  - intros w p rest E. unfold queue_inbox at 1. rewrite E. intros [= <-]. apply queue_acked.
  - done.
  - intros w. exists []. by rewrite app_nil_r.
  - intros w. pose proof (proj1 (proj2 (queue_deliver s w))). lia.
  - intros w. pose proof (proj2 (queue_acked s w)). lia.
  - intros w. lia.
Defined.

(** Its queue only shrinks. *)
#[export] Instance queue_bounded (s : SynIC) n :
  @SimpBounded (queue_host s) s (queue_protocol s) (fun w => (length (queue_inbox s w) <= n)%nat) n.
Proof.
  split; [done|..]; cbn [hv_async hv_park queue_host].
  - intros w. by rewrite (proj1 (queue_deliver s w)).
  - done.
  - intros w. rewrite (proj1 (queue_acked s w)). unfold queue_inbox. rewrite length_app. lia.
  - done.
Qed.

Definition synic0 : SynIC :=
  {| simp := {| vaddr := 0; paddr := 0; rsize := 4096 |};
     siefp := {| vaddr := 4096; paddr := 4096; rsize := 4096 |} |}.

(** A fresh machine whose host has messages queued. *)
Definition world_of (q : list (list byte)) : world :=
  {| wmem := ∅; now := 0; next_gpadl := 1; trace := []; hostq := q |}.

Definition matcher0 (st : unit) (p : list byte) : option Z * unit :=
  (if 4 <=? zlen p then Some (le_at 4 p 0) else None, st).

Definition queue0 : list (list byte) := [[Byte.x07]; le_split 4 15; [Byte.x08]].


Lemma wait_for_match_returns_witness :
  exists res st' w',
    @wait_for_match (queue_host synic0) _ _ 51 10 synic0 50 matcher0 tt
      (world_of [[Byte.x07]; [Byte.x08]]) = Ret ((res, st'), w').
Proof.
  apply (@wait_for_match_returns (queue_host synic0) synic0 (queue_protocol synic0) _ 2
    (queue_bounded synic0 2) _ _ matcher0 50 tt); [vm_compute; lia|simpl; lia|lia].
Defined.
