(* ===== verification/Isr.v ===== *)
(** The SINT2 interrupt handler ([crates/embclox-hyperv/src/isr.rs]): it
    wakes the SIMP waiter when a message waits, clears the event flags of
    the SINT and wakes the waiter of every channel whose flag was set. *)

From S2P Require Import Prelude Mem Dma World Bits CpuLocal Hypercall Synic.

Definition CHANNEL_WAKER_SLOTS : Z := 64.

(** The waker of a channel, as its slot in the table. *)
Definition channel_waker (relid : Z) : Z := relid mod CHANNEL_WAKER_SLOTS.

(** The statics the handler reads, one address per CPU. *)
Record isr_tables := {
  SIEFP_VADDR : list Z;
  SIMP_VADDR : list Z;
}.

Definition no_tables : isr_tables :=
  {| SIEFP_VADDR := replicate MAX_CPUS 0; SIMP_VADDR := replicate MAX_CPUS 0 |}.

Definition publish_siefp (cpu : CpuId) (va : Z) : M isr_tables unit :=
  t ← gets (fun t => t);
  _ ← lift (index (SIEFP_VADDR t) (slot_of cpu));
  modify (fun t => {| SIEFP_VADDR := <[Z.to_nat (slot_of cpu) := va]> (SIEFP_VADDR t);
                      SIMP_VADDR := SIMP_VADDR t |}).

Definition publish_simp (cpu : CpuId) (va : Z) : M isr_tables unit :=
  t ← gets (fun t => t);
  _ ← lift (index (SIMP_VADDR t) (slot_of cpu));
  modify (fun t => {| SIEFP_VADDR := SIEFP_VADDR t;
                      SIMP_VADDR := <[Z.to_nat (slot_of cpu) := va]> (SIMP_VADDR t) |}).

Definition wake (waker : Z) : W unit := modify (log_event (EvWake waker)).

(** The bits of one word: [word_idx * 64 + bit] is a channel id. *)
Fixpoint wake_bits (word_idx : Z) (bits : list Z) : W unit :=
  match bits with
  | [] => mret tt
  | b :: bs =>
      _ ← wake (channel_waker (as_u32 (word_idx * 64 + b)));
      wake_bits word_idx bs
  end.

(** Words [word_idx ..] of the flag slot, [n] to go.  The inner loop visits
    the bits of the word it read before it cleared it in memory. *)
Fixpoint scan_words (n : nat) (slot_ptr word_idx : Z) : W unit :=
  match n with
  | O => mret tt
  | S n' =>
      let p := slot_ptr + 8 * word_idx in
      w ← gets (fun s => load_u64 (wmem s) p);
      _ ← (if w =? 0 then mret tt else
           _ ← on_mem (modify (fun m => store_u64 m p 0));
           bits ← lift (bit_walk 65 w);
           wake_bits word_idx bits);
      scan_words n' slot_ptr (word_idx + 1)
  end.

Definition vmbus_isr (t : isr_tables) (cpu : CpuId) : W unit :=
  let slot := slot_of cpu in
  simp ← lift (index (SIMP_VADDR t) slot);
  _ ← (if negb (simp =? 0) then
         msg_type ← gets (fun w => load_u32 (wmem w) (simp + VMBUS_SINT * 256));
         if negb (msg_type =? 0) then wake SIMP_WAKER else mret tt
       else mret tt);
  siefp ← lift (index (SIEFP_VADDR t) slot);
  if negb (siefp =? 0) then scan_words 32 (siefp + VMBUS_SINT * 256) 0 else mret tt.

(** ** What the handler does *)

(** The channel ids flagged in [n] words from word [i], in order. *)
Fixpoint flagged (m : mem) (slot_ptr : Z) (n : nat) (i : Z) : list Z :=
  match n with
  | O => []
  | S n' =>
      (Z.add (i * 64) <$> set_bits 64 (load_u64 m (slot_ptr + 8 * i))) ++
      flagged m slot_ptr n' (i + 1)
  end.

Definition log_wakes (wakers : list Z) (w : world) : world :=
  foldl (fun w k => log_event (EvWake k) w) w wakers.

Lemma log_wakes_app l1 l2 w : log_wakes (l1 ++ l2) w = log_wakes l2 (log_wakes l1 w).
Proof. apply foldl_app. Qed.

Lemma log_wakes_mem l w : wmem (log_wakes l w) = wmem w.
Proof. revert w. induction l as [|k l IH]; intros w; [done|]. simpl. by rewrite IH. Qed.

Lemma log_wakes_trace l w : trace (log_wakes l w) = reverse (EvWake <$> l) ++ trace w.
Proof.
  revert w. induction l as [|k l IH]; intros w; [done|]. simpl.
  rewrite IH. simpl. by rewrite reverse_cons, <- app_assoc.
Qed.

Lemma log_wakes_set_mem m l w : set_mem m (log_wakes l w) = log_wakes l (set_mem m w).
Proof. revert w. induction l as [|k l IH]; intros w; [done|]. simpl. by rewrite IH. Qed.

Lemma wake_bits_ok i bits w :
  0 <= i < 32 -> Forall (fun b => 0 <= b < 64) bits ->
  wake_bits i bits w = Ret (tt, log_wakes (channel_waker <$> (Z.add (i * 64) <$> bits)) w).
Proof.
  intros Hi Hb. revert w. induction Hb as [|b bs Hb Hbs IH]; intros w; [done|].
  cbn [wake_bits]. unfold wake. mstep. rewrite IH.
  unfold as_u32. rewrite Z.mod_small by (unfold U32; lia). done.
Qed.

(** Clearing a word, and words that are zero already. *)
Definition clear_words (m : mem) (slot_ptr : Z) (n : nat) (i : Z) : mem :=
  foldl (fun m k => if load_u64 m (slot_ptr + 8 * k) =? 0 then m
                    else store_u64 m (slot_ptr + 8 * k) 0) m (seqZ i (Z.of_nat n)).

Lemma load_u64_range m a : 0 <= load_u64 m a < U64.
Proof.
  unfold load_u64. pose proof (le_combine_bound (load_bytes m a 8)) as H.
  by rewrite length_load_bytes in H.
Qed.

Lemma load_u64_store_ne m a v x :
  x + 8 <= a \/ a + 8 <= x -> load_u64 (store_u64 m a v) x = load_u64 m x.
Proof.
  intros H. unfold load_u64, store_u64. rewrite load_bytes_store_ne; [done|].
  rewrite zlen_le_split. lia.
Qed.

Lemma load_u64_store_eq m a v : load_u64 (store_u64 m a v) a = v mod U64.
Proof.
  unfold load_u64, store_u64. pose proof (load_bytes_store_eq m a (le_split 8 v)) as H.
  rewrite length_le_split in H. rewrite H. by rewrite le_combine_split.
Qed.

Lemma flagged_ext m1 m2 p n i :
  (forall k, i <= k < i + Z.of_nat n -> load_u64 m1 (p + 8 * k) = load_u64 m2 (p + 8 * k)) ->
  flagged m1 p n i = flagged m2 p n i.
Proof.
  revert i. induction n as [|n IH]; intros i H; [done|]. simpl.
  rewrite (H i) by lia. f_equal. apply IH. intros k Hk. apply H. lia.
Qed.

Lemma scan_words_ok n p i w :
  0 <= i -> i + Z.of_nat n <= 32 ->
  scan_words n p i w =
  Ret (tt, log_wakes (channel_waker <$> flagged (wmem w) p n i)
             (set_mem (clear_words (wmem w) p n i) w)).
Proof.
  revert i w. induction n as [|n IH]; intros i w Hi Hn.
  { by destruct w. }
  cbn [scan_words flagged]. mstep. set (a := p + 8 * i).
  pose proof (load_u64_range (wmem w) a) as Hr.
  unfold clear_words. rewrite seqZ_cons by lia. cbn [foldl].
  rewrite Nat2Z.inj_succ, Z.pred_succ, <- Z.add_1_r. fold a.
  destruct (Z.eqb_spec (load_u64 (wmem w) a) 0) as [E|NE].
  - mstep. rewrite IH by lia. rewrite E.
    rewrite (set_bits_from_0 64 0 : set_bits 64 0 = []). done.
  - set (m' := store_u64 (wmem w) a 0).
    etrans; [apply bind_Ret|]; cbv beta.
    { etrans; [by apply bind_Ret, on_mem_Ret|]; cbv beta.
      etrans; [apply bind_lift, (bit_walk_set_bits 64); [done|lia]|]; cbv beta.
      apply wake_bits_ok; [lia|]. apply Forall_forall. intros b Hb.
      apply elem_of_set_bits in Hb. lia. }
    rewrite IH by lia. rewrite log_wakes_mem, log_wakes_set_mem, <- log_wakes_app.
    cbn [set_mem wmem]. rewrite fmap_app. do 3 f_equal.
    f_equal. f_equal. apply flagged_ext. intros k Hk. apply load_u64_store_ne.
    unfold a. lia.
Qed.

Lemma clear_words_S m p n i :
  clear_words m p (S n) i =
  clear_words (if load_u64 m (p + 8 * i) =? 0 then m else store_u64 m (p + 8 * i) 0) p n (i + 1).
Proof.
  unfold clear_words. rewrite seqZ_cons by lia.
  by rewrite Nat2Z.inj_succ, Z.pred_succ, <- Z.add_1_r.
Qed.

(** Clearing zeroes the words it covers and nothing else. *)
Lemma clear_words_spec m p n i :
  (forall k, i <= k < i + Z.of_nat n -> load_u64 (clear_words m p n i) (p + 8 * k) = 0) /\
  (forall x, x < p + 8 * i \/ p + 8 * (i + Z.of_nat n) <= x ->
     load_byte (clear_words m p n i) x = load_byte m x).
Proof.
  revert m i. induction n as [|n IH]; intros m i; [split; [lia|done]|].
  rewrite clear_words_S. set (m' := if load_u64 m (p + 8 * i) =? 0 then m else store_u64 m (p + 8 * i) 0).
  destruct (IH m' (i + 1)) as [IH1 IH2].
  assert (Hm' : load_u64 m' (p + 8 * i) = 0).
  { unfold m'. destruct (Z.eqb_spec (load_u64 m (p + 8 * i)) 0); [done|].
    by rewrite load_u64_store_eq. }
  split.
  - intros k Hk. destruct (decide (k = i)) as [->|]; [|apply IH1; lia].
    rewrite <- Hm'. unfold load_u64. f_equal. apply load_bytes_ext. intros x Hx.
    apply IH2. lia.
  - intros x Hx. rewrite IH2 by lia. unfold m'. destruct (_ =? 0); [done|].
    unfold store_u64. apply load_byte_store_ne. rewrite zlen_le_split. lia.
Qed.

Lemma elem_of_flagged m p n i r :
  r ∈ flagged m p n i <->
  i * 64 <= r < (i + Z.of_nat n) * 64 /\
  Z.testbit (load_u64 m (p + 8 * (r / 64))) (r mod 64) = true.
Proof.
  revert i. induction n as [|n IH]; intros i; simpl; [rewrite elem_of_nil; lia|].
  rewrite elem_of_app, IH, list_elem_of_fmap.
  pose proof (Z_div_mod_eq_full r 64) as Hd. pose proof (Z.mod_pos_bound r 64 ltac:(lia)) as Hm.
  split.
  - intros [(b & -> & Hb)|[Hr Ht]]; [|split; [lia|done]].
    apply elem_of_set_bits in Hb as [Hb Ht]. split; [lia|].
    replace (i * 64 + b) with (b + i * 64) by lia. rewrite Z.div_add, Z.mod_add, (Z.div_small b), (Z.mod_small b) by lia. done.
  - intros [Hr Ht]. destruct (decide (r / 64 = i)) as [E|].
    + left. exists (r mod 64). split; [lia|]. apply elem_of_set_bits. rewrite <- E. split; [lia|done].
    + right. split; [lia|done].
Qed.

Lemma flagged_sorted m p n i : StronglySorted Z.lt (flagged m p n i).
Proof.
  revert i. induction n as [|n IH]; intros i; simpl; [constructor|].
  assert (Hs : forall l, StronglySorted Z.lt l -> Forall (fun b => b < 64) l ->
    StronglySorted Z.lt ((Z.add (i * 64) <$> l) ++ flagged m p n (i + 1))).
  { induction 1 as [|b l Hl IHl Hb]; intros HF; simpl; [apply IH|].
    inversion HF; subst. constructor; [by apply IHl|].
    apply Forall_app. split.
    - apply Forall_fmap. eapply Forall_impl; [exact Hb|]. simpl. intros. lia.
    - apply Forall_forall. intros r Hr. apply elem_of_flagged in Hr. lia. }
  apply Hs; [apply set_bits_from_sorted|]. apply Forall_forall. intros b Hb.
  apply elem_of_set_bits in Hb. lia.
Qed.

(** On a CPU with published pages the SINT2 handler clears all 32 words
    of event flags of its SINT and nothing else, and wakes exactly: the SIMP
    waker when a message waits, then the waker of every flagged channel, each
    flagged channel once, in increasing order of channel id. *)
Theorem vmbus_isr_wakes t cpu w simp siefp :
  0 <= slot_of cpu ->
  SIMP_VADDR t !! Z.to_nat (slot_of cpu) = Some simp ->
  SIEFP_VADDR t !! Z.to_nat (slot_of cpu) = Some siefp -> siefp <> 0 ->
  let flags := siefp + 512 in
  let message := negb (simp =? 0) && negb (load_u32 (wmem w) (simp + 512) =? 0) in
  exists w' relids,
    vmbus_isr t cpu w = Ret (tt, w') /\
    trace w' = reverse (EvWake <$> ((if message then [SIMP_WAKER] else []) ++
                                    (channel_waker <$> relids))) ++ trace w /\
    (forall r, r ∈ relids <-> 0 <= r < 2048 /\
       Z.testbit (load_u64 (wmem w) (flags + 8 * (r / 64))) (r mod 64) = true) /\
    StronglySorted Z.lt relids /\
    (forall k, 0 <= k < 32 -> load_u64 (wmem w') (flags + 8 * k) = 0) /\
    (forall x, x < flags \/ flags + 256 <= x -> load_byte (wmem w') x = load_byte (wmem w) x).
Proof.
  intros Hs Hsimp Hsiefp Hne flags message.
  set (w1 := if message then log_event (EvWake SIMP_WAKER) w else w).
  assert (Hw1 : wmem w1 = wmem w /\
    trace w1 = reverse (EvWake <$> (if message then [SIMP_WAKER] else [])) ++ trace w).
  { unfold w1. by destruct message. }
  destruct Hw1 as [Hm1 Ht1].
  exists (log_wakes (channel_waker <$> flagged (wmem w1) flags 32 0)
            (set_mem (clear_words (wmem w1) flags 32 0) w1)), (flagged (wmem w) flags 32 0).
  split_and!.
  - unfold vmbus_isr, index. etrans; [apply bind_lift; by rewrite Hsimp|]; cbv beta.
    etrans; [apply (bind_Ret _ _ _ tt w1)|].
    { unfold w1, message. change (VMBUS_SINT * 256) with 512.
      destruct (simp =? 0); [done|]. cbn [negb andb].
      mstep. by destruct (load_u32 (wmem w) (simp + 512) =? 0). }
    cbv beta. etrans; [apply bind_lift; by rewrite Hsiefp|]; cbv beta.
    rewrite (proj2 (Z.eqb_neq _ _)) by done. cbn [negb]. by rewrite scan_words_ok by lia.
  - rewrite log_wakes_trace. cbn [set_mem trace]. rewrite Ht1, Hm1.
    by rewrite fmap_app, reverse_app, <- app_assoc.
  - intros r. by rewrite elem_of_flagged.
  - apply flagged_sorted.
  - intros k Hk. rewrite log_wakes_mem. by apply clear_words_spec.
  - intros x Hx. rewrite log_wakes_mem. cbn [set_mem wmem]. rewrite <- Hm1.
    apply clear_words_spec. lia.
Qed.

Definition tables0 : isr_tables :=
  {| SIEFP_VADDR := [4096; 0; 0; 0; 0; 0; 0; 0]; SIMP_VADDR := [8192; 0; 0; 0; 0; 0; 0; 0] |}.

(** Channels 1 and 70 are flagged and a message waits. *)
Definition world1 : world :=
  set_mem (store_u32 (store_u64 (store_u64 ∅ 4608 2) 4616 64) 8704 1) (world_of []).

Lemma vmbus_isr_wakes_witness :
  exists w' relids, vmbus_isr tables0 Bsp world1 = Ret (tt, w') /\
    trace w' = reverse (EvWake <$> (SIMP_WAKER :: (channel_waker <$> relids))) /\
    1 ∈ relids /\ 70 ∈ relids.
Proof.
  destruct (vmbus_isr_wakes tables0 Bsp world1 8192 4096) as (w' & relids & Hr & Ht & He & _);
    [done..|].
  exists w', relids. split; [exact Hr|]. split.
  - rewrite Ht. by rewrite app_nil_r.
  - split; apply He; (split; [lia|vm_compute; reflexivity]).
Defined.
