(* ===== verification/VmBus.v ===== *)
(** VMBus bring-up ([crates/embclox-hyperv/src/vmbus.rs], [guid.rs],
    [detect.rs] and [lib.rs]): detection, version negotiation, enumeration of
    channel offers, and the [VmBus] handle. *)

From S2P Require Import Prelude Mem Dma World Hypercall Synic CpuLocal Isr.

(** ** GUIDs *)

Record Guid := { guid_bytes : list byte }.

#[export] Instance Guid_eq_dec : EqDecision Guid.
Proof. solve_decision. Defined.

Definition from_fields (data1 data2 data3 : Z) (data4 : list byte) : Guid :=
  {| guid_bytes := le_split 4 data1 ++ le_split 2 data2 ++ le_split 2 data3 ++ data4 |}.

Definition from_bytes (bytes : list byte) : Guid := {| guid_bytes := bytes |}.

Definition bytes_of (l : list Z) : list byte := byte.of_Z <$> l.

Definition SYNTHVID : Guid :=
  from_fields 0xDA0A7802 0xE377 0x4AAC
    (bytes_of [0x8E; 0x77; 0x05; 0x58; 0xEB; 0x10; 0x73; 0xF8]).
Definition NETVSC : Guid :=
  from_fields 0xF8615163 0xDF3E 0x46C5
    (bytes_of [0x91; 0x3F; 0xF2; 0xD2; 0xF9; 0x65; 0xED; 0x0E]).
Definition SYNTH_KEYBOARD : Guid :=
  from_fields 0xF912AD6D 0x2B17 0x48EA
    (bytes_of [0xBD; 0x65; 0xF9; 0x27; 0xA6; 0x1C; 0x76; 0x84]).
Definition HEARTBEAT : Guid :=
  from_fields 0x57164F39 0x9115 0x4E78
    (bytes_of [0xAB; 0x55; 0x38; 0x2F; 0x3B; 0xD5; 0x42; 0x2D]).

(** ** Detection *)

Record HvFeatures := {
  max_leaf : Z;
  has_synic : bool;
  has_hypercall : bool;
}.

Record CpuidResult := { eax : Z; ebx : Z; ecx : Z; edx : Z }.

(** [cpuid] is the processor's instruction. *)
Definition detect (cpuid : Z -> CpuidResult) : option HvFeatures :=
  let r := cpuid 0x40000000 in
  if negb (ebx r =? 0x7263694D) || negb (ecx r =? 0x666F736F) || negb (edx r =? 0x76482074)
  then None else
  if eax r <? 0x40000003
  then Some {| max_leaf := eax r; has_synic := false; has_hypercall := false |} else
  let features := cpuid 0x40000003 in
  Some {| max_leaf := eax r;
          has_synic := negb (Z.land (eax features) (Z.shiftl 1 2) =? 0);
          has_hypercall := negb (Z.land (eax features) (Z.shiftl 1 5) =? 0) |}.

(** ** Channel offers *)

Definition VMBUS_MESSAGE_CONNECTION_ID : Z := 1.
Definition VMBUS_MESSAGE_TYPE_CHANNEL : Z := 1.
Definition CHANNELMSG_OFFERCHANNEL : Z := 1.
Definition CHANNELMSG_REQUEST_OFFERS : Z := 3.
Definition CHANNELMSG_ALLOFFERS_DELIVERED : Z := 4.
Definition CHANNELMSG_INITIATE_CONTACT : Z := 14.
Definition CHANNELMSG_VERSION_RESPONSE : Z := 15.
Definition VERSION_WIN10 : Z := Z.shiftl 4 16.
Definition VERSION_WIN8_1 : Z := Z.shiftl 3 16.

Record ChannelOffer := {
  device_type : Guid;
  instance_id : Guid;
  child_relid : Z;
  connection_id : Z;
  monitor_id : Z;
  monitor_allocated : bool;
  is_dedicated_interrupt : bool;
}.

(** Every range below is inside the 196 bytes the guard requires. *)
Definition parse_offer (payload : list byte) : option ChannelOffer :=
  if zlen payload <? 196 then None else
  Some {| device_type := from_bytes (take 16 (drop 8 payload));
          instance_id := from_bytes (take 16 (drop 24 payload));
          child_relid := le_at 4 payload 184;
          connection_id := le_at 4 payload 192;
          monitor_id := le_at 1 payload 188;
          monitor_allocated := negb (le_at 1 payload 189 =? 0);
          is_dedicated_interrupt := negb (le_at 2 payload 190 =? 0) |}.

(** ** Version negotiation *)

Definition target_info_for_version (version : Z) : Z :=
  if VERSION_WIN8_1 <=? version then 0x0000000000000100 else 0.

(** The bytes of the 40-byte [VmbusInitiateContact]. *)
Definition initiate_contact (version : Z) (monitor1 monitor2 : DmaRegion) : list byte :=
  le_split 4 CHANNELMSG_INITIATE_CONTACT ++ le_split 4 0 ++ le_split 4 version ++
  le_split 4 0 ++ le_split 8 (target_info_for_version version) ++
  le_split 8 (paddr monitor1) ++ le_split 8 (paddr monitor2).

(** The closure of [try_version_async]; a [VmbusVersionResponse] is 12 bytes
    with its padding. *)
Definition version_matcher (_ : unit) (payload : list byte)
  : option (result unit HvError) * unit :=
  (if zlen payload <? 12 then None else
   if negb (le_at 4 payload 0 =? CHANNELMSG_VERSION_RESPONSE) then None else
   Some (if negb (le_at 1 payload 8 =? 0) then Ok tt else Err VersionRejected), tt).

(** The closure of [request_offers_async], with the offers it collected. *)
Definition offers_matcher (offers : list ChannelOffer) (payload : list byte)
  : option unit * list ChannelOffer :=
  if zlen payload <? 4 then (None, offers) else
  let msgtype := le_at 4 payload 0 in
  if msgtype =? CHANNELMSG_OFFERCHANNEL then
    match parse_offer payload with
    | Some offer => (None, offers ++ [offer])
    | None => (None, offers)
    end
  else if msgtype =? CHANNELMSG_ALLOFFERS_DELIVERED then (Some tt, offers)
  else (None, offers).

(** [embassy_time] ticks are microseconds. *)
Definition secs (n : Z) : Z := n * 1000000.

Record VmBus := {
  hcall : HypercallPage;
  synic : SynIC;
  version : Z;
  offers : list ChannelOffer;
  monitor_child_to_parent : DmaRegion;
  monitor_parent_to_child : DmaRegion;
}.

Definition find_offer (v : VmBus) (ty : Guid) : option ChannelOffer :=
  List.find (fun o => bool_decide (device_type o = ty)) (offers v).

Section vmbus.
Context `{Hypervisor} `{DmaAllocator world}.
(** Bounds on the parks and on the rounds of one poll. *)
Context (fuel pfuel : nat).

Definition try_version (h : HypercallPage) (s : SynIC) (v : Z) (monitor1 monitor2 : DmaRegion)
  : W (result unit HvError) :=
  _ ←? post_message h VMBUS_MESSAGE_CONNECTION_ID VMBUS_MESSAGE_TYPE_CHANNEL
         (initiate_contact v monitor1 monitor2);
  t ← gets now;
  '(r, _) ← wait_for_match fuel pfuel s (t + secs 5) version_matcher tt;
  mret (match r with Ok inner => inner | Err e => Err e end).

Fixpoint try_versions (h : HypercallPage) (s : SynIC) (monitor1 monitor2 : DmaRegion)
    (versions : list Z) : W (result (Z * DmaRegion * DmaRegion) HvError) :=
  match versions with
  | [] => mret (Err VersionRejected)
  | v :: vs =>
      r ← try_version h s v monitor1 monitor2;
      match r with
      | Ok _ => mret (Ok (v, monitor1, monitor2))
      | Err VersionRejected => try_versions h s monitor1 monitor2 vs
      | Err e => mret (Err e)
      end
  end.

Definition connect (h : HypercallPage) (s : SynIC)
  : W (result (Z * DmaRegion * DmaRegion) HvError) :=
  monitor1 ← alloc_coherent 4096 4096;
  monitor2 ← alloc_coherent 4096 4096;
  try_versions h s monitor1 monitor2 [VERSION_WIN10; VERSION_WIN8_1].

Definition request_offers (h : HypercallPage) (s : SynIC)
  : W (result (list ChannelOffer) HvError) :=
  let msg := le_split 4 CHANNELMSG_REQUEST_OFFERS ++ le_split 4 0 in
  _ ←? post_message h VMBUS_MESSAGE_CONNECTION_ID VMBUS_MESSAGE_TYPE_CHANNEL msg;
  t ← gets now;
  '(r, found) ← wait_for_match fuel pfuel s (t + secs 10) offers_matcher [];
  mret (match r with
        | Ok _ => Ok found
        | Err Timeout => if negb (bool_decide (found = [])) then Ok found else Err Timeout
        | Err e => Err e
        end).

Context (cpuid : Z -> CpuidResult) (crash_after_stage : Z).

Definition checkpoint (stage : Z) : W unit :=
  if crash_after_stage =? stage then panic UndefinedInstruction else mret tt.

Definition init : W (result VmBus HvError) :=
  match detect cpuid with
  | None => mret (Err NotHyperV)
  | Some features =>
      _ ← checkpoint 1;
      if negb (has_synic features) then mret (Err NoSynIC) else
      if negb (has_hypercall features) then mret (Err NoHypercall) else
      _ ← set_guest_os_id;
      _ ← checkpoint 2;
      h ←? HypercallPage_new;
      _ ← checkpoint 3;
      s ← SynIC_new;
      _ ← checkpoint 4;
      c ←? connect h s;
      let '(v, monitor1, monitor2) := c in
      _ ← checkpoint 5;
      os ←? request_offers h s;
      _ ← checkpoint 6;
      mret (Ok {| hcall := h; synic := s; version := v; offers := os;
                  monitor_child_to_parent := monitor2;
                  monitor_parent_to_child := monitor1 |})
  end.

(** [embclox_hal_x86::idt::set_handler]. *)
Definition set_handler (vector : Z) : W unit :=
  _ ← lift (rassert (32 <=? vector));
  modify (log_event (EvSetHandler vector)).

(** [t] is the handler's table of page addresses. *)
Definition try_init (t : isr_tables) : W (result (option VmBus) HvError * isr_tables) :=
  match detect cpuid with
  | Some f =>
      if has_synic f && has_hypercall f then
        _ ← set_handler VMBUS_VECTOR;
        r ← init;
        match r with
        | Err e => mret (Err e, t)
        | Ok v =>
            '(_, t) ← lift (publish_siefp Bsp (vaddr (siefp (synic v))) t);
            '(_, t) ← lift (publish_simp Bsp (vaddr (simp (synic v))) t);
            mret (Ok (Some v), t)
        end
      else mret (Ok None, t)
  | None => mret (Ok None, t)
  end.
End vmbus.

(** ** Offers *)

(** An OFFERCHANNEL message in the documented layout; [mid] is the part from
    the latency field to the end of the user-defined area. *)
Definition offer_message (hdr : list byte) (o : ChannelOffer) (mid : list byte)
    (ded : Z) (alloc : Z) (rest : list byte) : list byte :=
  hdr ++ guid_bytes (device_type o) ++ guid_bytes (instance_id o) ++ mid ++
  le_split 4 (child_relid o) ++ le_split 1 (monitor_id o) ++ le_split 1 alloc ++
  le_split 2 ded ++ le_split 4 (connection_id o) ++ rest.

Lemma take_drop_skip {A} n k j (l1 l2 : list A) :
  length l1 = k -> take n (drop (k + j) (l1 ++ l2)) = take n (drop j l2).
Proof. intros <-. by rewrite drop_app_add. Qed.

(** [parse_offer] reads a channel offer back from the documented
    196-byte layout: both GUIDs, the channel and connection ids, the monitor
    id and the two flags; trailing bytes are ignored and a shorter message is
    refused. *)
Theorem parse_offer_roundtrip hdr o mid ded alloc rest :
  length hdr = 8%nat -> length (guid_bytes (device_type o)) = 16%nat ->
  length (guid_bytes (instance_id o)) = 16%nat -> length mid = 144%nat ->
  0 <= child_relid o < U32 -> 0 <= connection_id o < U32 -> 0 <= monitor_id o < U8 ->
  0 <= ded < U16 -> 0 <= alloc < U8 ->
  monitor_allocated o = negb (alloc =? 0) -> is_dedicated_interrupt o = negb (ded =? 0) ->
  parse_offer (offer_message hdr o mid ded alloc rest) = Some o /\
  forall n, (n < 196)%nat -> parse_offer (take n (offer_message hdr o mid ded alloc rest)) = None.
Proof.
  intros Hh Hd Hi Hm Hr Hc Hmon Hded Hal Hma Hdi.
  set (l1 := le_split 4 (child_relid o)). set (l2 := le_split 1 (monitor_id o)).
  set (l3 := le_split 1 alloc). set (l4 := le_split 2 ded).
  assert (Hlen : zlen (offer_message hdr o mid ded alloc rest) = 196 + zlen rest).
  { unfold offer_message, zlen. rewrite !length_app, !length_le_split. lia. }
  pose proof (zlen_nonneg rest). split.
  - unfold parse_offer. rewrite (proj2 (Z.ltb_ge _ _)) by lia. unfold offer_message.
    unfold le_at at 1 2 3 4 5.
    rewrite (take_drop_skip 16 8 0), (take_drop_skip 16 8 16) by done.
    rewrite (take_drop_skip 4 8 176), (take_drop_skip 4 8 184), (take_drop_skip 1 8 180),
      (take_drop_skip 1 8 181), (take_drop_skip 2 8 182) by done.
    rewrite (take_drop_skip 16 16 0), (take_drop_skip 4 16 160), (take_drop_skip 4 16 168),
      (take_drop_skip 1 16 164), (take_drop_skip 1 16 165), (take_drop_skip 2 16 166) by done.
    rewrite (take_drop_skip 4 16 144), (take_drop_skip 4 16 152), (take_drop_skip 1 16 148),
      (take_drop_skip 1 16 149), (take_drop_skip 2 16 150) by done.
    rewrite (take_drop_skip 4 144 0), (take_drop_skip 4 144 8), (take_drop_skip 1 144 4),
      (take_drop_skip 1 144 5), (take_drop_skip 2 144 6) by done.
    rewrite (take_drop_skip 4 4 4), (take_drop_skip 1 4 0), (take_drop_skip 1 4 1),
      (take_drop_skip 2 4 2) by apply length_le_split.
    rewrite (take_drop_skip 4 1 3), (take_drop_skip 1 1 0), (take_drop_skip 2 1 1)
      by apply length_le_split.
    rewrite (take_drop_skip 4 1 2), (take_drop_skip 2 1 0) by apply length_le_split.
    rewrite (take_drop_skip 4 2 0) by apply length_le_split.
    rewrite !drop_0, !take_app_length' by (done || by rewrite length_le_split).
    unfold l1, l2, l3, l4. rewrite !le_combine_split, !Z.mod_small by done.
    rewrite <- Hma, <- Hdi. by destruct o as [[] [] ? ? ? ? ?].
  - intros n Hn. unfold parse_offer. rewrite (proj2 (Z.ltb_lt _ _)); [done|].
    unfold zlen. rewrite length_take. lia.
Qed.

(** ** Enumeration and negotiation against a host *)

(** The offer a message carries, if it is an OFFERCHANNEL that parses. *)
Definition offer_of (payload : list byte) : option ChannelOffer :=
  if zlen payload <? 4 then None else
  if le_at 4 payload 0 =? CHANNELMSG_OFFERCHANNEL then parse_offer payload else None.

Definition is_all_delivered (payload : list byte) : bool :=
  (4 <=? zlen payload) && (le_at 4 payload 0 =? CHANNELMSG_ALLOFFERS_DELIVERED).

(** What a message says about the version requested. *)
Definition version_reply (payload : list byte) : option bool :=
  if zlen payload <? 12 then None else
  if negb (le_at 4 payload 0 =? CHANNELMSG_VERSION_RESPONSE) then None else
  Some (negb (le_at 1 payload 8 =? 0)).

Lemma offers_matcher_spec os m :
  offers_matcher os m =
  (if is_all_delivered m then Some tt else None,
   os ++ option_list (offer_of m)).
Proof.
  unfold offers_matcher, offer_of, is_all_delivered. rewrite (Z.ltb_antisym 4).
  destruct (4 <=? zlen m); simpl; [|by rewrite app_nil_r].
  destruct (Z.eqb_spec (le_at 4 m 0) CHANNELMSG_OFFERCHANNEL) as [->|].
  - simpl. by destruct (parse_offer m); simpl; rewrite ?app_nil_r.
  - destruct (_ =? CHANNELMSG_ALLOFFERS_DELIVERED); simpl; by rewrite app_nil_r.
Qed.

Lemma unmatched_offers os ms os' :
  unmatched offers_matcher os ms os' ->
  os' = os ++ omap offer_of ms /\ Forall (fun m => is_all_delivered m = false) ms.
Proof.
  induction 1 as [s|s m s1 ms s2 Hm _ [-> IH]]; [by rewrite app_nil_r|].
  rewrite offers_matcher_spec in Hm. destruct (is_all_delivered m) eqn:E; [done|].
  injection Hm as <-. split; [|by constructor].
  rewrite <- app_assoc. f_equal. simpl. by destruct (offer_of m).
Qed.

Lemma version_matcher_spec st m :
  (version_matcher st m).1 =
  match version_reply m with
  | Some true => Some (Ok tt)
  | Some false => Some (Err VersionRejected)
  | None => None
  end.
Proof.
  unfold version_matcher, version_reply. simpl.
  destruct (zlen m <? 12); [done|]. destruct (negb (_ =? CHANNELMSG_VERSION_RESPONSE)); [done|].
  by destruct (negb _).
Qed.

Lemma unmatched_versions st ms st' :
  unmatched version_matcher st ms st' -> Forall (fun m => version_reply m = None) ms.
Proof.
  induction 1 as [|s m s1 ms s2 Hm _ IH]; [done|]. constructor; [|done].
  pose proof (version_matcher_spec s m) as Hs. rewrite Hm in Hs. simpl in Hs.
  by destruct (version_reply m) as [[]|].
Qed.

Section host.
Context `{Hv : Hypervisor} `{Dma : DmaAllocator world} (s : SynIC) `{!SimpProtocol s}.
Context (fuel pfuel : nat) (h : HypercallPage).

(** The host's answer to a request for version [v] sent in world [w]: the
    first VERSION_RESPONSE among the messages it delivers from then on. *)
Definition answered (v : Z) (m1 m2 : DmaRegion) (w : world) (acc : bool) (w' : world) : Prop :=
  exists wp arrivals pre m,
    post_message h VMBUS_MESSAGE_CONNECTION_ID VMBUS_MESSAGE_TYPE_CHANNEL
      (initiate_contact v m1 m2) w = Ret (Ok tt, wp) /\
    inbox wp ++ arrivals = pre ++ m :: inbox w' /\
    Forall (fun m => version_reply m = None) pre /\ version_reply m = Some acc.

(** A [Result]-returning step of a [?] chain that returned. *)
Lemma try_bind_inv {A B} (c : W (result A HvError)) (k : A -> W (result B HvError)) w r w' :
  (c ≫= (fun x => match x with Ok a => k a | Err e => mret (Err e) end)) w = Ret (r, w') ->
  exists x w1, c w = Ret (x, w1) /\
    match x with
    | Ok a => k a w1 = Ret (r, w')
    | Err e => r = Err e /\ w' = w1
    end.
Proof.
  intros Hb. apply bind_inv in Hb as ([a|e] & w1 & Hc & Hk); exists (Ok a) || exists (Err e);
    exists w1; (split; [done|]); [done|]. unfold mret, M_ret in Hk. by simplify_eq.
Qed.

Lemma try_version_answered v m1 m2 w res w' :
  try_version fuel pfuel h s v m1 m2 w = Ret (res, w') ->
  match res with
  | Ok _ => answered v m1 m2 w true w'
  | Err VersionRejected => answered v m1 m2 w false w'
  | Err _ => True
  end.
Proof.
  intros Ht. apply try_bind_inv in Ht as ([[]|e] & wp & Hp & Ht).
  2: { destruct Ht as [-> _]. destruct (post_message_err _ _ _ _ _ _ _ Hp) as [->|[st ->]]; done. }
  apply bind_inv in Ht as (t & w1 & [= <- <-] & Ht).
  apply bind_inv in Ht as ([r st] & w2 & Hw & [= <- <-]).
  destruct (wait_for_match_post _ _ _ _ _ _ _ _ _ _ Hw) as (arr & msgs & Hin & Hpost).
  destruct r as [r|e]; simpl in Hpost; [|by destruct Hpost as [-> _]].
  destruct Hpost as (pre & m & st1 & -> & Hu & Hm).
  apply unmatched_versions in Hu. pose proof (version_matcher_spec st1 m) as Hs.
  rewrite Hm in Hs. simpl in Hs. rewrite <- app_assoc in Hin. simpl in Hin.
  assert (forall acc, version_reply m = Some acc -> answered v m1 m2 w acc w2) as Hans.
  { intros acc Hacc. by exists wp, arr, pre, m. }
  destruct (version_reply m) as [[]|]; simplify_eq; by apply Hans.
Qed.
End host.

(** [request_offers] returns exactly the offers that parse among the
    messages the host delivered after the request, in their order; it stops
    at the first ALLOFFERS_DELIVERED, or at the deadline if some offer had
    arrived by then. *)
Theorem request_offers_collects `{Hv : Hypervisor} (s : SynIC) `{!SimpProtocol s}
    fuel pfuel h w found w' :
  request_offers fuel pfuel h s w = Ret (Ok found, w') ->
  exists wp arrivals msgs,
    post_message h VMBUS_MESSAGE_CONNECTION_ID VMBUS_MESSAGE_TYPE_CHANNEL
      (le_split 4 CHANNELMSG_REQUEST_OFFERS ++ le_split 4 0) w = Ret (Ok tt, wp) /\
    inbox wp ++ arrivals = msgs ++ inbox w' /\ found = omap offer_of msgs /\
    ((exists pre m, msgs = pre ++ [m] /\ is_all_delivered m = true /\
        Forall (fun m => is_all_delivered m = false) pre) \/
     (found <> [] /\ now wp + secs 10 <= now w' /\
        Forall (fun m => is_all_delivered m = false) msgs)).
Proof.
  intros Hr. apply try_bind_inv in Hr as ([[]|e] & wp & Hp & Hr); [|by destruct Hr].
  apply bind_inv in Hr as (t & w1 & [= <- <-] & Hr).
  apply bind_inv in Hr as ([r os] & w2 & Hw & Hres).
  destruct (wait_for_match_post _ _ _ _ _ _ _ _ _ _ Hw) as (arr & msgs & Hin & Hpost).
  injection Hres as Hres Hw2. subst w2. exists wp, arr, msgs. split; [done|]. split; [done|].
  destruct r as [[]|e]; simpl in Hpost.
  - destruct Hpost as (pre & m & st1 & -> & Hu & Hm).
    apply unmatched_offers in Hu as [-> Hall]. rewrite offers_matcher_spec in Hm.
    destruct (is_all_delivered m) eqn:Hd; [|done]. injection Hm as <-.
    injection Hres as <-. split; [|left; eauto].
    rewrite omap_app. simpl. by destruct (offer_of m).
  - destruct Hpost as (-> & Hu & Hd). apply unmatched_offers in Hu as [-> Hall].
    simpl in Hres. case_bool_decide; simplify_eq/=. eauto.
Qed.

(** [connect] returns a version only if the host's first
    VERSION_RESPONSE to the request for that version accepts it, and it falls
    back to WIN8_1 only after the host rejected WIN10 in the same way; it
    reports [VersionRejected] only when the host rejected both. *)
Theorem connect_negotiates `{Hv : Hypervisor} `{Dma : DmaAllocator world} (s : SynIC)
    `{!SimpProtocol s} fuel pfuel h w res w' :
  connect fuel pfuel h s w = Ret (res, w') ->
  exists m1 m2 w0, 
    match res with
    | Ok (v, m1', m2') => m1' = m1 /\ m2' = m2 /\
        (v = VERSION_WIN10 /\ answered s h VERSION_WIN10 m1 m2 w0 true w' \/
         v = VERSION_WIN8_1 /\ exists w1,
           answered s h VERSION_WIN10 m1 m2 w0 false w1 /\
           answered s h VERSION_WIN8_1 m1 m2 w1 true w')
    | Err VersionRejected => exists w1,
        answered s h VERSION_WIN10 m1 m2 w0 false w1 /\
        answered s h VERSION_WIN8_1 m1 m2 w1 false w'
    | Err _ => True
    end.
Proof.
  intros Hc. apply bind_inv in Hc as (m1 & wa & _ & Hc).
  apply bind_inv in Hc as (m2 & w0 & _ & Hc). exists m1, m2, w0.
  apply bind_inv in Hc as (r1 & w1 & H1 & Hc).
  pose proof (try_version_answered _ _ _ _ _ _ _ _ _ _ H1) as A1.
  destruct r1 as [[]|e1]; [injection Hc as <- <-; eauto|].
  destruct e1; try (by injection Hc as <- <-).
  apply bind_inv in Hc as (r2 & w2 & H2 & Hc).
  pose proof (try_version_answered _ _ _ _ _ _ _ _ _ _ H2) as A2.
  destruct r2 as [[]|e2]; [injection Hc as <- <-; eauto 10|].
  destruct e2; injection Hc as <- <-; eauto.
Qed.

(** ** Witnesses *)

Definition offer0 : ChannelOffer :=
  {| device_type := NETVSC; instance_id := SYNTHVID; child_relid := 7; connection_id := 70001;
     monitor_id := 3; monitor_allocated := true; is_dedicated_interrupt := false |}.

Definition offer_msg0 : list byte :=
  offer_message (le_split 8 1) offer0 (replicate 144 Byte.xff) 0 1 [].

Lemma parse_offer_roundtrip_witness : parse_offer offer_msg0 = Some offer0.
Proof.
  apply (parse_offer_roundtrip (le_split 8 1) offer0 (replicate 144 Byte.xff) 0 1 []);
    by vm_compute.
Defined.

Definition hcall0 : HypercallPage :=
  {| hpage := {| vaddr := 8192; paddr := 8192; rsize := 4096 |};
     msg_buffer := {| vaddr := 12288; paddr := 12288; rsize := 4096 |} |}.

(** The host answers with one offer and the end of the list. *)
Lemma request_offers_collects_witness :
  exists wp arrivals msgs w',
    @request_offers (queue_host synic0) 1 8 hcall0 synic0
      (world_of [offer_msg0; le_split 8 4]) = Ret (Ok [offer0], w') /\
    @inbox _ _ (queue_protocol synic0) wp ++ arrivals =
      msgs ++ @inbox _ _ (queue_protocol synic0) w' /\ [offer0] = omap offer_of msgs.
Proof.
  destruct (value_of_Some (@request_offers (queue_host synic0) 1 8 hcall0 synic0
    (world_of [offer_msg0; le_split 8 4])) (Ok [offer0])) as [w' Hrun];
    [vm_compute; reflexivity|].
  destruct (@request_offers_collects (queue_host synic0) synic0 (queue_protocol synic0)
    1 8 hcall0 _ _ _ Hrun) as (wp & arr & msgs & _ & Hin & Hf & _).
  exists wp, arr, msgs, w'. split; [exact Hrun|split; [exact Hin|exact Hf]].
Defined.

(** Two monitor pages at fixed places. *)
Definition dma0 : DmaAllocator world :=
  {| alloc_coherent sz _ w := Ret ({| vaddr := 16384; paddr := 16384; rsize := sz |}, w);
     free_coherent _ w := Ret (tt, w) |}.

(** The host rejects the first version and accepts the second. *)
Lemma connect_negotiates_witness :
  exists m1 m2 w0 w1 w',
    @connect (queue_host synic0) dma0 1 8 hcall0 synic0
      (world_of [le_split 12 15; le_split 8 15 ++ le_split 4 1]) =
      Ret (Ok (VERSION_WIN8_1, m1, m2), w') /\
    @answered (queue_host synic0) synic0 (queue_protocol synic0) hcall0
      VERSION_WIN10 m1 m2 w0 false w1.
Proof.
  set (m := {| vaddr := 16384; paddr := 16384; rsize := 4096 |}).
  destruct (value_of_Some (@connect (queue_host synic0) dma0 1 8 hcall0 synic0
    (world_of [le_split 12 15; le_split 8 15 ++ le_split 4 1]))
    (Ok (VERSION_WIN8_1, m, m))) as [w' Hrun]; [vm_compute; reflexivity|].
  destruct (@connect_negotiates (queue_host synic0) dma0 synic0 (queue_protocol synic0)
    1 8 hcall0 _ _ _ Hrun) as (m1 & m2 & w0 & <- & <- & Hcase).
  destruct Hcase as [[Hv _]|(_ & w1 & Ha & _)]; [discriminate Hv|].
  exists m, m, w0, w1, w'. split; [exact Hrun|exact Ha].
Defined.
