(* ===== verification/Driver.v ===== *)
(** The driver framework ([crates/embclox-driver/src]): driver traits, the
    registry ([registry.rs]) with its probe loop, and the default drivers
    ([defaults.rs]).  The state is that of the machine during probing, with
    what a [ProbeCtx] borrows. *)

From Stdlib Require Import String.
From stdpp Require Import strings.
From S2P Require Import Prelude Mem Dma World Hypercall Synic VmBus Pci.

Inductive ProbeError :=
| InvalidIrqLine (line : Z)
| NoFreeVector
| MmioMap
| DmaAlloc
| DriverFailed (reason : string).

Section framework.
Context {St Nic : Type}.

(** The traits [PciDriver] and [VmBusDriver], for devices of type [Dev]. *)
Record Driver (Dev : Type) := {
  name : string;
  priority : Z;
  matches : Dev -> bool;
  probe : Dev -> M St (result Nic ProbeError);
}.
#[global] Arguments name {Dev} _.
#[global] Arguments priority {Dev} _.
#[global] Arguments matches {Dev} _ _.
#[global] Arguments probe {Dev} _ _.

Record ProbedNic := {
  driver : Nic;
  nic_priority : Z;
  nic_name : string;
}.

Record DriverRegistry := {
  pci : list (Driver PciDevice);
  vmbus : list (Driver ChannelOffer);
}.

Definition new_registry : DriverRegistry := {| pci := []; vmbus := [] |}.

Definition register_pci (r : DriverRegistry) (drv : Driver PciDevice) : DriverRegistry :=
  {| pci := pci r ++ [drv]; vmbus := vmbus r |}.

Definition register_vmbus (r : DriverRegistry) (drv : Driver ChannelOffer) : DriverRegistry :=
  {| pci := pci r; vmbus := vmbus r ++ [drv] |}.

(** The in-tree drivers. *)
Section defaults.
Context (E1000Driver TulipDriver : Driver PciDevice) (NetvscDriver : Driver ChannelOffer).

Definition register_default_drivers (r : DriverRegistry) : DriverRegistry :=
  register_vmbus (register_pci (register_pci r E1000Driver) TulipDriver) NetvscDriver.

Definition register_named_driver (r : DriverRegistry) (n : string) : DriverRegistry :=
  if bool_decide (n = "e1000"%string) then register_pci r E1000Driver
  else if bool_decide (n = "tulip"%string) then register_pci r TulipDriver
  else if bool_decide (n = "netvsc"%string) then register_vmbus r NetvscDriver
  else r.
End defaults.

Definition PROBE_BUDGET : nat := 4.

(** The inner loops of [probe_all]: the first driver, in registration order,
    that matches the device and probes it successfully. *)
Fixpoint probe_device {Dev} (drivers : list (Driver Dev)) (dev : Dev) : M St (option ProbedNic) :=
  match drivers with
  | [] => mret None
  | drv :: rest =>
      if matches drv dev then
        r ← probe drv dev;
        match r with
        | Ok nic => mret (Some {| driver := nic; nic_priority := priority drv; nic_name := name drv |})
        | Err _ => probe_device rest dev
        end
      else probe_device rest dev
  end.

Fixpoint probe_pci (drivers : list (Driver PciDevice)) (devs : list PciDevice)
    (nics : list ProbedNic) (claimed : gset (Z * Z * Z)) : M St (list ProbedNic) :=
  match devs with
  | [] => mret nics
  | dev :: rest =>
      if (PROBE_BUDGET <=? length nics)%nat then mret nics else
      if bool_decide (key dev ∈ claimed) then probe_pci drivers rest nics claimed else
      o ← probe_device drivers dev;
      match o with
      | Some nic => probe_pci drivers rest (nics ++ [nic]) ({[key dev]} ∪ claimed)
      | None => probe_pci drivers rest nics claimed
      end
  end.

Fixpoint probe_vmbus (drivers : list (Driver ChannelOffer)) (devs : list ChannelOffer)
    (nics : list ProbedNic) : M St (list ProbedNic) :=
  match devs with
  | [] => mret nics
  | offer :: rest =>
      if (PROBE_BUDGET <=? length nics)%nat then mret nics else
      o ← probe_device drivers offer;
      match o with
      | Some nic => probe_vmbus drivers rest (nics ++ [nic])
      | None => probe_vmbus drivers rest nics
      end
  end.

(** [ctx.vmbus]: the handle, when the host is Hyper-V. *)
Context `{Ports St} (ctx_vmbus : St -> option VmBus).

Definition probe_all (registry : DriverRegistry) : M St (list ProbedNic) :=
  devs ← enumerate;
  nics ← probe_pci (pci registry) devs [] ∅;
  offers ← gets (fun s => match ctx_vmbus s with Some v => offers v | None => [] end);
  probe_vmbus (vmbus registry) offers nics.

End framework.

Arguments Driver : clear implicits.
Arguments ProbedNic : clear implicits.
Arguments DriverRegistry : clear implicits.

(** ** Properties *)

(** [drv] failed on the device. *)
Definition fails {St Nic Dev} (drv : Driver St Nic Dev) (dev : Dev) : Prop :=
  exists s e s', probe drv dev s = Ret (Err e, s').

(** Who gets the device: the driver that probed it, when all drivers
    registered before it that match the device failed on it; nobody when all
    that match failed. *)
Definition goes_to {St Nic Dev} (drivers : list (Driver St Nic Dev)) (dev : Dev)
    (o : option (ProbedNic Nic)) : Prop :=
  match o with
  | Some nic => exists before drv after, drivers = before ++ drv :: after /\
      matches drv dev = true /\ nic_name nic = name drv /\ nic_priority nic = priority drv /\
      (exists s s', probe drv dev s = Ret (Ok (driver nic), s')) /\
      (forall d, d ∈ before -> matches d dev = true -> fails d dev)
  | None => forall d, d ∈ drivers -> matches d dev = true -> fails d dev
  end.

(** What a scan of [devs] adds to [nics]: devices are given out in order
    until there are none left or the budget is reached. *)
Definition scanned {St Nic Dev} (drivers : list (Driver St Nic Dev)) (devs : list Dev)
    (nics nics' : list (ProbedNic Nic)) : Prop :=
  exists k outs, Forall2 (goes_to drivers) (take k devs) outs /\
    nics' = nics ++ omap id outs /\ (length nics' <= PROBE_BUDGET)%nat /\
    ((length nics' < PROBE_BUDGET)%nat -> take k devs = devs).

Section facts.
Context {St Nic : Type} (good : St -> Prop).

(** From a good state a probe returns, in a good state. *)
Definition total {Dev} (drivers : list (Driver St Nic Dev)) : Prop :=
  forall drv, drv ∈ drivers -> forall dev s, good s ->
  exists r s', probe drv dev s = Ret (r, s') /\ good s'.

Lemma goes_to_cons {Dev} (d : Driver St Nic Dev) drivers dev o :
  (matches d dev = true -> fails d dev) -> goes_to drivers dev o -> goes_to (d :: drivers) dev o.
Proof.
  intros Hd. destruct o as [nic|].
  - intros (before & drv & after & -> & Hm & Hn & Hp & Hs & Hb). exists (d :: before), drv, after.
    split_and!; [done..|]. intros x [->|Hx]%elem_of_cons; [done|by apply Hb].
  - intros Hall x [->|Hx]%elem_of_cons; [done|by apply Hall].
Qed.

Lemma probe_device_goes {Dev} (drivers : list (Driver St Nic Dev)) dev s :
  total drivers -> good s ->
  exists o s', probe_device drivers dev s = Ret (o, s') /\ good s' /\ goes_to drivers dev o.
Proof.
  revert s. induction drivers as [|drv drivers IH]; intros s Ht Hg.
  { exists None, s. split_and!; [done..|]. by intros d ?%elem_of_nil. }
  assert (Hrest : total drivers) by (intros d Hd; apply Ht; by right).
  cbn [probe_device]. destruct (matches drv dev) eqn:Hm.
  - destruct (Ht drv ltac:(left) dev s Hg) as (r & s1 & E & Hg1).
    erewrite bind_Ret by exact E. cbv beta. destruct r as [nic|e].
    + eexists (Some _), s1. split_and!; [done..|]. exists [], drv, drivers.
      split_and!; [done..|by exists s, s1|]. by intros d ?%elem_of_nil.
    + destruct (IH s1 Hrest Hg1) as (o & s2 & E2 & Hg2 & Ho). exists o, s2. split_and!; [done..|].
      apply goes_to_cons; [|done]. intros _. by exists s, e, s1.
  - destruct (IH s Hrest Hg) as (o & s2 & E2 & Hg2 & Ho). exists o, s2. split_and!; [done..|].
    apply goes_to_cons; [|done]. by rewrite Hm.
Qed.

Lemma scanned_stop {Dev} (drivers : list (Driver St Nic Dev)) devs nics :
  length nics = PROBE_BUDGET -> scanned drivers devs nics nics.
Proof.
  intros Hl. exists 0%nat, []. split_and!; [constructor|by rewrite app_nil_r|lia|lia].
Qed.

Lemma scanned_nil {Dev} (drivers : list (Driver St Nic Dev)) nics :
  (length nics <= PROBE_BUDGET)%nat -> scanned drivers [] nics nics.
Proof. intros Hl. exists 0%nat, []. split_and!; [constructor|by rewrite app_nil_r|done..]. Qed.

Lemma scanned_cons {Dev} (drivers : list (Driver St Nic Dev)) dev devs nics o nics' :
  goes_to drivers dev o -> scanned drivers devs (nics ++ option_list o) nics' ->
  scanned drivers (dev :: devs) nics nics'.
Proof.
  intros Ho (k & outs & Hf & -> & Hl & Hfull). exists (S k), (o :: outs). split_and!.
  - by constructor.
  - rewrite <- app_assoc. by destruct o.
  - done.
  - intros Hlt. simpl. by rewrite Hfull.
Qed.

Lemma probe_pci_scans (drivers : list (Driver St Nic PciDevice)) devs nics claimed s :
  total drivers -> NoDup (key <$> devs) -> (forall dev, dev ∈ devs -> key dev ∉ claimed) ->
  (length nics <= PROBE_BUDGET)%nat -> good s ->
  exists nics' s', probe_pci drivers devs nics claimed s = Ret (nics', s') /\ good s' /\
    scanned drivers devs nics nics'.
Proof.
  intros Ht. revert nics claimed s.
  induction devs as [|dev devs IH]; intros nics claimed s Hnd Hcl Hlen Hg.
  { exists nics, s. split_and!; [done..|by apply scanned_nil]. }
  rewrite fmap_cons in Hnd. apply NoDup_cons in Hnd as [Hk Hnd].
  cbn [probe_pci]. destruct (Nat.leb_spec PROBE_BUDGET (length nics)) as [Hfull|Hroom].
  { exists nics, s. split_and!; [done..|]. apply scanned_stop. lia. }
  rewrite bool_decide_false by (apply Hcl; left).
  destruct (probe_device_goes drivers dev s Ht Hg) as (o & s1 & E & Hg1 & Ho).
  erewrite bind_Ret by exact E. cbv beta.
  assert (Hcl' : forall d, d ∈ devs -> key d ∉ claimed) by (intros; apply Hcl; by right).
  destruct o as [nic|].
  - destruct (IH (nics ++ [nic]) ({[key dev]} ∪ claimed) s1 Hnd) as (nics' & s2 & E2 & Hg2 & Hs);
      [|rewrite length_app; simpl; lia|done|].
    + intros d Hd. apply not_elem_of_union. split; [|by apply Hcl'].
      apply not_elem_of_singleton. intros Heq. apply Hk. rewrite <- Heq. by apply list_elem_of_fmap_2.
    + exists nics', s2. split_and!; [done..|]. by apply (scanned_cons _ _ _ _ (Some nic)).
  - destruct (IH nics claimed s1 Hnd Hcl' Hlen Hg1) as (nics' & s2 & E2 & Hg2 & Hs).
    exists nics', s2. split_and!; [done..|]. apply (scanned_cons _ _ _ _ None); [done|].
    by rewrite app_nil_r.
Qed.

Lemma probe_vmbus_scans (drivers : list (Driver St Nic ChannelOffer)) devs nics s :
  total drivers -> (length nics <= PROBE_BUDGET)%nat -> good s ->
  exists nics' s', probe_vmbus drivers devs nics s = Ret (nics', s') /\ good s' /\
    scanned drivers devs nics nics'.
Proof.
  intros Ht. revert nics s. induction devs as [|dev devs IH]; intros nics s Hlen Hg.
  { exists nics, s. split_and!; [done..|by apply scanned_nil]. }
  cbn [probe_vmbus]. destruct (Nat.leb_spec PROBE_BUDGET (length nics)) as [Hfull|Hroom].
  { exists nics, s. split_and!; [done..|]. apply scanned_stop. lia. }
  destruct (probe_device_goes drivers dev s Ht Hg) as (o & s1 & E & Hg1 & Ho).
  erewrite bind_Ret by exact E. cbv beta. destruct o as [nic|].
  - destruct (IH (nics ++ [nic]) s1) as (nics' & s2 & E2 & Hg2 & Hs); [|done|].
    { rewrite length_app. simpl. lia. }
    exists nics', s2. split_and!; [done..|]. by apply (scanned_cons _ _ _ _ (Some nic)).
  - destruct (IH nics s1 Hlen Hg1) as (nics' & s2 & E2 & Hg2 & Hs).
    exists nics', s2. split_and!; [done..|]. apply (scanned_cons _ _ _ _ None); [done|].
    by rewrite app_nil_r.
Qed.

End facts.

(** C26: when probes return and keep [good], [probe_all] returns, and gives
    out first the PCI functions that answer, in scan order, and then the
    VMBus offers: each goes to the first registered driver that matches it
    and does not fail on it, at most four devices are brought up, and with
    fewer than four every function and every offer was given out or refused
    by all drivers that match it. *)
Theorem probe_all_gives_out {St Nic} `{ConfigSpace St} (ctx_vmbus : St -> option VmBus)
    (good : St -> Prop) (reg : DriverRegistry St Nic) offs (s : St) :
  (forall s1, good s1 -> match ctx_vmbus s1 with Some v => offers v | None => [] end = offs) ->
  (forall devs s1, enumerate s = Ret (devs, s1) -> good s1) ->
  total good (pci reg) -> total good (vmbus reg) ->
  exists nics_pci nics s', probe_all ctx_vmbus reg s = Ret (nics, s') /\ good s' /\
    scanned (pci reg) (functions_of (config s) (seqZ 0 32)) [] nics_pci /\
    scanned (vmbus reg) offs nics_pci nics.
Proof.
  intros Hoffs Hscan Hp Hv.
  destruct (runs_enum_devs (config s) (seqZ 0 32) [] s (fun _ => eq_refl)) as (s1 & E1 & _).
  change ([] ++ functions_of (config s) (seqZ 0 32)) with (functions_of (config s) (seqZ 0 32)) in E1.
  destruct (probe_pci_scans good (pci reg) (functions_of (config s) (seqZ 0 32)) [] ∅ s1 Hp)
    as (np & s2 & E2 & Hg2 & Hs2);
    [apply functions_of_NoDup, NoDup_seqZ|by intros; apply not_elem_of_empty|apply Nat.le_0_l
    |by eapply Hscan|].
  assert (Hlen : (length np <= PROBE_BUDGET)%nat) by (by destruct Hs2 as (? & ? & _ & _ & ? & _)).
  destruct (probe_vmbus_scans good (vmbus reg) offs np s2 Hv Hlen Hg2) as (nv & s3 & E3 & Hg3 & Hs3).
  exists np, nv, s3. split_and!; [|done..].
  unfold probe_all. erewrite bind_Ret by exact E1. cbv beta.
  erewrite bind_Ret by exact E2. cbv beta. erewrite bind_Ret by reflexivity. cbv beta.
  rewrite (Hoffs s2 Hg2). exact E3.
Qed.

(** A PCI driver that takes every device, notes it and fails. *)
Definition failing : Driver (list PciDevice) unit PciDevice :=
  {| name := "failing"; priority := 0; matches _ := true;
     probe dev := _ ← modify (fun l => l ++ [dev]); mret (Err DmaAlloc) |}.

(** The probe budget counts successes only: however many devices there
    are, a driver whose probe fails is given every one of them, along with
    whatever each attempt allocates. *)
Theorem failures_exceed_budget devs tried :
  probe_pci [failing] devs [] ∅ tried = Ret ([], tried ++ devs).
Proof.
  revert tried. induction devs as [|dev devs IH]; intros tried; [by rewrite app_nil_r|].
  change (probe_pci [failing] (dev :: devs) [] ∅ tried) with
    (probe_pci [failing] devs [] ∅ (tried ++ [dev])).
  by rewrite IH, <- app_assoc.
Qed.

(** ** Witness *)

(** The bus of [Pci.demo_bus] with a driver that takes Intel devices, and
    fails on all but one. *)
Definition picky : Driver Z Z PciDevice :=
  {| name := "picky"; priority := 20; matches d := vendor d =? 0x8086;
     probe d := mret (if device d =? 0x100E then Ok (dev d) else Err NoFreeVector) |}.

Lemma probe_all_gives_out_witness :
  exists nics s', @probe_all Z Z demo_ports (fun _ => None) {| pci := [picky]; vmbus := [] |} 0 =
    Ret (nics, s') /\ (fun n => (nic_name n, driver n)) <$> nics = [("picky"%string, 3)].
Proof.
  destruct (@probe_all_gives_out Z Z demo_ports demo_bus (fun _ => None) (fun _ => True)
    {| pci := [picky]; vmbus := [] |} [] 0) as (np & nics & s' & E & _).
  - reflexivity.
  - intros. exact I.
  - intros drv ->%list_elem_of_singleton dev s _. by repeat eexists.
  - intros drv Hd%elem_of_nil. destruct Hd.
  - exists nics, s'. split; [exact E|].
    assert (Hv : value_of (@probe_all Z Z demo_ports (fun _ => None) {| pci := [picky]; vmbus := [] |} 0)
      = Some nics) by (by rewrite E).
    vm_compute in Hv. injection Hv as <-. reflexivity.
Defined.
