(* ===== verification/Channel.v ===== *)
(** VMBus channels ([crates/embclox-hyperv/src/channel.rs]): the channel
    handle over two ring halves, the GPADL messages that describe memory to
    the host, and opening a channel. *)

From S2P Require Import Prelude Mem Dma World Hypercall Synic Ring RingFacts RingFifo VmBus Isr.

Definition CHANNELMSG_OPENCHANNEL : Z := 5.
Definition CHANNELMSG_OPENCHANNEL_RESULT : Z := 6.
Definition CHANNELMSG_GPADL_HEADER : Z := 8.
Definition CHANNELMSG_GPADL_BODY : Z := 9.
Definition CHANNELMSG_GPADL_CREATED : Z := 10.

Record Channel := {
  ch_relid : Z;
  ch_connection_id : Z;
  ch_ring_buf : DmaRegion;
  ch_gpadl_handle : Z;
  ch_send : RingHalf;
  ch_recv : RingHalf;
  ch_hcall : HypercallPage;
}.

(** [map_err] of every ring error. *)
Definition RING_ERROR : HvError := HypercallFailed 0xFFFF.

Definition map_ring_err {A} (r : result A RingError) : result A HvError :=
  match r with
  | Ok a => Ok a
  | Err _ => Err RING_ERROR
  end.

(** [fetch_add] wraps around. *)
Definition alloc_gpadl_handle : W Z :=
  n ← gets next_gpadl;
  _ ← modify (set_next_gpadl ((n + 1) mod U32));
  mret n.

(** The messages of a GPADL are [u8; 240] arrays on the stack. *)
Fixpoint put_pfns (off : Z) (pfns : list Z) (msg : list byte) : outcome (list byte) :=
  match pfns with
  | [] => mret msg
  | pfn :: rest => msg' ← copy_into off (le_split 8 pfn) msg; put_pfns (off + 8) rest msg'
  end.

Definition header_overhead : Z := 28.
Definition max_pfns_in_header : Z := (240 - header_overhead) / 8.
Definition body_overhead : Z := 16.
Definition max_pfns_per_body : Z := (240 - body_overhead) / 8.

Definition gpadl_header (relid handle byte_count : Z) (pfns : list Z) : outcome (list byte) :=
  let pfns_in_header := Z.min (zlen pfns) max_pfns_in_header in
  n8 ← umul (zlen pfns) 8;
  range_buflen ← uadd 8 n8;
  let msg := replicate 240 Byte.x00 in
  msg ← copy_into 0 (le_split 4 CHANNELMSG_GPADL_HEADER) msg;
  msg ← copy_into 8 (le_split 4 relid) msg;
  msg ← copy_into 12 (le_split 4 handle) msg;
  msg ← copy_into 16 (le_split 2 (as_u16 range_buflen)) msg;
  msg ← copy_into 18 (le_split 2 1) msg;
  msg ← copy_into 20 (le_split 4 (as_u32 byte_count)) msg;
  head ← slice pfns 0 pfns_in_header;
  msg ← put_pfns 28 head msg;
  slice msg 0 (header_overhead + pfns_in_header * 8).

Definition gpadl_body (handle msg_number : Z) (remaining : list Z) (count : Z)
  : outcome (list byte) :=
  let body := replicate 240 Byte.x00 in
  body ← copy_into 0 (le_split 4 CHANNELMSG_GPADL_BODY) body;
  body ← copy_into 8 (le_split 4 msg_number) body;
  body ← copy_into 12 (le_split 4 handle) body;
  part ← slice remaining 0 count;
  body ← put_pfns body_overhead part body;
  slice body 0 (body_overhead + count * 8).

(** A closure that waits for a message of type [ty] and returns its status. *)
Definition status_matcher (ty : Z) (_ : unit) (payload : list byte) : option Z * unit :=
  (if zlen payload <? 20 then None else
   if negb (le_at 4 payload 0 =? ty) then None else Some (le_at 4 payload 16), tt).

Section channel.
Context `{Hypervisor} `{DmaAllocator world}.
Context (fuel pfuel : nat).

Definition signal_host (c : Channel) : W unit :=
  signal_event (ch_hcall c) (ch_connection_id c).

(** The shape of the senders: put the packet on the ring, then signal. *)
Definition send_with (c : Channel) (op : M mem (result unit RingError))
  : W (result unit HvError) :=
  r ← on_mem op;
  match map_ring_err r with
  | Err e => mret (Err e)
  | Ok _ => _ ← signal_host c; mret (Ok tt)
  end.

Definition send (c : Channel) (payload : list byte) (tid : Z) : W (result unit HvError) :=
  send_with c (send_packet (ch_send c) payload tid VMBUS_DATA_PACKET_FLAG_COMPLETION_REQUESTED).

Definition send_raw (c : Channel) (payload : list byte) (tid : Z) : W (result unit HvError) :=
  send_with c (send_packet (ch_send c) payload tid 0).

Definition send_with_page_buffer (c : Channel) (user_data : list byte)
    (page_pfn page_offset page_len tid : Z) : W (result unit HvError) :=
  send_with c (send_packet_with_page_buffer (ch_send c) user_data page_pfn page_offset page_len
                 tid VMBUS_DATA_PACKET_FLAG_COMPLETION_REQUESTED).

Definition send_completion (c : Channel) (payload : list byte) (tid : Z)
  : W (result unit HvError) :=
  send_with c (send_comp (ch_send c) payload tid).

Definition try_recv (c : Channel) (buf : list byte)
  : W (result (option (VmPacketDescriptor * Z)) HvError * list byte) :=
  '(r, buf') ← on_mem (recv_packet (ch_recv c) buf);
  mret (map_ring_err r, buf').

Definition try_recv_raw (c : Channel) (buf : list byte)
  : W (result (option (VmPacketDescriptor * Z)) HvError * list byte) :=
  '(r, buf') ← on_mem (recv_packet_raw (ch_recv c) buf);
  mret (map_ring_err r, buf').

(** One poll of [WaitForPacket]; the state of the future is the buffer.  The
    host may act before each access to the ring. *)
Definition wait_packet_poll (c : Channel) (deadline : Z) (buf : list byte)
  : W (poll (result (VmPacketDescriptor * Z) HvError) * list byte) :=
  _ ← host_activity;
  '(r, buf1) ← try_recv c buf;
  match r with
  | Ok (Some res) => mret (Ready (Ok res), buf1)
  | Ok None =>
      _ ← register_waker (channel_waker (ch_relid c));
      _ ← host_activity;
      '(r2, buf2) ← try_recv c buf1;
      match r2 with
      | Ok (Some res) => mret (Ready (Ok res), buf2)
      | Ok None =>
          t ← gets now;
          if deadline <=? t then mret (Ready (Err Timeout), buf2) else mret (Pending, buf2)
      | Err e => mret (Ready (Err e), buf2)
      end
  | Err e => mret (Ready (Err e), buf1)
  end.

Definition recv_with_timeout (c : Channel) (buf : list byte) (timeout : Z)
  : W (result (VmPacketDescriptor * Z) HvError * list byte) :=
  t ← gets now;
  block_on_hlt fuel (wait_packet_poll c (t + timeout)) buf.

(** The [while] loop over the remaining PFNs; [n] bounds its rounds. *)
Fixpoint post_bodies (n : nat) (h : HypercallPage) (handle msg_number : Z) (remaining : list Z)
  : W (result unit HvError) :=
  match n with
  | O => panic OutOfFuel
  | S n' =>
      if bool_decide (remaining = []) then mret (Ok tt) else
      let count := Z.min (zlen remaining) max_pfns_per_body in
      body ← lift (gpadl_body handle msg_number remaining count);
      _ ←? post_message h VMBUS_MESSAGE_CONNECTION_ID VMBUS_MESSAGE_TYPE_CHANNEL body;
      remaining' ← lift (slice remaining count (zlen remaining));
      next ← lift (u32add msg_number 1);
      post_bodies n' h handle next remaining'
  end.

(** Waiting for the status of a request, common to GPADL and channel open. *)
Definition wait_status (s : SynIC) (ty : Z) : W (result unit HvError) :=
  t ← gets now;
  '(r, _) ← wait_for_match fuel pfuel s (t + secs 5) (status_matcher ty) tt;
  mret (match r with
        | Err e => Err e
        | Ok status => if status =? 0 then Ok tt else Err (HypercallFailed (as_u16 status))
        end).

Definition create_gpadl (relid handle byte_count : Z) (pfns : list Z)
    (h : HypercallPage) (s : SynIC) : W (result unit HvError) :=
  msg ← lift (gpadl_header relid handle byte_count pfns);
  _ ←? post_message h VMBUS_MESSAGE_CONNECTION_ID VMBUS_MESSAGE_TYPE_CHANNEL msg;
  remaining ← lift (slice pfns (Z.min (zlen pfns) max_pfns_in_header) (zlen pfns));
  _ ←? post_bodies (S (length remaining)) h handle 0 remaining;
  wait_status s CHANNELMSG_GPADL_CREATED.

(** The 148 bytes of OPENCHANNEL. *)
Definition open_channel_bytes (relid handle downstream : Z) : list byte :=
  let msg := replicate 148 Byte.x00 in
  let msg := put 0 (le_split 4 CHANNELMSG_OPENCHANNEL) msg in
  let msg := put 8 (le_split 4 relid) msg in
  let msg := put 12 (le_split 4 relid) msg in
  let msg := put 16 (le_split 4 handle) msg in
  let msg := put 24 (le_split 4 downstream) msg in
  put 28 [Byte.x01] msg.

Definition open_channel_msg (relid handle downstream : Z) (h : HypercallPage) (s : SynIC)
  : W (result unit HvError) :=
  _ ←? post_message h VMBUS_MESSAGE_CONNECTION_ID VMBUS_MESSAGE_TYPE_CHANNEL
         (open_channel_bytes relid handle downstream);
  wait_status s CHANNELMSG_OPENCHANNEL_RESULT.

(** The page numbers of a region; the page-table check only logs. *)
Definition build_pfn_list (region : DmaRegion) (num_pages : Z) : outcome (list Z) :=
  mapM (fun i => off ← umul i 4096;
                 a ← uadd (paddr region) off;
                 mret (Z.shiftr a 12)) (seqZ 0 num_pages).

Context (crash_after_stage : Z).

Definition open_channel (offer : ChannelOffer) (ring_size : Z) (h : HypercallPage) (s : SynIC)
  : W (result Channel HvError) :=
  _ ← lift (rassert ((8192 <=? ring_size) && (ring_size mod 4096 =? 0)));
  let half_size := ring_size / 2 in
  ring_buf ← alloc_coherent ring_size 4096;
  pfns ← lift (build_pfn_list ring_buf (ring_size / 4096));
  handle ← alloc_gpadl_handle;
  _ ←? create_gpadl (child_relid offer) handle ring_size pfns h s;
  let send_pages := half_size / 4096 in
  _ ←? open_channel_msg (child_relid offer) handle (as_u32 send_pages) h s;
  snd ← on_mem (new (vaddr ring_buf) half_size);
  recv_base ← lift (uadd (vaddr ring_buf) half_size);
  rcv ← on_mem (new recv_base half_size);
  _ ← checkpoint crash_after_stage 7;
  mret (Ok {| ch_relid := child_relid offer; ch_connection_id := connection_id offer;
              ch_ring_buf := ring_buf; ch_gpadl_handle := handle; ch_send := snd;
              ch_recv := rcv; ch_hcall := h |}).
End channel.

(** ** Sending *)

(** The world after [signal_host]. *)
Definition signalled `{Hypervisor} (c : Channel) (w : world) : world :=
  let code := Z.lor HV_SIGNAL_EVENT HV_HYPERCALL_FAST in
  (hv_call code (ch_connection_id c) 0
     (log_event (EvHypercall code (ch_connection_id c) 0 (wmem w)) w)).2.

Lemma signal_host_signalled `{Hypervisor} c w : signal_host c w = Ret (tt, signalled c w).
Proof.
  unfold signal_host, signal_event, signalled, raw_call, mbind, M_bind. cbv zeta.
  by destruct (hv_call _ _ _ _).
Qed.

(** What a sender of packet [p] does on a ring that holds [q]: when the ring
    takes the packet, the host is signalled once, after the packet is in the
    ring; when it does not, nothing happens. *)
Definition sends `{Hypervisor} (c : Channel) (q : list packet) (p : packet) (w : world)
    (o : outcome (result unit HvError * world)) : Prop :=
  match fifo_send (data_size (ch_send c)) q p with
  | (Ok _, q') => exists m', ring_repr m' (ch_send c) q' /\ frame (ch_send c) (wmem w) m' /\
                    o = Ret (Ok tt, signalled c (set_mem m' w))
  | (Err _, _) => o = Ret (Err RING_ERROR, w)
  end.

Lemma send_with_sends `{Hypervisor} c q p w op :
  ring_repr (wmem w) (ch_send c) q -> data_size (ch_send c) <= 2 ^ 19 ->
  (slot_size p < 2 ^ 19 -> packet_wf p) ->
  op (wmem w) = (if data_size (ch_send c) - used (wmem w) (ch_send c) <=? slot_size p
                 then Ret (Err Full, wmem w) else Ret (Ok tt, sent (ch_send c) (wmem w) p)) ->
  sends c q p w (send_with c op w).
Proof.
  intros Hr Hds Hp Hop.
  destruct (sent_refines (ch_send c) (proj1 (proj1 Hr)) (wmem w) q p Hr Hds Hp)
    as (m' & Heq & Hr' & Hf).
  unfold sends, send_with, mbind, M_bind, on_mem. rewrite Hop.
  revert Heq Hr'. unfold fifo_send. rewrite <- (ring_repr_used _ _ _ Hr).
  destruct (_ <=? _); cbn; intros [= Heq] Hr'.
  - by destruct w.
  - subst m'. eexists. split_and!; [exact Hr'|exact Hf|].
    by rewrite signal_host_signalled.
Qed.

Lemma send_sends `{Hypervisor} c q w bs tid :
  ring_repr (wmem w) (ch_send c) q -> data_size (ch_send c) <= 2 ^ 19 ->
  zlen bs < 2 ^ 63 -> 0 <= tid < U64 ->
  sends c q (data_packet VM_PKT_DATA_INBAND 1 tid bs) w (send c bs tid w).
Proof.
  intros Hr Hds Hl Ht. apply send_with_sends; try done.
  - by apply data_packet_wf.
  - by apply send_packet_closed; [apply Hr|apply Hr|..].
Qed.

Lemma send_raw_sends `{Hypervisor} c q w bs tid :
  ring_repr (wmem w) (ch_send c) q -> data_size (ch_send c) <= 2 ^ 19 ->
  zlen bs < 2 ^ 63 -> 0 <= tid < U64 ->
  sends c q (data_packet VM_PKT_DATA_INBAND 0 tid bs) w (send_raw c bs tid w).
Proof.
  intros Hr Hds Hl Ht. apply send_with_sends; try done.
  - by apply data_packet_wf.
  - by apply send_packet_closed; [apply Hr|apply Hr|..].
Qed.

Lemma send_completion_sends `{Hypervisor} c q w bs tid :
  ring_repr (wmem w) (ch_send c) q -> data_size (ch_send c) <= 2 ^ 19 ->
  zlen bs < 2 ^ 63 -> 0 <= tid < U64 ->
  sends c q (data_packet VM_PKT_COMP 0 tid bs) w (send_completion c bs tid w).
Proof.
  intros Hr Hds Hl Ht. apply send_with_sends; try done.
  - by apply data_packet_wf.
  - by apply send_comp_closed; [apply Hr|apply Hr|..].
Qed.

(** C9: the four senders of a channel implement the queue and signal the
    host: a packet the ring has room for is appended (in-band with or without
    completion, with a page buffer, or a completion) and the host is then
    signalled exactly once on the channel's connection; otherwise an error is
    returned and neither memory nor the host is touched. *)
Theorem channel_senders `{Hypervisor} c q w bs tid pfn off len :
  ring_repr (wmem w) (ch_send c) q -> data_size (ch_send c) <= 2 ^ 19 ->
  zlen bs < 2 ^ 63 -> 0 <= tid < U64 ->
  sends c q (data_packet VM_PKT_DATA_INBAND 1 tid bs) w (send c bs tid w) /\
  sends c q (data_packet VM_PKT_DATA_INBAND 0 tid bs) w (send_raw c bs tid w) /\
  sends c q (gpa_packet pfn off len tid 1 bs) w (send_with_page_buffer c bs pfn off len tid w) /\
  sends c q (data_packet VM_PKT_COMP 0 tid bs) w (send_completion c bs tid w).
Proof.
  intros Hr Hds Hl Ht. pose proof (proj1 Hr) as Hok. pose proof (proj1 Hok) as Hg.
  split_and!; [by apply send_sends|by apply send_raw_sends| |by apply send_completion_sends].
  apply send_with_sends; try done.
  - by apply gpa_packet_wf.
  - by apply send_packet_with_page_buffer_closed.
Qed.

(** ** Receiving *)

(** The packets the host has put in the receive ring and the guest has not
    taken, all of the kind [P], in a machine where [I] holds. *)
Definition pending (r : RingHalf) (P : packet -> Prop) (I : world -> Prop) (w : world)
    (q : list packet) : Prop :=
  ring_repr (wmem w) r q /\ Forall P q /\ I w.

(** The host side of a receive ring: at any time it appends packets of the
    kind [P], whose header is at most 80 bytes, and keeps [I], which does not
    depend on the ring; time passes over every halt. *)
Class RingProducer `{Hypervisor} (r : RingHalf) (P : packet -> Prop) (I : world -> Prop) := {
  producer_deliverable : forall p, P p -> deliverable p;
  producer_recv : forall w m, I w -> frame r (wmem w) m -> I (set_mem m w);
  producer_log : forall e w, I w -> I (log_event e w);
  producer_async : forall w q, pending r P I w q -> exists new, pending r P I (hv_async w) (q ++ new);
  producer_park : forall w q, pending r P I w q -> exists new, pending r P I (hv_park w) (q ++ new);
  producer_time_async : forall w, now w <= now (hv_async w);
  producer_time_park : forall w, now w < now (hv_park w);
}.

Section receive.
Context `{Hv : Hypervisor} (c : Channel) {P I} `{!RingProducer (ch_recv c) P I}.
Abbreviation rx := (pending (ch_recv c) P I).

Lemma try_recv_empty w buf :
  rx w [] -> try_recv c buf w = Ret ((Ok None, buf), w).
Proof.
  intros (Hr & _ & _). unfold try_recv, mbind, M_bind, on_mem.
  rewrite recv_packet_empty by done. by destruct w.
Qed.

Lemma try_recv_dequeue w p q buf :
  rx w (p :: q) ->
  exists m', try_recv c buf w =
      Ret ((map_ring_err (received p buf).1, (received p buf).2), set_mem m' w) /\
    rx (set_mem m' w) q /\ P p.
Proof.
  intros (Hr & Hd & Hi). apply Forall_cons in Hd as [Hp Hq].
  destruct (recv_packet_dequeue _ _ _ _ buf Hr (producer_deliverable _ Hp)) as (m' & Hrun & Hr' & Hf).
  exists m'. split; [|split; [|done]; by split_and!; [..|apply producer_recv]].
  unfold try_recv, mbind, M_bind, on_mem. by rewrite Hrun.
Qed.

Lemma wait_packet_poll_step deadline buf w :
  wait_packet_poll c deadline buf w =
  match try_recv c buf (hv_async w) with
  | Ret ((Ok (Some res), buf1), w1) => Ret ((Ready (Ok res), buf1), w1)
  | Ret ((Ok None, buf1), w1) =>
      let w2 := hv_async (log_event (EvRegister (channel_waker (ch_relid c))) w1) in
      match try_recv c buf1 w2 with
      | Ret ((Ok (Some res), buf2), w3) => Ret ((Ready (Ok res), buf2), w3)
      | Ret ((Ok None, buf2), w3) =>
          Ret ((if deadline <=? now w3 then Ready (Err Timeout) else Pending, buf2), w3)
      | Ret ((Err e, buf2), w3) => Ret ((Ready (Err e), buf2), w3)
      | Panic f => Panic f
      end
  | Ret ((Err e, buf1), w1) => Ret ((Ready (Err e), buf1), w1)
  | Panic f => Panic f
  end.
Proof.
  unfold wait_packet_poll, host_activity, register_waker, modify, mbind, M_bind.
  destruct (try_recv c buf (hv_async w)) as [[[[[res|]|e] buf1] w1]|f]; try done. cbv zeta.
  destruct (try_recv c buf1 _) as [[[[[res|]|e] buf2] w3]|f]; try done.
  unfold gets. by destruct (_ <=? _).
Qed.

(** One poll: it takes the next packet if there is one by its second look at
    the ring, and otherwise reports a timeout or waits. *)
Lemma wait_packet_poll_spec deadline w q buf :
  rx w q ->
  exists new pr buf' w',
    wait_packet_poll c deadline buf w = Ret ((pr, buf'), w') /\ now w <= now w' /\
    match q ++ new with
    | p :: q' => rx w' q' /\ P p /\
        exists n, pr = Ready (Ok (p_desc p, n)) /\ (Ok (Some (p_desc p, n)), buf') = received p buf
    | [] => rx w' [] /\ buf' = buf /\
        pr = if deadline <=? now w' then Ready (Err Timeout) else Pending
    end.
Proof.
  intros Hq. destruct (producer_async _ _ Hq) as [n1 H1].
  pose proof (producer_time_async w) as T1.
  destruct (q ++ n1) as [|p q'] eqn:E1.
  - apply app_nil in E1 as [-> ->].
    assert (Hlog : rx (log_event (EvRegister (channel_waker (ch_relid c))) (hv_async w)) []).
    { destruct H1 as (? & ? & ?). by split_and!; [..|apply producer_log]. }
    destruct (producer_async _ [] Hlog) as [n2 H2].
    pose proof (producer_time_async (log_event (EvRegister (channel_waker (ch_relid c))) (hv_async w))) as T2.
    simpl in T2. exists n2. simpl in *.
    rewrite wait_packet_poll_step, (try_recv_empty _ buf H1). cbv iota zeta.
    destruct n2 as [|p q'].
    + rewrite (try_recv_empty _ buf H2). cbv iota. do 3 eexists. split; [done|].
      split; [lia|done].
    + destruct (try_recv_dequeue _ _ _ buf H2) as (m' & -> & Hrx & Hp). cbn.
      do 3 eexists. split; [done|]. split; [cbn [now set_mem]; lia|]. split_and!; [done..|]. by eexists.
  - destruct (try_recv_dequeue _ _ _ buf H1) as (m' & Hrun & Hrx & Hp).
    exists n1. rewrite wait_packet_poll_step, Hrun, E1. cbn.
    do 3 eexists. split; [done|]. split; [cbn [now set_mem]; lia|]. split_and!; [done..|]. by eexists.
Qed.

(** What [recv_with_timeout] returns when the ring held [q] and [new] was
    appended while it waited. *)
Definition recv_post (q new : list packet) (buf : list byte) (deadline : Z)
    (res : result (VmPacketDescriptor * Z) HvError) (buf' : list byte) (w' : world) : Prop :=
  match q ++ new with
  | p :: q' => rx w' q' /\ P p /\
      exists n, res = Ok (p_desc p, n) /\ (Ok (Some (p_desc p, n)), buf') = received p buf
  | [] => rx w' [] /\ buf' = buf /\ res = Err Timeout /\ deadline <= now w'
  end.

Lemma wait_packet_run deadline fuel w q buf :
  rx w q -> (Z.to_nat (deadline - now w) < fuel)%nat ->
  exists new res buf' w',
    block_on_hlt fuel (wait_packet_poll c deadline) buf w = Ret ((res, buf'), w') /\
    recv_post q new buf deadline res buf' w'.
Proof.
  revert w q. induction fuel as [|n IH]; intros w q Hq Hfuel; [lia|].
  destruct (wait_packet_poll_spec deadline w q buf Hq)
    as (new & pr & buf' & w' & Hrun & Ht & Hpost).
  unfold block_on_hlt. cbn [block_on_with]. unfold mbind, M_bind. rewrite Hrun.
  destruct (q ++ new) as [|p q'] eqn:E.
  - destruct Hpost as (Hrx & -> & ->). destruct (Z.leb_spec deadline (now w')).
    + exists new, (Err Timeout), buf, w'. split; [done|]. unfold recv_post. by rewrite E.
    + apply app_nil in E as [-> ->]. destruct (producer_park _ _ Hrx) as [n1 H1].
      pose proof (producer_time_park w').
      destruct (IH (hv_park w') n1 H1) as (n2 & res & buf2 & w2 & Hrun2 & Hp2); [lia|].
      exists (n1 ++ n2), res, buf2, w2. split; [exact Hrun2|exact Hp2].
  - destruct Hpost as (Hrx & Hp & k & -> & Hrec). exists new, (Ok (p_desc p, k)), buf', w'.
    split; [done|]. unfold recv_post. rewrite E. eauto 6.
Qed.
End receive.


(** ** GPADL messages *)

(** The bytes of a list of page numbers, and the numbers back. *)
Definition pfn_bytes (pfns : list Z) : list byte := pfns ≫= le_split 8.

Fixpoint words (n : nat) (bs : list byte) : list Z :=
  match n with
  | O => []
  | S n' => le_combine (take 8 bs) :: words n' (drop 8 bs)
  end.

Lemma length_pfn_bytes pfns : length (pfn_bytes pfns) = (8 * length pfns)%nat.
Proof.
  induction pfns as [|p pfns IH]; [done|].
  change (pfn_bytes (p :: pfns)) with (le_split 8 p ++ pfn_bytes pfns).
  rewrite length_app, length_le_split, IH. simpl. lia.
Qed.

Lemma words_pfn_bytes pfns :
  Forall (fun p => 0 <= p < U64) pfns -> words (length pfns) (pfn_bytes pfns) = pfns.
Proof.
  induction 1 as [|p pfns Hp Hps IH]; [done|].
  change (pfn_bytes (p :: pfns)) with (le_split 8 p ++ pfn_bytes pfns). cbn [words length].
  rewrite take_app_length', drop_app_length' by (by rewrite length_le_split).
  rewrite IH, le_combine_split, Z.mod_small by done. done.
Qed.

(** Writing the page numbers one by one fills the message with their bytes. *)
Lemma put_pfns_ok pfns hd rest :
  (8 * length pfns <= length rest)%nat ->
  put_pfns (zlen hd) pfns (hd ++ rest) =
  Ret (hd ++ pfn_bytes pfns ++ drop (8 * length pfns) rest).
Proof.
  revert hd rest. induction pfns as [|p pfns IH]; intros hd rest Hl; [done|].
  cbn [put_pfns]. simpl in Hl. unfold copy_into.
  rewrite zlen_le_split, zlen_app, (proj2 (Z.leb_le _ _)) by (unfold zlen; lia). cbn [mbind outcome_bind].
  assert (put (Z.to_nat (zlen hd)) (le_split 8 p) (hd ++ rest) =
          (hd ++ le_split 8 p) ++ drop 8 rest) as ->.
  { unfold put, zlen. rewrite Nat2Z.id, take_app_length, length_le_split, drop_app_add.
    by rewrite app_assoc. }
  assert (zlen hd + 8 = zlen (hd ++ le_split 8 p)) as -> by (autorewrite with zlen; lia).
  rewrite IH by (rewrite length_drop; lia). f_equal.
  rewrite <- app_assoc, drop_drop.
  change (pfn_bytes (p :: pfns)) with (le_split 8 p ++ pfn_bytes pfns).
  rewrite <- app_assoc. by replace (8 * length (p :: pfns))%nat with (8 + 8 * length pfns)%nat by (simpl; lia).
Qed.

(** The fixed part of each message. *)
Definition header_fixed (relid handle range_buflen byte_count : Z) : list byte :=
  le_split 4 CHANNELMSG_GPADL_HEADER ++ le_split 4 0 ++ le_split 4 relid ++
  le_split 4 handle ++ le_split 2 range_buflen ++ le_split 2 1 ++
  le_split 4 byte_count ++ le_split 4 0.

Definition body_fixed (handle msg_number : Z) : list byte :=
  le_split 4 CHANNELMSG_GPADL_BODY ++ le_split 4 0 ++ le_split 4 msg_number ++ le_split 4 handle.

Lemma slice_app_prefix {A} (l1 l2 : list A) n :
  zlen l1 = n -> slice (l1 ++ l2) 0 n = Ret l1.
Proof.
  intros <-. rewrite slice_ok; [|apply zlen_nonneg|rewrite zlen_app; pose proof (zlen_nonneg l2); lia].
  rewrite Z.sub_0_r. unfold zlen. rewrite Nat2Z.id. by rewrite drop_0, take_app_length.
Qed.

Lemma gpadl_header_bytes relid handle byte_count pfns :
  8 + zlen pfns * 8 < U64 ->
  gpadl_header relid handle byte_count pfns =
  Ret (header_fixed relid handle (as_u16 (8 + zlen pfns * 8)) (as_u32 byte_count) ++
       pfn_bytes (take 26 pfns)).
Proof.
  intros Hlen. unfold gpadl_header. rewrite umul_ok by lia. cbn [mbind outcome_bind].
  rewrite uadd_ok by lia. cbn [mbind outcome_bind]. set (rb := as_u16 _).
  set (n := Z.min (zlen pfns) max_pfns_in_header).
  change max_pfns_in_header with 26 in n.
  assert (Hn : 0 <= n <= 26 /\ n <= zlen pfns) by (unfold n, zlen; lia).
  rewrite slice_ok by lia. rewrite Z.sub_0_r, drop_0.
  assert (take (Z.to_nat n) pfns = take 26 pfns) as ->.
  { unfold n, zlen. destruct (decide (length pfns <= 26)%nat).
    - rewrite !take_ge by lia. done.
    - f_equal. lia. }
  assert (Hl : zlen (take 26 pfns) = n) by (unfold zlen in *; rewrite length_take; lia).
  clearbody rb n.
  transitivity (msg ← put_pfns (zlen (header_fixed relid handle rb (as_u32 byte_count)))
    (take 26 pfns) (header_fixed relid handle rb (as_u32 byte_count) ++ replicate 212 Byte.x00);
    slice msg 0 (header_overhead + n * 8)); [reflexivity|].
  rewrite put_pfns_ok by (rewrite length_replicate, length_take; lia).
  cbn [mbind outcome_bind]. rewrite app_assoc. apply slice_app_prefix.
  rewrite zlen_app. unfold zlen at 2. rewrite length_pfn_bytes. unfold zlen in Hl.
  change (zlen (header_fixed _ _ _ _)) with 28. unfold header_overhead. lia.
Qed.

Lemma gpadl_body_bytes handle k remaining :
  gpadl_body handle k remaining (Z.min (zlen remaining) max_pfns_per_body) =
  Ret (body_fixed handle k ++ pfn_bytes (take 28 remaining)).
Proof.
  set (n := Z.min (zlen remaining) max_pfns_per_body). change max_pfns_per_body with 28 in n.
  assert (Hn : 0 <= n <= 28 /\ n <= zlen remaining) by (unfold n, zlen; lia).
  unfold gpadl_body. rewrite slice_ok by lia. rewrite Z.sub_0_r, drop_0.
  assert (take (Z.to_nat n) remaining = take 28 remaining) as ->.
  { unfold n, zlen. destruct (decide (length remaining <= 28)%nat).
    - rewrite !take_ge by lia. done.
    - f_equal. lia. }
  assert (Hl : zlen (take 28 remaining) = n) by (unfold zlen in *; rewrite length_take; lia).
  clearbody n.
  transitivity (msg ← put_pfns (zlen (body_fixed handle k)) (take 28 remaining)
    (body_fixed handle k ++ replicate 224 Byte.x00);
    slice msg 0 (body_overhead + n * 8)); [reflexivity|].
  rewrite put_pfns_ok by (rewrite length_replicate, length_take; lia).
  cbn [mbind outcome_bind]. rewrite app_assoc. apply slice_app_prefix.
  rewrite zlen_app. unfold zlen at 2. rewrite length_pfn_bytes. unfold zlen in Hl.
  change (zlen (body_fixed _ _)) with 16. unfold body_overhead. lia.
Qed.

(** The messages that describe a buffer to the host. *)
Fixpoint body_messages (n : nat) (handle k : Z) (remaining : list Z) : list (list byte) :=
  match n with
  | O => []
  | S n' =>
      if bool_decide (remaining = []) then [] else
      (body_fixed handle k ++ pfn_bytes (take 28 remaining)) ::
      body_messages n' handle (k + 1) (drop 28 remaining)
  end.

Definition gpadl_messages (relid handle byte_count : Z) (pfns : list Z) : list (list byte) :=
  (header_fixed relid handle (8 + zlen pfns * 8) byte_count ++ pfn_bytes (take 26 pfns)) ::
  body_messages (S (length (drop 26 pfns))) handle 0 (drop 26 pfns).

(** Posting a sequence of channel messages, stopping at the first error. *)
Fixpoint post_all `{Hypervisor} (h : HypercallPage) (msgs : list (list byte))
  : W (result unit HvError) :=
  match msgs with
  | [] => mret (Ok tt)
  | m :: ms =>
      _ ←? post_message h VMBUS_MESSAGE_CONNECTION_ID VMBUS_MESSAGE_TYPE_CHANNEL m;
      post_all h ms
  end.

Lemma post_bodies_all `{Hypervisor} n h handle k remaining w :
  (length remaining < n)%nat -> k + zlen remaining < U32 ->
  post_bodies n h handle k remaining w = post_all h (body_messages n handle k remaining) w.
Proof.
  revert k remaining w. induction n as [|n IH]; intros k remaining w Hn Hk; [lia|].
  cbn [post_bodies body_messages]. case_bool_decide as He; [done|].
  assert (Hpos : (0 < length remaining)%nat) by (destruct remaining; [done|simpl; lia]).
  rewrite gpadl_body_bytes. cbn [post_all]. set (msg := body_fixed _ _ ++ _).
  unfold mbind, M_bind, lift.
  destruct (post_message _ _ _ msg w) as [[[[]|e] w1]|f]; [|done..].
  rewrite slice_ok by (unfold zlen, max_pfns_per_body, body_overhead; lia).
  rewrite take_ge by (rewrite length_drop; unfold zlen; lia).
  unfold zlen in Hk. unfold u32add. rewrite (proj2 (Z.ltb_lt _ _)) by lia.
  assert (drop (Z.to_nat (Z.min (zlen remaining) max_pfns_per_body)) remaining =
          drop 28 remaining) as ->.
  { change max_pfns_per_body with 28. unfold zlen.
    destruct (decide (length remaining <= 28)%nat); [by rewrite !drop_ge by lia|f_equal; lia]. }
  apply IH; unfold zlen; rewrite length_drop; lia.
Qed.

(** The host's side: the page numbers of a GPADL, in order. *)
Definition reassemble (msgs : list (list byte)) : list Z :=
  match msgs with
  | [] => []
  | hd :: bodies =>
      words ((length hd - 28) / 8) (drop 28 hd) ++
      (bodies ≫= fun b => words ((length b - 16) / 8) (drop 16 b))
  end.

Lemma words_after fixed pfns n :
  length fixed = n -> Forall (fun p => 0 <= p < U64) pfns ->
  words ((length (fixed ++ pfn_bytes pfns) - n) / 8) (drop n (fixed ++ pfn_bytes pfns)) = pfns.
Proof.
  intros <- Hp. rewrite drop_app_length, length_app, length_pfn_bytes, Nat.add_comm, Nat.add_sub.
  rewrite Nat.mul_comm, Nat.div_mul by lia. by apply words_pfn_bytes.
Qed.

Lemma bodies_reassemble n handle k remaining :
  (length remaining < n)%nat -> Forall (fun p => 0 <= p < U64) remaining ->
  (body_messages n handle k remaining ≫= fun b => words ((length b - 16) / 8) (drop 16 b)) =
  remaining.
Proof.
  revert k remaining. induction n as [|n IH]; intros k remaining Hn Hr; [lia|].
  cbn [body_messages]. case_bool_decide as He; [by rewrite He|].
  assert (Hpos : (0 < length remaining)%nat) by (destruct remaining; [done|simpl; lia]).
  rewrite bind_cons, words_after by (done || by apply Forall_take).
  rewrite IH by (rewrite ?length_drop; (lia || by apply Forall_drop)). apply take_drop.
Qed.

Lemma bodies_numbered n handle k remaining i b :
  0 <= handle < U32 -> 0 <= k -> k + Z.of_nat n <= U32 ->
  body_messages n handle k remaining !! i = Some b ->
  zlen b <= 240 /\ le_at 4 b 0 = CHANNELMSG_GPADL_BODY /\ le_at 4 b 8 = k + Z.of_nat i /\
  le_at 4 b 12 = handle.
Proof.
  intros Hh. revert k remaining i. induction n as [|n IH]; intros k remaining i Hk Hkn; [done|].
  cbn [body_messages]. case_bool_decide; [done|]. set (m0 := body_fixed handle k ++ _).
  destruct i as [|i]; cbn [lookup list_lookup].
  - intros [= <-]. unfold m0. split.
    { rewrite zlen_app. unfold zlen at 2. rewrite length_pfn_bytes, length_take.
      change (zlen (body_fixed _ _)) with 16. lia. }
    unfold body_fixed. rewrite <- !app_assoc.
    rewrite le_at_head by done.
    rewrite (le_at_skip 4 4 4), (le_at_skip 4 4 8) by apply length_le_split.
    rewrite (le_at_skip 4 4 0), (le_at_skip 4 4 4) by apply length_le_split.
    rewrite (le_at_skip 4 4 0) by apply length_le_split.
    rewrite !le_at_head by (unfold U32 in *; lia). split_and!; (done || lia).
  - intros Hb. apply IH in Hb as (? & ? & Hki & ?); [|lia..]. split_and!; [done..| |done]. lia.
Qed.

(** The fields of the header message. *)
Lemma header_fields relid handle rb bc rest :
  0 <= relid < U32 -> 0 <= handle < U32 -> 0 <= rb < U16 -> 0 <= bc < U32 ->
  let m := header_fixed relid handle rb bc ++ rest in
  le_at 4 m 0 = CHANNELMSG_GPADL_HEADER /\ le_at 4 m 8 = relid /\ le_at 4 m 12 = handle /\
  le_at 2 m 16 = rb /\ le_at 2 m 18 = 1 /\ le_at 4 m 20 = bc /\ le_at 4 m 24 = 0.
Proof.
  intros Hr Hh Hrb Hbc. unfold header_fixed. cbv zeta. rewrite <- !app_assoc.
  rewrite le_at_head by done.
  rewrite (le_at_skip 4 4 4), (le_at_skip 4 4 8), (le_at_skip 2 4 12), (le_at_skip 2 4 14),
    (le_at_skip 4 4 16), (le_at_skip 4 4 20) by apply length_le_split.
  rewrite (le_at_skip 4 4 0), (le_at_skip 4 4 4), (le_at_skip 2 4 8), (le_at_skip 2 4 10),
    (le_at_skip 4 4 12), (le_at_skip 4 4 16) by apply length_le_split.
  rewrite (le_at_skip 4 4 0), (le_at_skip 2 4 4), (le_at_skip 2 4 6),
    (le_at_skip 4 4 8), (le_at_skip 4 4 12) by apply length_le_split.
  rewrite (le_at_skip 2 4 0), (le_at_skip 2 4 2),
    (le_at_skip 4 4 4), (le_at_skip 4 4 8) by apply length_le_split.
  rewrite (le_at_skip 2 2 0), (le_at_skip 4 2 2), (le_at_skip 4 2 6) by apply length_le_split.
  rewrite (le_at_skip 4 2 0), (le_at_skip 4 2 4) by apply length_le_split.
  rewrite (le_at_skip 4 4 0) by apply length_le_split.
  by rewrite !le_at_head by done.
Qed.

Definition gpadl_header_ok (relid handle byte_count n : Z) (m : list byte) : Prop :=
  zlen m <= 240 /\ le_at 4 m 0 = CHANNELMSG_GPADL_HEADER /\ le_at 4 m 8 = relid /\
  le_at 4 m 12 = handle /\ le_at 2 m 16 = 8 + 8 * n /\ le_at 2 m 18 = 1 /\
  le_at 4 m 20 = byte_count /\ le_at 4 m 24 = 0.

(** C11: [create_gpadl] posts a header message and then body messages, in
    order and stopping at the first error, before it waits for the host's
    answer; every message fits the 240 bytes of HvPostMessage, the header
    carries the channel, the handle, the byte count and the size of the whole
    range, the bodies are numbered from 0 and carry the handle, and the page
    numbers the host reads back from them are exactly those of the buffer. *)
Theorem create_gpadl_describes_buffer `{Hypervisor} fuel pfuel relid handle byte_count pfns h s :
  zlen pfns < 8191 -> Forall (fun p => 0 <= p < U64) pfns ->
  0 <= relid < U32 -> 0 <= handle < U32 -> 0 <= byte_count < U32 ->
  exists hd bodies,
    (forall w, create_gpadl fuel pfuel relid handle byte_count pfns h s w =
       (_ ←? post_all h (hd :: bodies); wait_status fuel pfuel s CHANNELMSG_GPADL_CREATED) w) /\
    gpadl_header_ok relid handle byte_count (zlen pfns) hd /\
    (forall i b, bodies !! i = Some b ->
       zlen b <= 240 /\ le_at 4 b 0 = CHANNELMSG_GPADL_BODY /\ le_at 4 b 8 = Z.of_nat i /\
       le_at 4 b 12 = handle) /\
    reassemble (hd :: bodies) = pfns.
Proof.
  intros Hn Hp Hr Hh Hb. pose proof (zlen_nonneg pfns) as Hpos.
  set (hd := header_fixed relid handle (8 + zlen pfns * 8) byte_count ++ pfn_bytes (take 26 pfns)).
  set (bodies := body_messages (S (length (drop 26 pfns))) handle 0 (drop 26 pfns)).
  assert (Hdl : zlen (drop 26 pfns) <= zlen pfns) by (unfold zlen; rewrite length_drop; lia).
  exists hd, bodies. split_and!.
  - intros w. unfold create_gpadl. rewrite gpadl_header_bytes by (unfold U64; lia).
    unfold as_u16, as_u32. rewrite !Z.mod_small by (unfold U16; lia). fold hd.
    cbn [post_all]. unfold mbind, M_bind, lift.
    destruct (post_message _ _ _ hd w) as [[[[]|e] w1]|f]; [|done..].
    rewrite slice_ok by (change max_pfns_in_header with 26; lia).
    rewrite take_ge by (rewrite length_drop; unfold zlen; lia).
    assert (drop (Z.to_nat (Z.min (zlen pfns) max_pfns_in_header)) pfns = drop 26 pfns) as ->.
    { change max_pfns_in_header with 26. unfold zlen.
      destruct (decide (length pfns <= 26)%nat); [by rewrite !drop_ge by lia|f_equal; lia]. }
    rewrite post_bodies_all by (unfold U32; lia). fold bodies.
    by destruct (post_all h bodies w1) as [[[[]|e] w2]|f].
  - split.
    { unfold hd. rewrite zlen_app. change (zlen (header_fixed _ _ _ _)) with 28.
      unfold zlen. rewrite length_pfn_bytes, length_take. lia. }
    replace (8 + 8 * zlen pfns) with (8 + zlen pfns * 8) by lia.
    apply header_fields; try done. unfold U16. lia.
  - intros i b Hi. apply (bodies_numbered _ _ _ _ _ _ Hh) in Hi; [done|lia|].
    unfold zlen, U32 in *. lia.
  - unfold reassemble, hd, bodies. rewrite words_after by (done || by apply Forall_take).
    rewrite bodies_reassemble by (lia || by apply Forall_drop). apply take_drop.
Qed.

(** ** Opening a channel *)

Lemma new_inv b total m r m' :
  new b total m = Ret (r, m') ->
  4096 < total /\ total mod 4096 = 0 /\ r = {| base := b; data_size := total - 4096 |}.
Proof.
  intros Hn. apply bind_inv in Hn as (u & m1 & Ha & Hn). unfold lift, rassert in Ha.
  destruct (_ && _) eqn:E; [|done]. apply andb_prop in E as [E1 E2].
  apply Z.ltb_lt in E1. apply Z.eqb_eq in E2.
  apply bind_inv in Hn as (p & m2 & _ & Hn). apply bind_inv in Hn as (u2 & m3 & _ & Hn).
  apply bind_inv in Hn as (ds & m4 & Hs & Hn). unfold lift, usub in Hs.
  destruct (_ <=? _); [|done]. injection Hs as <- <-. injection Hn as <- <-. done.
Qed.

Lemma on_mem_inv {A} (op : M mem A) w a w' :
  on_mem op w = Ret (a, w') -> exists m', op (wmem w) = Ret (a, m') /\ w' = set_mem m' w.
Proof. unfold on_mem. destruct (op (wmem w)) as [[x m']|]; [|done]. intros [= <- <-]. eauto. Qed.

(** A channel that [open_channel] returns belongs to the offer, and its
    two rings split the allocated buffer in the middle: the send half is the
    first half of the buffer, the receive half starts where it ends, and each
    has a data area of half the buffer less its control page.  This needs a
    ring size that is a multiple of 8192 and at least 16384, so of the sizes
    the assertion lets through (multiples of 4096 from 8192 on) the others
    never yield a channel. *)
Theorem open_channel_splits_buffer `{Hypervisor} `{DmaAllocator world} fuel pfuel stage offer
    ring_size h s w c w' :
  open_channel fuel pfuel stage offer ring_size h s w = Ret (Ok c, w') ->
  ring_size mod 8192 = 0 /\ 16384 <= ring_size /\
  ch_relid c = child_relid offer /\ ch_connection_id c = connection_id offer /\ ch_hcall c = h /\
  base (ch_send c) = vaddr (ch_ring_buf c) /\ data_size (ch_send c) = ring_size / 2 - 4096 /\
  base (ch_recv c) = base (ch_send c) + 4096 + data_size (ch_send c) /\
  base (ch_recv c) + 4096 + data_size (ch_recv c) = vaddr (ch_ring_buf c) + ring_size.
Proof.
  intros Ho. apply bind_inv in Ho as (u & w1 & Ha & Ho). unfold lift, rassert in Ha.
  destruct (_ && _) eqn:E; [|done]. apply andb_prop in E as [_ E2]. apply Z.eqb_eq in E2.
  apply bind_inv in Ho as (rb & w2 & _ & Ho). apply bind_inv in Ho as (pfns & w3 & _ & Ho).
  apply bind_inv in Ho as (hdl & w4 & _ & Ho).
  apply try_bind_inv in Ho as ([u2|e] & w5 & _ & Ho); [|by destruct Ho].
  apply try_bind_inv in Ho as ([u3|e] & w6 & _ & Ho); [|by destruct Ho].
  apply bind_inv in Ho as (sr & w7 & Hs & Ho). apply on_mem_inv in Hs as (m7 & Hs & ->).
  apply bind_inv in Ho as (rbase & w8 & Hb & Ho). unfold lift, uadd in Hb.
  destruct (_ <? _); [|done]. injection Hb as <- <-.
  apply bind_inv in Ho as (rr & w9 & Hr & Ho). apply on_mem_inv in Hr as (m9 & Hr & ->).
  apply bind_inv in Ho as (u4 & w10 & _ & Ho). injection Ho as <- <-.
  apply new_inv in Hs as (H1 & H2 & ->). apply new_inv in Hr as (_ & _ & ->). simpl.
  pose proof (Z_div_mod_eq_full ring_size 4096). pose proof (Z_div_mod_eq_full ring_size 2).
  pose proof (Z.mod_pos_bound ring_size 2). pose proof (Z_div_mod_eq_full (ring_size / 2) 4096).
  assert (Hrs : ring_size = (ring_size / 2 / 4096) * 8192) by lia.
  split; [by rewrite Hrs, Z.mod_mul|]. split_and!; try done; lia.
Qed.

(** ** Witnesses *)

(** A channel whose send ring is [ring0], followed by the receive ring. *)
Definition channel0 (snd rcv : RingHalf) : Channel :=
  {| ch_relid := 7; ch_connection_id := 70001;
     ch_ring_buf := {| vaddr := 4096; paddr := 4096; rsize := 16384 |};
     ch_gpadl_handle := 1; ch_send := snd; ch_recv := rcv; ch_hcall := hcall0 |}.

Lemma channel_senders_witness :
  @sends (queue_host synic0) (channel0 ring0 ring0) []
    (data_packet VM_PKT_DATA_INBAND 1 77 payload0) (world_of [])
    (@send (queue_host synic0) (channel0 ring0 ring0) payload0 77 (world_of [])).
Proof.
  destruct (@channel_senders (queue_host synic0) (channel0 ring0 ring0) [] (world_of [])
    payload0 77 0 0 0 ring0_empty) as [Hs _].
  - vm_compute. congruence.
  - vm_compute. congruence.
  - vm_compute. split; congruence.
  - exact Hs.
Defined.

(** A host that puts a packet in the ring while the guest halts, when the
    ring is empty. *)
Definition packet_host : Hypervisor := {|
  hv_call _ _ _ w := (0, w);
  hv_wrmsr _ _ w := w;
  hv_async w := w;
  hv_park w := {| wmem := if used (wmem w) ring0 =? 0 then sent ring0 (wmem w) packet0 else wmem w;
                  now := now w + 1000; next_gpadl := next_gpadl w;
                  trace := trace w; hostq := hostq w |};
|}.

#[export] Instance packet_host_producer :
  @RingProducer packet_host ring0 deliverable (fun w => next_gpadl w = 1).
Proof.
  split; cbn [hv_async hv_park packet_host now wmem]; try done.
  - intros w q Hq. exists []. by rewrite app_nil_r.
  - intros w q (Hq & Hd & Hi). unfold pending. cbn [wmem]. destruct (Z.eqb_spec (used (wmem w) ring0) 0) as [E|].
    + exists [packet0]. split_and!; [|apply Forall_app; split; [done|by repeat constructor]|done].
      apply sent_repr; [done|done|apply packet0_wf|by rewrite E].
    + exists []. by rewrite app_nil_r.
  - intros. lia.
Qed.


Lemma create_gpadl_describes_buffer_witness :
  exists hd bodies,
    (forall w, @create_gpadl (queue_host synic0) 1 8 7 1 262144 (seqZ 16 64) hcall0 synic0 w =
       (_ ←? @post_all (queue_host synic0) hcall0 (hd :: bodies);
        @wait_status (queue_host synic0) 1 8 synic0 CHANNELMSG_GPADL_CREATED) w) /\
    reassemble (hd :: bodies) = seqZ 16 64.
Proof.
  destruct (@create_gpadl_describes_buffer (queue_host synic0) 1 8 7 1 262144 (seqZ 16 64)
    hcall0 synic0) as (hd & bodies & Hrun & _ & _ & Hre); [done| |done..|].
  - apply Forall_forall. intros p Hp%elem_of_seqZ. unfold U64. lia.
  - exists hd, bodies. split; [exact Hrun|exact Hre].
Defined.

(** The host creates the GPADL and opens the channel. *)
Lemma open_channel_splits_buffer_witness :
  exists c w',
    @open_channel (queue_host synic0) dma0 1 8 0 offer0 16384 hcall0 synic0
      (world_of [le_split 4 CHANNELMSG_GPADL_CREATED ++ le_split 16 0;
                 le_split 4 CHANNELMSG_OPENCHANNEL_RESULT ++ le_split 16 0]) = Ret (Ok c, w') /\
    base (ch_recv c) = base (ch_send c) + 4096 + data_size (ch_send c).
Proof.
  set (w := world_of _).
  assert (Hval : match @open_channel (queue_host synic0) dma0 1 8 0 offer0 16384 hcall0 synic0 w
                 with Ret (Ok _, _) => true | _ => false end = true) by (vm_compute; reflexivity).
  destruct (@open_channel (queue_host synic0) dma0 1 8 0 offer0 16384 hcall0 synic0 w)
    as [[[c|] w']|] eqn:Hrun; [|discriminate Hval..].
  exists c, w'. split; [reflexivity|].
  apply (@open_channel_splits_buffer (queue_host synic0) dma0 1 8 0 offer0 16384 hcall0 synic0
    w c w' Hrun).
Defined.
