(* ===== verification/Synthvid.v ===== *)
(** The synthetic video device ([crates/embclox-hyperv/src/synthvid.rs]): its
    messages over a VMBus channel, the start-up exchange with the host, and
    the framebuffer. *)

From S2P Require Import Prelude Mem Dma World Hypercall Synic Ring RingFacts RingFifo VmBus Channel.

Definition SYNTHVID_VERSION_REQUEST : Z := 1.
Definition SYNTHVID_VERSION_RESPONSE : Z := 2.
Definition SYNTHVID_VRAM_LOCATION : Z := 3.
Definition SYNTHVID_VRAM_LOCATION_ACK : Z := 4.
Definition SYNTHVID_SITUATION_UPDATE : Z := 5.
Definition SYNTHVID_DIRT : Z := 10.
Definition PIPE_MSG_DATA : Z := 1.
Definition SYNTHVID_VERSION_WIN10 : Z := Z.lor (Z.shiftl 5 16) 3.
Definition SYNTHVID_VERSION_WIN8 : Z := Z.lor (Z.shiftl 2 16) 3.

(** ** Messages *)

(** The length, and the buffer with the message at its start. *)
Definition build_msg (vid_type : Z) (body buf : list byte) : outcome (Z * list byte) :=
  vid_hdr_size ← uadd 8 (zlen body);
  total ← uadd 8 vid_hdr_size;
  _ ← rassert (total <=? zlen buf);
  buf ← copy_into 0 (le_split 4 PIPE_MSG_DATA) buf;
  buf ← copy_into 4 (le_split 4 (as_u32 vid_hdr_size)) buf;
  buf ← copy_into 8 (le_split 4 vid_type) buf;
  buf ← copy_into 12 (le_split 4 (as_u32 vid_hdr_size)) buf;
  buf ← copy_into 16 body buf;
  mret (total, buf).

Definition parse_vid_type (buf : list byte) : option Z :=
  if zlen buf <? 16 then None else Some (le_at 4 buf 8).

(** [let mut msg = [0u8; n]; let len = build_msg(.., &mut msg); .. &msg[..len]]. *)
Definition message (vid_type : Z) (body : list byte) (n : nat) : outcome (list byte) :=
  '(len, msg) ← build_msg vid_type body (replicate n Byte.x00);
  slice msg 0 len.

(** The bodies, written over zeroed arrays. *)
Definition vram_location_body (vram_paddr : Z) : outcome (list byte) :=
  let body := replicate 17 Byte.x00 in
  body ← copy_into 8 [Byte.x01] body;
  copy_into 9 (le_split 8 vram_paddr) body.

Definition situation_body (width height : Z) : outcome (list byte) :=
  let body := replicate 27 Byte.x00 in
  body ← copy_into 8 [Byte.x01] body;
  body ← copy_into 9 [Byte.x01] body;
  body ← copy_into 10 (le_split 4 0) body;
  body ← copy_into 14 (le_split 1 32) body;
  body ← copy_into 15 (le_split 4 width) body;
  body ← copy_into 19 (le_split 4 height) body;
  pitch ← u32mul width 4;
  copy_into 23 (le_split 4 pitch) body.

Definition dirt_body (x y w h : Z) : outcome (list byte) :=
  let body := replicate 18 Byte.x00 in
  body ← copy_into 0 [Byte.x00] body;
  body ← copy_into 1 [Byte.x01] body;
  body ← copy_into 2 (le_split 4 x) body;
  body ← copy_into 6 (le_split 4 y) body;
  x2 ← i32 (x + w);
  body ← copy_into 10 (le_split 4 x2) body;
  y2 ← i32 (y + h);
  copy_into 14 (le_split 4 y2) body.

(** ** The device *)

Record SynthvidDevice := {
  vid_channel : Channel;
  vram : DmaRegion;
  width : Z;
  height : Z;
  bpp : Z;
  stride : Z;
  vid_next_txid : Z;
}.

Definition set_vid_txid (t : Z) (d : SynthvidDevice) : SynthvidDevice :=
  {| vid_channel := vid_channel d; vram := vram d; width := width d; height := height d;
     bpp := bpp d; stride := stride d; vid_next_txid := t |}.

(** Methods that take the device mutably. *)
Abbreviation V := (M (SynthvidDevice * world)).

Definition on_machine {A} (c : W A) : V A := zoom snd (fun w s => (s.1, w)) c.

(** [Duration::from_millis]. *)
Definition millis (n : Z) : Z := n * 1000.

(** [put_pixel]: four byte stores. *)
Definition put_pixel (d : SynthvidDevice) (x y r g b : Z) : W unit :=
  if (width d <=? x) || (height d <=? y) then mret tt else
  row ← lift (u32mul y (stride d));
  cell ← lift (u32add row x);
  offset ← lift (u32mul cell 4);
  let fb := vaddr (vram d) in
  on_mem (fun m => Ret (tt,
    store_bytes (store_bytes (store_bytes (store_bytes m
      (fb + offset) [byte.of_Z b]) (fb + (offset + 1)) [byte.of_Z g])
      (fb + (offset + 2)) [byte.of_Z r]) (fb + (offset + 3)) [Byte.x00])).

Section device.
Context `{Hypervisor} `{DmaAllocator world}.
Context (fuel dfuel pfuel : nat).

(** [let txid = self.next_txid; self.next_txid += 1; self.channel.send_raw(..)]. *)
Definition send_msg (msg : list byte) : V (result unit HvError) :=
  txid ← gets (fun s => vid_next_txid s.1);
  next ← lift (uadd txid 1);
  _ ← modify (fun s => (set_vid_txid next s.1, s.2));
  c ← gets (fun s => vid_channel s.1);
  on_machine (send_raw c msg txid).

(** [let mut buf = [0u8; 256]; recv_with_timeout(&mut buf, 2 s)]. *)
Definition recv_reply : V (result (VmPacketDescriptor * Z) HvError * list byte) :=
  c ← gets (fun s => vid_channel s.1);
  on_machine (recv_with_timeout fuel c (replicate 256 Byte.x00) (secs 2)).

Definition dirty_rect (x y w h : Z) : V (result unit HvError) :=
  body ← lift (dirt_body x y w h);
  msg ← lift (message SYNTHVID_DIRT body 64);
  send_msg msg.

Definition dirt_full : V (result unit HvError) :=
  d ← gets fst;
  dirty_rect 0 0 (as_i32 (width d)) (as_i32 (height d)).

(** [while let Ok(Some(_)) = self.channel.try_recv(&mut buf)]; the host may
    act before each look. *)
Fixpoint drain_visible (n : nat) (c : Channel) (buf : list byte) : W (list byte) :=
  match n with
  | O => panic OutOfFuel
  | S n' =>
      _ ← host_activity;
      '(r, buf') ← try_recv c buf;
      match r with
      | Ok (Some _) => drain_visible n' c buf'
      | _ => mret buf'
      end
  end.

(** One poll of the future of [drain_recv]: its state is the deadline, once
    it is known, and the buffer. *)
Definition drain_poll (c : Channel) (st : option Z * list byte)
  : W (poll unit * (option Z * list byte)) :=
  deadline ← match st.1 with Some d => mret d | None => t ← gets now; mret (t + millis 10) end;
  buf ← drain_visible dfuel c st.2;
  t ← gets now;
  if deadline <=? t then mret (Ready tt, (Some deadline, buf))
  else mret (Pending, (Some deadline, buf)).

Definition drain_recv : V unit :=
  c ← gets (fun s => vid_channel s.1);
  on_machine (
    _ ← block_on_hlt fuel (drain_poll c) (None, replicate 256 Byte.x00);
    mret tt).

(** The loop over the versions to try. *)
Fixpoint negotiate (versions : list Z) : V (result unit HvError) :=
  match versions with
  | [] => mret (Err VersionRejected)
  | version :: rest =>
      msg ← lift (message SYNTHVID_VERSION_REQUEST (le_split 4 version) 32);
      _ ←? send_msg msg;
      '(r, buf) ← recv_reply;
      match r with
      | Err e => mret (Err e)
      | Ok (_, rlen) =>
          if 22 <=? rlen then
            match parse_vid_type buf with
            | Some vid_type =>
                if vid_type =? SYNTHVID_VERSION_RESPONSE then
                  is_accepted ← lift (index buf 20);
                  if bool_decide (is_accepted = Byte.x00) then negotiate rest else mret (Ok tt)
                else negotiate rest
            | None => negotiate rest
            end
          else negotiate rest
      end
  end.

Definition negotiate_version : V (result unit HvError) :=
  negotiate [SYNTHVID_VERSION_WIN10; SYNTHVID_VERSION_WIN8].

Definition set_vram_location : V (result unit HvError) :=
  d ← gets fst;
  body ← lift (vram_location_body (paddr (vram d)));
  msg ← lift (message SYNTHVID_VRAM_LOCATION body 48);
  _ ←? send_msg msg;
  '(r, buf) ← recv_reply;
  match r with
  | Err e => mret (Err e)
  | Ok (_, rlen) =>
      if 16 <=? rlen then
        match parse_vid_type buf with
        | Some vid_type =>
            if vid_type =? SYNTHVID_VRAM_LOCATION_ACK then mret (Ok tt) else mret (Err Timeout)
        | None => mret (Err Timeout)
        end
      else mret (Err Timeout)
  end.

Definition set_situation : V (result unit HvError) :=
  d ← gets fst;
  body ← lift (situation_body (width d) (height d));
  msg ← lift (message SYNTHVID_SITUATION_UPDATE body 64);
  send_msg msg.

(** The size of the framebuffer in bytes, and in whole pages. *)
Definition vram_bytes (w h : Z) : outcome Z := a ← u32mul w h; u32mul a (32 / 8).
Definition vram_alloc (size : Z) : outcome Z := s ← uadd size 4095; mret (Z.land s (not_u64 4095)).

(** The existing framebuffer, or fresh memory. *)
Definition get_vram (fb_phys fb_vaddr : option Z) (size : Z) : W DmaRegion :=
  match fb_phys, fb_vaddr with
  | Some phys, Some va => mret {| vaddr := va; paddr := phys; rsize := size |}
  | _, _ => alloc_coherent size 4096
  end.

(** The exchange of [init] with the host, on the device just made. *)
Definition start_up : V (result unit HvError) :=
  _ ←? negotiate_version;
  _ ← drain_recv;
  _ ←? set_vram_location;
  _ ← drain_recv;
  _ ←? set_situation;
  _ ← drain_recv;
  _ ←? dirt_full;
  _ ← drain_recv;
  mret (Ok tt).

(** A method of a local device, which is returned when it succeeds. *)
Definition owning (dev : SynthvidDevice) (c : V (result unit HvError))
  : W (result SynthvidDevice HvError) :=
  fun w => match c (dev, w) with
           | Ret (Ok _, (dev', w')) => Ret (Ok dev', w')
           | Ret (Err e, (_, w')) => Ret (Err e, w')
           | Panic f => Panic f
           end.

Definition vid_init (ch : Channel) (w h : Z) (fb_phys fb_vaddr : option Z)
  : W (result SynthvidDevice HvError) :=
  vram_size ← lift (vram_bytes w h);
  alloc ← lift (vram_alloc vram_size);
  region ← get_vram fb_phys fb_vaddr alloc;
  let dev := {| vid_channel := ch; vram := region; width := w; height := h; bpp := 32;
                stride := w; vid_next_txid := 1 |} in
  owning dev start_up.

Context (crash_after_stage : Z).

Definition init_display (v : VmBus.VmBus) (w h : Z) (fb_phys fb_vaddr : option Z)
  : W (result (option SynthvidDevice) HvError) :=
  match find_offer v SYNTHVID with
  | None => mret (Ok None)
  | Some offer =>
      channel ←? open_channel fuel pfuel crash_after_stage offer (256 * 1024) (hcall v) (synic v);
      device ←? vid_init channel w h fb_phys fb_vaddr;
      mret (Ok (Some device))
  end.
End device.

(** ** Properties *)

(** *** The messages *)

Lemma copy_into_next {A} (pre bs rest : list A) off :
  off = zlen pre -> zlen bs <= zlen rest ->
  copy_into off bs (pre ++ rest) = Ret ((pre ++ bs) ++ drop (length bs) rest).
Proof.
  intros -> Hle. unfold copy_into. rewrite zlen_app, (proj2 (Z.leb_le _ _)) by lia.
  unfold put, zlen. rewrite Nat2Z.id, take_app_length, <- app_assoc, drop_app_ge by lia.
  do 3 f_equal. f_equal. lia.
Qed.

(** The message of a type and a body. *)
Definition message_bytes (vid_type : Z) (body : list byte) : list byte :=
  le_split 4 PIPE_MSG_DATA ++ le_split 4 (8 + zlen body) ++
  le_split 4 vid_type ++ le_split 4 (8 + zlen body) ++ body.

Lemma message_ok ty body n :
  (16 + length body <= n)%nat -> Z.of_nat n < U32 ->
  message ty body n = Ret (message_bytes ty body).
Proof.
  intros Hn Hu. unfold message, build_msg.
  assert (Hz : zlen (replicate n Byte.x00) = Z.of_nat n) by (unfold zlen; by rewrite length_replicate).
  assert (Hb : zlen body = Z.of_nat (length body)) by done. unfold U32 in Hu.
  rewrite uadd_ok by (unfold U64; lia). cbn [mbind outcome_bind].
  rewrite uadd_ok by (unfold U64; lia). cbn [mbind outcome_bind].
  unfold rassert. rewrite (proj2 (Z.leb_le _ _)) by lia. cbn [mbind outcome_bind].
  unfold as_u32. rewrite Z.mod_small by (unfold U32; lia).
  change (replicate n Byte.x00) with ([] ++ replicate n Byte.x00).
  do 4 (rewrite copy_into_next; cbn [mbind outcome_bind];
    [|by autorewrite with zlen|unfold zlen in *; rewrite ?length_drop, length_le_split; lia];
    rewrite ?length_le_split, ?drop_drop).
  rewrite copy_into_next; cbn [mbind outcome_bind mret outcome_ret];
    [|by autorewrite with zlen|unfold zlen in *; rewrite length_drop; lia].
  rewrite slice_ok; [|lia|unfold zlen in *; rewrite !length_app, !length_drop, !length_le_split; simpl; lia].
  change (Z.to_nat 0) with O. rewrite drop_0, take_app_length'; [by rewrite <- !app_assoc|].
  rewrite !length_app, !length_le_split. simpl. lia.
Qed.

Lemma zlen_message_bytes ty body : zlen (message_bytes ty body) = 16 + zlen body.
Proof. unfold message_bytes. autorewrite with zlen. lia. Qed.

(** What the host reads: the type and the body. *)
Lemma message_bytes_fields ty body :
  0 <= ty < U32 ->
  parse_vid_type (message_bytes ty body) = Some ty /\ drop 16 (message_bytes ty body) = body.
Proof.
  intros Hty. unfold parse_vid_type. rewrite zlen_message_bytes.
  pose proof (zlen_nonneg body). rewrite (proj2 (Z.ltb_ge _ _)) by lia.
  unfold message_bytes. split.
  - f_equal. unfold le_at. rewrite !app_assoc, <- (app_assoc _ (le_split 4 ty)).
    rewrite <- !app_assoc, (app_assoc (le_split 4 PIPE_MSG_DATA)).
    rewrite drop_app_length' by (by rewrite length_app, !length_le_split).
    rewrite take_app_length' by (by rewrite length_le_split).
    rewrite le_combine_split. by apply Z.mod_small.
  - rewrite !app_assoc, drop_app_length'; [done|]. by rewrite !length_app, !length_le_split.
Qed.

Definition vram_location_bytes (pa : Z) : list byte :=
  replicate 8 Byte.x00 ++ [Byte.x01] ++ le_split 8 pa.
Definition situation_bytes (w h : Z) : list byte :=
  replicate 8 Byte.x00 ++ [Byte.x01; Byte.x01] ++ le_split 4 0 ++ le_split 1 32 ++
  le_split 4 w ++ le_split 4 h ++ le_split 4 (w * 4).
Definition dirt_bytes (x1 y1 x2 y2 : Z) : list byte :=
  [Byte.x00; Byte.x01] ++ le_split 4 x1 ++ le_split 4 y1 ++ le_split 4 x2 ++ le_split 4 y2.

Lemma length_vram_location pa : length (vram_location_bytes pa) = 17%nat.
Proof. unfold vram_location_bytes. by rewrite !length_app, length_le_split. Qed.
Lemma length_situation w h : length (situation_bytes w h) = 27%nat.
Proof. unfold situation_bytes. by rewrite !length_app, !length_le_split. Qed.
Lemma length_dirt x y x2 y2 : length (dirt_bytes x y x2 y2) = 18%nat.
Proof. unfold dirt_bytes. by rewrite !length_app, !length_le_split. Qed.

Ltac body_step :=
  rewrite copy_into_next; cbn [mbind outcome_bind];
    [|by autorewrite with zlen|unfold zlen; rewrite ?length_drop, ?length_replicate, ?length_le_split; done];
  rewrite ?length_le_split, ?drop_drop; cbn [length].

Lemma vram_location_body_ok pa : vram_location_body pa = Ret (vram_location_bytes pa).
Proof.
  unfold vram_location_body.
  change (replicate 17 Byte.x00) with (replicate 8 Byte.x00 ++ replicate 9 Byte.x00).
  do 2 body_step. by rewrite app_nil_r, <- !app_assoc.
Qed.

Lemma situation_body_ok w h : w * 4 < U32 -> situation_body w h = Ret (situation_bytes w h).
Proof.
  intros Hw. unfold situation_body.
  change (replicate 27 Byte.x00) with (replicate 8 Byte.x00 ++ replicate 19 Byte.x00).
  do 6 body_step. rewrite u32mul_ok by done. cbn [mbind outcome_bind]. body_step.
  by rewrite app_nil_r, <- !app_assoc.
Qed.

(** A rectangle is reported by its corners, which must fit 32 bits. *)
Lemma dirt_body_cases x y w h :
  dirt_body x y w h =
    if bool_decide (- I31 <= x + w < I31 /\ - I31 <= y + h < I31)
    then Ret (dirt_bytes x y (x + w) (y + h)) else Panic ArithOverflow.
Proof.
  assert (Hc : forall z, ~ (- I31 <= z < I31) -> i32 z = Panic ArithOverflow).
  { intros z Hz. unfold i32. destruct (Z.leb_spec (- I31) z), (Z.ltb_spec z I31); [lia|done..]. }
  unfold dirt_body. change (replicate 18 Byte.x00) with ([] ++ replicate 18 Byte.x00).
  do 4 body_step. destruct (decide (- I31 <= x + w < I31)) as [Hx|Hx];
    [|by rewrite (Hc _ Hx), bool_decide_eq_false_2 by tauto].
  rewrite (i32_ok (x + w)) by done. cbn [mbind outcome_bind]. body_step.
  destruct (decide (- I31 <= y + h < I31)) as [Hy|Hy];
    [|by rewrite (Hc _ Hy), bool_decide_eq_false_2 by tauto].
  rewrite i32_ok, bool_decide_eq_true_2 by done. cbn [mbind outcome_bind]. body_step. by rewrite app_nil_r, <- !app_assoc.
Qed.

(** *** The framebuffer *)

(** A device as [init] makes it: the screen is in its memory. *)
Record screen_ok (d : SynthvidDevice) : Prop := {
  sc_width : 0 < width d;
  sc_height : 0 < height d;
  sc_stride : stride d = width d;
  sc_u32 : width d * height d * 4 < U32;
  sc_vram : width d * height d * 4 <= rsize (vram d);
}.

Definition pixel_at (d : SynthvidDevice) (x y : Z) : Z := vaddr (vram d) + (y * width d + x) * 4.
Definition pixel (m : mem) (d : SynthvidDevice) (x y : Z) : list byte :=
  load_bytes m (pixel_at d x y) 4.
Definition on_screen (d : SynthvidDevice) (x y : Z) : Prop := 0 <= x < width d /\ 0 <= y < height d.

Lemma pixel_inside d x y :
  screen_ok d -> on_screen d x y ->
  vaddr (vram d) <= pixel_at d x y /\ pixel_at d x y + 4 <= vaddr (vram d) + rsize (vram d) /\
  0 <= y * width d /\ (y * width d + x) * 4 < U32.
Proof. intros [] [??]. unfold pixel_at. nia. Qed.

Lemma pixel_apart d x y x' y' :
  screen_ok d -> on_screen d x y -> on_screen d x' y' -> (x', y') <> (x, y) ->
  pixel_at d x' y' + 4 <= pixel_at d x y \/ pixel_at d x y + 4 <= pixel_at d x' y'.
Proof.
  intros [] [??] [??] Hne. unfold pixel_at.
  destruct (Z.lt_trichotomy y y') as [|[->|]]; [right; nia| |left; nia].
  destruct (Z.lt_trichotomy x x') as [|[->|]]; [right; lia|done|left; lia].
Qed.

(** C32: drawing a pixel never leaves the framebuffer.  Off the screen it does
    nothing; on the screen the four bytes of the pixel become blue, green,
    red and zero, no 32-bit computation overflows, no other pixel changes and
    nothing outside the framebuffer does. *)
Theorem put_pixel_draws d w x y r g b :
  screen_ok d -> 0 <= x -> 0 <= y ->
  exists m', put_pixel d x y r g b w = Ret (tt, set_mem m' w) /\
    if (x <? width d) && (y <? height d) then
      pixel m' d x y = [byte.of_Z b; byte.of_Z g; byte.of_Z r; Byte.x00] /\
      (forall x' y', on_screen d x' y' -> (x', y') <> (x, y) -> pixel m' d x' y' = pixel (wmem w) d x' y') /\
      (forall a, a < vaddr (vram d) \/ vaddr (vram d) + rsize (vram d) <= a ->
        load_byte m' a = load_byte (wmem w) a)
    else m' = wmem w.
Proof.
  intros Hd Hx Hy. unfold put_pixel. rewrite !Z.leb_antisym.
  destruct (x <? width d) eqn:Ex; [|exists (wmem w); by destruct w].
  destruct (y <? height d) eqn:Ey; [|exists (wmem w); by destruct w].
  apply Z.ltb_lt in Ex, Ey. cbn [negb orb andb].
  destruct (pixel_inside d x y Hd) as (H1 & H2 & H3 & H4); [by split|].
  rewrite (sc_stride d Hd).
  exists (store_bytes (wmem w) (pixel_at d x y) [byte.of_Z b; byte.of_Z g; byte.of_Z r; Byte.x00]).
  split; [|split_and!].
  - unfold U32 in H4.
    erewrite bind_lift by (apply u32mul_ok; unfold U32; lia). cbv beta.
    erewrite bind_lift by (unfold u32add; rewrite (proj2 (Z.ltb_lt _ _)) by (unfold U32; lia); reflexivity).
    cbv beta. erewrite bind_lift by (apply u32mul_ok; unfold U32; lia). cbv beta zeta.
    unfold on_mem, pixel_at. do 3 f_equal.
    change [byte.of_Z b; byte.of_Z g; byte.of_Z r; Byte.x00]
      with ([byte.of_Z b] ++ [byte.of_Z g] ++ [byte.of_Z r] ++ [Byte.x00]).
    rewrite !store_bytes_app. unfold zlen. cbn [length]. f_equal; [|lia]. f_equal; [|lia]. f_equal; lia.
  - apply load_bytes_store_eq.
  - intros x' y' Hs Hne. apply load_bytes_store_ne.
    pose proof (pixel_apart d x y x' y' Hd (conj (conj Hx Ex) (conj Hy Ey)) Hs Hne). unfold zlen. simpl. lia.
  - intros a Ha. apply load_byte_store_ne. unfold zlen. simpl. lia.
Qed.

(** *** The start-up exchange *)

(** Replies of the host, by their payload. *)
Definition accepts (p : packet) : Prop :=
  22 <= zlen (payload_of p) /\ le_at 4 (payload_of p) 8 = SYNTHVID_VERSION_RESPONSE /\
  payload_of p !! 20%nat <> Some Byte.x00.
Definition acknowledges (p : packet) : Prop :=
  16 <= zlen (payload_of p) /\ le_at 4 (payload_of p) 8 = SYNTHVID_VRAM_LOCATION_ACK.

(** The host side of a video channel: it consumes from the send ring and
    appends packets of the kind [P] to the receive ring, at most [vid_budget]
    more, and time passes over every halt. *)
Class VideoHost `{Hypervisor} (c : Channel) (P : packet -> Prop) := {
  vid_budget : world -> nat;
  vid_budget_mem : forall m w, vid_budget (set_mem m w) = vid_budget w;
  vid_budget_log : forall e w, vid_budget (log_event e w) = vid_budget w;
  vid_deliverable : forall p, P p -> deliverable p;
  vid_host : forall w w' qs qr, host_step w w' \/ w' = hv_park w ->
    ring_repr (wmem w) (ch_send c) qs -> ring_repr (wmem w) (ch_recv c) qr ->
    exists k new, ring_repr (wmem w') (ch_send c) (drop k qs) /\
      ring_repr (wmem w') (ch_recv c) (qr ++ new) /\ Forall P new /\
      (length new + vid_budget w' <= vid_budget w)%nat;
  vid_time : forall w w', host_step w w' -> now w <= now w';
  vid_time_park : forall w, now w < now (hv_park w);
}.

(** The rings of a channel do not overlap. *)
Record vid_layout (c : Channel) : Prop := {
  vl_size : data_size (ch_send c) <= 2 ^ 19;
  vl_rings : disjoint (base (ch_send c)) (ring_span (ch_send c)) (base (ch_recv c)) (ring_span (ch_recv c));
}.

Section startup.
Context `{Hv : Hypervisor} `{DmaAllocator world} (c : Channel) (P : packet -> Prop).
Context `{!VideoHost c P} (Hl : vid_layout c) (N : nat).

(** The send ring is in order and the host has at most [N] packets to send. *)
Definition vid_sound (w : world) : Prop :=
  (exists qs, ring_repr (wmem w) (ch_send c) qs) /\ (vid_budget w <= N)%nat.
Abbreviation rx := (pending (ch_recv c) P vid_sound).

Lemma vid_host_step w w' qr :
  rx w qr -> host_step w w' \/ w' = hv_park w ->
  exists new, rx w' (qr ++ new) /\ (length new + vid_budget w' <= vid_budget w)%nat.
Proof.
  intros (Hr & HP & (qs & Hs) & HN) Hst.
  destruct (vid_host w w' qs qr Hst Hs Hr) as (k & new & Hs' & Hr' & HP' & Hb).
  exists new. split; [|done]. split_and!; [done|by apply Forall_app|]. split; [by eexists|lia].
Qed.

#[export] Instance vid_producer : RingProducer (ch_recv c) P vid_sound.
Proof.
  split.
  - apply vid_deliverable.
  - intros w m [(qs & Hs) HN] Hf. split; [|by rewrite vid_budget_mem]. exists qs.
    eapply ring_repr_frame; [exact Hf| |exact Hs]. pose proof (vl_rings c Hl). unfold disjoint in *. lia.
  - intros e w [Hs HN]. split; [done|by rewrite vid_budget_log].
  - intros w q Hq. destruct (vid_host_step w (hv_async w) q Hq) as (new & Hn & _); [by left; left|eauto].
  - intros w q Hq. destruct (vid_host_step w (hv_park w) q Hq) as (new & Hn & _); [by right|eauto].
  - intros w. apply vid_time. by left.
  - apply vid_time_park.
Qed.

Lemma pending_length w qr : rx w qr -> (length qr <= Z.to_nat (data_size (ch_recv c)))%nat.
Proof.
  intros (Hr & _). pose proof (ring_repr_used _ _ _ Hr) as Hu.
  pose proof (used_range _ (proj1 (proj1 Hr)) (wmem w)) as Hb.
  assert (Z.of_nat (length qr) <= fifo_used qr); [|lia]. clear.
  induction qr as [|p q IH]; [done|].
  change (fifo_used (p :: q)) with (slot_size p + fifo_used q). unfold slot_size.
  pose proof (zlen_nonneg (p_body p)). simpl. lia.
Qed.

Lemma send_raw_runs w qr bs tid :
  rx w qr -> zlen bs < 2 ^ 63 -> 0 <= tid < U64 ->
  exists r w' new, send_raw c bs tid w = Ret (r, w') /\ rx w' (qr ++ new) /\
    (r = Ok tt \/ r = Err RING_ERROR).
Proof.
  intros Hq Hlen Ht. pose proof Hq as (Hr & HP & (qs & Hs) & HN).
  pose proof (send_raw_sends c qs w bs tid Hs (vl_size c Hl) Hlen Ht) as Hsend. unfold sends in Hsend.
  destruct (fifo_send _ qs _) as [[u|e] q'].
  - destruct Hsend as (m' & Hm' & Hf & ->).
    assert (Hq1 : rx (set_mem m' w) qr).
    { split_and!; [|done|].
      - eapply ring_repr_frame; [exact Hf|apply Hl|exact Hr].
      - split; [by exists q'|by rewrite vid_budget_mem]. }
    unfold signalled. cbv zeta.
    match goal with |- context [hv_call ?a ?b ?x ?w1] =>
      destruct (vid_host_step w1 (hv_call a b x w1).2 qr) as (new & Hn & _);
        [|left; right; by repeat eexists|] end.
    { destruct Hq1 as (? & ? & ?). by split_and!; [..|apply producer_log]. }
    exists (Ok tt). eexists _, new. split_and!; [reflexivity|done|by left].
  - rewrite Hsend. exists (Err RING_ERROR), w, []. rewrite app_nil_r. split_and!; [done..|by right].
Qed.

(** A method of the device [d] at transaction [t], run against any state of
    the machine: it returns, changes no other field, and [Q] holds of its
    result and the next transaction. *)
Definition vid_wp {A} (m : V A) (d : SynthvidDevice) (t : Z) (Q : A -> Z -> Prop) : Prop :=
  forall w qr, rx w qr -> exists a t' w' qr',
    m (set_vid_txid t d, w) = Ret (a, (set_vid_txid t' d, w')) /\ rx w' qr' /\ Q a t'.

Lemma vid_wp_ret {A} (a : A) d t (Q : A -> Z -> Prop) : Q a t -> vid_wp (mret a) d t Q.
Proof. intros HQ w qr Hq. by exists a, t, w, qr. Qed.

Lemma vid_wp_lift {A B} (o : outcome A) a (k : A -> V B) d t Q :
  o = Ret a -> vid_wp (k a) d t Q -> vid_wp (lift o ≫= k) d t Q.
Proof. intros -> Hk. exact Hk. Qed.

Lemma vid_wp_bind {A B} (m : V A) (k : A -> V B) d t Q1 Q :
  vid_wp m d t Q1 -> (forall a t', Q1 a t' -> vid_wp (k a) d t' Q) -> vid_wp (m ≫= k) d t Q.
Proof.
  intros Hm Hk w qr Hq. destruct (Hm w qr Hq) as (a & t1 & w1 & q1 & E & Hq1 & H1).
  destruct (Hk a t1 H1 w1 q1 Hq1) as (b & t2 & w2 & q2 & E2 & Hq2 & H2).
  exists b, t2, w2, q2. split; [|done]. by erewrite bind_Ret by exact E.
Qed.

Lemma vid_wp_gets {A B} (f : SynthvidDevice -> A) (k : A -> V B) d t Q :
  vid_wp (k (f (set_vid_txid t d))) d t Q -> vid_wp (gets (fun s => f s.1) ≫= k) d t Q.
Proof. intros Hk. exact Hk. Qed.

Lemma vid_wp_machine {A} (m : W A) d t (Q : A -> Z -> Prop) :
  (forall w qr, rx w qr -> exists a w' qr', m w = Ret (a, w') /\ rx w' qr' /\ Q a t) ->
  vid_wp (on_machine m) d t Q.
Proof.
  intros Hm w qr Hq. destruct (Hm w qr Hq) as (a & w' & q' & E & Hq' & HQ).
  exists a, t, w', q'. split; [|done]. unfold on_machine. by erewrite zoom_Ret by exact E.
Qed.

Context (d : SynthvidDevice) (Hc : vid_channel d = c).
Context (fuel dfuel : nat) (Hfuel : (Z.to_nat (secs 2) < fuel)%nat).
Context (Hdfuel : (Z.to_nat (data_size (ch_recv c)) + N < dfuel)%nat).

Lemma send_msg_wp bs t :
  zlen bs < 2 ^ 63 -> 0 <= t < U64 - 1 ->
  vid_wp (send_msg bs) d t (fun r t' => t' = t + 1 /\ (r = Ok tt \/ r = Err RING_ERROR)).
Proof.
  intros Hlen Ht. unfold send_msg. apply (vid_wp_gets vid_next_txid). cbn [set_vid_txid vid_next_txid].
  eapply vid_wp_lift; [apply uadd_ok; lia|]. intros w qr Hq.
  destruct (send_raw_runs w qr bs t Hq Hlen) as (r & w' & new & E & Hq' & Hr); [lia|].
  exists r, (t + 1), w', (qr ++ new). split; [|done].
  erewrite bind_Ret by reflexivity. erewrite bind_Ret by reflexivity. cbv beta.
  unfold on_machine. erewrite zoom_Ret; [reflexivity|]. cbn [fst snd set_vid_txid vid_channel].
  rewrite Hc. exact E.
Qed.

(** What a reply leaves in the buffer. *)
Definition replied (p : packet) (n : Z) (buf : list byte) : Prop :=
  P p /\ (Ok (Some (p_desc p, n)), buf) = received p (replicate 256 Byte.x00).

Lemma recv_reply_wp t :
  vid_wp (recv_reply fuel) d t (fun a t' => t' = t /\
    (a.1 = Err Timeout \/ exists p n, a.1 = Ok (p_desc p, n) /\ replied p n a.2)).
Proof.
  unfold recv_reply. apply (vid_wp_gets vid_channel). cbn [set_vid_txid vid_channel]. rewrite Hc.
  apply vid_wp_machine. intros w qr Hq. unfold recv_with_timeout.
  erewrite bind_Ret by reflexivity. cbv beta.
  destruct (wait_packet_run c (now w + secs 2) fuel w qr (replicate 256 Byte.x00) Hq)
    as (new & res & buf & w' & E & Hpost).
  { replace (now w + secs 2 - now w) with (secs 2) by lia. exact Hfuel. }
  unfold recv_post in Hpost. destruct (qr ++ new) as [|p q'].
  - destruct Hpost as (Hq' & -> & -> & _). exists (Err Timeout, replicate 256 Byte.x00), w', [].
    split_and!; [exact E|done|done|by left].
  - destruct Hpost as (Hq' & HP & n & -> & Hrec). exists (Ok (p_desc p, n), buf), w', q'.
    split_and!; [exact E|done|done|]. right. exists p, n. by split.
Qed.

(** *** Draining *)

Lemma drain_visible_runs n w qr buf :
  rx w qr -> (length qr + vid_budget w < n)%nat ->
  exists buf' w', drain_visible n c buf w = Ret (buf', w') /\ rx w' [] /\ now w <= now w'.
Proof.
  revert w qr buf. induction n as [|n IH]; intros w qr buf Hq Hn; [lia|]. cbn [drain_visible].
  destruct (vid_host_step w (hv_async w) qr Hq) as (new & Hq1 & Hb); [by left; left|].
  assert (Ht : now w <= now (hv_async w)) by (apply vid_time; by left).
  unfold host_activity. erewrite bind_Ret by reflexivity. cbv beta.
  destruct (qr ++ new) as [|p q'] eqn:E.
  - erewrite bind_Ret by exact (try_recv_empty c _ buf Hq1). cbv beta iota. by exists buf, (hv_async w).
  - destruct (try_recv_dequeue c _ _ _ buf Hq1) as (m' & Hrun & Hq2 & _).
    erewrite bind_Ret by exact Hrun. cbn [map_ring_err received fst snd]. cbv beta iota.
    assert (length qr + length new = S (length q'))%nat by (by rewrite <- length_app, E).
    destruct (IH (set_mem m' (hv_async w)) q' (received p buf).2 Hq2) as (b2 & w2 & E2 & Hq3 & Ht2).
    { rewrite vid_budget_mem. lia. }
    exists b2, w2. cbn [now set_mem] in Ht2. split_and!; [exact E2|done|lia].
Qed.

Lemma drain_run n st w qr :
  let deadline := default (now w + millis 10) st.1 in
  rx w qr -> (Z.to_nat (deadline - now w) < n)%nat ->
  exists a w', block_on_hlt n (drain_poll dfuel c) st w = Ret (a, w') /\ rx w' [].
Proof.
  cbv zeta. revert st w qr. induction n as [|n IH]; intros st w qr Hq Hn; [lia|].
  set (deadline := default (now w + millis 10) st.1) in *.
  destruct (drain_visible_runs dfuel w qr st.2 Hq) as (buf & w1 & E & Hq1 & Ht).
  { pose proof (pending_length w qr Hq). destruct Hq as (_ & _ & _ & HN). lia. }
  assert (Hpoll : drain_poll dfuel c st w =
    Ret ((if deadline <=? now w1 then Ready tt else Pending, (Some deadline, buf)), w1)).
  { unfold drain_poll. rewrite (bind_Ret _ _ w deadline w) by (by destruct st as [[]]). cbv beta.
    erewrite bind_Ret by exact E. cbv beta. erewrite bind_Ret by reflexivity. cbv beta.
    by destruct (deadline <=? now w1). }
  unfold block_on_hlt. cbn [block_on_with]. erewrite bind_Ret by exact Hpoll. cbv beta iota.
  destruct (Z.leb_spec deadline (now w1)) as [Hd|Hd]; [by eexists _, w1|].
  erewrite bind_Ret by reflexivity. cbv beta.
  destruct (vid_host_step w1 (hv_park w1) [] Hq1) as (new & Hq2 & _); [by right|].
  pose proof (vid_time_park w1) as Hp.
  destruct (IH (Some deadline, buf) (hv_park w1) new Hq2) as (a & w2 & E2 & Hq3); [simpl; lia|].
  exists a, w2. by split.
Qed.

Lemma drain_recv_wp t : vid_wp (drain_recv fuel dfuel) d t (fun _ t' => t' = t).
Proof.
  unfold drain_recv. apply (vid_wp_gets vid_channel). cbn [set_vid_txid vid_channel]. rewrite Hc.
  apply vid_wp_machine. intros w qr Hq.
  destruct (drain_run fuel (None, replicate 256 Byte.x00) w qr Hq) as (a & w' & E & Hq').
  { simpl. unfold secs, millis in *. lia. }
  exists tt, w', []. split_and!; [|done..]. by erewrite bind_Ret by exact E.
Qed.

(** *** Requests and replies *)

Lemma replied_bytes p n buf :
  replied p n buf ->
  zlen buf = 256 /\ n <= zlen (payload_of p) /\
  (forall k off, Z.of_nat (off + k) <= n -> le_at k buf off = le_at k (payload_of p) off) /\
  (forall i, Z.of_nat i < n -> buf !! i = payload_of p !! i).
Proof.
  intros [_ Hrec]. assert (H0 : zlen (replicate 256 Byte.x00) = 256) by done.
  revert Hrec H0. generalize (replicate 256 Byte.x00). intros zeros Hrec H0.
  unfold received in Hrec. rewrite H0 in Hrec. cbv zeta in Hrec. injection Hrec as Hn ->. rewrite <- Hn.
  assert (Hlen : length (take (Z.to_nat n) (payload_of p)) = Z.to_nat n).
  { rewrite length_take. unfold zlen in Hn. lia. }
  unfold overwrite. rewrite Hlen. unfold zlen in *. split_and!.
  - rewrite length_app, Hlen, length_drop. lia.
  - lia.
  - intros k off Hk. rewrite le_at_app_l by lia. unfold le_at.
    rewrite skipn_firstn_comm, take_take. do 2 f_equal. lia.
  - intros i Hi. rewrite lookup_app_l by lia. apply lookup_take_lt. lia.
Qed.

(** The errors of the exchange. *)
Definition vid_failure (e : HvError) : Prop := e = VersionRejected \/ e = Timeout \/ e = RING_ERROR.

Lemma negotiate_wp versions t :
  0 <= t -> t + Z.of_nat (length versions) < U64 - 1 ->
  vid_wp (negotiate fuel versions) d t (fun r t' => t <= t' <= t + Z.of_nat (length versions) /\
    match r with Ok _ => t < t' /\ exists p, P p /\ accepts p | Err e => vid_failure e end).
Proof.
  revert t. induction versions as [|v rest IH]; intros t Ht Hmax; cbn [negotiate length] in *.
  { apply vid_wp_ret. split; [lia|by left]. }
  assert (Hrest : vid_wp (negotiate fuel rest) d (t + 1) (fun r t' => t <= t' <= t + Z.of_nat (S (length rest)) /\
    match r with Ok _ => t < t' /\ exists p, P p /\ accepts p | Err e => vid_failure e end)).
  { intros w qr Hq. destruct (IH (t + 1) ltac:(lia) ltac:(lia) w qr Hq) as (r & t' & w' & q' & E & Hq' & Hb & HQ).
    exists r, t', w', q'. split_and!; [done..|lia|lia|]. destruct r; [|done]. destruct HQ. split; [lia|done]. }
  eapply vid_wp_lift.
  { apply message_ok; [rewrite length_le_split; lia|done]. }
  eapply vid_wp_bind; [apply send_msg_wp|].
  { rewrite zlen_message_bytes, zlen_le_split. lia. }
  { lia. }
  intros r t1 [-> [-> | ->]]; [|apply vid_wp_ret; split; [lia|by right; right]].
  eapply vid_wp_bind; [apply recv_reply_wp|]. intros [r buf] t1 [-> Hr]. cbn [fst snd] in Hr.
  destruct Hr as [-> | (p & n & -> & Hrep)]; [apply vid_wp_ret; split; [lia|by right; left]|].
  destruct (replied_bytes p n buf Hrep) as (Hz & Hn & Hle & Hi). destruct (Z.leb_spec 22 n) as [H22|]; [|exact Hrest].
  unfold parse_vid_type. rewrite (proj2 (Z.ltb_ge _ _)) by lia.
  destruct (Z.eqb_spec (le_at 4 buf 8) SYNTHVID_VERSION_RESPONSE) as [Hty|]; [|exact Hrest].
  destruct (buf !! 20%nat) as [b|] eqn:Hb; [|apply lookup_ge_None in Hb; unfold zlen in Hz; lia].
  eapply vid_wp_lift; [unfold index; change (Z.to_nat 20) with 20%nat; by rewrite Hb|].
  case_bool_decide as Hacc; [exact Hrest|]. apply vid_wp_ret. split; [lia|]. split; [lia|].
  exists p. split; [apply Hrep|]. split_and!; [lia|by rewrite <- Hle by lia|].
  rewrite <- Hi, Hb by lia. congruence.
Qed.

Lemma set_vram_location_wp t :
  0 <= t < U64 - 1 ->
  vid_wp (set_vram_location fuel) d t (fun r t' => t' = t + 1 /\
    match r with Ok _ => exists p, P p /\ acknowledges p | Err e => vid_failure e end).
Proof.
  intros Ht. unfold set_vram_location. apply (vid_wp_gets (fun s => s)). cbn [set_vid_txid vram].
  eapply vid_wp_lift; [apply vram_location_body_ok|].
  eapply vid_wp_lift; [apply message_ok; [rewrite length_vram_location; lia|done]|].
  eapply vid_wp_bind; [apply send_msg_wp; [|done]|].
  { rewrite zlen_message_bytes. unfold zlen. by rewrite length_vram_location. }
  intros r t1 [-> [-> | ->]]; [|apply vid_wp_ret; split; [done|by right; right]].
  eapply vid_wp_bind; [apply recv_reply_wp|]. intros [r buf] t1 [-> Hr]. cbn [fst snd] in Hr.
  destruct Hr as [-> | (p & n & -> & Hrep)]; [apply vid_wp_ret; split; [done|by right; left]|].
  destruct (replied_bytes p n buf Hrep) as (Hz & Hn & Hle & _).
  destruct (Z.leb_spec 16 n) as [H16|]; [|apply vid_wp_ret; split; [done|by right; left]].
  unfold parse_vid_type. rewrite (proj2 (Z.ltb_ge _ _)) by lia.
  destruct (Z.eqb_spec (le_at 4 buf 8) SYNTHVID_VRAM_LOCATION_ACK) as [Hty|];
    apply vid_wp_ret; split; [done| |done|by right; left].
  exists p. split; [apply Hrep|]. split; [lia|]. by rewrite <- Hle by lia.
Qed.

(** Sending a message and not waiting for an answer. *)
Lemma notify_wp ty body n t :
  (16 + length body <= n)%nat -> Z.of_nat n < U32 -> 0 <= t < U64 - 1 ->
  vid_wp (msg ← lift (message ty body n); send_msg msg) d t
    (fun r t' => t' = t + 1 /\ match r with Ok _ => True | Err e => vid_failure e end).
Proof.
  intros Hn Hu Ht. eapply vid_wp_lift; [by apply message_ok|]. intros w qr Hq.
  destruct (send_msg_wp (message_bytes ty body) t) with (w := w) (qr := qr)
    as (r & t' & w' & q' & E & Hq' & -> & Hr); [|done..|].
  { rewrite zlen_message_bytes. unfold zlen, U32 in *. lia. }
  exists r, (t + 1), w', q'. split_and!; [done..|]. destruct Hr as [-> | ->]; [done|by right; right].
Qed.

Context (Hscreen : screen_ok d).

Lemma set_situation_wp t :
  0 <= t < U64 - 1 -> vid_wp set_situation d t
    (fun r t' => t' = t + 1 /\ match r with Ok _ => True | Err e => vid_failure e end).
Proof.
  intros Ht. unfold set_situation. apply (vid_wp_gets (fun s => s)). cbn [set_vid_txid width height].
  eapply vid_wp_lift; [apply situation_body_ok; destruct Hscreen; nia|].
  apply notify_wp; [rewrite length_situation; lia|done|done].
Qed.

Lemma dirt_full_wp t :
  0 <= t < U64 - 1 -> vid_wp dirt_full d t
    (fun r t' => t' = t + 1 /\ match r with Ok _ => True | Err e => vid_failure e end).
Proof.
  intros Ht. unfold dirt_full. apply (vid_wp_gets (fun s => s)). cbn [set_vid_txid width height].
  assert (Hw : 0 < width d < I31 /\ 0 < height d < I31) by (destruct Hscreen; unfold U32, I31 in *; nia).
  assert (Hi : forall x, 0 < x < I31 -> as_i32 x = x).
  { intros x Hx. unfold as_i32, U32. rewrite Z.mod_small; unfold I31 in *; lia. }
  rewrite !Hi by apply Hw. unfold dirty_rect. eapply vid_wp_lift.
  { rewrite dirt_body_cases, bool_decide_eq_true_2; [reflexivity|unfold I31 in *; lia]. }
  apply notify_wp; [rewrite length_dirt; lia|done|done].
Qed.

Lemma start_up_wp :
  vid_wp (start_up fuel dfuel) d 1 (fun r t' =>
    match r with
    | Ok _ => 5 <= t' <= 6 /\ (exists p, P p /\ accepts p) /\ (exists p, P p /\ acknowledges p)
    | Err e => vid_failure e
    end).
Proof.
  unfold start_up, negotiate_version.
  eapply vid_wp_bind; [by apply negotiate_wp|].
  intros [[]|e] t1 [Hb HQ]; [|by apply vid_wp_ret]. destruct HQ as [Hlt Hacc]. cbn [length] in Hb.
  eapply vid_wp_bind; [apply drain_recv_wp|]. intros _ ? ->.
  eapply vid_wp_bind; [apply set_vram_location_wp; unfold U64; lia|].
  intros [[]|e] t2 [-> HQ]; [|by apply vid_wp_ret].
  eapply vid_wp_bind; [apply drain_recv_wp|]. intros _ ? ->.
  eapply vid_wp_bind; [apply set_situation_wp; unfold U64; lia|].
  intros [[]|e] t3 [-> HS]; [|by apply vid_wp_ret].
  eapply vid_wp_bind; [apply drain_recv_wp|]. intros _ ? ->.
  eapply vid_wp_bind; [apply dirt_full_wp; unfold U64; lia|].
  intros [[]|e] t4 [-> HD]; [|by apply vid_wp_ret].
  eapply vid_wp_bind; [apply drain_recv_wp|]. intros _ ? ->.
  apply vid_wp_ret. split; [lia|done].
Qed.

End startup.

Arguments vid_sound {Hv} c {P VideoHost0} N w.

(** The bytes of the framebuffer's whole pages. *)
Definition vram_pages (w h : Z) : Z := (w * h * 4 + 4095) / 4096 * 4096.

Lemma vram_alloc_ok s : 0 <= s < U32 -> vram_alloc s = Ret ((s + 4095) / 4096 * 4096).
Proof.
  intros Hs. unfold vram_alloc. rewrite uadd_ok by (unfold U32, U64 in *; lia).
  cbn [mbind outcome_bind mret outcome_ret]. f_equal.
  apply (land_not_low _ 12); [lia|unfold U32, U64 in *; lia].
Qed.


(** ** Witnesses *)

Definition ring_rx0 : RingHalf := {| base := 16384; data_size := 4096 |}.
Definition video_channel0 : Channel := channel0 ring0 ring_rx0.

(** A host that answers each message with the next of its queued replies. *)
Definition reply_packet (bs : list byte) : packet := data_packet VM_PKT_DATA_INBAND 0 0 bs.
Definition answer (w : world) : world :=
  match hostq w with
  | [] => w
  | bs :: rest =>
      if data_size ring_rx0 - used (wmem w) ring_rx0 <=? slot_size (reply_packet bs) then w else
      {| wmem := sent ring_rx0 (wmem w) (reply_packet bs); now := now w; next_gpadl := next_gpadl w;
         trace := trace w; hostq := rest |}
  end.
Definition reply_host : Hypervisor := {|
  hv_call _ _ _ w := (0, answer w);
  hv_wrmsr _ _ w := w;
  hv_async w := w;
  hv_park w := {| wmem := wmem w; now := now w + secs 1; next_gpadl := next_gpadl w;
                  trace := trace w; hostq := hostq w |};
|}.

Lemma video_layout0 : vid_layout video_channel0.
Proof. split; vm_compute; [congruence|]. left. congruence. Qed.

Lemma answer_laws w qs qr :
  ring_repr (wmem w) ring0 qs -> ring_repr (wmem w) ring_rx0 qr ->
  exists new, ring_repr (wmem (answer w)) ring0 qs /\ ring_repr (wmem (answer w)) ring_rx0 (qr ++ new) /\
    Forall deliverable new /\ (length new + length (hostq (answer w)) <= length (hostq w))%nat.
Proof.
  intros Hs Hr. assert (Hid : ring_repr (wmem w) ring_rx0 (qr ++ [])) by (by rewrite app_nil_r).
  unfold answer. destruct (hostq w) as [|bs rest] eqn:Eq; [exists []; by rewrite Eq|].
  destruct (Z.leb_spec (data_size ring_rx0 - used (wmem w) ring_rx0) (slot_size (reply_packet bs))) as [|Hlt];
    [exists []; rewrite Eq; split_and!; [done..|constructor|simpl; lia]|].
  exists [reply_packet bs]. cbn [wmem hostq].
  pose proof (used_range _ (proj1 (proj1 Hr)) (wmem w)) as Hu. cbn [ring_rx0 data_size] in Hlt, Hu.
  assert (Hwf : packet_wf (reply_packet bs)) by (apply data_packet_wf; [done..|]; fold (reply_packet bs); lia).
  split_and!.
  - eapply ring_repr_frame; [apply sent_frame; [apply Hr|]| |exact Hs]; [cbn [ring_rx0 data_size]; lia|].
    unfold disjoint. vm_compute. right. congruence.
  - apply sent_repr; [apply Hr|done|done|cbn [ring_rx0 data_size]; lia].
  - constructor; [|done]. split; [vm_compute; split; congruence|].
    destruct Hwf as [_ Hl]. pose proof (zlen_nonneg (p_body (reply_packet bs))).
    change (offset8 (p_desc (reply_packet bs))) with 2. lia.
  - simpl. lia.
Qed.

#[export] Instance reply_video_host : @VideoHost reply_host video_channel0 deliverable.
Proof.
  refine (@Build_VideoHost reply_host video_channel0 deliverable (fun w => length (hostq w)) _ _ _ _ _ _);
    try done.
  - intros w w' qs qr Hst Hs Hr. exists O. cbn [drop video_channel0 channel0 ch_send ch_recv] in *.
    destruct Hst as [[->|(code & x & y & ->)]| ->].
    + exists []. rewrite app_nil_r. split_and!; [done..|constructor|simpl; lia].
    + by apply answer_laws.
    + exists []. rewrite app_nil_r. split_and!; [done..|constructor|simpl; lia].
  - intros w w' [->|(code & x & y & ->)]; [done|]. cbn [reply_host hv_call snd]. unfold answer.
    destruct (hostq w) as [|bs rest]; [done|]. by destruct (_ <=? _).
  - intros w. cbn [reply_host hv_park now]. unfold secs. lia.
Defined.

Definition device_vid0 : SynthvidDevice :=
  {| vid_channel := video_channel0; vram := {| vaddr := 0x100000; paddr := 0x100000; rsize := 4096 |};
     width := 4; height := 3; bpp := 32; stride := 4; vid_next_txid := 5 |}.

Lemma put_pixel_draws_witness :
  exists m', put_pixel device_vid0 3 2 10 20 30 (world_of []) = Ret (tt, set_mem m' (world_of [])) /\
    pixel m' device_vid0 3 2 = [byte.of_Z 30; byte.of_Z 20; byte.of_Z 10; Byte.x00].
Proof.
  destruct (put_pixel_draws device_vid0 (world_of []) 3 2 10 20 30) as (m' & E & Hp & _);
    [split; vm_compute; congruence|lia|lia|].
  exists m'. split; [exact E|exact Hp].
Defined.

(** The host accepts the first version and acknowledges the memory. *)
Definition replies0 : list (list byte) :=
  [message_bytes SYNTHVID_VERSION_RESPONSE (le_split 4 SYNTHVID_VERSION_WIN10 ++ [Byte.x01; Byte.x01]);
   message_bytes SYNTHVID_VRAM_LOCATION_ACK (le_split 8 0)].

Definition video_run0 : outcome (result SynthvidDevice HvError * world) :=
  @vid_init reply_host dma0 (S (Z.to_nat (secs 2))) (Z.to_nat 5000) video_channel0 4 3
    (Some 0x100000) (Some 0x100000) (world_of replies0).

Lemma video_run0_ok : match video_run0 with Ret (Ok _, _) => true | _ => false end = true.
Proof. vm_compute. reflexivity. Qed.

