(* ===== verification/Netvsc.v ===== *)
(** The NetVSC driver ([crates/embclox-hyperv/src/netvsc.rs]): bring-up over
    NVSP and RNDIS, the dispatch loops over the channel, and the data path
    that exchanges Ethernet frames with the host through shared buffers. *)

From S2P Require Import Prelude Mem Dma World Hypercall Synic Ring VmBus Isr Channel.
From S2P Require Import NvspTypes NvspMsg.

Definition NETVSC_RECV_BUF_SIZE : Z := 2 * 1024 * 1024.
Definition NETVSC_SEND_BUF_SIZE : Z := 1024 * 1024.
Definition NETVSC_RING_SIZE : Z := 256 * 1024.
Definition RX_FRAME_MAX : Z := 1600.
Definition RNDIS_PACKET_HDR_SIZE : Z := sizeof_rndis_packet + RNDIS_HEADER_SIZE.
Definition NVSP_STAT_SUCCESS : Z := NvspStatus.as_u32 NvspStatus.Success.

(** ** The device *)

Record PendingRx := {
  rx_data : list byte;  (** [u8; RX_FRAME_MAX] *)
  rx_len : Z;
}.

Record NetvscDevice := MkNetvsc {
  channel : Channel;
  recv_buf : DmaRegion;
  recv_buf_gpadl : Z;
  send_buf : DmaRegion;
  send_buf_gpadl : Z;
  nvsp_version : Z;
  mac : list byte;
  mtu : Z;
  next_request_id : Z;
  next_txid : Z;
  ctrl_resp : list byte;  (** [u8; 256] *)
  ctrl_resp_len : Z;
  ctrl_resp_ready : bool;
  send_section_free : bool;
  pending_rx : option PendingRx;
}.

Definition set_mac (v : list byte) (d : NetvscDevice) : NetvscDevice :=
  MkNetvsc (channel d) (recv_buf d) (recv_buf_gpadl d) (send_buf d) (send_buf_gpadl d)
    (nvsp_version d) v (mtu d) (next_request_id d) (next_txid d) (ctrl_resp d)
    (ctrl_resp_len d) (ctrl_resp_ready d) (send_section_free d) (pending_rx d).
Definition set_mtu (v : Z) (d : NetvscDevice) : NetvscDevice :=
  MkNetvsc (channel d) (recv_buf d) (recv_buf_gpadl d) (send_buf d) (send_buf_gpadl d)
    (nvsp_version d) (mac d) v (next_request_id d) (next_txid d) (ctrl_resp d)
    (ctrl_resp_len d) (ctrl_resp_ready d) (send_section_free d) (pending_rx d).
Definition set_next_request_id (v : Z) (d : NetvscDevice) : NetvscDevice :=
  MkNetvsc (channel d) (recv_buf d) (recv_buf_gpadl d) (send_buf d) (send_buf_gpadl d)
    (nvsp_version d) (mac d) (mtu d) v (next_txid d) (ctrl_resp d)
    (ctrl_resp_len d) (ctrl_resp_ready d) (send_section_free d) (pending_rx d).
Definition set_next_txid (v : Z) (d : NetvscDevice) : NetvscDevice :=
  MkNetvsc (channel d) (recv_buf d) (recv_buf_gpadl d) (send_buf d) (send_buf_gpadl d)
    (nvsp_version d) (mac d) (mtu d) (next_request_id d) v (ctrl_resp d)
    (ctrl_resp_len d) (ctrl_resp_ready d) (send_section_free d) (pending_rx d).
Definition set_ctrl_resp (resp : list byte) (len : Z) (d : NetvscDevice) : NetvscDevice :=
  MkNetvsc (channel d) (recv_buf d) (recv_buf_gpadl d) (send_buf d) (send_buf_gpadl d)
    (nvsp_version d) (mac d) (mtu d) (next_request_id d) (next_txid d) resp
    len true (send_section_free d) (pending_rx d).
Definition set_ctrl_resp_ready (v : bool) (d : NetvscDevice) : NetvscDevice :=
  MkNetvsc (channel d) (recv_buf d) (recv_buf_gpadl d) (send_buf d) (send_buf_gpadl d)
    (nvsp_version d) (mac d) (mtu d) (next_request_id d) (next_txid d) (ctrl_resp d)
    (ctrl_resp_len d) v (send_section_free d) (pending_rx d).
Definition set_send_section_free (v : bool) (d : NetvscDevice) : NetvscDevice :=
  MkNetvsc (channel d) (recv_buf d) (recv_buf_gpadl d) (send_buf d) (send_buf_gpadl d)
    (nvsp_version d) (mac d) (mtu d) (next_request_id d) (next_txid d) (ctrl_resp d)
    (ctrl_resp_len d) (ctrl_resp_ready d) v (pending_rx d).
Definition set_pending_rx (v : option PendingRx) (d : NetvscDevice) : NetvscDevice :=
  MkNetvsc (channel d) (recv_buf d) (recv_buf_gpadl d) (send_buf d) (send_buf_gpadl d)
    (nvsp_version d) (mac d) (mtu d) (next_request_id d) (next_txid d) (ctrl_resp d)
    (ctrl_resp_len d) (ctrl_resp_ready d) (send_section_free d) v.

(** A method with [&mut self]. *)
Abbreviation D := (M (NetvscDevice * world)).

Definition in_world {A} (c : W A) : D A :=
  fun '(d, w) => match c w with
                 | Ret (a, w') => Ret (a, (d, w'))
                 | Panic f => Panic f
                 end.
Definition dev {A} (f : NetvscDevice -> A) : D A := gets (fun '(d, _) => f d).
Definition set_dev (f : NetvscDevice -> NetvscDevice) : D unit :=
  modify (fun '(d, w) => (f d, w)).

(** A method as a function of the device, for a runner of futures, and back. *)
Definition run_dev {A} (c : D A) (d : NetvscDevice) : W (A * NetvscDevice) :=
  fun w => match c (d, w) with
           | Ret (a, (d', w')) => Ret ((a, d'), w')
           | Panic f => Panic f
           end.
Definition from_dev {A} (c : NetvscDevice -> W (A * NetvscDevice)) : D A :=
  fun '(d, w) => match c d w with
                 | Ret ((a, d'), w') => Ret (a, (d', w'))
                 | Panic f => Panic f
                 end.

(** ** Pure helpers *)

Definition pfn_list (region : DmaRegion) : outcome (list Z) :=
  mapM (fun i => off ← umul i 4096;
                 a ← uadd (paddr region) off;
                 mret (Z.shiftr a 12)) (seqZ 0 (rsize region / 4096)).

(** The result is the frame's length and the buffer after the call. *)
Definition extract_eth_frame (buf : list byte) (rndis_len : Z) : outcome (option Z * list byte) :=
  if rndis_len <? RNDIS_HEADER_SIZE then mret (None, buf) else
  msg ← slice buf 0 rndis_len;
  r ← parse_rndis_response msg;
  match r with
  | Some (RndisResponse.Packet data_offset data_len _) =>
      frame_start ← uadd RNDIS_HEADER_SIZE data_offset;
      frame_end ← uadd frame_start data_len;
      if (frame_end <=? rndis_len) && (data_len <=? zlen buf) then
        frame ← slice buf frame_start frame_end;
        buf ← copy_into 0 frame buf;
        mret (Some data_len, buf)
      else mret (None, buf)
  | _ => mret (None, buf)
  end.

(** [checked_mul(8)] and [checked_sub(16)] of the completion branches. *)
Definition nvsp_offset_of (desc : VmPacketDescriptor) : option Z :=
  if offset8 desc * 8 <? 16 then None else Some (offset8 desc * 8 - 16).

(** The completion the driver returns for a transfer-page packet. *)
Definition recv_completion : list byte :=
  le_split 4 (NvspMessageType.as_u32 NvspMessageType.SendRndisPktComplete) ++
  le_split 4 NVSP_STAT_SUCCESS.

(** [u32::from_le_bytes(bs[off..off + 4].try_into().unwrap())]. *)
Definition u32_at (bs : list byte) (off : Z) : outcome Z :=
  e ← uadd off 4;
  f ← slice bs off e;
  mret (le_combine f).

Section netvsc.
Context `{Hypervisor} `{DmaAllocator world}.
(** Bounds on the parks, on the polls of the message page, and on the rounds
    of a dispatch loop. *)
Context (fuel pfuel rounds : nat) (crash_after_stage : Z).

(** Copies from the receive buffer: the number of bytes and [out] after. *)
Definition parse_xfer_page_packet (raw out : list byte) : D (Z * list byte) :=
  if zlen raw <? 8 then mret (0, out) else
  rc ← lift (slice raw 4 8);
  let range_cnt := le_combine rc in
  r8 ← lift (umul range_cnt 8);
  need ← lift (uadd 8 r8);
  if (range_cnt =? 0) || (zlen raw <? need) then mret (0, out) else
  range ← lift (slice raw 8 (zlen raw));
  let byte_count := le_at 4 range 0 in
  let byte_offset := le_at 4 range 4 in
  e ← lift (uadd byte_offset byte_count);
  if (NETVSC_RECV_BUF_SIZE <? e) || (byte_count =? 0) then mret (0, out) else
  recv_ptr ← dev (fun d => vaddr (recv_buf d));
  let copy_len := Z.min byte_count (zlen out) in
  bs ← in_world (gets (fun w => load_bytes (wmem w) (recv_ptr + byte_offset) (Z.to_nat copy_len)));
  mret (copy_len, overwrite out bs).

(** [copy_nonoverlapping] into the send buffer. *)
Definition write_send_buf (off : Z) (bs : list byte) : D unit :=
  base ← dev (fun d => vaddr (send_buf d));
  in_world (on_mem (modify (fun m => store_bytes m (base + off) bs))).

Definition send_rndis_control_inner (rndis_msg : list byte) : D (result unit HvError) :=
  free ← dev send_section_free;
  if negb free then mret (Err Timeout) else
  _ ← write_send_buf 0 rndis_msg;
  let nvsp := build_nvsp_send_rndis_pkt 1 0 (as_u32 (zlen rndis_msg)) in
  let bytes := nvsp_message_padded nvsp in
  ch ← dev channel;
  in_world (send ch bytes 0).

(** Answering a host keepalive; the result of the send is ignored. *)
Definition answer_keepalive (req_id : Z) : D unit :=
  '(len, resp) ← lift (build_rndis_keepalive_cmplt req_id (replicate 16 Byte.x00));
  m ← lift (slice resp 0 len);
  _ ← send_rndis_control_inner m;
  mret tt.

Definition handle_xfer_page (desc : VmPacketDescriptor) (raw : list byte)
  : D (result unit HvError) :=
  '(len, buf) ← parse_xfer_page_packet raw (replicate 256 Byte.x00);
  ch ← dev channel;
  _ ← in_world (send_completion ch recv_completion (transaction_id desc));
  if len <? RNDIS_HEADER_SIZE then mret (Ok tt) else
  msg ← lift (slice buf 0 len);
  r ← lift (parse_rndis_response msg);
  match r with
  | Some (RndisResponse.InitComplete _ _ _ _ _ _ _)
  | Some (RndisResponse.QueryComplete _ _ _)
  | Some (RndisResponse.SetComplete _ _) =>
      resp ← dev ctrl_resp;
      let copy_len := Z.min len (zlen resp) in
      head ← lift (slice buf 0 copy_len);
      resp ← lift (copy_into 0 head resp);
      _ ← set_dev (set_ctrl_resp resp copy_len);
      mret (Ok tt)
  | Some (RndisResponse.KeepAlive req_id) => _ ← answer_keepalive req_id; mret (Ok tt)
  | _ => mret (Ok tt)
  end.

(** A ring access of the dispatch loops: the host may act before it. *)
Definition next_raw (raw : list byte)
  : D (result (option (VmPacketDescriptor * Z)) HvError * list byte) :=
  ch ← dev channel;
  _ ← in_world host_activity;
  in_world (try_recv_raw ch raw).

(** The body of the loop of [poll_channel] on one packet. *)
Definition poll_packet (desc : VmPacketDescriptor) (raw : list byte) (raw_len : Z)
  : D (result unit HvError) :=
  match VmbusPacketType.from_u16 (packet_type desc) with
  | Some VmbusPacketType.DataUsingXferPages =>
      bs ← lift (slice raw 0 raw_len);
      handle_xfer_page desc bs
  | Some VmbusPacketType.Completion =>
      match nvsp_offset_of desc with
      | None => mret (Ok tt)
      | Some nvsp_offset =>
          e ← lift (uadd nvsp_offset 4);
          if (nvsp_offset <? raw_len) && (e <=? raw_len) then
            msg_type ← lift (u32_at raw nvsp_offset);
            if msg_type =? NvspMessageType.as_u32 NvspMessageType.SendRndisPktComplete
            then _ ← set_dev (set_send_section_free true); mret (Ok tt)
            else mret (Ok tt)
          else mret (Ok tt)
      end
  | Some VmbusPacketType.DataInBand =>
      if 4 <=? raw_len then
        match nvsp_offset_of desc with
        | None => mret (Ok tt)
        | Some nvsp_offset =>
            if nvsp_offset <? raw_len then
              _ ← lift (u32_at raw nvsp_offset);
              mret (Ok tt)
            else mret (Ok tt)
        end
      else mret (Ok tt)
  | _ => mret (Ok tt)
  end.

Fixpoint poll_loop (n : nat) (raw : list byte) (processed : bool) : D (result bool HvError) :=
  match n with
  | O => panic OutOfFuel
  | S n' =>
      '(r, raw) ← next_raw raw;
      match r with
      | Err e => mret (Err e)
      | Ok None => mret (Ok processed)
      | Ok (Some (desc, raw_len)) =>
          _ ←? poll_packet desc raw raw_len;
          poll_loop n' raw true
      end
  end.

Definition poll_channel : D (result bool HvError) :=
  poll_loop rounds (replicate 512 Byte.x00) false.

(** ** Waiting for the channel *)

(** One poll of [recv_rndis_response_async] or [wait_for_send_section_async]:
    a round of the loop up to the [await] on the channel's waker. *)
Definition wait_round {R} (check : D (option R)) (deadline : Z) : D (poll (result R HvError)) :=
  r ← poll_channel;
  match r with
  | Err e => mret (Ready (Err e))
  | Ok _ =>
      c ← check;
      match c with
      | Some v => mret (Ready (Ok v))
      | None =>
          t ← in_world (gets now);
          if deadline <=? t then mret (Ready (Err Timeout)) else
          relid ← dev (fun d => ch_relid (channel d));
          _ ← in_world (register_waker (channel_waker relid));
          mret Pending
      end
  end.

Definition wait_channel {R} (check : D (option R)) (timeout : Z) : D (result R HvError) :=
  t ← in_world (gets now);
  from_dev (fun d => block_on_hlt fuel (run_dev (wait_round check (t + timeout))) d).

(** The caller's buffer is overwritten with the response. *)
Definition take_ctrl_resp (buf : list byte) : D (option (Z * list byte)) :=
  ready ← dev ctrl_resp_ready;
  if ready : bool then
    rlen ← dev ctrl_resp_len;
    let len := Z.min rlen (zlen buf) in
    resp ← dev ctrl_resp;
    head ← lift (slice resp 0 len);
    buf ← lift (copy_into 0 head buf);
    _ ← set_dev (set_ctrl_resp_ready false);
    mret (Some (len, buf))
  else mret None.

Definition recv_rndis_response (buf : list byte) : D (result (Z * list byte) HvError) :=
  _ ← set_dev (set_ctrl_resp_ready false);
  wait_channel (take_ctrl_resp buf) (secs 5).

Definition wait_for_send_section (timeout : Z) : D (result unit HvError) :=
  wait_channel (free ← dev send_section_free;
                mret (if free : bool then Some tt else None)) timeout.

Definition send_rndis_control (rndis_msg : list byte) : D (result unit HvError) :=
  free ← dev send_section_free;
  _ ←? (if negb free then wait_for_send_section (secs 2) else mret (Ok tt));
  _ ← lift (rassert (zlen rndis_msg <=? NETVSC_SEND_BUF_SIZE));
  _ ← write_send_buf 0 rndis_msg;
  let nvsp := build_nvsp_send_rndis_pkt 1 0 (as_u32 (zlen rndis_msg)) in
  let bytes := nvsp_message_padded nvsp in
  _ ← set_dev (set_send_section_free false);
  txid ← dev next_txid;
  next ← lift (uadd txid 1);
  _ ← set_dev (set_next_txid next);
  ch ← dev channel;
  in_world (send ch bytes txid).

(** ** RNDIS bring-up *)

Definition fresh_request_id : D Z :=
  req_id ← dev next_request_id;
  next ← lift (u32add req_id 1);
  _ ← set_dev (set_next_request_id next);
  mret req_id.

(** Sends a control message, waits for the response and parses it. *)
Definition rndis_exchange (msg : list byte) : D (result (option RndisResponse.t) HvError) :=
  _ ←? send_rndis_control msg;
  resp ←? recv_rndis_response (replicate 256 Byte.x00);
  let '(resp_len, resp) := resp in
  bs ← lift (slice resp 0 resp_len);
  r ← lift (parse_rndis_response bs);
  mret (Ok r).

Definition rndis_init : D (result unit HvError) :=
  req_id ← fresh_request_id;
  let msg := build_rndis_init req_id 0x4000 in
  let send_len := le_at 4 msg 4 in
  bs ← lift (slice msg 0 send_len);
  r ←? rndis_exchange bs;
  match r with
  | Some (RndisResponse.InitComplete _ status _ _ _ _ _) =>
      if negb (RndisStatus_is_success status)
      then mret (Err (HypercallFailed (as_u16 status))) else mret (Ok tt)
  | _ => mret (Err VersionRejected)
  end.

Fixpoint query_mac_oids (oids : list Z) : D (result unit HvError) :=
  match oids with
  | [] => mret (Ok tt)
  | oid :: rest =>
      req_id ← fresh_request_id;
      '(len, msg) ← lift (build_rndis_query req_id oid [] (replicate 64 Byte.x00));
      bs ← lift (slice msg 0 len);
      r ←? rndis_exchange bs;
      match r with
      | Some (RndisResponse.QueryComplete _ status info) =>
          if negb (RndisStatus_is_success status) then query_mac_oids rest else
          if 6 <=? zlen info then
            m ← lift (slice info 0 6);
            _ ← set_dev (set_mac m);
            mret (Ok tt)
          else query_mac_oids rest
      | _ => query_mac_oids rest
      end
  end.

Definition rndis_query_mac : D (result unit HvError) :=
  query_mac_oids [OID_802_3_CURRENT_ADDRESS; OID_802_3_PERMANENT_ADDRESS].

Definition rndis_query_mtu : D (result unit HvError) :=
  req_id ← fresh_request_id;
  '(len, msg) ← lift (build_rndis_query req_id OID_GEN_MAXIMUM_FRAME_SIZE []
                        (replicate 64 Byte.x00));
  bs ← lift (slice msg 0 len);
  r ←? rndis_exchange bs;
  match r with
  | Some (RndisResponse.QueryComplete _ status info) =>
      if RndisStatus_is_success status && (4 <=? zlen info) then
        v ← lift (u32_at info 0);
        _ ← set_dev (set_mtu v);
        mret (Ok tt)
      else mret (Ok tt)
  | _ => mret (Ok tt)
  end.

Definition rndis_set_packet_filter : D (result unit HvError) :=
  req_id ← fresh_request_id;
  '(len, msg) ← lift (build_rndis_set req_id OID_GEN_CURRENT_PACKET_FILTER
                        (le_split 4 NdisPacketFilter_STANDARD) (replicate 64 Byte.x00));
  bs ← lift (slice msg 0 len);
  r ←? rndis_exchange bs;
  match r with
  | Some (RndisResponse.SetComplete _ _) => mret (Ok tt)
  | _ => mret (Err VersionRejected)
  end.

(** ** NVSP bring-up *)

Definition nvsp_request_single_queue : D (result unit HvError) :=
  let req := build_nvsp_subchannel_request 0 in
  ch ← dev channel;
  _ ←? in_world (send ch (nvsp_message_padded req) 0);
  '(r, resp) ← in_world (recv_with_timeout fuel ch (replicate 256 Byte.x00) (secs 2));
  match r with
  | Err e => mret (Err e)
  | Ok (_, resp_len) =>
      bs ← lift (slice resp 0 resp_len);
      _ ← lift (parse_nvsp_response bs);
      mret (Ok tt)
  end.

Fixpoint negotiate_versions (ch : Channel) (versions : list NvspVersion)
  : W (result Z HvError) :=
  match versions with
  | [] => mret (Err VersionRejected)
  | ver :: rest =>
      let msg := build_nvsp_init (NvspVersion_as_u32 ver) in
      _ ←? send ch (nvsp_message_padded msg) 0;
      '(r, resp) ← recv_with_timeout fuel ch (replicate 256 Byte.x00) (secs 2);
      match r with
      | Err e => mret (Err e)
      | Ok (_, resp_len) =>
          bs ← lift (slice resp 0 resp_len);
          p ← lift (parse_nvsp_response bs);
          match p with
          | Some (NvspResponse.InitComplete _ _ status) =>
              if status =? NVSP_STAT_SUCCESS then
                _ ←? (if negb (bool_decide (ver = V1)) then
                        let mtu := 1514 + 14 in
                        let cfg := build_nvsp_send_ndis_config mtu 1 in
                        send_raw ch (nvsp_message_padded cfg) 99
                      else mret (Ok tt));
                mret (Ok (NvspVersion_as_u32 ver))
              else negotiate_versions ch rest
          | _ => negotiate_versions ch rest
          end
      end
  end.

Definition negotiate_nvsp_version (ch : Channel) : W (result Z HvError) :=
  negotiate_versions ch NEGOTIATE_ORDER.

(** The loop that waits for a packet with a payload; [n] bounds its rounds. *)
Fixpoint recv_nonempty (n : nat) (ch : Channel) (resp : list byte) (timeout : Z)
  : W (result (Z * list byte) HvError) :=
  match n with
  | O => panic OutOfFuel
  | S n' =>
      '(r, resp) ← recv_with_timeout fuel ch resp timeout;
      match r with
      | Err e => mret (Err e)
      | Ok (_, len) =>
          if 0 <? len then mret (Ok (len, resp)) else recv_nonempty n' ch resp timeout
      end
  end.

(** The [for _ in 0..10_000] loop that drains pending packets. *)
Fixpoint drain (n : nat) : D (result unit HvError) :=
  match n with
  | O => mret (Ok tt)
  | S n' =>
      more ←? poll_channel;
      if negb more then mret (Ok tt) else drain n'
  end.

(** Phase 1 of [init], up to the device value. *)
Definition nvsp_init (v : VmBus) : W (result NetvscDevice HvError) :=
  match find_offer v NETVSC with
  | None => mret (Err NotHyperV)
  | Some offer =>
      ch ←? open_channel fuel pfuel crash_after_stage offer NETVSC_RING_SIZE (hcall v) (synic v);
      version ←? negotiate_nvsp_version ch;
      let '(major, minor) := if NvspVersion_as_u32 V4 <? version then (6, 30) else (6, 1) in
      let msg := build_nvsp_send_ndis_version major minor in
      _ ←? send_raw ch (nvsp_message_padded msg) 98;
      recv_buf ← alloc_coherent NETVSC_RECV_BUF_SIZE 4096;
      recv_pfns ← lift (pfn_list recv_buf);
      recv_gpadl ← alloc_gpadl_handle;
      _ ←? create_gpadl fuel pfuel (child_relid offer) recv_gpadl NETVSC_RECV_BUF_SIZE recv_pfns
             (hcall v) (synic v);
      let msg := build_nvsp_send_recv_buf recv_gpadl RECEIVE_BUFFER_ID in
      _ ←? send ch (nvsp_message_padded msg) 1;
      resp ←? recv_nonempty rounds ch (replicate 256 Byte.x00) (secs 5);
      let '(resp_len, resp) := resp in
      bs ← lift (slice resp 0 resp_len);
      p ← lift (parse_nvsp_response bs);
      match p with
      | Some (NvspResponse.RecvBufComplete status _ _) =>
          if negb (status =? NVSP_STAT_SUCCESS)
          then mret (Err (HypercallFailed (as_u16 status))) else
          send_buf ← alloc_coherent NETVSC_SEND_BUF_SIZE 4096;
          send_pfns ← lift (pfn_list send_buf);
          send_gpadl ← alloc_gpadl_handle;
          _ ←? create_gpadl fuel pfuel (child_relid offer) send_gpadl NETVSC_SEND_BUF_SIZE
                 send_pfns (hcall v) (synic v);
          let msg := build_nvsp_send_send_buf send_gpadl SEND_BUFFER_ID in
          _ ←? send ch (nvsp_message_padded msg) 2;
          resp ←? recv_nonempty rounds ch resp (secs 2);
          let '(resp_len, resp) := resp in
          bs ← lift (slice resp 0 resp_len);
          p ← lift (parse_nvsp_response bs);
          match p with
          | Some (NvspResponse.SendBufComplete status _) =>
              if negb (status =? NVSP_STAT_SUCCESS)
              then mret (Err (HypercallFailed (as_u16 status))) else
              mret (Ok {| channel := ch; recv_buf := recv_buf; recv_buf_gpadl := recv_gpadl;
                          send_buf := send_buf; send_buf_gpadl := send_gpadl;
                          nvsp_version := version; mac := replicate 6 Byte.x00; mtu := 1514;
                          next_request_id := 1; next_txid := 100;
                          ctrl_resp := replicate 256 Byte.x00; ctrl_resp_len := 0;
                          ctrl_resp_ready := false; send_section_free := true;
                          pending_rx := None |})
          | _ => mret (Err (HypercallFailed 0xFFFF))
          end
      | _ => mret (Err (HypercallFailed 0xFFFF))
      end
  end.

(** Phase 2: RNDIS and the checks after it. *)
Definition rndis_bring_up : D (result unit HvError) :=
  _ ←? rndis_init;
  _ ←? drain (Z.to_nat 10000);
  _ ←? rndis_query_mac;
  _ ←? rndis_query_mtu;
  _ ←? rndis_set_packet_filter;
  version ← dev nvsp_version;
  _ ←? (if NvspVersion_as_u32 V5 <=? version then nvsp_request_single_queue else mret (Ok tt));
  m ← dev mtu;
  max_eth ← lift (uadd m 14);
  _ ← lift (rassert (max_eth <=? RX_FRAME_MAX));
  mret (Ok tt).

Definition Netvsc_init (v : VmBus) : W (result NetvscDevice HvError) :=
  d ←? nvsp_init v;
  '(r, d) ← run_dev rndis_bring_up d;
  mret (match r with Ok _ => Ok d | Err e => Err e end).

(** ** Data path *)

(** The body of the loop of [pump_channel] on one packet: whether to go on. *)
Definition pump_packet (desc : VmPacketDescriptor) (raw : list byte) (raw_len : Z) : D bool :=
  match VmbusPacketType.from_u16 (packet_type desc) with
  | Some VmbusPacketType.DataUsingXferPages =>
      pending ← dev pending_rx;
      if bool_decide (is_Some pending) then mret false else
      bs ← lift (slice raw 0 raw_len);
      '(rndis_len, data) ← parse_xfer_page_packet bs (replicate (Z.to_nat RX_FRAME_MAX) Byte.x00);
      ch ← dev channel;
      _ ← in_world (send_completion ch recv_completion (transaction_id desc));
      if RNDIS_HEADER_SIZE <=? rndis_len then
        msg_type ← lift (u32_at data 0);
        if msg_type =? RndisMessageType.as_u32 RndisMessageType.Packet then
          '(eth, data) ← lift (extract_eth_frame data rndis_len);
          match eth with
          | Some eth_len =>
              _ ← set_dev (set_pending_rx (Some {| rx_data := data; rx_len := eth_len |}));
              mret true
          | None => mret true
          end
        else if msg_type =? RndisMessageType.as_u32 RndisMessageType.KeepAlive then
          bs ← lift (slice data 0 rndis_len);
          r ← lift (parse_rndis_response bs);
          match r with
          | Some (RndisResponse.KeepAlive req_id) => _ ← answer_keepalive req_id; mret true
          | _ => mret true
          end
        else mret true
      else mret true
  | Some VmbusPacketType.Completion =>
      match nvsp_offset_of desc with
      | None => mret true
      | Some nvsp_offset =>
          e ← lift (uadd nvsp_offset 4);
          if e <=? raw_len then
            msg_type ← lift (u32_at raw nvsp_offset);
            if msg_type =? NvspMessageType.as_u32 NvspMessageType.SendRndisPktComplete
            then _ ← set_dev (set_send_section_free true); mret true
            else mret true
          else mret true
      end
  | _ => mret true
  end.

Fixpoint pump_loop (n : nat) (raw : list byte) : D (result unit HvError) :=
  match n with
  | O => panic OutOfFuel
  | S n' =>
      '(r, raw) ← next_raw raw;
      match r with
      | Err e => mret (Err e)
      | Ok None => mret (Ok tt)
      | Ok (Some (desc, raw_len)) =>
          go ← pump_packet desc raw raw_len;
          if go : bool then pump_loop n' raw else mret (Ok tt)
      end
  end.

Definition pump_channel : D (result unit HvError) :=
  pump_loop rounds (replicate 512 Byte.x00).

Definition has_tx_space : D bool := _ ← pump_channel; dev send_section_free.

Definition has_rx_packet : D bool :=
  _ ← pump_channel; dev (fun d => bool_decide (is_Some (pending_rx d))).

(** The closure reads and overwrites the bytes of the frame in place. *)
Definition transmit_with {R} (frame_len : Z) (f : list byte -> R * list byte)
  : D (result R HvError) :=
  rndis_len ← lift (uadd RNDIS_PACKET_HDR_SIZE frame_len);
  _ ← lift (rassert (rndis_len <=? NETVSC_SEND_BUF_SIZE));
  free ← dev send_section_free;
  _ ← (if negb free then pump_channel else mret (Ok tt));
  free ← dev send_section_free;
  if negb free then mret (Err Timeout) else
  _ ← write_send_buf 0 (le_split 4 (RndisMessageType.as_u32 RndisMessageType.Packet));
  _ ← write_send_buf 4 (le_split 4 (as_u32 rndis_len));
  _ ← write_send_buf 8 (replicate (Z.to_nat sizeof_rndis_packet) Byte.x00);
  _ ← write_send_buf 8 (le_split 4 (as_u32 sizeof_rndis_packet));
  _ ← write_send_buf 12 (le_split 4 (as_u32 frame_len));
  _ ← write_send_buf 28 (le_split 4 (as_u32 sizeof_rndis_packet));
  base ← dev (fun d => vaddr (send_buf d));
  payload ← in_world (gets (fun w => load_bytes (wmem w) (base + RNDIS_PACKET_HDR_SIZE)
                                       (Z.to_nat frame_len)));
  let '(result, payload') := f payload in
  _ ← write_send_buf RNDIS_PACKET_HDR_SIZE payload';
  let nvsp := build_nvsp_send_rndis_pkt 0 0 (as_u32 rndis_len) in
  let bytes := nvsp_message_padded nvsp in
  txid ← dev next_txid;
  next ← lift (uadd txid 1);
  _ ← set_dev (set_next_txid next);
  _ ← set_dev (set_send_section_free false);
  ch ← dev channel;
  _ ←? in_world (send ch bytes txid);
  mret (Ok result).

Definition recv_with {R} (f : list byte -> R) : D (option R) :=
  pending ← dev pending_rx;
  match pending with
  | None => mret None
  | Some frame =>
      _ ← set_dev (set_pending_rx None);
      bs ← lift (slice (rx_data frame) 0 (rx_len frame));
      mret (Some (f bs))
  end.
End netvsc.
