(* ===== verification/NetvscFacts.v ===== *)
(** Facts about the NetVSC data path: frames survive the trip through the
    RNDIS framing, transmission hands exactly one message to the host, and
    the pump turns the packets of the receive ring into device state. *)

From S2P Require Import Prelude Mem Dma World Hypercall Synic Ring RingFacts RingFifo VmBus Isr Channel.
From S2P Require Import NvspTypes NvspMsg Netvsc.

(** ** Ethernet frames in RNDIS messages *)

(** The frame that the RNDIS packet message in the first [n] bytes carries. *)
Definition eth_frame (buf : list byte) (n : Z) : option (list byte) :=
  let off := le_at 4 buf 8 in
  let len := le_at 4 buf 12 in
  if (le_at 4 buf 0 =? RndisMessageType.as_u32 RndisMessageType.Packet) &&
     (44 <=? Z.min n (le_at 4 buf 4)) && (8 + off + len <=? n)
  then Some (take (Z.to_nat len) (drop (Z.to_nat (8 + off)) buf))
  else None.

Lemma le_at_take n k bs off : (off + n <= k)%nat -> le_at n (take k bs) off = le_at n bs off.
Proof.
  intros. unfold le_at. f_equal. rewrite skipn_firstn_comm, take_take. f_equal. lia.
Qed.

Lemma le_at_drop n k bs off : le_at n (drop k bs) off = le_at n bs (k + off).
Proof. unfold le_at. by rewrite drop_drop. Qed.

(** What the parser makes of a message, as far as packets are concerned. *)
Lemma parse_rndis_packet data :
  8 <= zlen data -> 8 <= le_at 4 data 4 ->
  exists r, parse_rndis_response data = Ret r /\
    match r with
    | Some (RndisResponse.Packet off len raw) =>
        le_at 4 data 0 = RndisMessageType.as_u32 RndisMessageType.Packet /\
        44 <= Z.min (zlen data) (le_at 4 data 4) /\
        off = le_at 4 data 8 /\ len = le_at 4 data 12
    | _ => le_at 4 data 0 <> RndisMessageType.as_u32 RndisMessageType.Packet \/
           Z.min (zlen data) (le_at 4 data 4) < 44
    end.
Proof.
  intros Hlen Hml. unfold parse_rndis_response.
  rewrite (proj2 (Z.ltb_ge _ _)) by (unfold RNDIS_HEADER_SIZE; lia).
  destruct (parse_rndis_header data Hlen) as (-> & -> & Hb).
  cbn [mbind outcome_bind]. fold (le_at 4 data 4). rewrite Hb.
  rewrite (proj2 (Z.ltb_ge _ _)) by done. cbn [mbind outcome_bind].
  change (le_combine (take 4 data)) with (le_at 4 data 0).
  assert (Hbody : zlen (rndis_body data) = Z.min (zlen data) (le_at 4 data 4) - 8).
  { unfold rndis_body, zlen in *. rewrite length_take, length_drop. lia. }
  destruct (RndisMessageType.from_u32 (le_at 4 data 0)) as [ty|] eqn:E.
  2: { eexists. split; [done|]. left. intros Hp. by rewrite Hp in E. }
  pose proof (as_from_wire (A := RndisMessageType.t) _ _ E : RndisMessageType.as_u32 ty = _) as Hty.
  destruct ty; try (eexists; split; [done|]; left; rewrite <- Hty; done);
    try (destruct (cast_ref _ _); (eexists; split; [done|]; left; rewrite <- Hty; done)).
  - eexists. split; [done|]. unfold cast_ref. rewrite Hbody.
    destruct (Z.ltb_spec (Z.min (zlen data) (le_at 4 data 4) - 8) sizeof_rndis_packet);
      unfold sizeof_rndis_packet in *; cbn [mbind option_bind].
    + right. lia.
    + change (Z.to_nat 36) with 36%nat. rewrite !le_at_take by lia.
      unfold rndis_body. rewrite !le_at_take by lia. rewrite !le_at_drop.
      split_and!; [done|lia|done|done].
  - destruct (cast_ref _ _) as [c|]; [|by eexists; split; [done|]; left; rewrite <- Hty].
    rewrite info_slice_ok by apply le_at4_u32. cbn [mbind outcome_bind].
    eexists. split; [done|]. left. by rewrite <- Hty.
  - destruct (cast_ref _ _) as [c|]; [|by eexists; split; [done|]; left; rewrite <- Hty].
    rewrite info_slice_ok by apply le_at4_u32. cbn [mbind outcome_bind].
    eexists. split; [done|]. left. by rewrite <- Hty.
Qed.

Lemma extract_eth_frame_closed buf n :
  8 <= n <= zlen buf -> zlen buf < U32 -> 8 <= le_at 4 buf 4 ->
  extract_eth_frame buf n =
  Ret match eth_frame buf n with
      | Some frame => (Some (zlen frame), frame ++ drop (length frame) buf)
      | None => (None, buf)
      end.
Proof.
  intros Hn Hbuf Hml. unfold extract_eth_frame, eth_frame.
  rewrite (proj2 (Z.ltb_ge n _)) by (unfold RNDIS_HEADER_SIZE; lia).
  rewrite slice_prefix by lia. cbn [mbind outcome_bind].
  set (msg := take (Z.to_nat n) buf).
  assert (Hzl : zlen msg = n) by (unfold msg, zlen in *; rewrite length_take; lia).
  assert (Hat : forall off, (off <= 4)%nat -> le_at 4 msg off = le_at 4 buf off).
  { intros off Ho. apply le_at_take. lia. }
  destruct (parse_rndis_packet msg) as (r & -> & Hr); [lia|rewrite Hat by lia; done|].
  cbn [mbind outcome_bind]. rewrite Hzl, !Hat in Hr by lia.
  assert (Hno : (forall off len raw, r <> Some (RndisResponse.Packet off len raw)) ->
    (le_at 4 buf 0 =? RndisMessageType.as_u32 RndisMessageType.Packet) &&
    (44 <=? Z.min n (le_at 4 buf 4)) = false).
  { intros Hnp. apply andb_false_iff. rewrite Z.eqb_neq, Z.leb_gt.
    by destruct r as [[]|]; try done; exfalso; eapply Hnp. }
  destruct r as [[]|]; try by rewrite Hno.
  destruct Hr as (Ht & Hmin & -> & ->). unfold msg. rewrite !le_at_take by lia.
  set (off := le_at 4 buf 8). set (len := le_at 4 buf 12).
  assert (Hoff : 0 <= off < U32) by apply le_at4_u32.
  assert (Hlen : 0 <= len < U32) by apply le_at4_u32. unfold RNDIS_HEADER_SIZE.
  rewrite uadd_ok by solve_bounds. cbn [mbind outcome_bind].
  rewrite uadd_ok by solve_bounds. cbn [mbind outcome_bind].
  rewrite Ht, Z.eqb_refl, (proj2 (Z.leb_le 44 _)) by done. cbn [andb].
  destruct (Z.leb_spec (8 + off + len) n); [|done].
  rewrite (proj2 (Z.leb_le len _)) by lia. cbn [andb].
  rewrite slice_ok by lia. cbn [mbind outcome_bind].
  replace (8 + off + len - (8 + off)) with len by lia.
  set (fr := take (Z.to_nat len) (drop (Z.to_nat (8 + off)) buf)).
  assert (Hfl : zlen fr = len).
  { unfold fr, zlen in *. rewrite length_take, length_drop. lia. }
  unfold copy_into. rewrite (proj2 (Z.leb_le _ _)) by lia. by rewrite Hfl.
Qed.

(** [extract_eth_frame] moves the Ethernet frame of an RNDIS packet
    message to the front of the buffer: it yields a frame exactly when the
    message is a packet with its whole header present and the announced data
    lies inside it, the frame is then those bytes in place, and nothing else
    of the buffer changes; otherwise the buffer is untouched. *)
Theorem extract_eth_frame_spec buf n :
  8 <= n <= zlen buf -> zlen buf < U32 -> 8 <= le_at 4 buf 4 ->
  exists buf',
    match eth_frame buf n with
    | Some frame => extract_eth_frame buf n = Ret (Some (zlen frame), buf') /\
        take (length frame) buf' = frame /\
        drop (length frame) buf' = drop (length frame) buf
    | None => extract_eth_frame buf n = Ret (None, buf') /\ buf' = buf
    end.
Proof.
  intros. rewrite extract_eth_frame_closed by done.
  destruct (eth_frame buf n) as [frame|]; [|by eexists].
  eexists. split; [done|]. by rewrite take_app_length, drop_app_length.
Qed.

(** ** Transmission *)

(** The RNDIS packet message of a frame. *)
Definition tx_message (frame : list byte) : list byte :=
  le_split 4 (RndisMessageType.as_u32 RndisMessageType.Packet) ++
  le_split 4 (44 + zlen frame) ++ le_split 4 36 ++ le_split 4 (zlen frame) ++
  le_split 12 0 ++ le_split 4 36 ++ le_split 12 0 ++ frame.

Lemma tx_header_stores m a n l :
  store_bytes (store_bytes (store_bytes (store_bytes (store_bytes (store_bytes m
    (a + 0) (le_split 4 1)) (a + 4) (le_split 4 l)) (a + 8) (replicate 36 Byte.x00))
    (a + 8) (le_split 4 36)) (a + 12) (le_split 4 n)) (a + 28) (le_split 4 36) =
  store_bytes m a (le_split 4 1 ++ le_split 4 l ++ le_split 4 36 ++ le_split 4 n ++
                   le_split 12 0 ++ le_split 4 36 ++ le_split 12 0).
Proof.
  set (l0 := le_split 4 1 ++ le_split 4 l ++ replicate 36 Byte.x00).
  assert (store_bytes (store_bytes (store_bytes m (a + 0) (le_split 4 1)) (a + 4) (le_split 4 l))
            (a + 8) (replicate 36 Byte.x00) = store_bytes m a l0) as ->.
  { unfold l0. rewrite !store_bytes_app, !zlen_le_split, Z.add_0_r.
    f_equal. lia. }
  pose proof (store_bytes_inside m a l0 8 (le_split 4 36)) as H1.
  change (Z.of_nat 8) with 8 in H1. rewrite H1 by (apply Nat.leb_le; reflexivity).
  pose proof (store_bytes_inside m a (put 8 (le_split 4 36) l0) 12 (le_split 4 n)) as H2.
  change (Z.of_nat 12) with 12 in H2. rewrite H2 by (apply Nat.leb_le; reflexivity).
  pose proof (store_bytes_inside m a (put 12 (le_split 4 n) (put 8 (le_split 4 36) l0)) 28
    (le_split 4 36)) as H3.
  change (Z.of_nat 28) with 28 in H3. rewrite H3 by (apply Nat.leb_le; reflexivity). reflexivity.
Qed.

(** ** Running methods of the device *)

Lemma bind_dev {A B} (f : NetvscDevice -> A) (k : A -> D B) d w :
  (dev f ≫= k) (d, w) = k (f d) (d, w).
Proof. done. Qed.

Lemma bind_set_dev {B} f (k : unit -> D B) d w : (set_dev f ≫= k) (d, w) = k tt (f d, w).
Proof. done. Qed.

Lemma bind_in_world {A B} (c : W A) (k : A -> D B) d w a w' :
  c w = Ret (a, w') -> (in_world c ≫= k) (d, w) = k a (d, w').
Proof. unfold in_world, mbind, M_bind. by intros ->. Qed.

Lemma bind_write_send_buf {B} off bs (k : unit -> D B) d w :
  (write_send_buf off bs ≫= k) (d, w) =
  k tt (d, set_mem (store_bytes (wmem w) (vaddr (send_buf d) + off) bs) w).
Proof. done. Qed.

(** One step of a method whose next command cannot fail. *)
Ltac dstep :=
  lazymatch goal with
  | |- (dev _ ≫= _) _ = _ => etrans; [apply bind_dev|]
  | |- (set_dev _ ≫= _) _ = _ => etrans; [apply bind_set_dev|]
  | |- (write_send_buf _ _ ≫= _) _ = _ => etrans; [apply bind_write_send_buf|]
  | |- (in_world (gets _) ≫= _) _ = _ => etrans; [by apply bind_in_world|]
  | |- _ => mstep
  end; cbv beta zeta.

Lemma zlen_tx_message frame : zlen (tx_message frame) = 44 + zlen frame.
Proof. unfold tx_message. autorewrite with zlen. lia. Qed.

Lemma length_tx_message frame : length (tx_message frame) = (44 + length frame)%nat.
Proof. pose proof (zlen_tx_message frame). unfold zlen in *. lia. Qed.

Lemma eth_frame_tx frame :
  44 + zlen frame < U32 -> eth_frame (tx_message frame) (44 + zlen frame) = Some frame.
Proof.
  intros Hl. pose proof (zlen_nonneg frame) as Hp. unfold eth_frame.
  assert (Hf : le_at 4 (tx_message frame) 0 = 1 /\
    le_at 4 (tx_message frame) 4 = 44 + zlen frame /\
    le_at 4 (tx_message frame) 8 = 36 /\ le_at 4 (tx_message frame) 12 = zlen frame).
  { unfold tx_message. rewrite le_at_head by done.
    rewrite (le_at_skip 4 4 0), (le_at_skip 4 4 4), (le_at_skip 4 4 8) by apply length_le_split.
    rewrite (le_at_skip 4 4 0), (le_at_skip 4 4 4) by apply length_le_split.
    rewrite (le_at_skip 4 4 0) by apply length_le_split.
    rewrite !le_at_head by (unfold U32 in *; lia). done. }
  destruct Hf as (-> & -> & -> & ->). rewrite Z.min_id.
  rewrite (proj2 (Z.leb_le 44 _)), (proj2 (Z.leb_le (8 + 36 + _) _)) by lia. cbn.
  unfold tx_message. rewrite !app_assoc, drop_app_length' by reflexivity.
  unfold zlen. by rewrite Nat2Z.id, firstn_all.
Qed.

Section transmit.
Context `{Hypervisor} {R : Type} (rounds : nat) (f : list byte -> R * list byte).
Context (d : NetvscDevice) (w : world) (q : list packet) (n : Z) (r : R) (frame : list byte).

(** The section is free and the send buffer is apart from the send ring. *)
Context (Hfree : send_section_free d = true).
Context (Hn : 0 <= n) (Hfit : 44 + n <= NETVSC_SEND_BUF_SIZE).
Context (Hring : ring_repr (wmem w) (ch_send (channel d)) q).
Context (Hds : data_size (ch_send (channel d)) <= 2 ^ 19).
Context (Hdisj : disjoint (vaddr (send_buf d)) NETVSC_SEND_BUF_SIZE
                   (base (ch_send (channel d))) (ring_span (ch_send (channel d)))).
Context (Htx : 0 <= next_txid d < U64 - 1).
Context (Hf : f (load_bytes (wmem w) (vaddr (send_buf d) + 44) (Z.to_nat n)) = (r, frame)).
Context (Hframe : zlen frame = n).

Definition tx_packet : packet :=
  data_packet VM_PKT_DATA_INBAND 1 (next_txid d)
    (nvsp_message_padded (build_nvsp_send_rndis_pkt 0 0 (44 + n))).

(** The device after the attempt, whether or not the ring took the packet. *)
Definition tx_device : NetvscDevice :=
  set_send_section_free false (set_next_txid (next_txid d + 1) d).

Definition tx_memory : mem := store_bytes (wmem w) (vaddr (send_buf d)) (tx_message frame).

Lemma transmit_with_runs :
  transmit_with rounds n f (d, w) =
  match send (channel d) (nvsp_message_padded (build_nvsp_send_rndis_pkt 0 0 (44 + n)))
          (next_txid d) (set_mem tx_memory w) with
  | Ret (Ok _, w') => Ret (Ok r, (tx_device, w'))
  | Ret (Err e, w') => Ret (Err e, (tx_device, w'))
  | Panic p => Panic p
  end.
Proof.
  unfold transmit_with. change RNDIS_PACKET_HDR_SIZE with 44.
  unfold NETVSC_SEND_BUF_SIZE in Hfit. dstep.
  etrans; [apply bind_lift; unfold rassert; by rewrite (proj2 (Z.leb_le _ _)) by done|]. cbv beta.
  dstep. rewrite Hfree. cbn [negb]. dstep. dstep. rewrite Hfree. cbn [negb].
  do 6 dstep.
  cbn [set_mem wmem]. unfold as_u32. rewrite (Z.mod_small (44 + n)), (Z.mod_small n) by (unfold U32; lia).
  change (RndisMessageType.as_u32 RndisMessageType.Packet) with 1.
  change (Z.to_nat sizeof_rndis_packet) with 36%nat. change sizeof_rndis_packet with 36.
  rewrite tx_header_stores. dstep. dstep. cbn [set_mem wmem].
  rewrite load_bytes_store_ne by (right; autorewrite with zlen; lia). rewrite Hf.
  dstep. rewrite !set_mem_set_mem. cbn [set_mem wmem].
  assert (store_bytes (store_bytes (wmem w) (vaddr (send_buf d)) (le_split 4 1 ++
    le_split 4 (44 + n) ++ le_split 4 36 ++ le_split 4 n ++ le_split 12 0 ++ le_split 4 36 ++
    le_split 12 0)) (vaddr (send_buf d) + 44) frame = tx_memory) as ->.
  { unfold tx_memory, tx_message. rewrite Hframe, !app_assoc, (store_bytes_app _ _ _ frame).
    rewrite <- !app_assoc. done. }
  dstep. dstep. dstep. dstep. dstep. unfold mbind, M_bind, in_world.
  by destruct (send _ _ _ _) as [[[[]|e] w']|p].
Qed.
End transmit.

(** C12: transmission.  With its send section free, [transmit_with] puts the
    RNDIS packet message of the frame the closure wrote at the start of the
    send buffer (from which the receive path reads back exactly that frame),
    queues one NVSP message that names it, signals the host, and marks the
    section in use under a fresh transaction id.  When the ring has no room it
    returns an error, and the section is marked in use all the same although
    no message was queued whose completion could free it. *)
Theorem transmit_with_sends `{Hypervisor} {R : Type} (rounds : nat)
    (f : list byte -> R * list byte) d w q n r frame :
  let tx := ch_send (channel d) in
  let base0 := vaddr (send_buf d) in
  send_section_free d = true -> 0 <= n -> 44 + n <= NETVSC_SEND_BUF_SIZE ->
  ring_repr (wmem w) tx q -> data_size tx <= 2 ^ 19 ->
  disjoint base0 NETVSC_SEND_BUF_SIZE (base tx) (ring_span tx) ->
  0 <= next_txid d < U64 - 1 ->
  f (load_bytes (wmem w) (base0 + 44) (Z.to_nat n)) = (r, frame) -> zlen frame = n ->
  match fifo_send (data_size tx) q (tx_packet d n) with
  | (Ok _, q') => exists m', ring_repr m' tx q' /\
      eth_frame (load_bytes m' base0 (Z.to_nat (44 + n))) (44 + n) = Some frame /\
      RingFifo.frame tx (tx_memory d w frame) m' /\
      transmit_with rounds n f (d, w) =
        Ret (Ok r, (tx_device d, signalled (channel d) (set_mem m' w)))
  | (Err _, _) =>
      transmit_with rounds n f (d, w) =
        Ret (Err RING_ERROR, (tx_device d, set_mem (tx_memory d w frame) w))
  end.
Proof.
  intros tx base0 Hfree Hn Hfit Hring Hds Hdisj Htx Hf Hframe. subst tx base0.
  assert (Hdisj' : disjoint (vaddr (send_buf d)) (zlen (tx_message frame))
    (base (ch_send (channel d))) (ring_span (ch_send (channel d)))).
  { rewrite zlen_tx_message, Hframe. unfold disjoint in *. lia. }
  rewrite (transmit_with_runs rounds f d w n r frame) by done.
  assert (Hsend := send_sends (channel d) q (set_mem (tx_memory d w frame) w)
    (nvsp_message_padded (build_nvsp_send_rndis_pkt 0 0 (44 + n))) (next_txid d)).
  unfold sends in Hsend. fold (tx_packet d n) in Hsend.
  destruct (fifo_send _ q (tx_packet d n)) as [[u|e] q'].
  - destruct Hsend as (m' & Hm' & Hfr & ->); [|done|by vm_compute|lia|].
    { by apply ring_repr_store. }
    exists m'. split_and!; [done| |done|done].
    assert (load_bytes m' (vaddr (send_buf d)) (Z.to_nat (44 + n)) = tx_message frame) as ->.
    { transitivity (load_bytes (tx_memory d w frame) (vaddr (send_buf d)) (Z.to_nat (44 + n))).
      - apply load_bytes_ext. intros x Hx. apply Hfr. unfold disjoint, ring_span in *. lia.
      - rewrite <- Hframe, <- zlen_tx_message. unfold zlen. rewrite Nat2Z.id.
        apply load_bytes_store_eq. }
    rewrite <- Hframe. apply eth_frame_tx. unfold NETVSC_SEND_BUF_SIZE, U32 in *. lia.
  - rewrite Hsend; [done| |done|by vm_compute|lia]. by apply ring_repr_store.
Qed.

(** ** Transfer pages *)

(** Offset and size of the first range of a transfer-page packet, if it lies
    in the receive buffer. *)
Definition xfer_range (raw : list byte) : option (Z * Z) :=
  let range_cnt := le_at 4 raw 4 in
  let byte_count := le_at 4 raw 8 in
  let byte_offset := le_at 4 raw 12 in
  if (8 <=? zlen raw) && negb (range_cnt =? 0) && (8 + range_cnt * 8 <=? zlen raw) &&
     (byte_offset + byte_count <=? NETVSC_RECV_BUF_SIZE) && negb (byte_count =? 0)
  then Some (byte_offset, byte_count) else None.

(** The bytes of that range, at most [max] of them. *)
Definition rx_message (m : mem) (rb : DmaRegion) (raw : list byte) (max : Z) : list byte :=
  match xfer_range raw with
  | Some (off, len) => load_bytes m (vaddr rb + off) (Z.to_nat (Z.min len max))
  | None => []
  end.

Lemma parse_xfer_page_packet_closed raw out d w :
  let msg := rx_message (wmem w) (recv_buf d) raw (zlen out) in
  parse_xfer_page_packet raw out (d, w) = Ret ((zlen msg, overwrite out msg), (d, w)).
Proof.
  cbv zeta. unfold parse_xfer_page_packet, rx_message, xfer_range.
  pose proof (le_at4_u32 raw 4) as Hc. pose proof (le_at4_u32 raw 8) as Hb.
  pose proof (le_at4_u32 raw 12) as Ho.
  rewrite (Z.ltb_antisym 8). destruct (Z.leb_spec 8 (zlen raw)); [|done]. cbn [negb andb].
  dstep. change (le_combine (take (Z.to_nat (8 - 4)) (drop (Z.to_nat 4) raw)))
    with (le_at 4 raw 4).
  dstep. dstep. rewrite (Z.ltb_antisym (8 + le_at 4 raw 4 * 8)).
  destruct (le_at 4 raw 4 =? 0) eqn:E0; [done|]. cbn [negb andb orb].
  apply Z.eqb_neq in E0.
  destruct (Z.leb_spec (8 + le_at 4 raw 4 * 8) (zlen raw)); [|done]. cbn [negb].
  etrans; [apply bind_lift, slice_suffix; lia|]. cbv beta zeta.
  change (Z.to_nat 8) with 8%nat. rewrite !le_at_drop. change (8 + 0)%nat with 8%nat.
  change (8 + 4)%nat with 12%nat. dstep.
  rewrite (Z.ltb_antisym (le_at 4 raw 12 + le_at 4 raw 8)).
  destruct (le_at 4 raw 12 + le_at 4 raw 8 <=? NETVSC_RECV_BUF_SIZE); [|done].
  destruct (Z.eqb_spec (le_at 4 raw 8) 0); [done|]. cbn [negb andb orb].
  dstep. dstep. unfold mret, M_ret. do 3 f_equal. unfold zlen at 2.
  rewrite length_load_bytes. pose proof (zlen_nonneg out). lia.
Qed.

(** C13: [parse_xfer_page_packet] never fails and only reads the receive
    buffer: for every packet the host may send it copies at most the size of
    the caller's buffer, and the bytes it copies are those of the packet's
    first range, which lies inside the receive buffer; a packet without such
    a range yields nothing. *)
Theorem parse_xfer_page_packet_safe raw out d w :
  exists n out',
    parse_xfer_page_packet raw out (d, w) = Ret ((n, out'), (d, w)) /\
    0 <= n <= zlen out /\ zlen out' = zlen out /\
    drop (Z.to_nat n) out' = drop (Z.to_nat n) out /\
    match xfer_range raw with
    | None => n = 0
    | Some (off, len) =>
        0 <= off /\ off + n <= NETVSC_RECV_BUF_SIZE /\ n = Z.min len (zlen out) /\
        take (Z.to_nat n) out' = load_bytes (wmem w) (vaddr (recv_buf d) + off) (Z.to_nat n)
    end.
Proof.
  do 2 eexists. split; [apply parse_xfer_page_packet_closed|].
  unfold rx_message. destruct (xfer_range raw) as [[off len]|] eqn:E.
  2: { unfold zlen, overwrite. simpl. split_and!; (done || lia). }
  unfold xfer_range in E. destruct (_ && _) eqn:Hg in E; [|done]. simplify_eq.
  rewrite !andb_true_iff, !Z.leb_le in Hg. destruct Hg as [[[[_ _] _] Hfit] _].
  pose proof (le_at4_u32 raw 8). pose proof (le_at4_u32 raw 12). pose proof (zlen_nonneg out).
  set (n := Z.min (le_at 4 raw 8) (zlen out)).
  assert (Hz : zlen (load_bytes (wmem w) (vaddr (recv_buf d) + le_at 4 raw 12) (Z.to_nat n)) = n).
  { unfold zlen. rewrite length_load_bytes. lia. }
  rewrite Hz. set (bs := load_bytes _ _ _) in *.
  assert (Hl : length bs = Z.to_nat n) by (unfold zlen in Hz; lia).
  assert (Hle : (length bs <= length out)%nat) by (unfold zlen in *; lia).
  unfold overwrite. split_and!; [lia..| | |lia|lia|done|].
  - unfold zlen. rewrite length_app, length_drop. lia.
  - rewrite <- Hl. by rewrite drop_app_length.
  - rewrite <- Hl. apply take_app_length.
Qed.

(** ** The pump *)

(** What the loop sees of a packet: [raw] is 512 bytes. *)
Definition raw_of (p : packet) : list byte := take 512 (p_body p).

(** A completion of an RNDIS send. *)
Definition tx_done (p : packet) : bool :=
  match nvsp_offset_of (p_desc p) with
  | None => false
  | Some off =>
      (off + 4 <=? zlen (raw_of p)) &&
      (le_at 4 (raw_of p) (Z.to_nat off) =?
       NvspMessageType.as_u32 NvspMessageType.SendRndisPktComplete)
  end.

Definition is_xfer (p : packet) : bool :=
  packet_type (p_desc p) =? VmbusPacketType.as_u16 VmbusPacketType.DataUsingXferPages.
Definition is_completion (p : packet) : bool :=
  packet_type (p_desc p) =? VmbusPacketType.as_u16 VmbusPacketType.Completion.

(** The receive slot a message fills: the message is copied over a zeroed
    buffer of 1600 bytes and its frame moved to the front. *)
Definition rx_slot (msg : list byte) : option PendingRx :=
  let buf := overwrite (replicate (Z.to_nat RX_FRAME_MAX) Byte.x00) msg in
  if (8 <=? zlen msg) && (le_at 4 msg 0 =? RndisMessageType.as_u32 RndisMessageType.Packet)
  then frame ← eth_frame buf (zlen msg);
       Some {| rx_data := frame ++ drop (length frame) buf; rx_len := zlen frame |}
  else None.

(** What one packet does to the device, and whether the pump goes on; [msg]
    is the content of its range of the receive buffer. *)
Definition pump_one (d : NetvscDevice) (p : packet) (msg : list byte) : NetvscDevice * bool :=
  if is_xfer p then
    if bool_decide (is_Some (pending_rx d)) then (d, false) else
    (match rx_slot msg with Some slot => set_pending_rx (Some slot) d | None => d end, true)
  else if is_completion p && tx_done p then (set_send_section_free true d, true)
  else (d, true).

(** A run of the pump over packets and their messages; it stops early after a
    packet that found the slot full. *)
Inductive pumped : NetvscDevice -> list (packet * list byte) -> NetvscDevice -> bool -> Prop :=
| pumped_nil d : pumped d [] d true
| pumped_stop d p msg d' : pump_one d p msg = (d', false) -> pumped d [(p, msg)] d' false
| pumped_cons d p msg d1 l d' go :
    pump_one d p msg = (d1, true) -> pumped d1 l d' go -> pumped d ((p, msg) :: l) d' go.

(** The parts of memory a device uses do not overlap. *)
Record net_layout (c : Channel) (rb sb : DmaRegion) : Prop := {
  nl_size : data_size (ch_send c) <= 2 ^ 19;
  nl_tx_rx : disjoint (base (ch_send c)) (ring_span (ch_send c))
               (base (ch_recv c)) (ring_span (ch_recv c));
  nl_rb_tx : disjoint (vaddr rb) NETVSC_RECV_BUF_SIZE
               (base (ch_send c)) (ring_span (ch_send c));
  nl_rb_rx : disjoint (vaddr rb) NETVSC_RECV_BUF_SIZE
               (base (ch_recv c)) (ring_span (ch_recv c));
  nl_sb_tx : disjoint (vaddr sb) NETVSC_SEND_BUF_SIZE
               (base (ch_send c)) (ring_span (ch_send c));
  nl_sb_rx : disjoint (vaddr sb) NETVSC_SEND_BUF_SIZE
               (base (ch_recv c)) (ring_span (ch_recv c));
  nl_sb_rb : disjoint (vaddr sb) NETVSC_SEND_BUF_SIZE (vaddr rb) NETVSC_RECV_BUF_SIZE;
}.

(** The message of a packet, and the length field the RNDIS parser needs. *)
Definition message_of (m : mem) (rb : DmaRegion) (p : packet) : list byte :=
  rx_message m rb (raw_of p) RX_FRAME_MAX.

Definition message_ok (m : mem) (rb : DmaRegion) (p : packet) : Prop :=
  8 <= zlen (message_of m rb p) -> 8 <= le_at 4 (message_of m rb p) 4.

(** A message only depends on the receive buffer. *)
Lemma message_of_ext m m' rb p :
  (forall x, vaddr rb <= x < vaddr rb + NETVSC_RECV_BUF_SIZE -> load_byte m' x = load_byte m x) ->
  message_of m' rb p = message_of m rb p.
Proof.
  intros Hrb. unfold message_of, rx_message.
  destruct (xfer_range _) as [[off len]|] eqn:E; [|done].
  unfold xfer_range in E. destruct (_ && _) eqn:Hg in E; [|done]. simplify_eq.
  rewrite !andb_true_iff, !Z.leb_le in Hg. destruct Hg as [[[[_ _] _] Hfit] _].
  pose proof (le_at4_u32 (raw_of p) 12). pose proof (le_at4_u32 (raw_of p) 8).
  apply load_bytes_ext. intros x Hx. apply Hrb. lia.
Qed.

(** The host side of a network channel: it consumes from the send ring,
    appends to the receive ring packets whose messages have a valid length
    field, leaves the messages of queued packets alone, and sends at most
    [net_budget] more packets. *)
Class NetHost `{Hypervisor} (c : Channel) (rb : DmaRegion) := {
  net_budget : world -> nat;
  net_budget_mem : forall m w, net_budget (set_mem m w) = net_budget w;
  net_budget_log : forall e w, net_budget (log_event e w) = net_budget w;
  net_host : forall w w' qs qr, host_step w w' ->
    ring_repr (wmem w) (ch_send c) qs -> ring_repr (wmem w) (ch_recv c) qr ->
    exists k new, ring_repr (wmem w') (ch_send c) (drop k qs) /\
      ring_repr (wmem w') (ch_recv c) (qr ++ new) /\
      Forall (message_ok (wmem w') rb) new /\
      Forall (fun p => message_of (wmem w') rb p = message_of (wmem w) rb p) qr /\
      (length new + net_budget w' <= net_budget w)%nat;
}.

Section pump.
Context `{Hv : Hypervisor} (c : Channel) (rb sb : DmaRegion) (Hl : net_layout c rb sb).
Context `{!NetHost c rb}.

Abbreviation tx := (ch_send c).
Abbreviation rx := (ch_recv c).

(** The rings are in order and the receive ring holds [qr]. *)
Definition net_inv (w : world) (qr : list packet) : Prop :=
  (exists qs, ring_repr (wmem w) tx qs) /\ ring_repr (wmem w) rx qr /\
  Forall (message_ok (wmem w) rb) qr.

(** From [w] with queue [qr] the machine gets to [w'], the host having
    appended [new]. *)
Definition evolves (w : world) (qr : list packet) (w' : world) (new : list packet) : Prop :=
  net_inv w' (qr ++ new) /\
  Forall (fun p => message_of (wmem w') rb p = message_of (wmem w) rb p) qr /\
  (length new + net_budget w' <= net_budget w)%nat.

Lemma evolves_refl w qr : net_inv w qr -> evolves w qr w [].
Proof.
  intros Hi. split; [by rewrite app_nil_r|]. split; [by apply Forall_forall|simpl; lia].
Qed.

Lemma evolves_trans w qr w1 n1 w2 n2 :
  evolves w qr w1 n1 -> evolves w1 (qr ++ n1) w2 n2 -> evolves w qr w2 (n1 ++ n2).
Proof.
  intros (_ & S1 & B1) (I2 & S2 & B2). split; [by rewrite app_assoc|]. split.
  - apply Forall_app in S2 as [S2 _]. rewrite Forall_forall in S1, S2 |- *.
    intros p Hp. by rewrite S2, S1.
  - rewrite length_app. lia.
Qed.

Lemma evolves_host w qr w' :
  net_inv w qr -> host_step w w' -> exists new, evolves w qr w' new.
Proof.
  intros ((qs & Hs) & Hr & Hm) Hst.
  destruct (net_host w w' qs qr Hst Hs Hr) as (k & new & Hs' & Hr' & Hn & Hst' & Hb).
  exists new. split; [|done]. split; [by eexists|]. split; [done|].
  apply Forall_app. split; [|done]. rewrite Forall_forall in *.
  intros p Hp. unfold message_ok. rewrite Hst' by done. by apply Hm.
Qed.

(** A change of memory that leaves the receive side alone. *)
Lemma evolves_mem w qr m' :
  net_inv w qr -> (exists qs, ring_repr m' tx qs) ->
  (forall x, base rx <= x < base rx + ring_span rx -> load_byte m' x = load_byte (wmem w) x) ->
  (forall x, vaddr rb <= x < vaddr rb + NETVSC_RECV_BUF_SIZE ->
     load_byte m' x = load_byte (wmem w) x) ->
  evolves w qr (set_mem m' w) [].
Proof.
  intros (_ & Hr & Hm) Hs Hrx Hrb.
  assert (Hmsg : forall p, message_of m' rb p = message_of (wmem w) rb p).
  { intros p. by apply message_of_ext. }
  rewrite Forall_forall in Hm. split; [|split].
  - rewrite app_nil_r. split; [done|]. split.
    + eapply ring_repr_ext; [|done]. unfold ring_span in Hrx. intros. apply Hrx. lia.
    + apply Forall_forall. intros p Hp. unfold message_ok. cbn [set_mem wmem].
      rewrite Hmsg. by apply Hm.
  - apply Forall_forall. intros p _. apply Hmsg.
  - rewrite net_budget_mem. simpl. lia.
Qed.

Lemma evolves_log e w qr : net_inv w qr -> evolves w qr (log_event e w) [].
Proof.
  intros Hi. destruct (evolves_refl w qr Hi) as (I & S & B). split; [exact I|].
  split; [exact S|]. by rewrite net_budget_log.
Qed.

Lemma evolves_signal w qr : net_inv w qr -> exists new, evolves w qr (signalled c w) new.
Proof.
  intros Hi. unfold signalled. cbv zeta. set (e := EvHypercall _ _ _ _).
  pose proof (evolves_log e w qr Hi) as E1. pose proof (proj1 E1) as I1.
  set (w' := snd _). destruct (evolves_host (log_event e w) (qr ++ []) w' I1) as [new E2].
  { right. by do 3 eexists. }
  exists ([] ++ new). by eapply evolves_trans.
Qed.

(** A send keeps the rings in order, whether or not there is room. *)
Lemma evolves_send w qr p o :
  net_inv w qr -> (forall qs, ring_repr (wmem w) tx qs -> sends c qs p w o) ->
  exists res w' new, o = Ret (res, w') /\ evolves w qr w' new.
Proof.
  intros Hi Hsend. pose proof Hi as ((qs & Hs) & _). specialize (Hsend qs Hs).
  unfold sends in Hsend. destruct (fifo_send _ _ _) as [[u|e] q'].
  2: { exists (Err RING_ERROR), w, []. split; [done|by apply evolves_refl]. }
  destruct Hsend as (m' & Hm' & Hfr & ->).
  assert (E1 : evolves w qr (set_mem m' w) []).
  { destruct Hl as [_ H1 H2 _ _ _ _]. unfold disjoint, ring_span in *.
    apply evolves_mem; [done|by eexists| |]; intros x Hx; apply Hfr; unfold ring_span in *; lia. }
  destruct (evolves_signal _ _ (proj1 E1)) as [new E2].
  exists (Ok tt), (signalled c (set_mem m' w)), ([] ++ new). split; [done|].
  by eapply evolves_trans.
Qed.

(** The keepalive answer only touches the send buffer and the send ring. *)
Lemma answer_keepalive_runs d w qr req_id :
  channel d = c -> send_buf d = sb -> net_inv w qr ->
  exists w' new, answer_keepalive req_id (d, w) = Ret (tt, (d, w')) /\ evolves w qr w' new.
Proof.
  intros Hc Hsb Hi. unfold answer_keepalive.
  destruct (build_rndis_keepalive_cmplt req_id (replicate 16 Byte.x00)) as [[len resp]|] eqn:E;
    [|discriminate E].
  assert (Hr : len = 16 /\ zlen resp = 16) by (injection E as <- <-; done).
  destruct Hr as [-> Hr]. clear E.
  assert (Hsl : slice resp 0 16 = Ret resp).
  { rewrite slice_prefix by lia. f_equal. apply take_ge. unfold zlen in Hr. lia. }
  assert (Hrun : exists res w' new,
    send_rndis_control_inner resp (d, w) = Ret (res, (d, w')) /\ evolves w qr w' new).
  { unfold send_rndis_control_inner. destruct (send_section_free d) eqn:Hfree.
    2: { exists (Err Timeout), w, []. split; [|by apply evolves_refl].
         etrans; [apply bind_dev|]. by rewrite Hfree. }
    set (m1 := store_bytes (wmem w) (vaddr sb + 0) resp).
    set (bytes := nvsp_message_padded (build_nvsp_send_rndis_pkt 1 0 (as_u32 (zlen resp)))).
    assert (E1 : evolves w qr (set_mem m1 w) []).
    { destruct Hl as [_ _ _ _ H1 H2 H3]. unfold disjoint, NETVSC_SEND_BUF_SIZE in *.
      apply evolves_mem; [done| | |].
      - destruct Hi as ((qs & Hs) & _). exists qs. apply ring_repr_store; [|done].
        unfold disjoint. lia.
      - intros x Hx. apply load_byte_store_ne. lia.
      - intros x Hx. apply load_byte_store_ne. lia. }
    destruct (evolves_send (set_mem m1 w) (qr ++ []) (data_packet VM_PKT_DATA_INBAND 1 0 bytes)
      (send c bytes 0 (set_mem m1 w)) (proj1 E1)) as (res & w' & new & Hs & E2).
    { intros qs Hqs. apply send_sends; [done|apply Hl|by vm_compute|done]. }
    exists res, w', ([] ++ new). split; [|by eapply evolves_trans].
    dstep. rewrite Hfree. cbn [negb]. dstep. dstep. rewrite Hsb, Hc. fold m1 bytes.
    unfold in_world. by rewrite Hs. }
  destruct Hrun as (res & w' & new & Hs & He). exists w', new. split; [|done].
  etrans; [by apply bind_lift|]. cbv beta iota. etrans; [by apply bind_lift|]. cbv beta.
  by erewrite bind_Ret by exact Hs.
Qed.

Lemma u32_at_ok bs off :
  0 <= off -> off + 4 <= zlen bs -> off + 4 < U64 -> u32_at bs off = Ret (le_at 4 bs (Z.to_nat off)).
Proof.
  intros. unfold u32_at. rewrite uadd_ok by done. cbn [mbind outcome_bind].
  rewrite slice_ok by lia. unfold le_at. by replace (off + 4 - off) with 4 by lia.
Qed.

Lemma packet_kind p :
  match VmbusPacketType.from_u16 (packet_type (p_desc p)) with
  | Some VmbusPacketType.DataUsingXferPages => is_xfer p = true
  | Some VmbusPacketType.Completion => is_xfer p = false /\ is_completion p = true
  | _ => is_xfer p = false /\ is_completion p = false
  end.
Proof.
  unfold is_xfer, is_completion, VmbusPacketType.from_u16.
  cbn [VmbusPacketType.as_u16]. generalize (packet_type (p_desc p)). intros t.
  destruct (Z.eqb_spec t 6) as [->|]; [done|]. destruct (Z.eqb_spec t 7) as [->|]; [done|].
  destruct (Z.eqb_spec t 9) as [->|]; [done|]. by destruct (Z.eqb_spec t 11) as [->|].
Qed.

Lemma message_of_bound m p : zlen (message_of m rb p) <= RX_FRAME_MAX.
Proof.
  unfold message_of, rx_message. destruct (xfer_range _) as [[off len]|].
  - unfold zlen. rewrite length_load_bytes. unfold RX_FRAME_MAX. lia.
  - done.
Qed.

Abbreviation zeroes := (replicate (Z.to_nat RX_FRAME_MAX) Byte.x00).

(** Handling the message of a transfer-page packet once it is copied. *)
Lemma pump_message_runs d w qr msg :
  channel d = c -> send_buf d = sb -> net_inv w qr ->
  zlen msg <= RX_FRAME_MAX -> (8 <= zlen msg -> 8 <= le_at 4 msg 4) ->
  exists w' new,
    (if RNDIS_HEADER_SIZE <=? zlen msg then
       msg_type ← lift (u32_at (overwrite zeroes msg) 0);
       if msg_type =? RndisMessageType.as_u32 RndisMessageType.Packet then
         '(eth, data) ← lift (extract_eth_frame (overwrite zeroes msg) (zlen msg));
         match eth with
         | Some eth_len =>
             _ ← set_dev (set_pending_rx (Some {| rx_data := data; rx_len := eth_len |}));
             mret true
         | None => mret true
         end
       else if msg_type =? RndisMessageType.as_u32 RndisMessageType.KeepAlive then
         bs ← lift (slice (overwrite zeroes msg) 0 (zlen msg));
         r ← lift (parse_rndis_response bs);
         match r with
         | Some (RndisResponse.KeepAlive req_id) => _ ← answer_keepalive req_id; mret true
         | _ => mret true
         end
       else mret true
     else mret true) (d, w) =
    Ret (true, (match rx_slot msg with
                | Some slot => set_pending_rx (Some slot) d
                | None => d
                end, w')) /\ evolves w qr w' new.
Proof.
  intros Hc Hsb Hi Hmax Hok. set (buf := overwrite zeroes msg). unfold rx_slot. fold buf.
  unfold RNDIS_HEADER_SIZE. destruct (Z.leb_spec 8 (zlen msg)) as [H8|]; cbn [andb].
  2: { exists w, []. split; [done|by apply evolves_refl]. }
  specialize (Hok H8). unfold zlen in H8.
  assert (Hbl : zlen buf = RX_FRAME_MAX).
  { unfold buf, overwrite. unfold zlen in *. rewrite length_app, length_drop, length_replicate.
    unfold RX_FRAME_MAX in *. lia. }
  assert (Hat : forall off, (off <= 4)%nat -> le_at 4 buf off = le_at 4 msg off).
  { intros. apply le_at_app_l. lia. }
  rewrite u32_at_ok by (rewrite ?Hbl; done). rewrite Hat by (simpl; lia).
  change (Z.to_nat 0) with 0%nat. change ((lift (Ret (le_at 4 msg 0)) ≫= ?k) ?s) with (k (le_at 4 msg 0) s).
  cbv beta.
  destruct (le_at 4 msg 0 =? RndisMessageType.as_u32 RndisMessageType.Packet).
  - rewrite extract_eth_frame_closed by (rewrite ?Hbl, ?Hat; unfold zlen, RX_FRAME_MAX, U32 in *; lia).
    exists w, []. split; [|by apply evolves_refl].
    by destruct (eth_frame buf (zlen msg)) as [fr|].
  - destruct (le_at 4 msg 0 =? _).
    2: { exists w, []. split; [done|by apply evolves_refl]. }
    assert (slice buf 0 (zlen msg) = Ret msg) as ->.
    { rewrite slice_prefix by (rewrite ?Hbl; unfold zlen in *; lia). unfold zlen.
      rewrite Nat2Z.id. unfold buf, overwrite. by rewrite take_app_length. }
    change ((lift (Ret msg) ≫= ?k) ?s) with (k msg s). cbv beta.
    destruct (parse_rndis_packet msg) as (r & -> & _); [unfold zlen; lia|done|].
    change ((lift (Ret r) ≫= ?k) ?s) with (k r s). cbv beta.
    destruct r as [[]|]; try (exists w, []; split; [done|by apply evolves_refl]).
    destruct (answer_keepalive_runs d w qr req_id Hc Hsb Hi) as (w' & new & Hrun & He).
    exists w', new. split; [|done]. by erewrite bind_Ret by exact Hrun.
Qed.

Lemma recv_completion_sends qr w tid :
  0 <= tid < U64 -> net_inv w qr ->
  exists res w' new, send_completion c recv_completion tid w = Ret (res, w') /\
                     evolves w qr w' new.
Proof.
  intros Ht Hi. eapply evolves_send; [done|]. intros qs Hqs.
  apply send_completion_sends; [done|apply Hl|by vm_compute|done].
Qed.

Lemma pump_packet_runs d w qr p rest :
  channel d = c -> recv_buf d = rb -> send_buf d = sb -> net_inv w qr ->
  packet_wf p -> message_ok (wmem w) rb p ->
  let one := pump_one d p (message_of (wmem w) rb p) in
  exists w' new,
    pump_packet (p_desc p) (raw_of p ++ rest) (zlen (raw_of p)) (d, w) =
      Ret (one.2, (one.1, w')) /\ evolves w qr w' new.
Proof.
  intros Hc Hrb Hsb Hi Hwf Hok one. unfold pump_packet.
  assert (Hsame : exists w' new,
    (mret true : D bool) (d, w) = Ret (true, (d, w')) /\ evolves w qr w' new).
  { exists w, []. split; [done|by apply evolves_refl]. }
  unfold one, pump_one. pose proof (packet_kind p) as Hk.
  destruct (VmbusPacketType.from_u16 (packet_type (p_desc p))) as [[]|].
  - destruct Hk as [-> ->]. exact Hsame.
  - rewrite Hk. change ((dev pending_rx ≫= ?k) ?s) with (k (pending_rx d) s). cbv beta.
    case_bool_decide as Hp; [exists w, []; split; [done|by apply evolves_refl]|].
    rewrite slice_app_prefix by done.
    change ((lift (Ret ?x) ≫= ?k) ?s) with (k x s). cbv beta.
    destruct (recv_completion_sends qr w (transaction_id (p_desc p))) as (res & w1 & n1 & Hs & E1);
      [apply Hwf|done|].
    set (msg := message_of (wmem w) rb p) in *.
    destruct (pump_message_runs d w1 (qr ++ n1) msg Hc Hsb (proj1 E1)) as (w2 & n2 & Hrun & E2);
      [apply message_of_bound|exact Hok|].
    exists w2, (n1 ++ n2). split; [|by eapply evolves_trans].
    erewrite bind_Ret by apply parse_xfer_page_packet_closed. cbv beta iota.
    rewrite Hrb. rewrite zlen_replicate. change (Z.of_nat (Z.to_nat RX_FRAME_MAX)) with RX_FRAME_MAX.
    fold (message_of (wmem w) rb p). fold msg. etrans; [apply bind_dev|]. cbv beta.
    etrans; [apply bind_in_world; rewrite Hc; exact Hs|]. cbv beta. exact Hrun.
  - destruct Hk as [-> ->]. exact Hsame.
  - destruct Hk as [-> ->]. unfold tx_done, nvsp_offset_of. cbn [andb].
    pose proof (proj1 (proj2 (proj1 Hwf))) as Ho.
    destruct (Z.ltb_spec (offset8 (p_desc p) * 8) 16); [exact Hsame|].
    set (off := offset8 (p_desc p) * 8 - 16) in *.
    rewrite uadd_ok by solve_bounds. change ((lift (Ret ?x) ≫= ?k) ?s) with (k x s). cbv beta.
    destruct (Z.leb_spec (off + 4) (zlen (raw_of p))) as [Hfit|]; [|exact Hsame].
    pose proof (zlen_nonneg rest).
    rewrite u32_at_ok by (rewrite ?zlen_app; solve_bounds).
    change ((lift (Ret ?x) ≫= ?k) ?s) with (k x s). cbv beta.
    rewrite le_at_app_l by (unfold zlen in *; lia). cbn [andb].
    destruct (_ =? _); [|exact Hsame].
    exists w, []. split; [done|by apply evolves_refl].
  - destruct Hk as [-> ->]. exact Hsame.
Qed.

Lemma raw_received_512 p raw :
  zlen raw = 512 ->
  exists rest, raw_received p raw =
    (Ok (Some (p_desc p, zlen (raw_of p))), raw_of p ++ rest) /\ zlen (raw_of p ++ rest) = 512.
Proof.
  intros Hr. unfold raw_received. rewrite Hr.
  assert (Hn : Z.min (zlen (p_body p)) 512 = zlen (raw_of p)).
  { unfold raw_of, zlen. rewrite length_take. lia. }
  assert (Ht : take (Z.to_nat (Z.min (zlen (p_body p)) 512)) (p_body p) = raw_of p).
  { unfold raw_of, zlen. destruct (decide (length (p_body p) <= 512)%nat).
    - by rewrite !take_ge by lia.
    - f_equal. lia. }
  rewrite Ht, Hn. exists (drop (length (raw_of p)) raw). split; [done|].
  unfold raw_of, zlen in *. rewrite length_app, length_drop, length_take. lia.
Qed.

(** The next packet of the ring, after what the host added meanwhile. *)
Lemma next_raw_runs d w qr raw :
  channel d = c -> net_inv w qr -> zlen raw = 512 ->
  exists new, match qr ++ new with
    | [] => exists w1, next_raw raw (d, w) = Ret ((Ok None, raw), (d, w1)) /\ net_inv w1 []
    | p :: q => exists w2 rest,
        next_raw raw (d, w) = Ret ((Ok (Some (p_desc p, zlen (raw_of p))), raw_of p ++ rest),
                                   (d, w2)) /\
        zlen (raw_of p ++ rest) = 512 /\ packet_wf p /\ message_ok (wmem w2) rb p /\
        net_inv w2 q /\
        Forall (fun p => message_of (wmem w2) rb p = message_of (wmem w) rb p) qr /\
        (length new + net_budget w2 <= net_budget w)%nat
    end.
Proof.
  intros Hc Hi Hraw. destruct (evolves_host w qr (hv_async w) Hi (or_introl eq_refl)) as [new E1].
  exists new. set (w1 := hv_async w) in *. destruct E1 as (I1 & S1 & B1).
  assert (Hnext : next_raw raw (d, w) = in_world (try_recv_raw c raw) (d, w1)).
  { unfold next_raw. etrans; [apply bind_dev|]. rewrite Hc. done. }
  rewrite Hnext. unfold in_world, try_recv_raw, mbind, M_bind, on_mem.
  destruct (qr ++ new) as [|p q] eqn:Eq.
  - exists w1. split; [|done]. rewrite recv_packet_raw_empty by apply I1. by destruct w1.
  - destruct I1 as ((qs & Hs) & Hr & Hm).
    destruct (recv_packet_raw_dequeue _ _ _ _ raw Hr) as (m' & -> & Hr' & Hfr).
    destruct (raw_received_512 p raw Hraw) as (rest & -> & Hlen).
    pose proof (proj1 (repr_cons _ _ _ _ Hr)) as Hwf.
    destruct Hl as [_ H1 _ H2 _ _ _]. unfold disjoint, ring_span in *.
    assert (Hmsg : forall p, message_of m' rb p = message_of (wmem w1) rb p).
    { intros p'. apply message_of_ext. intros x Hx. apply Hfr. lia. }
    assert (Hok : forall p', message_ok (wmem w1) rb p' -> message_ok m' rb p').
    { intros p'. unfold message_ok. by rewrite Hmsg. }
    apply Forall_cons in Hm as [Hmp Hmq].
    exists (set_mem m' w1), rest. split_and!; try done.
    + by apply Hok.
    + split; [|split; [done|]].
      * exists qs. eapply ring_repr_ext; [|done]. intros. apply Hfr. lia.
      * eapply Forall_impl; [exact Hmq|]. exact Hok.
    + rewrite Forall_forall in S1 |- *. intros p' Hp'. cbn [set_mem wmem].
      rewrite Hmsg. by apply S1.
    + by rewrite net_budget_mem.
Qed.

Lemma pump_one_static d p msg :
  let d' := (pump_one d p msg).1 in
  channel d' = channel d /\ recv_buf d' = recv_buf d /\ send_buf d' = send_buf d.
Proof.
  unfold pump_one. destruct (is_xfer p).
  - case_bool_decide; [done|]. by destruct (rx_slot msg).
  - by destruct (_ && _).
Qed.

(** What a run of the pump over [qr] and the packets that arrive meanwhile
    leaves: the packets taken, with their messages, and the rest. *)
Definition pump_post (d : NetvscDevice) (w : world) (qr : list packet)
    (d' : NetvscDevice) (w' : world) : Prop :=
  exists new log go rest,
    pumped d log d' go /\ qr ++ new = log.*1 ++ rest /\ net_inv w' rest /\
    (go = true -> rest = []) /\
    (forall i p msg, log !! i = Some (p, msg) -> (i < length qr)%nat ->
       msg = message_of (wmem w) rb p).

(** A packet taken after the first, among those queued at the start. *)
Lemma taken_early (qr n1 q n2 n3 rest : list packet) p (log : list (packet * list byte)) i pm :
  qr ++ n1 = p :: q -> (q ++ n2) ++ n3 = log.*1 ++ rest ->
  log !! i = Some pm -> (S i < length qr)%nat -> q !! i = Some pm.1 /\ pm.1 ∈ qr.
Proof.
  intros Eq Heq Hlk Hlt. destruct qr as [|p0 qr]; [simpl in Hlt; lia|]. simpl in Eq, Hlt.
  simplify_eq. assert (Hi : qr !! i = Some pm.1).
  { assert (Hlo : (((qr ++ n1) ++ n2) ++ n3) !! i = Some pm.1).
    { rewrite Heq. apply lookup_app_l_Some. by rewrite list_lookup_fmap, Hlk. }
    by rewrite <- !app_assoc, lookup_app_l in Hlo by lia. }
  split; [by apply lookup_app_l_Some|]. apply list_elem_of_further. by eapply list_elem_of_lookup_2.
Qed.

Lemma pump_loop_runs n d w qr raw :
  channel d = c -> recv_buf d = rb -> send_buf d = sb -> net_inv w qr -> zlen raw = 512 ->
  (length qr + net_budget w < n)%nat ->
  exists d' w', pump_loop n raw (d, w) = Ret (Ok tt, (d', w')) /\ pump_post d w qr d' w'.
Proof.
  revert d w qr raw. induction n as [|n IH]; intros d w qr raw Hc Hrb Hsb Hi Hraw Hn; [lia|].
  cbn [pump_loop]. destruct (next_raw_runs d w qr raw Hc Hi Hraw) as [n1 Hnext].
  destruct (qr ++ n1) as [|p q] eqn:Eq.
  - destruct Hnext as (w1 & Hrun & I1). exists d, w1. split; [by erewrite bind_Ret by exact Hrun|].
    exists n1, [], true, []. split_and!; [constructor|by rewrite Eq|done|done|done].
  - destruct Hnext as (w2 & rest & Hrun & Hlen & Hwf & Hok & I2 & S2 & B2).
    destruct (pump_packet_runs d w2 q p rest Hc Hrb Hsb I2 Hwf Hok) as (w3 & n2 & Hp & E3).
    set (msg := message_of (wmem w2) rb p) in *.
    pose proof (pump_one_static d p msg) as (Hc' & Hrb' & Hsb').
    destruct (pump_one d p msg) as [d1 go] eqn:Hone. cbn [fst snd] in *.
    assert (Hmsg0 : (0 < length qr)%nat -> msg = message_of (wmem w) rb p).
    { intros Hpos. destruct qr as [|p0 qr]; [simpl in Hpos; lia|]. simpl in Eq. simplify_eq.
      by apply Forall_cons in S2 as [S2 _]. }
    assert (Hql : (length q + length n2 + net_budget w3 < n)%nat).
    { pose proof (f_equal length Eq) as El. rewrite length_app in El. simpl in El.
      destruct E3 as (_ & _ & B3). lia. }
    destruct go.
    + destruct (IH d1 w3 (q ++ n2) (raw_of p ++ rest)) as (d' & w' & Hloop & Hpost);
        [congruence..|apply E3|done|rewrite length_app; lia|].
      exists d', w'. split.
      { erewrite bind_Ret by exact Hrun. cbv beta iota. by erewrite bind_Ret by exact Hp. }
      destruct Hpost as (n3 & log & go & rest' & Hpd & Heq & I' & Hgo & Hlog).
      exists (n1 ++ n2 ++ n3), ((p, msg) :: log), go, rest'.
      split_and!; [by econstructor| |done|done|].
      * rewrite app_assoc, Eq. simpl. f_equal. by rewrite app_assoc.
      * intros [|i] p' msg' Hlk Hlt; [by simplify_eq/=; apply Hmsg0; lia|].
        simpl in Hlk. destruct (taken_early _ _ _ _ _ _ _ _ _ _ Eq Heq Hlk Hlt) as [Hq Hqr].
        rewrite (Hlog i p' msg' Hlk); [|rewrite length_app; apply lookup_lt_Some in Hq; lia].
        destruct E3 as (_ & S3 & _). rewrite Forall_forall in S2, S3.
        rewrite S3 by (by eapply list_elem_of_lookup_2). by apply S2.
    + exists d1, w3. split.
      { erewrite bind_Ret by exact Hrun. cbv beta iota. by erewrite bind_Ret by exact Hp. }
      exists (n1 ++ n2), [(p, msg)], false, (q ++ n2).
      split_and!; [by constructor|by rewrite app_assoc, Eq|apply E3|done|].
      intros [|i] p' msg' Hlk Hlt; [|done]. simplify_eq/=. apply Hmsg0. lia.
Qed.
End pump.


(** C15: with its receive slot full the pump loses a packet.  A transfer-page
    packet at the head of the ring is taken off the ring, the pump stops, and
    the device is unchanged: the frame is not delivered, and since only the
    ring's read index was written and the host was not signalled, no
    completion returns its part of the receive buffer to the host. *)
Theorem pump_loses_packet_when_full `{Hypervisor} rounds d w p q :
  hv_async w = w -> ring_repr (wmem w) (ch_recv (channel d)) (p :: q) ->
  is_xfer p = true -> is_Some (pending_rx d) ->
  exists m', pump_channel (S rounds) (d, w) = Ret (Ok tt, (d, set_mem m' w)) /\
             ring_repr m' (ch_recv (channel d)) q /\
             frame (ch_recv (channel d)) (wmem w) m'.
Proof.
  intros Hq Hr Hx Hp.
  destruct (recv_packet_raw_dequeue _ _ _ _ (replicate 512 Byte.x00) Hr) as (m' & Hrun & Hr' & Hfr).
  destruct (raw_received_512 p (replicate 512 Byte.x00)) as (rest & Hraw & _); [done|].
  exists m'. split; [|done]. unfold pump_channel. cbn [pump_loop].
  assert (Hn : next_raw (replicate 512 Byte.x00) (d, w) =
    Ret ((Ok (Some (p_desc p, zlen (raw_of p))), raw_of p ++ rest), (d, set_mem m' w))).
  { unfold next_raw. etrans; [apply bind_dev|].
    unfold in_world, host_activity, modify, try_recv_raw, mbind, M_bind, on_mem.
    by rewrite Hq, Hrun, Hraw. }
  erewrite bind_Ret by exact Hn. cbv beta iota. unfold pump_packet.
  pose proof (packet_kind p) as Hk.
  destruct (VmbusPacketType.from_u16 (packet_type (p_desc p))) as [[]|];
    try (destruct Hk; congruence).
  unfold mbind, M_bind, dev, gets. by rewrite bool_decide_true by done.
Qed.

(** ** Witnesses *)

Definition ring1 : RingHalf := {| base := 16384; data_size := 4096 |}.

Definition device0 (slot : option PendingRx) : NetvscDevice :=
  MkNetvsc (channel0 ring0 ring1)
    {| vaddr := 0x200000; paddr := 0x200000; rsize := NETVSC_RECV_BUF_SIZE |} 2
    {| vaddr := 0x100000; paddr := 0x100000; rsize := NETVSC_SEND_BUF_SIZE |} 3
    0x60001 (replicate 6 Byte.x00) 1500 1 100 (replicate 256 Byte.x00) 0 false true slot.

(** A host that does nothing. *)
Definition quiet_host : Hypervisor := {|
  hv_call _ _ _ w := (0, w); hv_wrmsr _ _ w := w; hv_async w := w; hv_park w := w |}.

#[export] Instance quiet_net_host c rb : @NetHost quiet_host c rb.
Proof.
  refine (@Build_NetHost quiet_host c rb (fun _ => O) _ _ _); [done|done|].
  intros w w' qs qr Hst Hs Hr. assert (w' = w) as -> by (by destruct Hst as [->|(? & ? & ? & ->)]).
  exists O, []. rewrite app_nil_r. split_and!; try done. by apply Forall_forall.
Defined.

(** A completion of an RNDIS send, and a transfer-page packet. *)
Definition packet_done : packet :=
  data_packet VM_PKT_COMP 0 5 (le_split 4 108 ++ le_split 4 1).
Definition packet_xfer : packet :=
  data_packet VM_PKT_DATA_USING_XFER_PAGES 1 6 (le_split 4 0 ++ le_split 4 1 ++ le_split 8 60).

Definition world_rx (p : packet) : world := set_mem (sent ring1 ∅ p) (world_of []).

Lemma ring1_one p :
  packet_wf p -> slot_size p < 4096 ->
  ring_repr (wmem (world_rx p)) ring1 [p] /\ ring_repr (wmem (world_rx p)) ring0 [].
Proof.
  intros Hwf Hsz. assert (Hg : ring_geometry ring1) by (by repeat split). split.
  - apply (sent_repr ring1 Hg _ []); [|done|].
    + split; [|constructor]. by repeat split.
    + change (used ∅ ring1) with 0. cbn [ring1 data_size]. lia.
  - eapply ring_repr_ext; [|apply ring0_empty]. intros x Hx. cbn [ring0 base data_size] in Hx.
    apply (sent_frame ring1 Hg); cbn [ring1 base data_size]; lia.
Qed.

Lemma layout0 slot : net_layout (channel0 ring0 ring1) (recv_buf (device0 slot)) (send_buf (device0 slot)).
Proof. split; vm_compute; (congruence || (left; congruence) || (right; congruence)). Qed.

Lemma extract_eth_frame_spec_witness :
  exists buf', extract_eth_frame (tx_message payload0) 47 = Ret (Some 3, buf') /\
               take 3 buf' = payload0.
Proof.
  destruct (extract_eth_frame_spec (tx_message payload0) 47) as (buf' & H);
    [vm_compute; split; congruence|vm_compute; congruence|vm_compute; congruence|].
  replace (eth_frame (tx_message payload0) 47) with (Some payload0) in H
    by (vm_compute; reflexivity).
  destruct H as (H & Ht & _). exists buf'. split; [exact H|exact Ht].
Defined.

Lemma transmit_with_sends_witness :
  exists m', ring_repr m' ring0 [tx_packet (device0 None) 3] /\
    @transmit_with quiet_host 1 unit 3 (fun _ => (tt, payload0)) (device0 None, world_of []) =
      Ret (Ok tt, (tx_device (device0 None),
                   @signalled quiet_host (channel0 ring0 ring1) (set_mem m' (world_of [])))).
Proof.
  destruct (@transmit_with_sends quiet_host unit 1 (fun _ => (tt, payload0)) (device0 None)
    (world_of []) [] 3 tt payload0) as (m' & Hr & _ & _ & Hrun);
    [reflexivity|vm_compute; congruence|vm_compute; congruence|exact ring0_empty
    |vm_compute; congruence|right; vm_compute; congruence|vm_compute; split; congruence
    |reflexivity|reflexivity|].
  exists m'. split; [exact Hr|exact Hrun].
Defined.


Lemma pump_loses_packet_when_full_witness :
  exists m',
    @pump_channel quiet_host 1 (device0 (Some {| rx_data := []; rx_len := 0 |}),
      world_rx packet_xfer) =
      Ret (Ok tt, (device0 (Some {| rx_data := []; rx_len := 0 |}),
                   set_mem m' (world_rx packet_xfer))) /\ ring_repr m' ring1 [].
Proof.
  destruct (ring1_one packet_xfer) as [Hr _]; [by apply data_packet_wf|done|].
  destruct (@pump_loses_packet_when_full quiet_host 0
    (device0 (Some {| rx_data := []; rx_len := 0 |})) (world_rx packet_xfer) packet_xfer [])
    as (m' & Hrun & Hr' & _); [reflexivity|exact Hr|reflexivity|by eexists|].
  exists m'. split; [exact Hrun|exact Hr'].
Defined.
