(* ===== verification/E1000.v ===== *)
(** The Intel e1000 driver ([crates/embclox-e1000/src]) and its wrapper in the
    driver framework ([crates/embclox-driver/src/drivers/e1000.rs]).  The
    adapter itself is hardware: it is the class [Mmio], whose operations act
    when the driver accesses a register and may then also change the
    descriptor rings and buffers, which are in memory. *)

From S2P Require Import Prelude Mem Dma Nic.

(** ** Registers: regs.rs, mmio_regs.rs *)

Class RegisterAccess (R HW : Type) := {
  read_reg : R -> Z -> M (mem * HW) Z;
  write_reg : R -> Z -> Z -> M (mem * HW) unit;
}.

Record MmioRegs := { regs_base : Z }.

Definition reg_addr (r : MmioRegs) (offset : Z) : outcome Z :=
  o ← umul offset 4; uadd (regs_base r) o.

Definition mmio_read_reg {HW} `{Mmio HW} (r : MmioRegs) (offset : Z) : M (mem * HW) Z :=
  p ← lift (reg_addr r offset); read_volatile p.

Definition mmio_write_reg {HW} `{Mmio HW} (r : MmioRegs) (offset value : Z) : M (mem * HW) unit :=
  p ← lift (reg_addr r offset); write_volatile p value.

#[export] Instance mmio_regs {HW} `{Mmio HW} : RegisterAccess MmioRegs HW :=
  {| read_reg := mmio_read_reg; write_reg := mmio_write_reg |}.

Definition CTL : Z := 0x00000.
Definition STAT : Z := 0x00008 / 4.
Definition FCAL : Z := 0x00028 / 4.
Definition FCAH : Z := 0x0002C / 4.
Definition FCT : Z := 0x00030 / 4.
Definition FCTTV : Z := 0x00170 / 4.
Definition ICR : Z := 0x000C0 / 4.
Definition ITR : Z := 0x000C4 / 4.
Definition IMS : Z := 0x000D0 / 4.
Definition IMC : Z := 0x000D8 / 4.
Definition RCTL : Z := 0x00100 / 4.
Definition TCTL : Z := 0x00400 / 4.
Definition TIPG : Z := 0x00410 / 4.
Definition RDBAL : Z := 0x02800 / 4.
Definition RDBAH : Z := 0x02804 / 4.
Definition RDTR : Z := 0x02820 / 4.
Definition RADV : Z := 0x0282C / 4.
Definition RDH : Z := 0x02810 / 4.
Definition RDT : Z := 0x02818 / 4.
Definition RDLEN : Z := 0x02808 / 4.
Definition TDBAL : Z := 0x03800 / 4.
Definition TDBAH : Z := 0x03804 / 4.
Definition TDLEN : Z := 0x03808 / 4.
Definition TDH : Z := 0x03810 / 4.
Definition TDT : Z := 0x03818 / 4.
Definition TIDV : Z := 0x03820 / 4.
Definition TADV : Z := 0x0382C / 4.
Definition MTA : Z := 0x05200 / 4.
Definition RAL : Z := 0x05400 / 4.
Definition RAH : Z := 0x05404 / 4.
Definition RFCTL : Z := 0x05008 / 4.

Definition CTL_ASDE : Z := 0x20.
Definition CTL_SLU : Z := 0x40.
Definition CTL_RST : Z := Z.shiftl 1 26.
Definition TCTL_EN : Z := 0x2.
Definition TCTL_PSP : Z := 0x8.
Definition TCTL_CT_SHIFT : Z := 4.
Definition TCTL_COLD_SHIFT : Z := 12.
Definition RCTL_EN : Z := 0x2.
Definition RCTL_UPE : Z := 0x8.
Definition RCTL_MPE : Z := 0x10.
Definition RCTL_LBM_MAC : Z := 0x40.
Definition RCTL_BAM : Z := 0x8000.
Definition RCTL_SZ_2048 : Z := 0.
Definition RCTL_SECRC : Z := 0x04000000.
Definition TXD_CMD_EOP : Z := 0x01.
Definition TXD_CMD_RS : Z := 0x08.
Definition TXD_STAT_DD : Z := 0x01.
Definition RXD_STAT_DD : Z := 0x01.
Definition RXD_STAT_EOP : Z := 0x02.
Definition IMS_RXT0 : Z := 0x80.
Definition IMS_LSC : Z := 0x04.
Definition IMS_ENABLE_MASK : Z := Z.lor IMS_RXT0 IMS_LSC.

(** ** Descriptors: desc.rs *)

Definition TX_RING_SIZE : Z := 256.
Definition RX_RING_SIZE : Z := 256.
Definition MBUF_SIZE : Z := 2048.
Definition PAGE_SIZE : Z := 4096.

Definition TX_RING_PAGES : Z := div_ceil (TX_RING_SIZE * 16) PAGE_SIZE.
Definition RX_RING_PAGES : Z := div_ceil (RX_RING_SIZE * 16) PAGE_SIZE.
Definition TX_BUF_PAGES : Z := div_ceil (TX_RING_SIZE * MBUF_SIZE) PAGE_SIZE.
Definition RX_BUF_PAGES : Z := div_ceil (RX_RING_SIZE * MBUF_SIZE) PAGE_SIZE.

Record TxDesc := {
  tx_addr : Z;
  tx_length : Z;
  tx_cso : Z;
  tx_cmd : Z;
  tx_status : Z;
  tx_css : Z;
  tx_special : Z;
}.

Record RxDesc := {
  rx_addr : Z;
  rx_length : Z;
  rx_csum : Z;
  rx_status : Z;
  rx_errors : Z;
  rx_special : Z;
}.

(** The [repr(C)] structs in memory. *)
Definition tx_desc (m : mem) (a : Z) : TxDesc :=
  {| tx_addr := load_le 8 m a; tx_length := load_le 2 m (a + 8); tx_cso := load_le 1 m (a + 10);
     tx_cmd := load_le 1 m (a + 11); tx_status := load_le 1 m (a + 12);
     tx_css := load_le 1 m (a + 13); tx_special := load_le 2 m (a + 14) |}.

Definition rx_desc (m : mem) (a : Z) : RxDesc :=
  {| rx_addr := load_le 8 m a; rx_length := load_le 2 m (a + 8); rx_csum := load_le 2 m (a + 10);
     rx_status := load_le 1 m (a + 12); rx_errors := load_le 1 m (a + 13);
     rx_special := load_le 2 m (a + 14) |}.

Record RingState := {
  ring_vaddr : Z;
  ring_paddr : Z;
  bufs_vaddr : Z;
  bufs_paddr : Z;
}.

(** [ring()[i]]: the address of a descriptor. *)
Definition desc_at (st : RingState) (i : Z) : outcome Z :=
  if i <? TX_RING_SIZE then Ret (ring_vaddr st + i * 16) else Panic IndexOutOfBounds.

Definition buf_vaddr (st : RingState) (index : Z) : outcome Z :=
  o ← umul index MBUF_SIZE; uadd (bufs_vaddr st) o.

(** ** The device: device.rs, reset.rs *)

Section e1000.
Context {R HW : Type} `{RegisterAccess R HW} `{DmaAllocator (mem * HW)}.

Abbreviation N := (M (mem * HW)).

Record E1000Device := {
  regs : R;
  tx_ring_dma : DmaRegion;
  rx_ring_dma : DmaRegion;
  tx_bufs_dma : DmaRegion;
  rx_bufs_dma : DmaRegion;
  tx : RingState;
  rx : RingState;
}.

Definition init_tx_desc (st : RingState) (i : Z) : N unit :=
  a ← lift (desc_at st i);
  o ← lift (umul i MBUF_SIZE);
  addr ← lift (uadd (bufs_paddr st) o);
  _ ← store (store_le 8 a addr);
  _ ← store (store_le 1 (a + 12) TXD_STAT_DD);
  _ ← store (store_le 1 (a + 11) 0);
  _ ← store (store_le 2 (a + 8) 0);
  _ ← store (store_le 1 (a + 10) 0);
  _ ← store (store_le 1 (a + 13) 0);
  store (store_le 2 (a + 14) 0).

Definition init_rx_desc (st : RingState) (i : Z) : N unit :=
  a ← lift (desc_at st i);
  o ← lift (umul i MBUF_SIZE);
  addr ← lift (uadd (bufs_paddr st) o);
  _ ← store (store_le 8 a addr);
  _ ← store (store_le 1 (a + 12) 0);
  _ ← store (store_le 2 (a + 8) 0);
  _ ← store (store_le 2 (a + 10) 0);
  _ ← store (store_le 1 (a + 13) 0);
  store (store_le 2 (a + 14) 0).

Definition write_flush (d : E1000Device) : N unit := _ ← read_reg (regs d) STAT; mret tt.

(** The register writes of [init_rings], in order. *)
Definition init_writes (d : E1000Device) : list (Z * Z) :=
  [(TCTL, Z.lor (Z.lor (Z.lor TCTL_EN TCTL_PSP) (Z.shiftl 0x10 TCTL_CT_SHIFT))
            (Z.shiftl 0x40 TCTL_COLD_SHIFT));
   (TIPG, Z.lor (Z.lor 10 (Z.shiftl 8 10)) (Z.shiftl 6 20));
   (TDBAL, as_u32 (ring_paddr (tx d)));
   (TDBAH, as_u32 (Z.shiftr (ring_paddr (tx d)) 32));
   (TDLEN, as_u32 (TX_RING_SIZE * 16));
   (TDT, 0);
   (TDH, 0);
   (RCTL, Z.land (Z.lor (Z.lor (Z.lor (Z.lor (Z.lor RCTL_EN RCTL_BAM) RCTL_UPE) RCTL_MPE)
                                RCTL_SZ_2048) RCTL_SECRC)
            (not_u32 (Z.shiftl 3 10)));
   (RFCTL, 0);
   (RDBAL, as_u32 (ring_paddr (rx d)));
   (RDBAH, as_u32 (Z.shiftr (ring_paddr (rx d)) 32));
   (RDLEN, as_u32 (RX_RING_SIZE * 16));
   (RDH, 0);
   (RDT, as_u32 (RX_RING_SIZE - 1))] ++
  ((fun i => (MTA + i, 0)) <$> seqZ 0 (4096 / 32)) ++
  [(TIDV, 0); (TADV, 0); (RDTR, 0); (RADV, 0); (ITR, 0); (IMS, IMS_ENABLE_MASK)].

Definition init_regs (d : E1000Device) : N unit :=
  _ ← for_each (init_writes d) (fun '(reg, v) => write_reg (regs d) reg v);
  _ ← read_reg (regs d) ICR;
  write_flush d.

Definition init_rings (d : E1000Device) : N unit :=
  _ ← for_each (seqZ 0 TX_RING_SIZE) (init_tx_desc (tx d));
  _ ← for_each (seqZ 0 RX_RING_SIZE) (init_rx_desc (rx d));
  init_regs d.

Definition ring_state (ring bufs : DmaRegion) : RingState :=
  {| ring_vaddr := vaddr ring; ring_paddr := paddr ring;
     bufs_vaddr := vaddr bufs; bufs_paddr := paddr bufs |}.

Definition new (r : R) : N E1000Device :=
  tx_ring ← alloc_coherent (TX_RING_PAGES * PAGE_SIZE) PAGE_SIZE;
  rx_ring ← alloc_coherent (RX_RING_PAGES * PAGE_SIZE) PAGE_SIZE;
  tx_bufs ← alloc_coherent (TX_BUF_PAGES * PAGE_SIZE) PAGE_SIZE;
  rx_bufs ← alloc_coherent (RX_BUF_PAGES * PAGE_SIZE) PAGE_SIZE;
  let d := {| regs := r; tx_ring_dma := tx_ring; rx_ring_dma := rx_ring;
              tx_bufs_dma := tx_bufs; rx_bufs_dma := rx_bufs;
              tx := ring_state tx_ring tx_bufs; rx := ring_state rx_ring rx_bufs |} in
  _ ← init_rings d;
  mret d.

Definition mac_address (d : E1000Device) : N (list Z) :=
  ral ← read_reg (regs d) RAL;
  rah ← read_reg (regs d) RAH;
  mret [as_u8 ral; as_u8 (Z.shiftr ral 8); as_u8 (Z.shiftr ral 16); as_u8 (Z.shiftr ral 24);
        as_u8 rah; as_u8 (Z.shiftr rah 8)].

Definition link_is_up (d : E1000Device) : N bool :=
  v ← read_reg (regs d) STAT; mret (negb (Z.land v 2 =? 0)).

Definition enable_interrupts (d : E1000Device) : N unit :=
  _ ← write_reg (regs d) IMS IMS_ENABLE_MASK; write_flush d.

Definition disable_interrupts (d : E1000Device) : N unit :=
  _ ← write_reg (regs d) IMC (not_u32 0); write_flush d.

Definition enable_loopback (d : E1000Device) : N unit :=
  rctl ← read_reg (regs d) RCTL;
  _ ← write_reg (regs d) RCTL (Z.lor (Z.land rctl (not_u32 (Z.shiftl 3 6))) RCTL_LBM_MAC);
  write_flush d.

Definition handle_interrupt (d : E1000Device) : N Z :=
  icr ← read_reg (regs d) ICR;
  _ ← write_reg (regs d) ICR icr;
  mret icr.

(** Reads [CTL] up to [n] times, until the reset bit clears; whether it did. *)
Fixpoint wait_reset (n : nat) (r : R) : N bool :=
  match n with
  | O => mret false
  | S n' =>
      c ← read_reg r CTL;
      if Z.land c CTL_RST =? 0 then mret true else wait_reset n' r
  end.

Definition RESET_TRIES : nat := Z.to_nat 100000.

Definition drop_device (d : E1000Device) : N unit :=
  _ ← write_reg (regs d) IMS 0;
  ctl ← read_reg (regs d) CTL;
  _ ← write_reg (regs d) CTL (Z.lor ctl CTL_RST);
  _ ← wait_reset RESET_TRIES (regs d);
  _ ← free_coherent (tx_ring_dma d);
  _ ← free_coherent (rx_ring_dma d);
  _ ← free_coherent (tx_bufs_dma d);
  free_coherent (rx_bufs_dma d).

Definition reset_device (r : R) : N unit :=
  _ ← write_reg r IMS 0;
  ctl ← read_reg r CTL;
  _ ← write_reg r CTL (Z.lor ctl CTL_RST);
  done ← wait_reset RESET_TRIES r;
  _ ← lift (rassert done);
  for_each [(IMS, 0); (CTL, Z.lor CTL_SLU CTL_ASDE); (FCAL, 0); (FCAH, 0); (FCT, 0); (FCTTV, 0)]
    (fun '(reg, v) => write_reg r reg v).

(** ** Receiving: [RxHalf] *)

Definition rx_index (d : E1000Device) : N Z :=
  rdt ← read_reg (regs d) RDT;
  n ← lift (uadd rdt 1);
  mret (n mod RX_RING_SIZE).

Definition has_rx_packet (d : E1000Device) : N bool :=
  rindex ← rx_index d;
  a ← lift (desc_at (rx d) rindex);
  addr ← load (fun m => rx_addr (rx_desc m a));
  status ← load (fun m => rx_status (rx_desc m a));
  mret (negb (addr =? 0) && negb (Z.land status RXD_STAT_DD =? 0)).

(** Gives the slot back to the adapter. *)
Definition release_rx (d : E1000Device) (a rindex : Z) : N unit :=
  _ ← store (store_le 1 (a + 12) 0);
  _ ← write_reg (regs d) RDT (as_u32 rindex);
  _ ← read_reg (regs d) STAT;
  mret tt.

(** The closure reads and overwrites the bytes of the frame in place. *)
Definition recv_with {T} (d : E1000Device) (f : list byte -> T * list byte) : N (option T) :=
  rindex ← rx_index d;
  a ← lift (desc_at (rx d) rindex);
  addr ← load (fun m => rx_addr (rx_desc m a));
  if addr =? 0 then mret None else
  status ← load (fun m => rx_status (rx_desc m a));
  let full := Z.lor RXD_STAT_DD RXD_STAT_EOP in
  if negb (Z.land status full =? full) then mret None else
  errors ← load (fun m => rx_errors (rx_desc m a));
  if negb (errors =? 0) then
    _ ← release_rx d a rindex;
    mret None
  else
  length ← load (fun m => rx_length (rx_desc m a));
  let len := Z.min length MBUF_SIZE in
  buf_addr ← lift (buf_vaddr (rx d) rindex);
  buf ← gets (fun s => load_bytes s.1 buf_addr (Z.to_nat len));
  let '(result, buf) := f buf in
  _ ← store (fun m => store_bytes m buf_addr buf);
  _ ← store (fun m => store_bytes m buf_addr (replicate (Z.to_nat (Z.min 64 len)) Byte.x00));
  _ ← release_rx d a rindex;
  mret (Some result).

(** ** Transmitting: [TxHalf] *)

Definition has_tx_space (d : E1000Device) : N bool :=
  tindex ← read_reg (regs d) TDT;
  a ← lift (desc_at (tx d) tindex);
  status ← load (fun m => tx_status (tx_desc m a));
  mret (negb (Z.land status TXD_STAT_DD =? 0)).

(** The end of both transmit functions: hand the slot to the adapter. *)
Definition publish_tx (d : E1000Device) (a tindex len : Z) : N unit :=
  _ ← store (store_le 2 (a + 8) (as_u16 len));
  _ ← store (store_le 1 (a + 12) 0);
  _ ← store (store_le 1 (a + 11) (Z.lor TXD_CMD_RS TXD_CMD_EOP));
  n ← lift (uadd tindex 1);
  _ ← write_reg (regs d) TDT (as_u32 (n mod TX_RING_SIZE));
  _ ← read_reg (regs d) STAT;
  mret tt.

Definition transmit (d : E1000Device) (packet : list byte) : N unit :=
  tindex ← read_reg (regs d) TDT;
  a ← lift (desc_at (tx d) tindex);
  status ← load (fun m => tx_status (tx_desc m a));
  if Z.land status TXD_STAT_DD =? 0 then mret tt else
  let len := Z.min (zlen packet) MBUF_SIZE in
  buf_addr ← lift (buf_vaddr (tx d) tindex);
  part ← lift (slice packet 0 len);
  _ ← store (fun m => store_bytes m buf_addr part);
  publish_tx d a tindex len.

Definition transmit_with {T} (d : E1000Device) (len : Z) (f : list byte -> T * list byte)
  : N (option T) :=
  tindex ← read_reg (regs d) TDT;
  a ← lift (desc_at (tx d) tindex);
  status ← load (fun m => tx_status (tx_desc m a));
  if Z.land status TXD_STAT_DD =? 0 then mret None else
  let len := Z.min len MBUF_SIZE in
  buf_addr ← lift (buf_vaddr (tx d) tindex);
  buf ← gets (fun s => load_bytes s.1 buf_addr (Z.to_nat len));
  let '(result, buf) := f buf in
  _ ← store (fun m => store_bytes m buf_addr buf);
  _ ← publish_tx d a tindex len;
  mret (Some result).

(** ** The wrapper: drivers/e1000.rs *)

Definition rx_ready (d : E1000Device) : N bool := has_rx_packet d.
Definition tx_ready (d : E1000Device) : N bool := has_tx_space d.

Definition nic_recv_with (d : E1000Device) (f : list byte -> list byte) : N unit :=
  o ← recv_with d (fun buf => (tt, f buf)); expect o.

Definition nic_transmit_with (d : E1000Device) (len : Z) (f : list byte -> list byte) : N unit :=
  o ← transmit_with d len (fun buf => (tt, f buf)); expect o.

End e1000.

Arguments E1000Device : clear implicits.
