(* ===== verification/E1000Facts.v ===== *)
(** Properties of the e1000 driver: what the rings hold when they are handed
    to the adapter, and what sending and receiving do to them. *)

From S2P Require Import Prelude Mem Dma Nic E1000.

Lemma tx_desc_ext m m' a :
  (forall x, a <= x < a + 16 -> load_byte m' x = load_byte m x) -> tx_desc m' a = tx_desc m a.
Proof. intros H. unfold tx_desc. f_equal; apply load_le_ext; intros; apply H; lia. Qed.

Lemma rx_desc_ext m m' a :
  (forall x, a <= x < a + 16 -> load_byte m' x = load_byte m x) -> rx_desc m' a = rx_desc m a.
Proof. intros H. unfold rx_desc. f_equal; apply load_le_ext; intros; apply H; lia. Qed.

(** ** The rings *)

Definition slot (st : RingState) (i : Z) : Z := ring_vaddr st + i * 16.
Definition buffer (st : RingState) (i : Z) : Z := bufs_vaddr st + i * MBUF_SIZE.

(** A ring and its buffers are in the address space and do not overlap. *)
Record ring_layout (st : RingState) : Prop := {
  ring_in : 0 <= ring_vaddr st;
  bufs_in : 0 <= bufs_vaddr st /\ bufs_vaddr st + 256 * MBUF_SIZE <= U64;
  bufs_phys : 0 <= bufs_paddr st /\ bufs_paddr st + 256 * MBUF_SIZE <= U64;
  ring_apart : ring_vaddr st + 256 * 16 <= bufs_vaddr st \/
               bufs_vaddr st + 256 * MBUF_SIZE <= ring_vaddr st;
}.

Definition valid (i : Z) : Prop := 0 <= i < 256.

(** The two memories agree except in buffer [i] and the last eight bytes of
    descriptor [i]. *)
Definition only_slot (st : RingState) (i : Z) (m m' : mem) : Prop :=
  forall x, (x < buffer st i \/ buffer st i + MBUF_SIZE <= x) ->
    (x < slot st i + 8 \/ slot st i + 16 <= x) -> load_byte m' x = load_byte m x.

Lemma only_slot_desc st i j m m' x :
  ring_layout st -> valid i -> valid j -> i <> j -> only_slot st i m m' ->
  slot st j <= x < slot st j + 16 \/ buffer st j <= x < buffer st j + MBUF_SIZE ->
  load_byte m' x = load_byte m x.
Proof.
  intros [] Hi Hj Hne Ho Hx. unfold only_slot, valid, slot, buffer, MBUF_SIZE in *. apply Ho; lia.
Qed.

Lemma only_slot_tx st i j m m' :
  ring_layout st -> valid i -> valid j -> i <> j -> only_slot st i m m' ->
  tx_desc m' (slot st j) = tx_desc m (slot st j).
Proof. intros. apply tx_desc_ext. intros. apply (only_slot_desc st i j); try done. by left. Qed.

Lemma only_slot_rx st i j m m' :
  ring_layout st -> valid i -> valid j -> i <> j -> only_slot st i m m' ->
  rx_desc m' (slot st j) = rx_desc m (slot st j).
Proof. intros. apply rx_desc_ext. intros. apply (only_slot_desc st i j); try done. by left. Qed.

Lemma only_slot_buf st i j n m m' :
  ring_layout st -> valid i -> valid j -> i <> j -> only_slot st i m m' ->
  (n <= 2048)%nat ->
  load_bytes m' (buffer st j) n = load_bytes m (buffer st j) n.
Proof.
  intros. apply load_bytes_ext. intros. apply (only_slot_desc st i j); try done.
  right. unfold MBUF_SIZE. lia.
Qed.

Lemma desc_at_ok st i : valid i -> desc_at st i = Ret (slot st i).
Proof. intros Hi. unfold desc_at, TX_RING_SIZE. unfold valid in Hi. by rewrite (proj2 (Z.ltb_lt _ _)) by lia. Qed.

Lemma buf_vaddr_ok st i : ring_layout st -> valid i -> buf_vaddr st i = Ret (buffer st i).
Proof.
  intros [] Hi. unfold buf_vaddr, valid, MBUF_SIZE in *.
  rewrite umul_ok by (unfold U64; lia). apply uadd_ok. lia.
Qed.

Lemma as_u32_index x : as_u32 (x mod 256) = x mod 256.
Proof. apply Z.mod_small. pose proof (Z.mod_pos_bound x 256 ltac:(lia)). unfold U32. lia. Qed.

Section facts.
Context {R HW : Type} `{RegisterAccess R HW}.
Implicit Types (d : E1000Device R) (m : mem) (h : HW).

(** Moving a tail register, which lets the adapter at the slots before it. *)
Definition kick (r : R) (reg v : Z) : M (mem * HW) unit :=
  _ ← write_reg r reg v; _ ← read_reg r STAT; mret tt.

(** *** Transmitting *)

(** The frame a transmit slot holds. *)
Definition tx_frame (st : RingState) (m : mem) (i : Z) : list byte :=
  load_bytes m (buffer st i) (Z.to_nat (tx_length (tx_desc m (slot st i)))).

(** The frames of the [k] slots from [head] on. *)
Definition in_flight (st : RingState) (m : mem) (head k : Z) : list (list byte) :=
  (fun i => tx_frame st m ((head + i) mod 256)) <$> seqZ 0 k.

(** What [transmit_with] does to memory before it writes the tail register. *)
Definition tx_mem (st : RingState) (t : Z) (out : list byte) (m : mem) : mem :=
  store_le 1 (slot st t + 11) (Z.lor TXD_CMD_RS TXD_CMD_EOP)
    (store_le 1 (slot st t + 12) 0
      (store_le 2 (slot st t + 8) (as_u16 (zlen out)) (store_bytes m (buffer st t) out))).

Lemma tx_mem_only st t out m :
  (length out <= 2048)%nat -> only_slot st t m (tx_mem st t out m).
Proof.
  intros Hlen x Hb Hs. unfold tx_mem, store_le.
  rewrite !load_byte_store_ne by (autorewrite with zlen; unfold zlen, MBUF_SIZE in *; lia). done.
Qed.

Lemma tx_mem_desc st t out m :
  ring_layout st -> valid t -> (length out <= 2048)%nat ->
  tx_desc (tx_mem st t out m) (slot st t) =
  {| tx_addr := tx_addr (tx_desc m (slot st t)); tx_length := zlen out;
     tx_cso := tx_cso (tx_desc m (slot st t)); tx_cmd := Z.lor TXD_CMD_RS TXD_CMD_EOP;
     tx_status := 0; tx_css := tx_css (tx_desc m (slot st t));
     tx_special := tx_special (tx_desc m (slot st t)) |}.
Proof.
  intros [] Ht Hlen. unfold valid, MBUF_SIZE in *.
  assert (Hz : 0 <= zlen out <= 2048) by (unfold zlen; lia).
  assert (Hb : slot st t + 16 <= buffer st t \/ buffer st t + zlen out <= slot st t)
    by (unfold slot, buffer, MBUF_SIZE; lia).
  unfold tx_desc, tx_mem. cbn [tx_addr tx_cso tx_css tx_special].
  f_equal; load_fields; try done.
  unfold as_u16, U16. rewrite Zmod_mod. apply Z.mod_small. lia.
Qed.

Lemma tx_mem_frame st t out m :
  ring_layout st -> valid t -> (length out <= 2048)%nat ->
  tx_frame st (tx_mem st t out m) t = out.
Proof.
  intros Hl Ht Hlen. unfold tx_frame. rewrite tx_mem_desc by done. cbn [tx_length].
  destruct Hl. unfold valid, MBUF_SIZE in *.
  assert (Hz : 0 <= zlen out <= 2048) by (unfold zlen; lia).
  replace (Z.to_nat (zlen out)) with (length out) by (unfold zlen; lia).
  assert (Hb : slot st t + 16 <= buffer st t \/ buffer st t + zlen out <= slot st t)
    by (unfold slot, buffer, MBUF_SIZE; lia).
  unfold tx_mem, store_le. rewrite !load_bytes_store_ne
    by (autorewrite with zlen; unfold zlen in *; lia).
  apply load_bytes_store_eq.
Qed.

Lemma tx_frame_other st i j m m' :
  ring_layout st -> valid i -> valid j -> i <> j -> only_slot st i m m' ->
  tx_length (tx_desc m (slot st j)) <= 2048 ->
  tx_frame st m' j = tx_frame st m j.
Proof.
  intros Hl Hi Hj Hne Ho Hlen. unfold tx_frame. rewrite (only_slot_tx st i j m m') by done.
  apply (only_slot_buf st i j); [done..|lia].
Qed.

Lemma publish_tx_runs d t len m h :
  valid t ->
  publish_tx d (slot (tx d) t) t len (m, h) =
  kick (regs d) TDT ((t + 1) mod 256)
    (store_le 1 (slot (tx d) t + 11) (Z.lor TXD_CMD_RS TXD_CMD_EOP)
      (store_le 1 (slot (tx d) t + 12) 0
        (store_le 2 (slot (tx d) t + 8) (as_u16 len) m)), h).
Proof.
  intros Ht. unfold valid in Ht. unfold publish_tx. rewrite !bind_store.
  rewrite (bind_lift _ _ _ (t + 1)) by (apply uadd_ok; unfold U64; lia). unfold TX_RING_SIZE.
  by rewrite as_u32_index.
Qed.

Lemma in_flight_app st m m' head k out t :
  ring_layout st -> valid t -> 0 <= k < 256 -> (head + k) mod 256 = t ->
  (forall j, valid j -> tx_length (tx_desc m (slot st j)) <= 2048) ->
  only_slot st t m m' -> tx_frame st m' t = out ->
  in_flight st m' head (k + 1) = in_flight st m head k ++ [out].
Proof.
  intros Hl Ht Hk Hhead Hlen Ho Hout. unfold in_flight.
  rewrite seqZ_app, fmap_app by lia. f_equal.
  - apply list_fmap_ext. intros n i Hi. apply lookup_seqZ in Hi as [-> Hn].
    assert (Hj : valid ((head + (0 + Z.of_nat n)) mod 256)).
    { unfold valid. apply Z.mod_pos_bound. lia. }
    apply (tx_frame_other st t); try done; [|by apply Hlen].
    intros Heq. rewrite <- Hhead in Heq.
    pose proof (Z_div_mod_eq_full (head + k) 256).
    pose proof (Z_div_mod_eq_full (head + (0 + Z.of_nat n)) 256). lia.
  - rewrite Z.add_0_l, seqZ_cons by lia. cbn [fmap list_fmap Z.pred].
    rewrite Hhead, Hout. done.
Qed.

(** *** Receiving *)

Definition rx_frame (st : RingState) (m : mem) (i : Z) : list byte :=
  load_bytes m (buffer st i) (Z.to_nat (Z.min (rx_length (rx_desc m (slot st i))) MBUF_SIZE)).

(** A descriptor given back to the adapter. *)
Definition released (x : RxDesc) : RxDesc :=
  {| rx_addr := rx_addr x; rx_length := rx_length x; rx_csum := rx_csum x; rx_status := 0;
     rx_errors := rx_errors x; rx_special := rx_special x |}.

Definition rx_mem (st : RingState) (i : Z) (out : list byte) (m : mem) : mem :=
  store_le 1 (slot st i + 12) 0
    (store_bytes (store_bytes m (buffer st i) out) (buffer st i)
       (replicate (Z.to_nat (Z.min 64 (zlen out))) Byte.x00)).

Lemma rx_mem_only st i out m :
  (length out <= 2048)%nat -> only_slot st i m (rx_mem st i out m).
Proof.
  intros Hlen x Hb Hs. unfold rx_mem, store_le.
  rewrite !load_byte_store_ne by (autorewrite with zlen; unfold zlen, MBUF_SIZE in *; lia). done.
Qed.

Lemma rx_mem_desc st i out m :
  ring_layout st -> valid i -> (length out <= 2048)%nat ->
  rx_desc (rx_mem st i out m) (slot st i) = released (rx_desc m (slot st i)).
Proof.
  intros [] Ht Hlen. unfold valid, MBUF_SIZE in *.
  assert (Hz : 0 <= zlen out <= 2048) by (unfold zlen; lia).
  assert (Hb : slot st i + 16 <= buffer st i \/ buffer st i + zlen out <= slot st i)
    by (unfold slot, buffer, MBUF_SIZE; lia).
  unfold rx_desc, rx_mem, released. cbn [rx_addr rx_length rx_csum rx_errors rx_special].
  f_equal; load_fields; done.
Qed.

Lemma rx_index_runs d rdt s m h :
  read_reg (regs d) RDT s = Ret (rdt, (m, h)) -> 0 <= rdt < U32 ->
  rx_index d s = Ret ((rdt + 1) mod 256, (m, h)).
Proof.
  intros Hr Hrdt. unfold rx_index. erewrite bind_Ret by exact Hr. cbv beta.
  by rewrite (bind_lift _ _ _ (rdt + 1)) by (apply uadd_ok; unfold U32, U64 in *; lia).
Qed.

Lemma release_rx_runs d i m h :
  valid i ->
  release_rx d (slot (rx d) i) i (m, h) =
  kick (regs d) RDT i
    (store_le 1 (slot (rx d) i + 12) 0 m, h).
Proof.
  intros Hi. unfold release_rx. rewrite bind_store.
  replace (as_u32 i) with i; [done|]. symmetry. apply Z.mod_small. unfold valid, U32 in *. lia.
Qed.

(** *** Initialisation *)

(** The descriptors after [init_rings]. *)
Definition fresh_tx (st : RingState) (i : Z) : TxDesc :=
  {| tx_addr := bufs_paddr st + i * MBUF_SIZE; tx_length := 0; tx_cso := 0; tx_cmd := 0;
     tx_status := TXD_STAT_DD; tx_css := 0; tx_special := 0 |}.

Definition fresh_rx (st : RingState) (i : Z) : RxDesc :=
  {| rx_addr := bufs_paddr st + i * MBUF_SIZE; rx_length := 0; rx_csum := 0; rx_status := 0;
     rx_errors := 0; rx_special := 0 |}.

Lemma buf_phys_ok st i :
  ring_layout st -> valid i ->
  umul i MBUF_SIZE = Ret (i * MBUF_SIZE) /\
  uadd (bufs_paddr st) (i * MBUF_SIZE) = Ret (bufs_paddr st + i * MBUF_SIZE) /\
  (bufs_paddr st + i * MBUF_SIZE) mod 2 ^ (8 * 8) = bufs_paddr st + i * MBUF_SIZE.
Proof.
  intros [] Hi. unfold valid, MBUF_SIZE, U64 in *. split_and!.
  - apply umul_ok. unfold U64. lia.
  - apply uadd_ok. unfold U64. lia.
  - apply Z.mod_small. lia.
Qed.

Lemma init_tx_desc_runs st i m h :
  ring_layout st -> valid i ->
  exists m', init_tx_desc st i (m, h) = Ret (tt, (m', h)) /\
    tx_desc m' (slot st i) = fresh_tx st i /\ only_desc (ring_vaddr st) i m m'.
Proof.
  intros Hl Hi. destruct (buf_phys_ok st i Hl Hi) as (Hm & Ha & Hmod).
  eexists. split_and!.
  - unfold init_tx_desc. rewrite (bind_lift _ _ _ (slot st i)) by (by apply desc_at_ok).
    rewrite (bind_lift _ _ _ _ Hm), (bind_lift _ _ _ _ Ha), !bind_store. reflexivity.
  - unfold tx_desc, fresh_tx. cbn [fst]. f_equal; load_fields; [exact Hmod|done..].
  - intros x Hx. unfold store_le, slot. cbn [fst].
    rewrite !load_byte_store_ne by (rewrite zlen_le_split; lia). done.
Qed.

Lemma init_rx_desc_runs st i m h :
  ring_layout st -> valid i ->
  exists m', init_rx_desc st i (m, h) = Ret (tt, (m', h)) /\
    rx_desc m' (slot st i) = fresh_rx st i /\ only_desc (ring_vaddr st) i m m'.
Proof.
  intros Hl Hi. destruct (buf_phys_ok st i Hl Hi) as (Hm & Ha & Hmod).
  eexists. split_and!.
  - unfold init_rx_desc. rewrite (bind_lift _ _ _ (slot st i)) by (by apply desc_at_ok).
    rewrite (bind_lift _ _ _ _ Hm), (bind_lift _ _ _ _ Ha), !bind_store. reflexivity.
  - unfold rx_desc, fresh_rx. cbn [fst]. f_equal; load_fields; [exact Hmod|done..].
  - intros x Hx. unfold store_le, slot. cbn [fst].
    rewrite !load_byte_store_ne by (rewrite zlen_le_split; lia). done.
Qed.

(** Every transmit slot has a buffer of its own, and no slot describes more
    than its buffer. *)
Definition tx_wf (st : RingState) (m : mem) : Prop :=
  forall i, valid i -> tx_addr (tx_desc m (slot st i)) = bufs_paddr st + i * MBUF_SIZE /\
    tx_length (tx_desc m (slot st i)) <= MBUF_SIZE.

Lemma tx_wf_only st t m m' :
  ring_layout st -> valid t -> tx_wf st m -> only_slot st t m m' ->
  tx_addr (tx_desc m' (slot st t)) = tx_addr (tx_desc m (slot st t)) ->
  tx_length (tx_desc m' (slot st t)) <= MBUF_SIZE -> tx_wf st m'.
Proof.
  intros Hl Ht Hwf Ho Ha Hlen j Hj. destruct (decide (j = t)) as [->|Hne].
  - rewrite Ha. split; [by apply Hwf|done].
  - rewrite (only_slot_tx st t j m m') by done. by apply Hwf.
Qed.

End facts.

Lemma recv_with_cases {R HW} `{RegisterAccess R HW} {T} (d : E1000Device R)
    (f : list byte -> T * list byte) s rdt m (h : HW) v out :
  let i := (rdt + 1) mod 256 in
  let x := rx_desc m (slot (rx d) i) in
  let complete := Z.lor RXD_STAT_DD RXD_STAT_EOP in
  read_reg (regs d) RDT s = Ret (rdt, (m, h)) -> 0 <= rdt < U32 -> ring_layout (rx d) ->
  f (rx_frame (rx d) m i) = (v, out) -> length out = length (rx_frame (rx d) m i) ->
  if (rx_addr x =? 0) || negb (Z.land (rx_status x) complete =? complete)
  then recv_with d f s = Ret (None, (m, h))
  else exists m',
    recv_with d f s =
      (_ ← kick (regs d) RDT i; mret (if rx_errors x =? 0 then Some v else None)) (m', h) /\
    only_slot (rx d) i m m' /\ rx_desc m' (slot (rx d) i) = released x /\
    forall j, valid j -> j <> i ->
      rx_desc m' (slot (rx d) j) = rx_desc m (slot (rx d) j) /\
      rx_frame (rx d) m' j = rx_frame (rx d) m j.
Proof.
  intros i x complete Hr Hrdt Hl Hf Hout.
  assert (Hi : valid i) by (unfold valid, i; apply Z.mod_pos_bound; lia).
  assert (Hlo : (length out <= 2048)%nat).
  { rewrite Hout. unfold rx_frame. rewrite length_load_bytes. unfold MBUF_SIZE. lia. }
  unfold recv_with. erewrite bind_Ret by (by apply rx_index_runs). cbv beta. fold i.
  rewrite (bind_lift _ _ _ (slot (rx d) i)) by (by apply desc_at_ok).
  rewrite bind_load. fold x. destruct (rx_addr x =? 0); [done|]. cbn [orb].
  rewrite bind_load. fold x complete. cbv zeta. destruct (Z.land _ complete =? complete); [|done].
  cbn [negb]. rewrite bind_load. fold x.
  assert (Hothers : forall m', only_slot (rx d) i m m' -> forall j, valid j -> j <> i ->
      rx_desc m' (slot (rx d) j) = rx_desc m (slot (rx d) j) /\
      rx_frame (rx d) m' j = rx_frame (rx d) m j).
  { intros m' Ho j Hj Hne. assert (Hd : rx_desc m' (slot (rx d) j) = rx_desc m (slot (rx d) j))
      by (by apply (only_slot_rx _ i)).
    split; [done|]. unfold rx_frame. rewrite Hd. apply (only_slot_buf _ i); try done.
    unfold MBUF_SIZE. lia. }
  destruct (rx_errors x =? 0); cbn [negb].
  - exists (rx_mem (rx d) i out m).
    assert (Ho : only_slot (rx d) i m (rx_mem (rx d) i out m)) by (by apply rx_mem_only).
    split_and!; [|done|by apply rx_mem_desc|by apply Hothers].
    rewrite bind_load. fold x.
    rewrite (bind_lift _ _ _ (buffer (rx d) i)) by (by apply buf_vaddr_ok).
    erewrite bind_Ret by reflexivity. cbv beta. cbn [fst]. fold x.
    change (load_bytes m _ _) with (rx_frame (rx d) m i). rewrite Hf, !bind_store.
    unfold mbind at 1, M_bind at 1. rewrite release_rx_runs by done.
    unfold rx_mem. replace (zlen out) with (Z.min (rx_length x) MBUF_SIZE); [done|].
    unfold zlen. rewrite Hout. unfold rx_frame. rewrite length_load_bytes. fold x.
    pose proof (le_combine_bound (load_bytes m (slot (rx d) i + 8) 2)) as Hb.
    change (le_combine (load_bytes m (slot (rx d) i + 8) 2)) with (rx_length x) in Hb.
    unfold MBUF_SIZE. lia.
  - exists (store_le 1 (slot (rx d) i + 12) 0 m).
    pose proof (rx_mem_only (rx d) i [] m ltac:(simpl; lia)) as Ho.
    pose proof (rx_mem_desc (rx d) i [] m Hl Hi ltac:(simpl; lia)) as Hd.
    change (rx_mem (rx d) i [] m) with (store_le 1 (slot (rx d) i + 12) 0 m) in Ho, Hd.
    split_and!; [|done|done|by apply Hothers].
    unfold mbind at 1, M_bind at 1. by rewrite release_rx_runs.
Qed.

(** ** The claims *)

(** [new] hands the adapter two initialised rings.  When the first
    register is written, every transmit and receive descriptor points to the
    buffer of its own index and is otherwise cleared, a transmit descriptor
    being marked done so that the driver may use it; the registers are
    written after that. *)
Theorem new_initialises_rings {R HW} `{RegisterAccess R HW} `{DmaAllocator (mem * HW)} (r : R)
    txr rxr txb rxb s s1 s2 s3 m (h : HW) :
  alloc_coherent 4096 4096 s = Ret (txr, s1) -> alloc_coherent 4096 4096 s1 = Ret (rxr, s2) ->
  alloc_coherent 524288 4096 s2 = Ret (txb, s3) -> alloc_coherent 524288 4096 s3 = Ret (rxb, (m, h)) ->
  let t := ring_state txr txb in
  let x := ring_state rxr rxb in
  ring_layout t -> ring_layout x ->
  vaddr txr + 4096 <= vaddr rxr \/ vaddr rxr + 4096 <= vaddr txr ->
  exists d m', new r s = (_ ← init_regs d; mret d) (m', h) /\
    regs d = r /\ tx d = t /\ rx d = x /\ tx_wf t m' /\
    (forall i, valid i -> tx_desc m' (slot t i) = fresh_tx t i /\ rx_desc m' (slot x i) = fresh_rx x i).
Proof.
  intros E1 E2 E3 E4 t x Ht Hx Hap.
  destruct (init_loop 256 tx_desc (fresh_tx t) (init_tx_desc t) (ring_vaddr t) m h) as (m1 & L1 & D1 & O1);
    [apply tx_desc_ext|intros; by apply init_tx_desc_runs|].
  destruct (init_loop 256 rx_desc (fresh_rx x) (init_rx_desc x) (ring_vaddr x) m1 h) as (m2 & L2 & D2 & O2);
    [apply rx_desc_ext|intros; by apply init_rx_desc_runs|].
  set (d := {| regs := r; tx_ring_dma := txr; rx_ring_dma := rxr;
               tx_bufs_dma := txb; rx_bufs_dma := rxb; tx := t; rx := x |}).
  assert (Htx : forall i, valid i -> tx_desc m2 (slot t i) = fresh_tx t i).
  { intros i Hi. rewrite <- (D1 i Hi). apply tx_desc_ext. intros y Hy. apply O2.
    unfold valid, slot, t, x, ring_state in *. simpl in *. lia. }
  exists d, m2. split_and!; try done.
  - unfold new. erewrite bind_Ret by exact E1. cbv beta. erewrite bind_Ret by exact E2. cbv beta.
    erewrite bind_Ret by exact E3. cbv beta. erewrite bind_Ret by exact E4. cbv beta zeta. fold t x d.
    unfold init_rings, mbind, M_bind. unfold TX_RING_SIZE, RX_RING_SIZE.
    change (tx d) with t. change (rx d) with x. by rewrite L1, L2.
  - intros i Hi. rewrite Htx by done. split; [done|]. unfold fresh_tx, MBUF_SIZE. simpl. lia.
  - intros i Hi. rewrite Htx by done. split; [done|by apply D2].
Qed.

(** C19: [transmit_with] on a slot the adapter is done with puts the frame
    the closure writes into the slot's buffer and describes it in the
    descriptor before it moves the tail register by one: the frames between
    any head and the new tail are those before it and the new one.  The other
    slots keep their contents and the ring stays well-formed.  On a slot the
    adapter still owns it does nothing and returns [None]. *)
Theorem transmit_with_publishes {R HW} `{RegisterAccess R HW} {T} (d : E1000Device R) len
    (f : list byte -> T * list byte) s t m (h : HW) v out :
  read_reg (regs d) TDT s = Ret (t, (m, h)) -> valid t -> 0 <= len ->
  ring_layout (tx d) -> tx_wf (tx d) m ->
  f (load_bytes m (buffer (tx d) t) (Z.to_nat (Z.min len MBUF_SIZE))) = (v, out) ->
  zlen out = Z.min len MBUF_SIZE ->
  if Z.land (tx_status (tx_desc m (slot (tx d) t))) TXD_STAT_DD =? 0
  then transmit_with d len f s = Ret (None, (m, h))
  else exists m',
    transmit_with d len f s = (_ ← kick (regs d) TDT ((t + 1) mod 256); mret (Some v)) (m', h) /\
    tx_wf (tx d) m' /\ only_slot (tx d) t m m' /\
    tx_cmd (tx_desc m' (slot (tx d) t)) = Z.lor TXD_CMD_RS TXD_CMD_EOP /\
    tx_status (tx_desc m' (slot (tx d) t)) = 0 /\
    forall head k, 0 <= k < 256 -> (head + k) mod 256 = t ->
      in_flight (tx d) m' head (k + 1) = in_flight (tx d) m head k ++ [out].
Proof.
  intros Hr Ht Hlen Hl Hwf Hf Hout.
  assert (Hlo : (length out <= 2048)%nat) by (unfold zlen, MBUF_SIZE in Hout; lia).
  unfold transmit_with. erewrite bind_Ret by exact Hr. cbv beta.
  rewrite (bind_lift _ _ _ (slot (tx d) t)) by (by apply desc_at_ok).
  rewrite bind_load. destruct (Z.land _ TXD_STAT_DD =? 0); [done|].
  exists (tx_mem (tx d) t out m). split_and!.
  - cbv zeta. rewrite (bind_lift _ _ _ (buffer (tx d) t)) by (by apply buf_vaddr_ok).
    erewrite bind_Ret by reflexivity. cbv beta. cbn [fst]. rewrite Hf, bind_store.
    unfold mbind at 1, M_bind at 1. rewrite publish_tx_runs, <- Hout by done. done.
  - eapply (tx_wf_only _ t m); [done..|by apply tx_mem_only| |].
    + by rewrite tx_mem_desc.
    + rewrite tx_mem_desc by done. simpl. lia.
  - by apply tx_mem_only.
  - by rewrite tx_mem_desc.
  - by rewrite tx_mem_desc.
  - intros head k Hk Hhead. apply (in_flight_app _ _ _ _ _ _ t); try done.
    + intros j Hj. by apply Hwf.
    + by apply tx_mem_only.
    + by apply tx_mem_frame.
Qed.

(** C20: [recv_with] looks at the slot after the tail.  A complete frame
    without errors is passed to the closure, and only a slot the adapter has
    marked done and complete is given back, by clearing its status and then
    moving the tail to it; a frame with errors is given back without being
    delivered.  The other slots keep their descriptors and frames. *)
Theorem recv_with_delivers {R HW} `{RegisterAccess R HW} {T} (d : E1000Device R)
    (f : list byte -> T * list byte) s rdt m (h : HW) v out :
  let i := (rdt + 1) mod 256 in
  let x := rx_desc m (slot (rx d) i) in
  let complete := Z.lor RXD_STAT_DD RXD_STAT_EOP in
  read_reg (regs d) RDT s = Ret (rdt, (m, h)) -> 0 <= rdt < U32 -> ring_layout (rx d) ->
  f (rx_frame (rx d) m i) = (v, out) -> length out = length (rx_frame (rx d) m i) ->
  if (rx_addr x =? 0) || negb (Z.land (rx_status x) complete =? complete)
  then recv_with d f s = Ret (None, (m, h))
  else exists m',
    recv_with d f s =
      (_ ← kick (regs d) RDT i; mret (if rx_errors x =? 0 then Some v else None)) (m', h) /\
    only_slot (rx d) i m m' /\ rx_desc m' (slot (rx d) i) = released x /\
    forall j, valid j -> j <> i ->
      rx_desc m' (slot (rx d) j) = rx_desc m (slot (rx d) j) /\
      rx_frame (rx d) m' j = rx_frame (rx d) m j.
Proof. apply recv_with_cases. Qed.

(** C21: the adapter reports a frame that spans two buffers in two
    descriptors, the first one without the end-of-packet bit, and a damaged
    frame with an error.  For both, [rx_ready] tells the network stack that a
    frame can be received, and the [recv_with] that follows panics. *)
Theorem rx_ready_recv_panics {R HW} `{RegisterAccess R HW} (d : E1000Device R)
    (f : list byte -> list byte) rdt m (h : HW) :
  let i := (rdt + 1) mod 256 in
  let x := rx_desc m (slot (rx d) i) in
  (forall bs, length (f bs) = length bs) ->
  read_reg (regs d) RDT (m, h) = Ret (rdt, (m, h)) -> 0 <= rdt < U32 -> ring_layout (rx d) ->
  rx_addr x <> 0 -> Z.land (rx_status x) RXD_STAT_DD <> 0 ->
  Z.land (rx_status x) RXD_STAT_EOP = 0 \/
    (rx_errors x <> 0 /\ forall m', exists s', kick (regs d) RDT i (m', h) = Ret (tt, s')) ->
  rx_ready d (m, h) = Ret (true, (m, h)) /\ nic_recv_with d f (m, h) = Panic Expect.
Proof.
  intros i x Hf Hr Hrdt Hl Ha Hdd Hbad.
  assert (Hi : valid i) by (unfold valid, i; apply Z.mod_pos_bound; lia).
  split.
  - unfold rx_ready, has_rx_packet. erewrite bind_Ret by (by apply rx_index_runs). cbv beta. fold i.
    rewrite (bind_lift _ _ _ (slot (rx d) i)) by (by apply desc_at_ok).
    rewrite !bind_load. fold x. by rewrite !(proj2 (Z.eqb_neq _ _)) by done.
  - unfold nic_recv_with, mbind, M_bind.
    pose proof (recv_with_cases d (fun bs => (tt, f bs)) (m, h) rdt m h tt
                  (f (rx_frame (rx d) m i)) Hr Hrdt Hl eq_refl (Hf _)) as Hc.
    cbv zeta in Hc. fold i x in Hc. rewrite (proj2 (Z.eqb_neq _ _) Ha) in Hc. cbn [orb] in Hc.
    destruct (Z.land (rx_status x) (Z.lor RXD_STAT_DD RXD_STAT_EOP) =?
              Z.lor RXD_STAT_DD RXD_STAT_EOP) eqn:Hfull; cbn [negb] in Hc; [|by rewrite Hc].
    apply Z.eqb_eq in Hfull. destruct Hbad as [Heop|[Herr Hkick]].
    + exfalso. apply (f_equal (fun z => Z.land z RXD_STAT_EOP)) in Hfull.
      rewrite <- Z.land_assoc in Hfull. change (Z.land (Z.lor _ _) _) with RXD_STAT_EOP in Hfull.
      by rewrite Heop in Hfull.
    + destruct Hc as (m' & -> & _). destruct (Hkick m') as [s' Hk].
      unfold mbind, M_bind. rewrite Hk. by rewrite (proj2 (Z.eqb_neq _ _) Herr).
Qed.

(** ** Witnesses *)

(** An adapter that does nothing but keep one tail register. *)
#[local] Instance idle : RegisterAccess unit Z :=
  {| read_reg _ _ s := Ret (s.2, s); write_reg _ _ v s := Ret (tt, (s.1, v)) |}.

Definition ring0 : RingState :=
  {| ring_vaddr := 4096; ring_paddr := 4096; bufs_vaddr := 65536; bufs_paddr := 65536 |}.

Definition region0 : DmaRegion := {| vaddr := 0; paddr := 0; rsize := 0 |}.

Definition dev0 : E1000Device unit :=
  {| regs := tt; tx_ring_dma := region0; rx_ring_dma := region0; tx_bufs_dma := region0;
     rx_bufs_dma := region0; tx := ring0; rx := ring0 |}.

Lemma ring0_layout : ring_layout ring0.
Proof. split; unfold MBUF_SIZE, U64; simpl; lia. Qed.

Lemma transmit_with_publishes_witness :
  exists m m' : mem, tx_wf ring0 m /\ tx_wf ring0 m' /\
    transmit_with dev0 3 (fun _ => (tt, [Byte.x01; Byte.x02; Byte.x03])) (m, 5) =
      (_ ← kick tt TDT 6; mret (Some tt)) (m', 5) /\
    in_flight ring0 m' 5 1 = [[Byte.x01; Byte.x02; Byte.x03]].
Proof.
  destruct (init_loop 256 tx_desc (fresh_tx ring0) (init_tx_desc ring0) (ring_vaddr ring0) ∅ 5) as (m & _ & Hd & _);
    [apply tx_desc_ext|intros; apply init_tx_desc_runs; [exact ring0_layout|done]|].
  change (forall i, 0 <= i < 256 -> tx_desc m (slot ring0 i) = fresh_tx ring0 i) in Hd.
  assert (Hwf : tx_wf ring0 m).
  { intros i Hi. rewrite Hd by done. unfold fresh_tx, MBUF_SIZE. simpl. lia. }
  pose proof (transmit_with_publishes dev0 3 (fun _ => (tt, [Byte.x01; Byte.x02; Byte.x03]))
    (m, 5) 5 m 5 tt [Byte.x01; Byte.x02; Byte.x03] eq_refl ltac:(unfold valid; lia) ltac:(lia)
    ring0_layout Hwf eq_refl eq_refl) as Hw.
  change (tx dev0) with ring0 in Hw. rewrite Hd in Hw by lia.
  destruct Hw as (m' & E & Hwf' & _ & _ & _ & Hin).
  exists m, m'. split_and!; [exact Hwf|exact Hwf'|exact E|].
  exact (Hin 5 0 ltac:(lia) eq_refl).
Defined.

(** A receive ring whose first slot holds a frame of two bytes. *)
Definition rx_slot0 (status errors : Z) : mem :=
  store_bytes
    (store_le 1 (4096 + 13) errors
      (store_le 1 (4096 + 12) status (store_le 2 (4096 + 8) 2 (store_le 8 4096 65536 ∅))))
    65536 [Byte.x0a; Byte.x0b].

Lemma recv_with_delivers_witness :
  exists m', recv_with dev0 (fun bs => (bs, bs)) (rx_slot0 3 0, 255) =
    (_ ← kick tt RDT 0; mret (Some [Byte.x0a; Byte.x0b])) (m', 255) /\
    rx_status (rx_desc m' 4096) = 0.
Proof.
  destruct (recv_with_delivers dev0 (fun bs => (bs, bs)) (rx_slot0 3 0, 255) 255 (rx_slot0 3 0) 255
    [Byte.x0a; Byte.x0b] [Byte.x0a; Byte.x0b]) as (m' & E & _ & Hd & _);
    [reflexivity|unfold U32; lia|exact ring0_layout|vm_compute; reflexivity|vm_compute; reflexivity|].
  exists m'. split; [exact E|]. change 4096 with (slot (rx dev0) ((255 + 1) mod 256)).
  by rewrite Hd.
Defined.

Lemma rx_ready_recv_panics_witness :
  rx_ready dev0 (rx_slot0 1 0, 255) = Ret (true, (rx_slot0 1 0, 255)) /\
  nic_recv_with dev0 id (rx_slot0 1 0, 255) = Panic Expect.
Proof.
  apply (rx_ready_recv_panics dev0 id 255 (rx_slot0 1 0) 255);
    [done|reflexivity|unfold U32; lia|exact ring0_layout|vm_compute; congruence
    |vm_compute; congruence|left; vm_compute; reflexivity].
Defined.

(** An allocator that hands out consecutive regions from the tail register. *)
Definition bump_dma : DmaAllocator (mem * Z) :=
  {| alloc_coherent size _ s := Ret ({| vaddr := s.2; paddr := s.2; rsize := size |}, (s.1, s.2 + size));
     free_coherent _ s := Ret (tt, s) |}.

Lemma new_initialises_rings_witness :
  exists d m', new (H0 := bump_dma) tt (∅, 4096) = (_ ← init_regs d; mret d) (m', 1060864) /\
    tx_desc m' (4096 + 7 * 16) = {| tx_addr := 12288 + 7 * 2048; tx_length := 0; tx_cso := 0;
      tx_cmd := 0; tx_status := 1; tx_css := 0; tx_special := 0 |}.
Proof.
  destruct (new_initialises_rings (H0 := bump_dma) tt
    {| vaddr := 4096; paddr := 4096; rsize := 4096 |}
    {| vaddr := 8192; paddr := 8192; rsize := 4096 |}
    {| vaddr := 12288; paddr := 12288; rsize := 524288 |}
    {| vaddr := 536576; paddr := 536576; rsize := 524288 |}
    (∅, 4096) (∅, 8192) (∅, 12288) (∅, 536576) ∅ 1060864)
    as (d & m' & E & _ & _ & _ & _ & Hd);
    [reflexivity..|split; unfold MBUF_SIZE, U64; simpl; lia
    |split; unfold MBUF_SIZE, U64; simpl; lia|simpl; lia|].
  exists d, m'. split; [exact E|].
  exact (proj1 (Hd 7 ltac:(unfold valid; lia))).
Defined.
