(* ===== verification/Tulip.v ===== *)
(** The DEC 21140/21143 Tulip driver ([crates/embclox-tulip/src]).  The
    adapter is hardware: the classes [Mmio] and [PortIo] are its registers,
    and [dma_async] is what it does to the rings and buffers in memory
    between two accesses of the driver to a descriptor. *)

From S2P Require Import Prelude Mem Dma Nic.

(** ** Registers: csr.rs *)

Class PortIo (HW : Type) := {
  port_in32 : Z -> mem * HW -> Z * (mem * HW);
  port_out32 : Z -> Z -> mem * HW -> mem * HW;
}.

Class BusMaster (HW : Type) := {
  dma_async : mem * HW -> mem * HW;
}.

Definition CSR0 : Z := 0x00.
Definition CSR1 : Z := 0x08.
Definition CSR2 : Z := 0x10.
Definition CSR3 : Z := 0x18.
Definition CSR4 : Z := 0x20.
Definition CSR5 : Z := 0x28.
Definition CSR6 : Z := 0x30.
Definition CSR7 : Z := 0x38.
Definition CSR9 : Z := 0x48.
Definition CSR0_SWR : Z := Z.shiftl 1 0.
Definition CSR6_SR : Z := Z.shiftl 1 1.
Definition CSR6_ST : Z := Z.shiftl 1 13.
Definition CSR7_TIE : Z := Z.shiftl 1 0.
Definition CSR7_RIE : Z := Z.shiftl 1 6.
Definition CSR7_NIE : Z := Z.shiftl 1 16.
Definition CSR7_AIE : Z := Z.shiftl 1 15.
Definition CSR9_SR : Z := Z.shiftl 1 11.
Definition CSR9_RD : Z := Z.shiftl 1 14.
Definition CSR9_DO : Z := Z.shiftl 1 3.
Definition CSR9_DI : Z := Z.shiftl 1 2.
Definition CSR9_SK : Z := Z.shiftl 1 0.

Inductive CsrAccess :=
| CsrMmio (base : Z)
| CsrIo (io_base : Z).

Definition u16add (a b : Z) : outcome Z :=
  if a + b <? U16 then Ret (a + b) else Panic ArithOverflow.

(** ** Descriptors: desc.rs *)

Definition TX_RING_SIZE : Z := 16.
Definition RX_RING_SIZE : Z := 16.
Definition MBUF_SIZE : Z := 2048.
Definition DESC_BUF_SIZE : Z := 2047.
Definition PAGE_SIZE : Z := 4096.
Definition DESC_OWN : Z := Z.shiftl 1 31.
Definition TDES1_FS : Z := Z.shiftl 1 29.
Definition TDES1_LS : Z := Z.shiftl 1 30.
Definition TDES1_TER : Z := Z.shiftl 1 25.
Definition TDES1_SET : Z := Z.shiftl 1 27.
Definition SETUP_FRAME_SIZE : Z := 192.
Definition RDES1_RER : Z := Z.shiftl 1 25.

(** The four words of a descriptor in memory. *)
Record TulipDesc := {
  status : Z;
  control : Z;
  buf1_addr : Z;
  buf2_addr : Z;
}.

Definition tulip_desc (m : mem) (a : Z) : TulipDesc :=
  {| status := load_le 4 m a; control := load_le 4 m (a + 4);
     buf1_addr := load_le 4 m (a + 8); buf2_addr := load_le 4 m (a + 12) |}.

Definition rx_frame_length (status : Z) : Z := Z.land (Z.shiftr status 16) 0x3FFF.

Definition TX_RING_PAGES : Z := div_ceil (TX_RING_SIZE * 16) PAGE_SIZE.
Definition RX_RING_PAGES : Z := div_ceil (RX_RING_SIZE * 16) PAGE_SIZE.
Definition TX_BUF_PAGES : Z := div_ceil (TX_RING_SIZE * MBUF_SIZE) PAGE_SIZE.
Definition RX_BUF_PAGES : Z := div_ceil (RX_RING_SIZE * MBUF_SIZE) PAGE_SIZE.

Record TulipDevice := {
  csr : CsrAccess;
  tx_ring_dma : DmaRegion;
  rx_ring_dma : DmaRegion;
  tx_bufs_dma : DmaRegion;
  rx_bufs_dma : DmaRegion;
  tx_next : Z;
  rx_next : Z;
  mac : list Z;
}.

Definition set_tx_next (n : Z) (d : TulipDevice) : TulipDevice :=
  {| csr := csr d; tx_ring_dma := tx_ring_dma d; rx_ring_dma := rx_ring_dma d;
     tx_bufs_dma := tx_bufs_dma d; rx_bufs_dma := rx_bufs_dma d;
     tx_next := n; rx_next := rx_next d; mac := mac d |}.

Definition set_rx_next (n : Z) (d : TulipDevice) : TulipDevice :=
  {| csr := csr d; tx_ring_dma := tx_ring_dma d; rx_ring_dma := rx_ring_dma d;
     tx_bufs_dma := tx_bufs_dma d; rx_bufs_dma := rx_bufs_dma d;
     tx_next := tx_next d; rx_next := n; mac := mac d |}.

(** The address of element [i] of an array of [size]-byte elements. *)
Definition elem_addr (base i size : Z) : outcome Z := o ← umul i size; uadd base o.

(** [random_mac]: one step of a linear congruential generator. *)
Definition random_mac (seed : Z) : list Z :=
  let h := (seed * 6364136223846793005 mod U64 + 1442695040888963407) mod U64 in
  let b i := as_u8 (Z.shiftr h (8 * i)) in
  [Z.lor (Z.land (b 0) 0xFC) 0x02; b 1; b 2; b 3; b 4; b 5].

Section tulip.
Context {HW : Type} `{Mmio HW} `{PortIo HW} `{BusMaster HW} `{DmaAllocator (mem * HW)}.
Abbreviation N := (M (mem * HW)).

Definition port_in (port : Z) : N Z := fun s => Ret (port_in32 port s).
Definition port_out (port v : Z) : N unit := modify (port_out32 port v).

Definition csr_read (c : CsrAccess) (offset : Z) : N Z :=
  match c with
  | CsrMmio base => p ← lift (uadd base offset); read_volatile p
  | CsrIo base => p ← lift (u16add base (as_u16 offset)); port_in p
  end.

Definition csr_write (c : CsrAccess) (offset value : Z) : N unit :=
  match c with
  | CsrMmio base => p ← lift (uadd base offset); write_volatile p value
  | CsrIo base => p ← lift (u16add base (as_u16 offset)); port_out p value
  end.

(** Volatile accesses to a word of a descriptor. *)
Definition read_word (p : Z) : N Z := _ ← modify dma_async; load (fun m => load_le 4 m p).
Definition write_word (p v : Z) : N unit := store (store_le 4 p v).

(** ** Serial EEPROM: eeprom.rs *)

(** One command bit, most significant first. *)
Definition send_bit (c : CsrAccess) (cmd i : Z) : N unit :=
  let bit := if negb (Z.land (Z.shiftr cmd i) 1 =? 0) then CSR9_DI else 0 in
  let val := Z.lor (Z.lor CSR9_SR CSR9_RD) bit in
  _ ← csr_write c CSR9 val;
  _ ← csr_write c CSR9 (Z.lor val CSR9_SK);
  csr_write c CSR9 val.

Fixpoint read_bits (n : nat) (c : CsrAccess) (data : Z) : N Z :=
  match n with
  | O => mret data
  | S n' =>
      let sel := Z.lor CSR9_SR CSR9_RD in
      _ ← csr_write c CSR9 sel;
      _ ← csr_write c CSR9 (Z.lor sel CSR9_SK);
      val ← csr_read c CSR9;
      let data := Z.lor (as_u16 (Z.shiftl data 1)) (if negb (Z.land val CSR9_DO =? 0) then 1 else 0) in
      _ ← csr_write c CSR9 sel;
      read_bits n' c data
  end.

Definition eeprom_read (c : CsrAccess) (addr : Z) : N (option Z) :=
  _ ← csr_write c CSR9 CSR9_SR;
  let cmd := Z.lor 0x06 (Z.shiftl addr 3) in
  _ ← for_each [8; 7; 6; 5; 4; 3; 2; 1; 0] (send_bit c cmd);
  data ← read_bits 16 c 0;
  _ ← csr_write c CSR9 0;
  mret (Some data).

Fixpoint read_mac_words (c : CsrAccess) (idx : list Z) : N (option (list Z)) :=
  match idx with
  | [] => mret (Some [])
  | i :: rest =>
      w ← eeprom_read c i;
      match w with
      | None => mret None
      | Some word =>
          o ← read_mac_words c rest;
          mret (tail ← o; Some (as_u8 (Z.land word 0xFF) :: as_u8 (Z.shiftr word 8) :: tail))
      end
  end.

Definition read_mac (c : CsrAccess) : N (option (list Z)) :=
  o ← read_mac_words c [0; 1; 2];
  mret (m ← o;
        if bool_decide (m = replicate 6 0) || bool_decide (m = replicate 6 0xFF)
        then None else Some m).

(** ** The device: device.rs *)

Definition assert_addr32 (p : Z) : N unit := lift (rassert (p <=? 0xFFFFFFFF)).

(** The last byte of a region. *)
Definition region_end (r : DmaRegion) : outcome Z := e ← uadd (paddr r) (rsize r); usub e 1.

Definition init_tx_desc (ring bufs : DmaRegion) (i : Z) : N unit :=
  p ← lift (elem_addr (vaddr ring) i 16);
  let ctrl := if i =? TX_RING_SIZE - 1 then TDES1_TER else 0 in
  _ ← write_word p 0;
  _ ← write_word (p + 4) ctrl;
  b ← lift (elem_addr (paddr bufs) i MBUF_SIZE);
  _ ← write_word (p + 8) (as_u32 b);
  write_word (p + 12) 0.

Definition init_rx_desc (ring bufs : DmaRegion) (i : Z) : N unit :=
  p ← lift (elem_addr (vaddr ring) i 16);
  let ctrl := if i =? RX_RING_SIZE - 1 then Z.lor DESC_BUF_SIZE RDES1_RER else DESC_BUF_SIZE in
  b ← lift (elem_addr (paddr bufs) i MBUF_SIZE);
  _ ← write_word (p + 4) ctrl;
  _ ← write_word (p + 8) (as_u32 b);
  _ ← write_word (p + 12) 0;
  write_word p DESC_OWN.

(** The setup frame: 16 entries of 12 bytes, broadcast but for the first. *)
Definition setup_frame (mac : list Z) (buf : list byte) : list byte :=
  let byte_of i := byte.of_Z (default 0 (mac !! i)) in
  let buf := fold_left (fun buf entry => put (12 * entry) (replicate 12 Byte.xff) buf) (seq 0 16) buf in
  let buf := <[0%nat := byte_of 0%nat]> (<[1%nat := byte_of 1%nat]> buf) in
  let buf := <[4%nat := byte_of 2%nat]> (<[5%nat := byte_of 3%nat]> buf) in
  <[8%nat := byte_of 4%nat]> (<[9%nat := byte_of 5%nat]> buf).

(** Reads the status of a descriptor up to [n] times, until the adapter has
    released it. *)
Fixpoint wait_released (n : nat) (p : Z) : N unit :=
  match n with
  | O => mret tt
  | S n' =>
      s ← read_word p;
      if Z.land s DESC_OWN =? 0 then mret tt else wait_released n' p
  end.

Definition SETUP_TRIES : nat := Z.to_nat 100000.

Definition send_setup_frame (d : TulipDevice) : N TulipDevice :=
  p ← lift (elem_addr (vaddr (tx_ring_dma d)) (tx_next d) 16);
  st ← read_word p;
  _ ← lift (rassert (Z.land st DESC_OWN =? 0));
  b ← lift (elem_addr (vaddr (tx_bufs_dma d)) (tx_next d) MBUF_SIZE);
  buf ← gets (fun s => load_bytes s.1 b (Z.to_nat SETUP_FRAME_SIZE));
  _ ← store (fun m => store_bytes m b (setup_frame (mac d) buf));
  let ctrl := Z.lor TDES1_SET (Z.land SETUP_FRAME_SIZE 0x7FF) in
  let ctrl := if tx_next d =? TX_RING_SIZE - 1 then Z.lor ctrl TDES1_TER else ctrl in
  _ ← write_word (p + 4) ctrl;
  _ ← write_word p DESC_OWN;
  _ ← csr_write (csr d) CSR1 1;
  _ ← wait_released SETUP_TRIES p;
  n ← lift (uadd (tx_next d) 1);
  mret (set_tx_next (n mod TX_RING_SIZE) d).

(** The end of [new], from the descriptor list registers on. *)
Definition bring_up (c : CsrAccess) (tx_ring rx_ring tx_bufs rx_bufs : DmaRegion) : N TulipDevice :=
  _ ← csr_write c CSR3 (as_u32 (paddr rx_ring));
  _ ← csr_write c CSR4 (as_u32 (paddr tx_ring));
  o ← read_mac c;
  let mac := default (random_mac 0xDEC21140) o in
  _ ← csr_write c CSR6 (Z.lor (Z.lor CSR6_ST (Z.shiftl 1 6)) (Z.shiftl 1 21));
  d ← send_setup_frame
        {| csr := c; tx_ring_dma := tx_ring; rx_ring_dma := rx_ring; tx_bufs_dma := tx_bufs;
           rx_bufs_dma := rx_bufs; tx_next := 0; rx_next := 0; mac := mac |};
  csr6 ← csr_read c CSR6;
  _ ← csr_write c CSR6 (Z.lor csr6 CSR6_SR);
  _ ← csr_write c CSR2 1;
  mret d.

(** The assertions that the adapter can reach the memory. *)
Definition assert_reachable (tx_ring rx_ring tx_bufs rx_bufs : DmaRegion) : N unit :=
  _ ← assert_addr32 (paddr tx_ring);
  _ ← assert_addr32 (paddr rx_ring);
  _ ← assert_addr32 (paddr tx_bufs);
  _ ← assert_addr32 (paddr rx_bufs);
  e ← lift (region_end tx_bufs);
  _ ← assert_addr32 e;
  e ← lift (region_end rx_bufs);
  assert_addr32 e.

Definition new (c : CsrAccess) : N TulipDevice :=
  _ ← csr_write c CSR0 CSR0_SWR;
  _ ← csr_write c CSR0 (Z.lor (Z.shiftl 1 17) (Z.shiftl 8 8));
  tx_ring ← alloc_coherent (TX_RING_PAGES * PAGE_SIZE) PAGE_SIZE;
  rx_ring ← alloc_coherent (RX_RING_PAGES * PAGE_SIZE) PAGE_SIZE;
  tx_bufs ← alloc_coherent (TX_BUF_PAGES * PAGE_SIZE) PAGE_SIZE;
  rx_bufs ← alloc_coherent (RX_BUF_PAGES * PAGE_SIZE) PAGE_SIZE;
  _ ← assert_reachable tx_ring rx_ring tx_bufs rx_bufs;
  _ ← for_each (seqZ 0 TX_RING_SIZE) (init_tx_desc tx_ring tx_bufs);
  _ ← for_each (seqZ 0 RX_RING_SIZE) (init_rx_desc rx_ring rx_bufs);
  bring_up c tx_ring rx_ring tx_bufs rx_bufs.

Definition IRQ_MASK : Z := Z.lor (Z.lor (Z.lor CSR7_TIE CSR7_RIE) CSR7_NIE) CSR7_AIE.

Definition enable_interrupts (d : TulipDevice) : N unit := csr_write (csr d) CSR7 IRQ_MASK.

Definition handle_interrupt (d : TulipDevice) : N Z :=
  _ ← csr_write (csr d) CSR7 0;
  st ← csr_read (csr d) CSR5;
  _ ← csr_write (csr d) CSR5 st;
  _ ← csr_write (csr d) CSR7 IRQ_MASK;
  mret st.

Definition has_rx_packet (d : TulipDevice) : N bool :=
  p ← lift (elem_addr (vaddr (rx_ring_dma d)) (rx_next d) 16);
  st ← read_word p;
  mret (Z.land st DESC_OWN =? 0).

Definition has_tx_space (d : TulipDevice) : N bool :=
  p ← lift (elem_addr (vaddr (tx_ring_dma d)) (tx_next d) 16);
  st ← read_word p;
  mret (Z.land st DESC_OWN =? 0).

(** The closure reads and overwrites the bytes of the slice in place. *)
Definition recv_with {T} (d : TulipDevice) (f : list byte -> T * list byte)
  : N (option T * TulipDevice) :=
  p ← lift (elem_addr (vaddr (rx_ring_dma d)) (rx_next d) 16);
  st ← read_word p;
  if negb (Z.land st DESC_OWN =? 0) then mret (None, d) else
  let len := rx_frame_length st in
  b ← lift (elem_addr (vaddr (rx_bufs_dma d)) (rx_next d) MBUF_SIZE);
  buf ← gets (fun s => load_bytes s.1 b (Z.to_nat len));
  let '(result, buf) := f buf in
  _ ← store (fun m => store_bytes m b buf);
  let ctrl := if rx_next d =? RX_RING_SIZE - 1 then Z.lor DESC_BUF_SIZE RDES1_RER else DESC_BUF_SIZE in
  _ ← write_word (p + 4) ctrl;
  _ ← write_word p DESC_OWN;
  n ← lift (uadd (rx_next d) 1);
  _ ← csr_write (csr d) CSR2 1;
  mret (Some result, set_rx_next (n mod RX_RING_SIZE) d).

Definition transmit_with {T} (d : TulipDevice) (len : Z) (f : list byte -> T * list byte)
  : N (option T * TulipDevice) :=
  _ ← lift (rassert (len <=? MBUF_SIZE));
  p ← lift (elem_addr (vaddr (tx_ring_dma d)) (tx_next d) 16);
  st ← read_word p;
  if negb (Z.land st DESC_OWN =? 0) then mret (None, d) else
  b ← lift (elem_addr (vaddr (tx_bufs_dma d)) (tx_next d) MBUF_SIZE);
  buf ← gets (fun s => load_bytes s.1 b (Z.to_nat len));
  let '(result, buf) := f buf in
  _ ← store (fun m => store_bytes m b buf);
  let ctrl := Z.lor (Z.land (as_u32 len) 0x7FF) (Z.lor TDES1_FS TDES1_LS) in
  let ctrl := if tx_next d =? TX_RING_SIZE - 1 then Z.lor ctrl TDES1_TER else ctrl in
  _ ← write_word (p + 4) ctrl;
  _ ← write_word p DESC_OWN;
  n ← lift (uadd (tx_next d) 1);
  _ ← csr_write (csr d) CSR1 1;
  mret (Some result, set_tx_next (n mod TX_RING_SIZE) d).

Definition drop_device (d : TulipDevice) : N unit :=
  _ ← csr_write (csr d) CSR7 0;
  _ ← csr_write (csr d) CSR6 0;
  _ ← csr_write (csr d) CSR0 CSR0_SWR;
  _ ← free_coherent (tx_ring_dma d);
  _ ← free_coherent (rx_ring_dma d);
  _ ← free_coherent (tx_bufs_dma d);
  free_coherent (rx_bufs_dma d).

End tulip.
