(* ===== verification/TulipFacts.v ===== *)
(** Properties of the Tulip driver: the descriptor protocol of its rings, the
    receive address filter, and the size of the slice given to a receiver. *)

From S2P Require Import Prelude Mem Dma Nic Tulip.

(** ** The rings *)

Definition slot (ring : DmaRegion) (i : Z) : Z := vaddr ring + i * 16.
Definition buffer (bufs : DmaRegion) (i : Z) : Z := vaddr bufs + i * MBUF_SIZE.
Definition valid (i : Z) : Prop := 0 <= i < 16.

(** A ring and its buffers are in the address space, do not overlap, and the
    buffers can be described to the adapter with 32 bits. *)
Record ring_layout (ring bufs : DmaRegion) : Prop := {
  ring_in : 0 <= vaddr ring /\ vaddr ring + 16 * 16 < U64;
  bufs_in : 0 <= vaddr bufs /\ vaddr bufs + 16 * MBUF_SIZE < U64;
  bufs_phys : 0 <= paddr bufs /\ paddr bufs + 16 * MBUF_SIZE <= U32;
  ring_apart : vaddr ring + 16 * 16 <= vaddr bufs \/ vaddr bufs + 16 * MBUF_SIZE <= vaddr ring;
}.

(** The two memories agree except in buffer [i] and the first two words of
    descriptor [i]. *)
Definition only_slot (ring bufs : DmaRegion) (i : Z) (m m' : mem) : Prop :=
  forall x, (x < buffer bufs i \/ buffer bufs i + MBUF_SIZE <= x) ->
    (x < slot ring i \/ slot ring i + 8 <= x) -> load_byte m' x = load_byte m x.

Lemma tulip_desc_ext m m' a :
  (forall x, a <= x < a + 16 -> load_byte m' x = load_byte m x) -> tulip_desc m' a = tulip_desc m a.
Proof. intros Hx. unfold tulip_desc. f_equal; apply load_le_ext; intros; apply Hx; lia. Qed.

Lemma only_slot_other ring bufs i j m m' n :
  ring_layout ring bufs -> valid i -> valid j -> i <> j -> only_slot ring bufs i m m' ->
  (n <= 2048)%nat ->
  tulip_desc m' (slot ring j) = tulip_desc m (slot ring j) /\
  load_bytes m' (buffer bufs j) n = load_bytes m (buffer bufs j) n.
Proof.
  intros [] Hi Hj Hne Ho Hn. unfold only_slot, valid, slot, buffer, MBUF_SIZE in *. split.
  - apply tulip_desc_ext. intros x Hx. apply Ho; lia.
  - apply load_bytes_ext. intros x Hx. apply Ho; lia.
Qed.

Lemma elem_addr_ok base i size n :
  0 <= i < n -> 0 <= base -> 0 < size <= 4096 -> n <= 4096 -> base + n * size <= U64 ->
  elem_addr base i size = Ret (base + i * size).
Proof.
  intros Hi Hb Hs Hn Hend. unfold elem_addr.
  rewrite umul_ok by (unfold U64 in *; nia). apply uadd_ok. nia.
Qed.

(** A descriptor handed to the adapter over a buffer with new contents. *)
Definition handed (ring bufs : DmaRegion) (i ctrl : Z) (bs : list byte) (m : mem) : mem :=
  store_le 4 (slot ring i) DESC_OWN (store_le 4 (slot ring i + 4) ctrl (store_bytes m (buffer bufs i) bs)).

Lemma handed_only ring bufs i ctrl bs m :
  (length bs <= 2048)%nat -> only_slot ring bufs i m (handed ring bufs i ctrl bs m).
Proof.
  intros Hlen x Hb Hs. unfold handed, store_le.
  rewrite !load_byte_store_ne by (autorewrite with zlen; unfold zlen, MBUF_SIZE in *; lia). done.
Qed.

Lemma handed_desc ring bufs i ctrl bs m :
  ring_layout ring bufs -> valid i -> (length bs <= 2048)%nat -> 0 <= ctrl < U32 ->
  tulip_desc (handed ring bufs i ctrl bs m) (slot ring i) =
  {| status := DESC_OWN; control := ctrl; buf1_addr := buf1_addr (tulip_desc m (slot ring i));
     buf2_addr := buf2_addr (tulip_desc m (slot ring i)) |}.
Proof.
  intros [] Hi Hlen Hc. unfold valid, MBUF_SIZE in *.
  assert (Hz : 0 <= zlen bs <= 2048) by (unfold zlen; lia).
  assert (Hb : slot ring i + 16 <= buffer bufs i \/ buffer bufs i + zlen bs <= slot ring i)
    by (unfold slot, buffer, MBUF_SIZE; lia).
  unfold tulip_desc, handed. cbn [buf1_addr buf2_addr]. f_equal; load_fields; try done.
  by apply Z.mod_small.
Qed.

Lemma handed_buffer ring bufs i ctrl bs m :
  ring_layout ring bufs -> valid i -> (length bs <= 2048)%nat ->
  load_bytes (handed ring bufs i ctrl bs m) (buffer bufs i) (length bs) = bs.
Proof.
  intros [] Hi Hlen. unfold valid, MBUF_SIZE in *.
  assert (Hz : 0 <= zlen bs <= 2048) by (unfold zlen; lia).
  assert (Hb : slot ring i + 16 <= buffer bufs i \/ buffer bufs i + zlen bs <= slot ring i)
    by (unfold slot, buffer, MBUF_SIZE; lia).
  unfold handed, store_le.
  rewrite !load_bytes_store_ne by (rewrite zlen_le_split; unfold zlen in *; lia).
  apply load_bytes_store_eq.
Qed.

(** ** Control words *)

Definition tx_control (i len : Z) : Z :=
  let ctrl := Z.lor (Z.land (as_u32 len) 0x7FF) (Z.lor TDES1_FS TDES1_LS) in
  if i =? 15 then Z.lor ctrl TDES1_TER else ctrl.

Definition rx_control (i : Z) : Z := if i =? 15 then Z.lor DESC_BUF_SIZE RDES1_RER else DESC_BUF_SIZE.

(** All sizes of the 11-bit field, with and without the end-of-ring mark. *)
Definition tx_fields_ok (last : bool) (k : Z) : bool :=
  let ctrl := Z.lor k (Z.lor TDES1_FS TDES1_LS) in
  let ctrl := if last then Z.lor ctrl TDES1_TER else ctrl in
  (0 <=? ctrl) && (ctrl <? U32) && (Z.land ctrl 0x7FF =? k) && Z.testbit ctrl 29 &&
  Z.testbit ctrl 30 && Bool.eqb (Z.testbit ctrl 25) last.

Lemma tx_fields_all last k : 0 <= k < 2048 -> tx_fields_ok last k = true.
Proof.
  intros Hk. assert (Hall : forallb (tx_fields_ok last) (seqZ 0 2048) = true)
    by (destruct last; vm_compute; reflexivity).
  rewrite forallb_forall in Hall. apply Hall, list_elem_of_In, elem_of_seqZ. lia.
Qed.

(** The fields of a transmit control word: the size modulo 2048, first and
    last segment, and the end-of-ring mark on the last slot only. *)
Lemma tx_control_fields i len :
  0 <= len <= 2048 ->
  0 <= tx_control i len < U32 /\ Z.land (tx_control i len) 0x7FF = len mod 2048 /\
  Z.testbit (tx_control i len) 29 = true /\ Z.testbit (tx_control i len) 30 = true /\
  Z.testbit (tx_control i len) 25 = (i =? 15).
Proof.
  intros Hlen. pose proof (Z.mod_pos_bound len 2048 ltac:(lia)) as Hk.
  pose proof (tx_fields_all (i =? 15) _ Hk) as Hok. unfold tx_fields_ok in Hok.
  assert (Hc : tx_control i len =
    if i =? 15 then Z.lor (Z.lor (len mod 2048) (Z.lor TDES1_FS TDES1_LS)) TDES1_TER
    else Z.lor (len mod 2048) (Z.lor TDES1_FS TDES1_LS)).
  { unfold tx_control.
    replace (as_u32 len) with len by (symmetry; apply Z.mod_small; unfold U32; lia).
    change 0x7FF with (Z.ones 11). by rewrite Z.land_ones by lia. }
  rewrite Hc. destruct (i =? 15); simpl in Hok; repeat (apply andb_prop in Hok as [Hok ?]);
    (split_and!; [lia|lia|by apply Z.eqb_eq|done|done|by apply Bool.eqb_prop]).
Qed.

Lemma rx_control_bound i : 0 <= rx_control i < U32.
Proof. unfold rx_control. destruct (i =? 15); vm_compute; split; congruence. Qed.

Lemma rx_frame_length_bound s : 0 <= rx_frame_length s < 16384.
Proof.
  unfold rx_frame_length. change 0x3FFF with (Z.ones 14). rewrite Z.land_ones by lia.
  by apply Z.mod_pos_bound.
Qed.

(** ** Runs of the operations *)

Section runs.
Context {HW : Type} `{Mmio HW} `{PortIo HW} `{BusMaster HW}.
Implicit Types (d : TulipDevice) (m : mem) (h : HW).

Lemma bind_read_word {B} p (k : Z -> M (mem * HW) B) s m h :
  dma_async s = (m, h) -> (read_word p ≫= k) s = k (load_le 4 m p) (m, h).
Proof. intros Hs. unfold read_word, mbind, M_bind, modify, load, gets. by rewrite Hs. Qed.

Lemma slot_ok ring bufs i :
  ring_layout ring bufs -> valid i -> elem_addr (vaddr ring) i 16 = Ret (slot ring i).
Proof.
  intros [] Hi. unfold valid, MBUF_SIZE in *. apply (elem_addr_ok _ _ _ 16); lia.
Qed.

Lemma buffer_ok ring bufs i :
  ring_layout ring bufs -> valid i -> elem_addr (vaddr bufs) i MBUF_SIZE = Ret (buffer bufs i).
Proof.
  intros [] Hi. unfold valid, MBUF_SIZE in *. apply (elem_addr_ok _ _ _ 16); lia.
Qed.

Lemma tulip_transmit_runs {T} d len (f : list byte -> T * list byte) s m h v out :
  dma_async s = (m, h) -> valid (tx_next d) -> ring_layout (tx_ring_dma d) (tx_bufs_dma d) ->
  0 <= len <= 2048 ->
  f (load_bytes m (buffer (tx_bufs_dma d) (tx_next d)) (Z.to_nat len)) = (v, out) ->
  transmit_with d len f s =
  if Z.land (status (tulip_desc m (slot (tx_ring_dma d) (tx_next d)))) DESC_OWN =? 0
  then (_ ← csr_write (csr d) CSR1 1; mret (Some v, set_tx_next ((tx_next d + 1) mod 16) d))
         (handed (tx_ring_dma d) (tx_bufs_dma d) (tx_next d) (tx_control (tx_next d) len) out m, h)
  else Ret ((None, d), (m, h)).
Proof.
  intros Hs Hi Hl Hlen Hf. unfold transmit_with.
  rewrite (bind_lift _ _ _ tt) by (unfold rassert, MBUF_SIZE; by rewrite (proj2 (Z.leb_le _ _)) by lia).
  rewrite (bind_lift _ _ _ (slot (tx_ring_dma d) (tx_next d))) by (by eapply slot_ok).
  rewrite (bind_read_word _ _ s m h) by done. cbn [status tulip_desc].
  destruct (Z.land _ DESC_OWN =? 0); cbn [negb]; [|done].
  rewrite (bind_lift _ _ _ (buffer (tx_bufs_dma d) (tx_next d))) by (by eapply buffer_ok).
  erewrite bind_Ret by reflexivity. cbv beta. cbn [fst]. rewrite Hf, bind_store. cbv zeta.
  unfold write_word. rewrite !bind_store.
  by rewrite (bind_lift _ _ _ (tx_next d + 1)) by (apply uadd_ok; unfold valid, U64 in *; lia).
Qed.

Lemma tulip_recv_runs {T} d (f : list byte -> T * list byte) s m h v out :
  let len := rx_frame_length (status (tulip_desc m (slot (rx_ring_dma d) (rx_next d)))) in
  dma_async s = (m, h) -> valid (rx_next d) -> ring_layout (rx_ring_dma d) (rx_bufs_dma d) ->
  f (load_bytes m (buffer (rx_bufs_dma d) (rx_next d)) (Z.to_nat len)) = (v, out) ->
  recv_with d f s =
  if Z.land (status (tulip_desc m (slot (rx_ring_dma d) (rx_next d)))) DESC_OWN =? 0
  then (_ ← csr_write (csr d) CSR2 1; mret (Some v, set_rx_next ((rx_next d + 1) mod 16) d))
         (handed (rx_ring_dma d) (rx_bufs_dma d) (rx_next d) (rx_control (rx_next d)) out m, h)
  else Ret ((None, d), (m, h)).
Proof.
  intros len Hs Hi Hl Hf. unfold recv_with.
  rewrite (bind_lift _ _ _ (slot (rx_ring_dma d) (rx_next d))) by (by eapply slot_ok).
  rewrite (bind_read_word _ _ s m h) by done. unfold len in Hf. cbn [status tulip_desc] in *.
  destruct (Z.land _ DESC_OWN =? 0); cbn [negb]; [|done].
  cbv zeta. rewrite (bind_lift _ _ _ (buffer (rx_bufs_dma d) (rx_next d))) by (by eapply buffer_ok).
  erewrite bind_Ret by reflexivity. cbv beta. cbn [fst]. rewrite Hf, bind_store.
  unfold write_word. rewrite !bind_store.
  by rewrite (bind_lift _ _ _ (rx_next d + 1)) by (apply uadd_ok; unfold valid, U64 in *; lia).
Qed.

End runs.

(** ** The claims *)

(** C22: [transmit_with] on a slot the driver owns puts the frame in the
    slot's buffer, describes it as one segment (with the end-of-ring mark on
    the last slot only) and hands the descriptor over before it polls the
    adapter; the other slots are untouched and the next slot is the next
    index.  The size field has 11 bits: a frame of 2048 bytes, the largest
    that is accepted, is announced with size 0.  A slot the adapter owns is
    refused without effect. *)
Theorem tulip_transmit_hands_over {HW} `{Mmio HW} `{PortIo HW} `{BusMaster HW} {T} (d : TulipDevice)
    len (f : list byte -> T * list byte) s m (h : HW) v out :
  let i := tx_next d in
  let x := tulip_desc m (slot (tx_ring_dma d) i) in
  dma_async s = (m, h) -> valid i -> ring_layout (tx_ring_dma d) (tx_bufs_dma d) -> 0 <= len <= 2048 ->
  f (load_bytes m (buffer (tx_bufs_dma d) i) (Z.to_nat len)) = (v, out) -> zlen out = len ->
  if Z.land (status x) DESC_OWN =? 0 then
    exists m' ctrl,
      transmit_with d len f s =
        (_ ← csr_write (csr d) CSR1 1; mret (Some v, set_tx_next ((i + 1) mod 16) d)) (m', h) /\
      tulip_desc m' (slot (tx_ring_dma d) i) =
        {| status := DESC_OWN; control := ctrl; buf1_addr := buf1_addr x; buf2_addr := buf2_addr x |} /\
      Z.land ctrl 0x7FF = len mod 2048 /\
      Z.testbit ctrl 29 = true /\ Z.testbit ctrl 30 = true /\ Z.testbit ctrl 25 = (i =? 15) /\
      load_bytes m' (buffer (tx_bufs_dma d) i) (Z.to_nat len) = out /\
      only_slot (tx_ring_dma d) (tx_bufs_dma d) i m m'
  else transmit_with d len f s = Ret ((None, d), (m, h)).
Proof.
  intros i x Hs Hi Hl Hlen Hf Hout. subst i x.
  rewrite (tulip_transmit_runs d len f s m h v out) by done.
  destruct (Z.land _ DESC_OWN =? 0); [|done].
  destruct (tx_control_fields (tx_next d) len Hlen) as (Hb & Hsz & H29 & H30 & H25).
  assert (Hlo : (length out <= 2048)%nat) by (unfold zlen in Hout; lia).
  do 2 eexists. split_and!; [done|by apply handed_desc|done..| |by apply handed_only].
  replace (Z.to_nat len) with (length out) by (unfold zlen in Hout; lia).
  by apply handed_buffer.
Qed.

(** When the adapter has released the receive slot with a frame that
    fits its buffer, [recv_with] passes exactly that frame to the closure and
    hands the slot back, with the end-of-ring mark on the last slot only,
    before it polls the adapter; the other slots are untouched.  A slot the
    adapter still owns yields [None] without effect. *)
Theorem tulip_recv_delivers {HW} `{Mmio HW} `{PortIo HW} `{BusMaster HW} {T} (d : TulipDevice)
    (f : list byte -> T * list byte) s m (h : HW) v out :
  let i := rx_next d in
  let x := tulip_desc m (slot (rx_ring_dma d) i) in
  let len := rx_frame_length (status x) in
  dma_async s = (m, h) -> valid i -> ring_layout (rx_ring_dma d) (rx_bufs_dma d) -> len <= 2048 ->
  f (load_bytes m (buffer (rx_bufs_dma d) i) (Z.to_nat len)) = (v, out) -> zlen out = len ->
  if Z.land (status x) DESC_OWN =? 0 then
    exists m',
      recv_with d f s =
        (_ ← csr_write (csr d) CSR2 1; mret (Some v, set_rx_next ((i + 1) mod 16) d)) (m', h) /\
      tulip_desc m' (slot (rx_ring_dma d) i) =
        {| status := DESC_OWN; control := (if i =? 15 then Z.lor 2047 RDES1_RER else 2047);
           buf1_addr := buf1_addr x; buf2_addr := buf2_addr x |} /\
      only_slot (rx_ring_dma d) (rx_bufs_dma d) i m m'
  else recv_with d f s = Ret ((None, d), (m, h)).
Proof.
  intros i x len Hs Hi Hl Hlen Hf Hout. subst i x len.
  rewrite (tulip_recv_runs d f s m h v out) by done.
  destruct (Z.land _ DESC_OWN =? 0); [|done].
  assert (Hlo : (length out <= 2048)%nat) by (unfold zlen in Hout; lia).
  eexists. split_and!; [done| |by apply handed_only].
  apply handed_desc; [done..|apply rx_control_bound].
Qed.

(** C23: the length of a received frame is taken from the descriptor without
    a bound, up to 16383 bytes: when the adapter reports more than the 2048
    bytes of the buffer, the closure is given a slice that continues into the
    buffer of the following slot, which the adapter may own. *)
Theorem tulip_recv_reads_past_buffer {HW} `{Mmio HW} `{PortIo HW} `{BusMaster HW} (d : TulipDevice)
    s m (h : HW) extra :
  let i := rx_next d in
  let x := tulip_desc m (slot (rx_ring_dma d) i) in
  dma_async s = (m, h) -> valid i -> ring_layout (rx_ring_dma d) (rx_bufs_dma d) ->
  Z.land (status x) DESC_OWN = 0 -> rx_frame_length (status x) = 2048 + extra -> 0 < extra ->
  exists m' own next,
    recv_with d (fun bs => (bs, bs)) s =
      (_ ← csr_write (csr d) CSR2 1; mret (Some (own ++ next), set_rx_next ((i + 1) mod 16) d)) (m', h) /\
    own = load_bytes m (buffer (rx_bufs_dma d) i) 2048 /\
    next = load_bytes m (buffer (rx_bufs_dma d) (i + 1)) (Z.to_nat extra) /\ zlen next = extra.
Proof.
  intros i x Hs Hi Hl Hown Hlen Hex. subst i x.
  pose proof (tulip_recv_runs d (fun bs => (bs, bs)) s m h _ _ Hs Hi Hl eq_refl) as E.
  rewrite Hown, Hlen in E. cbn [Z.eqb] in E.
  replace (Z.to_nat (2048 + extra)) with (2048 + Z.to_nat extra)%nat in E by lia.
  rewrite load_bytes_app in E.
  replace (buffer (rx_bufs_dma d) (rx_next d) + Z.of_nat 2048)
    with (buffer (rx_bufs_dma d) (rx_next d + 1)) in E by (unfold buffer, MBUF_SIZE; lia).
  do 3 eexists. split_and!; [exact E|done|done|unfold zlen; rewrite length_load_bytes; lia].
Qed.

(** ** Initialisation *)

Definition fresh_tx (bufs : DmaRegion) (i : Z) : TulipDesc :=
  {| status := 0; control := (if i =? 15 then TDES1_TER else 0);
     buf1_addr := paddr bufs + i * MBUF_SIZE; buf2_addr := 0 |}.

Definition fresh_rx (bufs : DmaRegion) (i : Z) : TulipDesc :=
  {| status := DESC_OWN; control := rx_control i;
     buf1_addr := paddr bufs + i * MBUF_SIZE; buf2_addr := 0 |}.

Lemma phys_ok ring bufs i :
  ring_layout ring bufs -> valid i ->
  elem_addr (paddr bufs) i MBUF_SIZE = Ret (paddr bufs + i * MBUF_SIZE) /\
  as_u32 (paddr bufs + i * MBUF_SIZE) = paddr bufs + i * MBUF_SIZE /\
  (paddr bufs + i * MBUF_SIZE) mod 2 ^ (8 * Z.of_nat 4) = paddr bufs + i * MBUF_SIZE.
Proof.
  intros [] Hi. unfold valid, MBUF_SIZE, U32 in *. split_and!.
  - apply (elem_addr_ok _ _ _ 16); unfold U64; lia.
  - apply Z.mod_small. unfold U32. lia.
  - apply Z.mod_small. lia.
Qed.

Section init.
Context {HW : Type}.

Lemma tulip_init_tx_runs ring bufs i m (h : HW) :
  ring_layout ring bufs -> valid i ->
  exists m', init_tx_desc ring bufs i (m, h) = Ret (tt, (m', h)) /\
    tulip_desc m' (vaddr ring + i * 16) = fresh_tx bufs i /\ only_desc (vaddr ring) i m m'.
Proof.
  intros Hl Hi. destruct (phys_ok ring bufs i Hl Hi) as (Ha & Hu & Hm). eexists. split_and!.
  - unfold init_tx_desc. rewrite (bind_lift _ _ _ (slot ring i)) by (by eapply slot_ok).
    unfold write_word. rewrite !bind_store, (bind_lift _ _ _ _ Ha), bind_store, Hu. reflexivity.
  - fold (slot ring i). unfold tulip_desc, fresh_tx. cbn [fst]. f_equal; load_fields; [done| |exact Hm|done].
    unfold TX_RING_SIZE. change (16 - 1) with 15. by destruct (i =? 15).
  - intros x Hx. unfold store_le, slot. cbn [fst].
    rewrite !load_byte_store_ne by (rewrite zlen_le_split; lia). done.
Qed.

Lemma tulip_init_rx_runs ring bufs i m (h : HW) :
  ring_layout ring bufs -> valid i ->
  exists m', init_rx_desc ring bufs i (m, h) = Ret (tt, (m', h)) /\
    tulip_desc m' (vaddr ring + i * 16) = fresh_rx bufs i /\ only_desc (vaddr ring) i m m'.
Proof.
  intros Hl Hi. destruct (phys_ok ring bufs i Hl Hi) as (Ha & Hu & Hm). eexists. split_and!.
  - unfold init_rx_desc. rewrite (bind_lift _ _ _ (slot ring i)) by (by eapply slot_ok).
    cbv zeta. rewrite (bind_lift _ _ _ _ Ha). unfold write_word. rewrite !bind_store, Hu. reflexivity.
  - fold (slot ring i). unfold tulip_desc, fresh_rx. cbn [fst]. f_equal; load_fields; [done| |exact Hm|done].
    unfold RX_RING_SIZE, rx_control. change (16 - 1) with 15. by destruct (i =? 15).
  - intros x Hx. unfold store_le, slot. cbn [fst].
    rewrite !load_byte_store_ne by (rewrite zlen_le_split; lia). done.
Qed.

End init.

(** *** The setup frame *)

Lemma broadcast_entries n buf :
  length buf = 192%nat -> (n <= 16)%nat ->
  fold_left (fun buf entry => put (12 * entry) (replicate 12 Byte.xff) buf) (seq 0 n) buf =
  replicate (12 * n) Byte.xff ++ drop (12 * n) buf.
Proof.
  intros Hlen. induction n as [|n IH]; intros Hn; [by rewrite Nat.mul_0_r|].
  rewrite seq_S, fold_left_app, IH by lia. cbn [fold_left Nat.add]. unfold put.
  rewrite take_app_length' by (by rewrite length_replicate).
  rewrite length_replicate, drop_app_ge by (rewrite length_replicate; lia).
  rewrite length_replicate, drop_drop, app_assoc, <- replicate_add.
  by replace (12 * n + 12)%nat with (12 * S n)%nat by lia;
     replace (12 * n + (12 * S n - 12 * n))%nat with (12 * S n)%nat by lia.
Qed.

(** The address in entry [k] of a perfect-filter setup frame. *)
Definition filter_entry (frame : list byte) (k : nat) : list byte :=
  (fun o => frame !!! (12 * k + o)%nat) <$> [0; 1; 4; 5; 8; 9]%nat.

(** The setup frame is 192 bytes whatever was in the buffer; its first
    entry is the adapter's own address and the other fifteen are the
    broadcast address. *)
Theorem setup_frame_filters mac buf :
  length mac = 6%nat -> length buf = 192%nat ->
  length (setup_frame mac buf) = 192%nat /\
  filter_entry (setup_frame mac buf) 0 = byte.of_Z <$> mac /\
  forall k, (1 <= k < 16)%nat -> filter_entry (setup_frame mac buf) k = replicate 6 Byte.xff.
Proof.
  intros Hmac Hbuf. unfold setup_frame. rewrite (broadcast_entries 16 buf) by (done || lia).
  rewrite drop_ge, app_nil_r by lia.
  destruct mac as [|a [|b [|c [|e [|f [|g [|]]]]]]]; try discriminate Hmac.
  cbn [default lookup list_lookup].
  split_and!; [by rewrite !length_insert|reflexivity|].
  intros k Hk. do 16 (destruct k as [|k]; [first [lia|reflexivity]|]). lia.
Qed.

(** The adapter's registers can be addressed. *)
Definition csr_mapped (c : CsrAccess) : Prop :=
  match c with
  | CsrMmio base => 0 <= base /\ base + 0x60 < U64
  | CsrIo base => 0 <= base /\ base + 0x60 < U16
  end.

Lemma csr_write_returns {HW} `{Mmio HW} `{PortIo HW} c off v (s : mem * HW) :
  csr_mapped c -> 0 <= off <= 0x60 -> exists s', csr_write c off v s = Ret (tt, s').
Proof.
  intros Hc Hoff. destruct c as [base|base]; simpl in *.
  - rewrite (bind_lift _ _ _ (base + off)) by (apply uadd_ok; lia). by eexists.
  - rewrite (bind_lift _ _ _ (base + off)); [by eexists|].
    unfold u16add, as_u16. rewrite (Z.mod_small off) by (unfold U16; lia).
    by rewrite (proj2 (Z.ltb_lt _ _)) by lia.
Qed.

Lemma assert_reachable_cases {HW} txr rxr txb rxb (s : mem * HW) :
  0 <= paddr txb -> 0 <= paddr rxb -> 0 < rsize txb -> 0 < rsize rxb ->
  paddr txb + rsize txb < U64 -> paddr rxb + rsize rxb < U64 ->
  assert_reachable txr rxr txb rxb s =
  if (paddr txr <? U32) && (paddr rxr <? U32) && (paddr txb + rsize txb <=? U32) &&
     (paddr rxb + rsize rxb <=? U32)
  then Ret (tt, s) else Panic AssertFailed.
Proof.
  intros. unfold assert_reachable, assert_addr32, region_end, rassert, U32.
  rewrite !uadd_ok by lia. cbn [mbind outcome_bind]. rewrite !usub_ok by lia.
  unfold mbind, M_bind, lift.
  destruct (Z.leb_spec (paddr txr) 4294967295), (Z.ltb_spec (paddr txr) (2 ^ 32)); try lia; [|done].
  destruct (Z.leb_spec (paddr rxr) 4294967295), (Z.ltb_spec (paddr rxr) (2 ^ 32)); try lia; [|done].
  destruct (Z.leb_spec (paddr txb) 4294967295), (Z.leb_spec (paddr rxb) 4294967295),
    (Z.leb_spec (paddr txb + rsize txb - 1) 4294967295), (Z.leb_spec (paddr txb + rsize txb) (2 ^ 32)),
    (Z.leb_spec (paddr rxb + rsize rxb - 1) 4294967295), (Z.leb_spec (paddr rxb + rsize rxb) (2 ^ 32));
    try lia; done.
Qed.

(** [new] refuses memory the adapter cannot reach with 32-bit addresses,
    and otherwise hands it two initialised rings: every descriptor points to
    the buffer of its own index, transmit descriptors belong to the driver
    and receive descriptors to the adapter, and the last descriptor of each
    ring carries the end-of-ring mark, before the descriptor list registers
    are written. *)
Theorem tulip_new_initialises {HW} `{Mmio HW} `{PortIo HW} `{BusMaster HW} `{DmaAllocator (mem * HW)}
    (c : CsrAccess) txr rxr txb rxb (s0 s1 s2 s3 s4 s5 : mem * HW) m h :
  csr_write c CSR0 CSR0_SWR s0 = Ret (tt, s1) -> csr_write c CSR0 0x20800 s1 = Ret (tt, s2) ->
  alloc_coherent 4096 4096 s2 = Ret (txr, s3) -> alloc_coherent 4096 4096 s3 = Ret (rxr, s4) ->
  alloc_coherent 32768 4096 s4 = Ret (txb, s5) -> alloc_coherent 32768 4096 s5 = Ret (rxb, (m, h)) ->
  0 <= paddr txb -> 0 <= paddr rxb -> rsize txb = 32768 -> rsize rxb = 32768 ->
  paddr txb + 32768 < U64 -> paddr rxb + 32768 < U64 ->
  if (paddr txr <? U32) && (paddr rxr <? U32) && (paddr txb + 32768 <=? U32) && (paddr rxb + 32768 <=? U32)
  then
    ring_layout txr txb -> ring_layout rxr rxb ->
    vaddr txr + 256 <= vaddr rxr \/ vaddr rxr + 256 <= vaddr txr ->
    exists m', new c s0 = bring_up c txr rxr txb rxb (m', h) /\
      forall i, valid i -> tulip_desc m' (slot txr i) = fresh_tx txb i /\
                           tulip_desc m' (slot rxr i) = fresh_rx rxb i
  else new c s0 = Panic AssertFailed.
Proof.
  intros E1 E2 E3 E4 E5 E6 Hpt Hpr Hst Hsr Het Her.
  pose proof (assert_reachable_cases txr rxr txb rxb (m, h)) as Ha.
  rewrite Hst, Hsr in Ha. specialize (Ha Hpt Hpr ltac:(lia) ltac:(lia) Het Her).
  assert (Hnew : new c s0 =
    (_ ← assert_reachable txr rxr txb rxb;
     _ ← for_each (seqZ 0 16) (init_tx_desc txr txb);
     _ ← for_each (seqZ 0 16) (init_rx_desc rxr rxb);
     bring_up c txr rxr txb rxb) (m, h)).
  { unfold new. erewrite bind_Ret by exact E1. cbv beta. erewrite bind_Ret by exact E2. cbv beta.
    erewrite bind_Ret by exact E3. cbv beta. erewrite bind_Ret by exact E4. cbv beta.
    erewrite bind_Ret by exact E5. cbv beta. by erewrite bind_Ret by exact E6. }
  destruct (_ && _ && _ && _).
  2: { rewrite Hnew. unfold mbind, M_bind. by rewrite Ha. }
  intros Hlt Hlr Hap.
  destruct (init_loop 16 tulip_desc (fresh_tx txb) (init_tx_desc txr txb) (vaddr txr) m h)
    as (m1 & L1 & D1 & O1); [apply tulip_desc_ext|intros; by apply tulip_init_tx_runs|].
  destruct (init_loop 16 tulip_desc (fresh_rx rxb) (init_rx_desc rxr rxb) (vaddr rxr) m1 h)
    as (m2 & L2 & D2 & O2); [apply tulip_desc_ext|intros; by apply tulip_init_rx_runs|].
  exists m2. split.
  - rewrite Hnew. erewrite bind_Ret by exact Ha. cbv beta. erewrite bind_Ret by exact L1. cbv beta.
    by erewrite bind_Ret by exact L2.
  - intros i Hi. split; [|by apply D2]. rewrite <- (D1 i Hi). apply tulip_desc_ext.
    intros x Hx. apply O2. unfold valid, slot in *. lia.
Qed.

(** The promise of [EmbcloxNic]: once [has_rx_packet] has answered true,
    [recv_with] delivers a packet, provided that the adapter leaves a slot it
    has released alone. *)
Theorem tulip_ready_recv {HW} `{Mmio HW} `{PortIo HW} `{BusMaster HW} {T} (d : TulipDevice)
    (f : list byte -> T * list byte) (s s1 : mem * HW) :
  (forall s, let p := slot (rx_ring_dma d) (rx_next d) in
     Z.land (load_le 4 (dma_async s).1 p) DESC_OWN = 0 ->
     Z.land (load_le 4 (dma_async (dma_async s)).1 p) DESC_OWN = 0) ->
  csr_mapped (csr d) -> valid (rx_next d) -> ring_layout (rx_ring_dma d) (rx_bufs_dma d) ->
  has_rx_packet d s = Ret (true, s1) ->
  exists v s2, recv_with d f s1 = Ret ((Some v, set_rx_next ((rx_next d + 1) mod 16) d), s2).
Proof.
  intros Hkeep Hc Hi Hl Hready. unfold has_rx_packet in Hready.
  rewrite (bind_lift _ _ _ (slot (rx_ring_dma d) (rx_next d))) in Hready by (by eapply slot_ok).
  destruct (dma_async s) as [m0 h0] eqn:Hs. rewrite (bind_read_word _ _ s m0 h0 Hs) in Hready.
  injection Hready as Hown <-. apply Z.eqb_eq in Hown.
  specialize (Hkeep s). rewrite Hs in Hkeep. specialize (Hkeep Hown).
  destruct (dma_async (m0, h0)) as [m h] eqn:Hs1.
  destruct (f (load_bytes m (buffer (rx_bufs_dma d) (rx_next d))
    (Z.to_nat (rx_frame_length (status (tulip_desc m (slot (rx_ring_dma d) (rx_next d)))))))) as [v out] eqn:Hf.
  rewrite (tulip_recv_runs d f (m0, h0) m h v out) by done.
  cbn [status tulip_desc]. cbn [fst] in Hkeep. rewrite Hkeep. cbn [Z.eqb].
  destruct (csr_write_returns (csr d) CSR2 1
    (handed (rx_ring_dma d) (rx_bufs_dma d) (rx_next d) (rx_control (rx_next d)) out m, h))
    as [s2 E]; [done|unfold CSR2; lia|].
  exists v, s2. by erewrite bind_Ret by exact E.
Qed.

(** ** Witnesses *)

(** An adapter that never does anything, with a bump allocator as its state. *)
#[local] Instance idle_mmio : Mmio Z :=
  {| mmio_read32 _ s := (0, s); mmio_write32 _ _ s := s |}.
#[local] Instance idle_ports : PortIo Z :=
  {| port_in32 _ s := (0, s); port_out32 _ _ s := s |}.
#[local] Instance idle_bus : BusMaster Z := {| dma_async s := s |}.
#[local] Instance bump_dma : DmaAllocator (mem * Z) :=
  {| alloc_coherent size _ s := Ret ({| vaddr := s.2; paddr := s.2; rsize := size |}, (s.1, s.2 + size));
     free_coherent _ s := Ret (tt, s) |}.

Definition region (a n : Z) : DmaRegion := {| vaddr := a; paddr := a; rsize := n |}.

Definition dev0 : TulipDevice :=
  {| csr := CsrIo 0xC000; tx_ring_dma := region 4096 4096; rx_ring_dma := region 8192 4096;
     tx_bufs_dma := region 12288 32768; rx_bufs_dma := region 45056 32768;
     tx_next := 15; rx_next := 0; mac := replicate 6 0 |}.

Lemma tx0_layout : ring_layout (region 4096 4096) (region 12288 32768).
Proof. split; unfold MBUF_SIZE, U32, U64; simpl; lia. Qed.

Lemma rx0_layout : ring_layout (region 8192 4096) (region 45056 32768).
Proof. split; unfold MBUF_SIZE, U32, U64; simpl; lia. Qed.

Lemma tulip_transmit_hands_over_witness :
  exists m' ctrl,
    transmit_with dev0 3 (fun _ => (tt, [Byte.x01; Byte.x02; Byte.x03])) (∅, 0) =
      (_ ← csr_write (CsrIo 0xC000) CSR1 1; mret (Some tt, set_tx_next 0 dev0)) (m', 0) /\
    Z.land ctrl 0x7FF = 3 /\ Z.testbit ctrl 25 = true /\
    control (tulip_desc m' (4096 + 15 * 16)) = ctrl.
Proof.
  destruct (tulip_transmit_hands_over dev0 3 (fun _ => (tt, [Byte.x01; Byte.x02; Byte.x03])) (∅, 0)
    ∅ 0 tt [Byte.x01; Byte.x02; Byte.x03]) as (m' & ctrl & E & Hd & Hsz & _ & _ & H25 & _);
    [reflexivity|unfold valid; simpl; lia|exact tx0_layout|lia|reflexivity|reflexivity|].
  exists m', ctrl. split; [exact E|]. split; [exact Hsz|]. split; [exact H25|].
  change (4096 + 15 * 16) with (slot (tx_ring_dma dev0) (tx_next dev0)). by rewrite Hd.
Defined.

(** A receive slot released with a frame of [len] bytes. *)
Definition received (len : Z) : mem := store_le 4 8192 (Z.shiftl len 16) ∅.

Lemma tulip_recv_delivers_witness :
  exists m', recv_with dev0 (fun bs => (length bs, bs)) (received 60, 0) =
      (_ ← csr_write (CsrIo 0xC000) CSR2 1; mret (Some 60%nat, set_rx_next 1 dev0)) (m', 0) /\
    only_slot (region 8192 4096) (region 45056 32768) 0 (received 60) m'.
Proof.
  destruct (tulip_recv_delivers dev0 (fun bs => (length bs, bs)) (received 60, 0) (received 60) 0
    60%nat (replicate 60 Byte.x00)) as (m' & E & _ & Ho);
    [reflexivity|unfold valid; simpl; lia|exact rx0_layout|vm_compute; congruence
    |vm_compute; reflexivity|vm_compute; reflexivity|].
  exists m'. split; [exact E|exact Ho].
Defined.

Lemma tulip_recv_reads_past_buffer_witness :
  exists m' own next,
    recv_with dev0 (fun bs => (bs, bs)) (received 3000, 0) =
      (_ ← csr_write (CsrIo 0xC000) CSR2 1; mret (Some (own ++ next), set_rx_next 1 dev0)) (m', 0) /\
    zlen next = 952.
Proof.
  destruct (tulip_recv_reads_past_buffer dev0 (received 3000, 0) (received 3000) 0 952)
    as (m' & own & next & E & _ & _ & Hn);
    [reflexivity|unfold valid; simpl; lia|exact rx0_layout|vm_compute; reflexivity
    |vm_compute; reflexivity|lia|].
  exists m', own, next. split; [exact E|exact Hn].
Defined.

Lemma setup_frame_filters_witness :
  filter_entry (setup_frame [2; 0; 0; 0; 0; 7] (replicate 192 Byte.x00)) 0 =
    [Byte.x02; Byte.x00; Byte.x00; Byte.x00; Byte.x00; Byte.x07].
Proof.
  destruct (setup_frame_filters [2; 0; 0; 0; 0; 7] (replicate 192 Byte.x00) eq_refl eq_refl) as (_ & He & _).
  exact He.
Defined.

Lemma tulip_new_initialises_witness :
  exists m', new (CsrIo 0xC000) (∅, 4096) =
      bring_up (CsrIo 0xC000) (region 4096 4096) (region 8192 4096) (region 12288 32768)
        (region 45056 32768) (m', 77824) /\
    tulip_desc m' (8192 + 15 * 16) = fresh_rx (region 45056 32768) 15.
Proof.
  pose proof (tulip_new_initialises (CsrIo 0xC000) (region 4096 4096) (region 8192 4096)
    (region 12288 32768) (region 45056 32768) (∅, 4096) (∅, 4096) (∅, 4096) (∅, 8192) (∅, 12288)
    (∅, 45056) ∅ 77824 eq_refl eq_refl eq_refl eq_refl eq_refl eq_refl ltac:(done) ltac:(done)
    eq_refl eq_refl ltac:(done) ltac:(done)) as Hnew.
  cbn [paddr region Z.ltb Z.leb Z.compare Pos.compare Pos.compare_cont U32 andb Z.add Pos.add] in Hnew.
  destruct (Hnew tx0_layout rx0_layout ltac:(simpl; lia)) as (m' & E & Hd).
  exists m'. split; [exact E|]. exact (proj2 (Hd 15 ltac:(unfold valid; lia))).
Defined.

Lemma tulip_ready_recv_witness :
  exists v s2, recv_with dev0 (fun bs => (tt, bs)) (received 60, 0) = Ret ((Some v, set_rx_next 1 dev0), s2).
Proof.
  apply (tulip_ready_recv dev0 (fun bs => (tt, bs)) (received 60, 0) (received 60, 0));
    [done|simpl; unfold U16; lia|unfold valid; simpl; lia|exact rx0_layout|vm_compute; reflexivity].
Defined.
