(* ===== verification/Probe.v ===== *)
(** Probing devices: [ProbeCtx] ([crates/embclox-driver/src/driver.rs]), the
    drivers the registry knows ([drivers/e1000.rs], [drivers/tulip.rs],
    [drivers/netvsc.rs]) and their interrupt handlers.  The state is that of
    the whole kernel: the machine, the tables and statics the drivers touch,
    and what a [ProbeCtx] borrows. *)

From Stdlib Require Import String.
From stdpp Require Import strings.
From S2P Require Import Prelude Mem Dma Bits CpuLocal VectorAlloc Nic Pci Ioapic Memory Idt Apic World.
From S2P Require Import Hypercall Synic VmBus Driver Channel Netvsc E1000 Tulip.

Record InstalledIsr := {
  isr_vector : Z;
  isr_cpu_id : CpuId;
}.

Record kernel {HW : Type} := {
  kworld : world;                  (** memory, clock and hypervisor *)
  khw : HW;                        (** the adapters *)
  kidt : IDT;
  kcpus : cpus;
  memory : MemoryMapper;
  ioapic : IoApic;
  irq_alloc : VectorAllocator;
  ctx_vmbus : option VmBus.VmBus;
  E1000_REGS_BASE : Z;             (** static of [drivers/e1000.rs] *)
  CSR_FOR_ISR : option CsrAccess;  (** static of [drivers/tulip.rs] *)
}.
#[global] Arguments kernel : clear implicits.

(** A successfully probed device, by its wrapper. *)
Inductive ProbedDevice :=
| NicE1000 (device : @E1000Device MmioRegs) (mac : list Z) (mmio : MmioMapping)
| NicTulip (device : TulipDevice) (mac : list Z) (mmio : option MmioMapping)
| NicNetvsc (device : NetvscDevice) (mac : list byte) (mtu : Z).

Section updates.
Context {HW : Type}.
Abbreviation K := (kernel HW).

Definition nic_state (k : K) : mem * HW := (wmem (kworld k), khw k).
Definition set_nic_state (s : mem * HW) (k : K) : K :=
  {| kworld := set_mem s.1 (kworld k); khw := s.2; kidt := kidt k; kcpus := kcpus k; memory := memory k;
     ioapic := ioapic k; irq_alloc := irq_alloc k; ctx_vmbus := ctx_vmbus k;
     E1000_REGS_BASE := E1000_REGS_BASE k; CSR_FOR_ISR := CSR_FOR_ISR k |}.
Definition set_world (w : world) (k : K) : K :=
  {| kworld := w; khw := khw k; kidt := kidt k; kcpus := kcpus k; memory := memory k;
     ioapic := ioapic k; irq_alloc := irq_alloc k; ctx_vmbus := ctx_vmbus k;
     E1000_REGS_BASE := E1000_REGS_BASE k; CSR_FOR_ISR := CSR_FOR_ISR k |}.
Definition set_idt (t : IDT) (k : K) : K :=
  {| kworld := kworld k; khw := khw k; kidt := t; kcpus := kcpus k; memory := memory k;
     ioapic := ioapic k; irq_alloc := irq_alloc k; ctx_vmbus := ctx_vmbus k;
     E1000_REGS_BASE := E1000_REGS_BASE k; CSR_FOR_ISR := CSR_FOR_ISR k |}.
Definition set_memory (m : MemoryMapper) (k : K) : K :=
  {| kworld := kworld k; khw := khw k; kidt := kidt k; kcpus := kcpus k; memory := m;
     ioapic := ioapic k; irq_alloc := irq_alloc k; ctx_vmbus := ctx_vmbus k;
     E1000_REGS_BASE := E1000_REGS_BASE k; CSR_FOR_ISR := CSR_FOR_ISR k |}.
Definition set_irq_alloc (a : VectorAllocator) (k : K) : K :=
  {| kworld := kworld k; khw := khw k; kidt := kidt k; kcpus := kcpus k; memory := memory k;
     ioapic := ioapic k; irq_alloc := a; ctx_vmbus := ctx_vmbus k;
     E1000_REGS_BASE := E1000_REGS_BASE k; CSR_FOR_ISR := CSR_FOR_ISR k |}.
Definition set_e1000_base (p : Z) (k : K) : K :=
  {| kworld := kworld k; khw := khw k; kidt := kidt k; kcpus := kcpus k; memory := memory k;
     ioapic := ioapic k; irq_alloc := irq_alloc k; ctx_vmbus := ctx_vmbus k;
     E1000_REGS_BASE := p; CSR_FOR_ISR := CSR_FOR_ISR k |}.
Definition set_csr_for_isr (c : option CsrAccess) (k : K) : K :=
  {| kworld := kworld k; khw := khw k; kidt := kidt k; kcpus := kcpus k; memory := memory k;
     ioapic := ioapic k; irq_alloc := irq_alloc k; ctx_vmbus := ctx_vmbus k;
     E1000_REGS_BASE := E1000_REGS_BASE k; CSR_FOR_ISR := c |}.

Definition on_nic {A} : M (mem * HW) A -> M K A := zoom nic_state set_nic_state.
Definition on_world {A} : W A -> M K A := zoom kworld set_world.
Definition on_idt {A} : M IDT A -> M K A := zoom kidt set_idt.
End updates.

Section probe.
Context {HW : Type} `{Mmio HW} `{PortIo HW} `{BusMaster HW}.
Context `{PageTables (mem * HW)} `{GlobalAlloc (mem * HW)} (dma : BootDmaAllocator).
Abbreviation K := (kernel HW).

(** PCI configuration space is behind the I/O ports. *)
#[local] Instance pci_ports : Ports (mem * HW) :=
  {| port_write := port_out32; port_read := port_in32 |}.
#[export] Instance kernel_ports : Ports K :=
  {| port_write p v k := set_nic_state (port_out32 p v (nic_state k)) k;
     port_read p k := let '(v, s) := port_in32 p (nic_state k) in (v, set_nic_state s k) |}.

Definition ctx_allocate : M K (option Z) :=
  a ← gets irq_alloc;
  '(o, a') ← lift (allocate a);
  _ ← modify (set_irq_alloc a');
  mret o.

Definition install_pci_isr_on (line : Z) (h : handler) (cpu_id : CpuId)
    : M K (result InstalledIsr ProbeError) :=
  if line =? 0xFF then mret (Err (InvalidIrqLine line)) else
  io ← gets ioapic;
  n ← on_nic (max_entries io);
  if n <=? line then mret (Err (InvalidIrqLine line)) else
  o ← ctx_allocate;
  match o with
  | None => mret (Err NoFreeVector)
  | Some vector =>
      _ ← on_idt (Idt.set_handler vector h);
      apic ← gets (fun k => CpuId_apic_id cpu_id (kcpus k));
      _ ← on_nic (enable_irq io line vector apic);
      mret (Ok {| isr_vector := vector; isr_cpu_id := cpu_id |})
  end.

Definition install_pci_isr (line : Z) (h : handler) : M K (result InstalledIsr ProbeError) :=
  install_pci_isr_on line h Bsp.

(** [ctx.memory.map_mmio(..)]. *)
Definition ctx_map_mmio (phys size : Z) : M K MmioMapping :=
  m ← gets memory;
  '(mapping, m') ← on_nic (map_mmio m phys size);
  _ ← modify (set_memory m');
  mret mapping.

Definition irq_line (d : PciDevice) : M K Z :=
  v ← on_nic (read_config d 0x3C); mret (as_u8 (Z.land v 0xFF)).

(** *** e1000 *)

Definition VENDOR_INTEL : Z := 0x8086.
Definition E1000_DEVICES : list Z := [0x100E; 0x100F; 0x10D3].

(** [?] on the interrupt drops the device. *)
Definition e1000_probe (d : PciDevice) : M K (result ProbedDevice ProbeError) :=
  bar0_phys ← on_nic (read_bar d 0);
  mmio ← ctx_map_mmio bar0_phys 0x20000;
  let regs := {| regs_base := map_vaddr mmio |} in
  _ ← on_nic (reset_device regs);
  _ ← on_nic (enable_bus_mastering d);
  device ← on_nic (E1000.new (H0 := boot_dma dma) regs);
  mac ← on_nic (mac_address device);
  _ ← modify (set_e1000_base (map_vaddr mmio));
  line ← irq_line d;
  r ← install_pci_isr line Idt.e1000_handler;
  match r with
  | Err e => _ ← on_nic (E1000.drop_device (H0 := boot_dma dma) device); mret (Err e)
  | Ok _ =>
      _ ← on_nic (E1000.enable_interrupts device);
      mret (Ok (NicE1000 device mac mmio))
  end.

Definition E1000Driver : Driver K ProbedDevice PciDevice :=
  {| name := "e1000"; priority := 20;
     matches d := (vendor d =? VENDOR_INTEL) && bool_decide (device d ∈ E1000_DEVICES);
     probe := e1000_probe |}.

(** *** Tulip *)

Definition VENDOR_DEC : Z := 0x1011.
Definition TULIP_DEVICES : list Z := [0x0009; 0x0019].

Definition tulip_probe (d : PciDevice) : M K (result ProbedDevice ProbeError) :=
  _ ← on_nic (enable_bus_mastering d);
  bar0_raw ← on_nic (read_config d 0x10);
  let is_io := negb (Z.land bar0_raw 1 =? 0) in
  '(csr_access, mmio_holder) ←
    (if is_io then mret (CsrIo (as_u16 (Z.land bar0_raw (not_u32 0x3))), None)
     else
       bar0_phys ← on_nic (read_bar d 0);
       mmio ← ctx_map_mmio bar0_phys 0x1000;
       mret (CsrMmio (map_vaddr mmio), Some mmio));
  _ ← modify (set_csr_for_isr (Some csr_access));
  device ← on_nic (Tulip.new (H2 := boot_dma dma) csr_access);
  line ← irq_line d;
  r ← install_pci_isr line Idt.tulip_handler;
  match r with
  | Err e => _ ← on_nic (Tulip.drop_device (H2 := boot_dma dma) device); mret (Err e)
  | Ok _ =>
      _ ← on_nic (Tulip.enable_interrupts device);
      mret (Ok (NicTulip device (Tulip.mac device) mmio_holder))
  end.

Definition TulipDriver : Driver K ProbedDevice PciDevice :=
  {| name := "tulip"; priority := 30;
     matches d := (vendor d =? VENDOR_DEC) && bool_decide (device d ∈ TULIP_DEVICES);
     probe := tulip_probe |}.

(** *** NetVSC *)

Context `{Hypervisor} `{GlobalAlloc world} (fuel pfuel rounds : nat) (crash_after_stage : Z).

Definition netvsc_probe (offer : ChannelOffer) : M K (result ProbedDevice ProbeError) :=
  v ← gets ctx_vmbus;
  match v with
  | None => mret (Err (DriverFailed "netvsc: vmbus unavailable"))
  | Some vmbus =>
      r ← on_world (Netvsc_init (H0 := boot_dma dma) fuel pfuel rounds crash_after_stage vmbus);
      match r with
      | Err _ => mret (Err (DriverFailed "netvsc: NetvscDevice::init failed"))
      | Ok device => mret (Ok (NicNetvsc device (Netvsc.mac device) (Netvsc.mtu device)))
      end
  end.

Definition NetvscDriver : Driver K ProbedDevice ChannelOffer :=
  {| name := "netvsc"; priority := 10;
     matches offer := bool_decide (device_type offer = NETVSC);
     probe := netvsc_probe |}.

(** The in-tree drivers, registered. *)
Definition default_registry : DriverRegistry K ProbedDevice :=
  register_default_drivers E1000Driver TulipDriver NetvscDriver new_registry.

(** *** Interrupt handlers *)

(** The wakers of the two adapters. *)
Definition NET_WAKER : Z := -2.
Definition TULIP_WAKER : Z := -3.

Context (LAPIC_VADDR : Z).

Definition e1000_isr : M K unit :=
  base ← gets E1000_REGS_BASE;
  _ ← (if negb (base =? 0) then _ ← on_nic (read_volatile (base + 0xC0)); mret tt else mret tt);
  _ ← on_world (modify (log_event (EvWake NET_WAKER)));
  on_nic (eoi LAPIC_VADDR).

Definition tulip_isr : M K unit :=
  o ← gets CSR_FOR_ISR;
  _ ← match o with
      | Some c =>
          on_nic (_ ← csr_write c CSR7 0;
                  status ← csr_read c CSR5;
                  _ ← csr_write c CSR5 status;
                  csr_write c CSR7 IRQ_MASK)
      | None => mret tt
      end;
  _ ← on_world (modify (log_event (EvWake TULIP_WAKER)));
  on_nic (eoi LAPIC_VADDR).

End probe.

(** ** Properties *)

Section install.
Context {HW : Type} `{IoapicHw HW a}.
Hypothesis base_ok : 0 <= ioapic_base a < U64 - IOWIN.
Abbreviation K := (kernel HW).

(** The entry of the redirection table for [pin]. *)
Definition pin_route (k : K) (pin : Z) : Route := route a (nic_state k) pin.
Definition pins (k : K) : Z := entries a (nic_state k).

(** Nothing that matters to interrupts has changed. *)
Definition same_irqs (k k' : K) : Prop :=
  kidt k' = kidt k /\ irq_alloc k' = irq_alloc k /\ forall pin, pin_route k' pin = pin_route k pin.

Lemma ctx_allocate_ok (k : K) :
  wf (irq_alloc k) ->
  exists o a', ctx_allocate k = Ret (o, set_irq_alloc a' k) /\ wf a' /\
    match o with
    | Some v => free_vectors (irq_alloc k) = v :: free_vectors a'
    | None => a' = irq_alloc k /\ free_vectors (irq_alloc k) = []
    end.
Proof.
  intros Hwf. destruct (allocate_cases (irq_alloc k) Hwf) as (o & a' & E & Hwf' & Ho).
  exists o, a'. split; [|done]. unfold ctx_allocate.
  erewrite bind_Ret by reflexivity. cbv beta. by rewrite (bind_lift _ _ _ (o, a')) by exact E.
Qed.

Lemma free_vectors_range al v : wf al -> v ∈ free_vectors al -> 32 <= v < U8.
Proof. intros (H1 & H2 & _) [Hv _]%elem_of_free_vectors. lia. Qed.

(** The steps of [install_pci_isr_on] once a vector is allocated. *)
Lemma install_vector_ok (k : K) line h vector apic :
  ioapic k = a -> 0 <= line < 120 -> 32 <= vector < U8 -> 0 <= apic < U8 ->
  exists s, on_idt (Idt.set_handler vector h) k = Ret (tt, set_idt (<[vector := h]> (kidt k)) k) /\
    on_nic (enable_irq a line vector apic) (set_idt (<[vector := h]> (kidt k)) k) =
      Ret (tt, set_nic_state s (set_idt (<[vector := h]> (kidt k)) k)) /\
    entries a s = pins k /\
    forall pin, 0 <= pin -> route a s pin = if pin =? line then
      {| to_vector := vector; active_low := false; level_triggered := false; masked := false;
         to_lapic := apic |} else pin_route k pin.
Proof.
  intros Ha Hl Hv Hap.
  destruct (enable_irq_ok base_ok line vector apic (nic_state k)) as (s & E & He & Hr); [done|lia|done|].
  exists s. split_and!; [| |done..].
  - unfold on_idt. erewrite zoom_Ret; [reflexivity|]. apply set_handler_ok. lia.
  - unfold on_nic. erewrite zoom_Ret; [reflexivity|]. exact E.
Qed.

Lemma max_entries_reads (k : K) :
  pins k < U8 ->
  exists s, on_nic (max_entries a) k = Ret (pins k, set_nic_state s k) /\ entries a s = pins k /\
    forall pin, route a s pin = pin_route k pin.
Proof.
  intros Hp. destruct (max_entries_ok base_ok (nic_state k)) as (s & E & Hs). exists s. split_and!.
  - unfold on_nic. erewrite zoom_Ret; [reflexivity|]. rewrite E. fold (pins k). by rewrite (proj2 (Z.eqb_neq (pins k) U8)) by lia.
  - unfold pins. apply entries_stable. exact (Hs IOAPICVER).
  - intros pin. unfold pin_route. apply route_stable. exact Hs.
Qed.

End install.


(** ** Witness *)

(** A kernel with the I/O APIC of [Ioapic.demo_ioapic] and the vectors 32 to
    47, of which 32 and 39 are reserved. *)
Definition demo_kernel : kernel (Z * gmap Z Z) :=
  {| kworld := {| wmem := ∅; now := 0; next_gpadl := 0; trace := []; hostq := [] |};
     khw := (0, {[ IOAPICVER := 0x170011 ]});
     kidt := {[ 32 := apic_timer_isr; 39 := spurious_isr ]};
     kcpus := no_cpus; memory := new_mapper 0 0; ioapic := demo_ioapic;
     irq_alloc := reserve {| used := 0; start := 32; end_ := 47 |} [32; 39];
     ctx_vmbus := None; E1000_REGS_BASE := 0; CSR_FOR_ISR := None |}.

Lemma demo_kernel_wf : wf (irq_alloc demo_kernel).
Proof.
  apply reserve_spec. unfold wf. cbn [start end_ used]. split_and!; [lia..|unfold U8; lia|lia|lia|].
  intros. apply Z.testbit_0_l.
Qed.

