(* ===== verification/EmbcloxNic.v ===== *)
(** Network devices behind one interface: the trait [EmbcloxNic] and the
    adapter [DynNic] to embassy-net ([crates/embclox-driver/src/nic.rs]), and
    the implementations of the trait in [drivers/e1000.rs],
    [drivers/tulip.rs] and [drivers/netvsc.rs].  The class [NicContract] says
    what the adapter relies on; its theorem is proved against the class, and
    the Tulip driver discharges it. *)

From S2P Require Import Prelude Mem Dma Nic World Hypercall Synic VmBus Channel Netvsc E1000 Tulip TulipFacts.

(** A callback [&mut dyn FnMut(&mut [u8])]: it has a state of its own, reads
    and overwrites the bytes of the slice, and may panic. *)
Definition callback (S : Type) : Type := S -> list byte -> outcome (S * list byte).

Record EmbcloxNic (St : Type) := {
  rx_ready : M St bool;
  tx_ready : M St bool;
  register_waker : Z -> M St unit;
  recv_with : forall S, callback S -> S -> M St S;
  transmit_with : forall S, Z -> callback S -> S -> M St S;
  max_transmission_unit : St -> Z;
  hardware_address : St -> list Z;
}.
#[global] Arguments rx_ready {St} _.
#[global] Arguments tx_ready {St} _.
#[global] Arguments register_waker {St} _ _.
#[global] Arguments recv_with {St} _ {S} _ _.
#[global] Arguments transmit_with {St} _ {S} _ _ _.
#[global] Arguments max_transmission_unit {St} _ _.
#[global] Arguments hardware_address {St} _ _.

(** ** [DynNic] *)

Section dyn_nic.
Context {St : Type} (nic : EmbcloxNic St).

(** [DynNic::receive]: whether it returned tokens, which alias the device. *)
Definition receive (waker : Z) : M St bool :=
  rx ← rx_ready nic;
  ready ← (if rx : bool then tx_ready nic else mret false);
  if ready : bool then mret true else
  _ ← register_waker nic waker;
  mret false.

(** [DynNic::transmit]. *)
Definition transmit (waker : Z) : M St bool :=
  ready ← tx_ready nic;
  if ready : bool then mret true else
  _ ← register_waker nic waker;
  mret false.

(** The closure [cb] of the two [consume] methods: [f_holder] and [result]. *)
Definition take_once {R} : callback (option (list byte -> R * list byte) * option R) :=
  fun '(f_holder, result) buf =>
    match f_holder with
    | None => Panic Expect
    | Some f => let '(r, buf') := f buf in Ret ((None, Some r), buf')
    end.

Definition expect_result {R} (st : option (list byte -> R * list byte) * option R) : M St R :=
  match st.2 with Some r => mret r | None => panic Expect end.

Definition rx_consume {R} (f : list byte -> R * list byte) : M St R :=
  st ← recv_with nic take_once (Some f, None);
  expect_result st.

Definition tx_consume {R} (len : Z) (f : list byte -> R * list byte) : M St R :=
  st ← transmit_with nic len take_once (Some f, None);
  expect_result st.

End dyn_nic.

(** ** The implementations *)

(** A callback as the closure of a driver, which is called at most once; a
    panic of the callback is raised when the driver returns. *)
Definition as_closure {S} (cb : callback S) (st : S) (buf : list byte) : outcome S * list byte :=
  match cb st buf with
  | Ret (st', buf') => (Ret st', buf')
  | Panic f => (Panic f, buf)
  end.

(** The devices with their wakers. *)
Record nic_state (D H : Type) := {
  nic_dev : D;
  nic_waker : option Z;
  nic_hw : H;
}.
#[global] Arguments nic_dev {D H} _.
#[global] Arguments nic_waker {D H} _.
#[global] Arguments nic_hw {D H} _.

Section nics.
Context {D H : Type}.

Definition set_waker (w : Z) : M (nic_state D H) unit :=
  modify (fun s => {| nic_dev := nic_dev s; nic_waker := Some w; nic_hw := nic_hw s |}).

(** A method that reads the device, and one that also changes it. *)
Definition method {A} (c : D -> M H A) : M (nic_state D H) A := fun s =>
  zoom nic_hw (fun h s => {| nic_dev := nic_dev s; nic_waker := nic_waker s; nic_hw := h |})
    (c (nic_dev s)) s.

Definition method_mut {A} (c : D -> M H (A * D)) : M (nic_state D H) A :=
  '(a, d) ← method c;
  _ ← modify (fun s => {| nic_dev := d; nic_waker := nic_waker s; nic_hw := nic_hw s |});
  mret a.

Definition expect_some {S} (o : option (outcome S)) : M (nic_state D H) S :=
  match o with Some r => lift r | None => panic Expect end.
End nics.

Section e1000.
Context {HW : Type} `{Mmio HW}.

Definition e1000_nic (mac : list Z)
    : EmbcloxNic (nic_state (E1000Device MmioRegs) (mem * HW)) := {|
  rx_ready := method E1000.has_rx_packet;
  tx_ready := method E1000.has_tx_space;
  register_waker := set_waker;
  recv_with S cb st := o ← method (fun d => E1000.recv_with d (as_closure cb st)); expect_some o;
  transmit_with S len cb st :=
    o ← method (fun d => E1000.transmit_with d len (as_closure cb st)); expect_some o;
  max_transmission_unit _ := 1514;
  hardware_address _ := mac;
|}.
End e1000.

Section tulip.
Context {HW : Type} `{Mmio HW} `{PortIo HW} `{BusMaster HW}.

Definition tulip_nic (mac : list Z) : EmbcloxNic (nic_state TulipDevice (mem * HW)) := {|
  rx_ready := method Tulip.has_rx_packet;
  tx_ready := method Tulip.has_tx_space;
  register_waker := set_waker;
  recv_with S cb st := o ← method_mut (fun d => Tulip.recv_with d (as_closure cb st)); expect_some o;
  transmit_with S len cb st :=
    o ← method_mut (fun d => Tulip.transmit_with d len (as_closure cb st)); expect_some o;
  max_transmission_unit _ := 1514;
  hardware_address _ := mac;
|}.
End tulip.

Section netvsc.
Context `{Hypervisor} `{DmaAllocator world} (rounds : nat).

Definition netvsc_nic (mac : list Z) (mtu : Z) : EmbcloxNic (nic_state NetvscDevice world) := {|
  rx_ready := method_mut (run_dev (Netvsc.has_rx_packet rounds));
  tx_ready := method_mut (run_dev (Netvsc.has_tx_space rounds));
  register_waker := set_waker;
  recv_with S cb st :=
    o ← method_mut (run_dev (Netvsc.recv_with (fun buf => (as_closure cb st buf).1)));
    expect_some o;
  transmit_with S len cb st :=
    r ← method_mut (run_dev (Netvsc.transmit_with rounds len (as_closure cb st)));
    match r with Ok o => lift o | Err _ => panic Expect end;
  max_transmission_unit _ := mtu;
  hardware_address _ := mac;
|}.
End netvsc.

(** ** What the adapter relies on *)

(** A closure that works on the slice in place. *)
Definition in_place {R} (f : list byte -> R * list byte) : Prop :=
  forall buf, length (f buf).2 = length buf.

(** The promises of the trait's comments: readiness that was reported lasts
    until it is used, and the packet methods then call the callback once, on a
    slice, and return. *)
Class NicContract {St : Type} (nic : EmbcloxNic St) := {
  good : St -> Prop;
  rx_held : St -> Prop;
  tx_held : St -> Prop;
  rx_ready_ok s : good s -> exists b s', rx_ready nic s = Ret (b, s') /\ good s' /\
    (b = true -> rx_held s');
  tx_ready_ok s : good s -> exists b s', tx_ready nic s = Ret (b, s') /\ good s' /\
    (b = true -> tx_held s') /\ (rx_held s -> rx_held s');
  register_ok w s : good s -> exists s', register_waker nic w s = Ret (tt, s') /\ good s';
  recv_ok s : good s -> rx_held s -> exists frame, forall out, length out = length frame ->
    exists s', good s' /\ (tx_held s -> tx_held s') /\
      forall S (cb : callback S) st st', cb st frame = Ret (st', out) ->
        recv_with nic cb st s = Ret (st', s');
  transmit_ok s len : good s -> tx_held s -> 0 <= len <= max_transmission_unit nic s ->
    exists buf, zlen buf = len /\ forall out, length out = length buf ->
    exists s', good s' /\
      forall S (cb : callback S) st st', cb st buf = Ret (st', out) ->
        transmit_with nic len cb st s = Ret (st', s');
  mtu_ok s s' : max_transmission_unit nic s = max_transmission_unit nic s';
}.

Section adapter.
Context {St : Type} (nic : EmbcloxNic St) `{!NicContract nic}.

(** The callback of [consume] runs its closure on the first call. *)
Lemma take_once_ok {R} (f : list byte -> R * list byte) buf :
  take_once (Some f, None) buf = Ret ((None, Some (f buf).1), (f buf).2).
Proof. simpl. by destruct (f buf). Qed.

Lemma rx_consume_ok s :
  good s -> rx_held s ->
  exists frame, forall R (f : list byte -> R * list byte), in_place f ->
  exists s', rx_consume nic f s = Ret ((f frame).1, s') /\ good s' /\ (tx_held s -> tx_held s').
Proof.
  intros Hg Hr. destruct (recv_ok s Hg Hr) as (frame & Hrun). exists frame. intros R f Hf.
  destruct (Hrun (f frame).2 (Hf frame)) as (s' & Hg' & Ht & E). exists s'. split_and!; [|done..].
  unfold rx_consume. erewrite bind_Ret by (apply E, take_once_ok). done.
Qed.

Lemma tx_consume_ok {R} len (f : list byte -> R * list byte) s :
  in_place f -> good s -> tx_held s -> 0 <= len <= max_transmission_unit nic s ->
  exists buf s', zlen buf = len /\ tx_consume nic len f s = Ret ((f buf).1, s') /\ good s'.
Proof.
  intros Hf Hg Ht Hl. destruct (transmit_ok s len Hg Ht Hl) as (buf & Hb & Hrun).
  destruct (Hrun (f buf).2 (Hf buf)) as (s' & Hg' & E). exists buf, s'. split_and!; [done| |done].
  unfold tx_consume. erewrite bind_Ret by (apply E, take_once_ok). done.
Qed.

End adapter.


(** ** The Tulip driver keeps the contract *)

Section tulip_contract.
Context {HW : Type} `{Mmio HW} `{PortIo HW} `{BusMaster HW}.
Implicit Types s : mem * HW.

Definition own (s : mem * HW) (p : Z) : Z := Z.land (load_le 4 s.1 p) DESC_OWN.

(** The frames in released receive slots fit their buffers. *)
Definition fits (rxr : DmaRegion) (s : mem * HW) : Prop :=
  forall i, valid i -> own s (slot rxr i) = 0 -> rx_frame_length (load_le 4 s.1 (slot rxr i)) <= 2048.

(** What the adapter promises about the descriptors of its rings: it gives
    slots back and never takes one, and the frames it reports fit. *)
Record gives_back (txr rxr : DmaRegion) : Prop := {
  keep_async s ring i : ring = txr \/ ring = rxr -> valid i ->
    own s (slot ring i) = 0 -> own (dma_async s) (slot ring i) = 0;
  keep_mmio p v s ring i : ring = txr \/ ring = rxr -> valid i ->
    own s (slot ring i) = 0 -> own (mmio_write32 p v s) (slot ring i) = 0;
  keep_port p v s ring i : ring = txr \/ ring = rxr -> valid i ->
    own s (slot ring i) = 0 -> own (port_out32 p v s) (slot ring i) = 0;
  fit_async s : fits rxr s -> fits rxr (dma_async s);
  fit_mmio p v s : fits rxr s -> fits rxr (mmio_write32 p v s);
  fit_port p v s : fits rxr s -> fits rxr (port_out32 p v s);
}.

(** The status words of one ring lie outside what handing over a slot of the
    other writes. *)
Definition apart (ring ring' bufs' : DmaRegion) : Prop :=
  forall i j x, valid i -> valid j -> slot ring i <= x < slot ring i + 4 ->
    (x < buffer bufs' j \/ buffer bufs' j + MBUF_SIZE <= x) /\ (x < slot ring' j \/ slot ring' j + 8 <= x).

(** The rings and buffers of a device lie apart. *)
Record tulip_layout (d : TulipDevice) : Prop := {
  lay_tx : ring_layout (tx_ring_dma d) (tx_bufs_dma d);
  lay_rx : ring_layout (rx_ring_dma d) (rx_bufs_dma d);
  lay_apart_tx : apart (tx_ring_dma d) (rx_ring_dma d) (rx_bufs_dma d);
  lay_apart_rx : apart (rx_ring_dma d) (tx_ring_dma d) (tx_bufs_dma d);
  lay_csr : csr_mapped (csr d);
  lay_next : valid (tx_next d) /\ valid (rx_next d);
  lay_hw : gives_back (tx_ring_dma d) (rx_ring_dma d);
}.

Definition tulip_rx_slot (d : TulipDevice) : Z := slot (rx_ring_dma d) (rx_next d).
Definition tulip_tx_slot (d : TulipDevice) : Z := slot (tx_ring_dma d) (tx_next d).

Lemma csr_write_keeps d off v s :
  tulip_layout d -> 0 <= off <= 0x60 -> exists s', csr_write (csr d) off v s = Ret (tt, s') /\
    (fits (rx_ring_dma d) s -> fits (rx_ring_dma d) s') /\
    forall ring i, ring = tx_ring_dma d \/ ring = rx_ring_dma d -> valid i ->
      own s (slot ring i) = 0 -> own s' (slot ring i) = 0.
Proof.
  intros Hd Hoff. pose proof (lay_csr d Hd) as Hc. pose proof (lay_hw d Hd) as Hk.
  destruct (csr d) as [base|base]; simpl in *.
  - rewrite (bind_lift _ _ _ (base + off)) by (apply uadd_ok; lia). eexists. split_and!; [reflexivity|apply (fit_mmio _ _ Hk)|].
    intros. by apply (keep_mmio _ _ Hk).
  - rewrite (bind_lift _ _ _ (base + off)).
    + eexists. split_and!; [reflexivity|apply (fit_port _ _ Hk)|]. intros. by apply (keep_port _ _ Hk).
    + unfold u16add, as_u16. rewrite (Z.mod_small off) by (unfold U16; lia).
      by rewrite (proj2 (Z.ltb_lt _ _)) by lia.
Qed.

(** Reading the status of the next slot of a ring. *)
Lemma next_ready_ok ring bufs i s :
  ring_layout ring bufs -> valid i ->
  (p ← lift (elem_addr (vaddr ring) i 16); st ← read_word p; mret (Z.land st DESC_OWN =? 0)) s =
    Ret (own (dma_async s) (slot ring i) =? 0, dma_async s).
Proof.
  intros Hl Hi. rewrite (bind_lift _ _ _ (slot ring i)) by (by eapply slot_ok).
  destruct (dma_async s) as [m h] eqn:E. by rewrite (bind_read_word _ _ s m h E).
Qed.

Lemma set_rx_next_layout d i : valid i -> tulip_layout d -> tulip_layout (set_rx_next i d).
Proof. intros Hi [? ? ? ? ? [? ?] ?]. by split. Qed.

Lemma set_tx_next_layout d i : valid i -> tulip_layout d -> tulip_layout (set_tx_next i d).
Proof. intros Hi [? ? ? ? ? [? ?] ?]. by split. Qed.

Lemma next_valid i : valid ((i + 1) mod 16).
Proof. unfold valid. apply Z.mod_pos_bound. lia. Qed.

(** Handing over a slot leaves the words of the other ring alone. *)
Lemma handed_apart ring ring' bufs' i j ctrl bs m :
  apart ring ring' bufs' -> valid i -> valid j -> (length bs <= 2048)%nat ->
  load_le 4 (handed ring' bufs' j ctrl bs m) (slot ring i) = load_le 4 m (slot ring i).
Proof.
  intros Ha Hi Hj Hl. apply load_le_ext. intros x Hx.
  destruct (Ha i j x Hi Hj) as [? ?]; [lia|]. by apply handed_only.
Qed.

(** Handing a receive slot back keeps what is known of the others. *)
Lemma handed_fits d bs m h :
  tulip_layout d -> (length bs <= 2048)%nat -> fits (rx_ring_dma d) (m, h) ->
  fits (rx_ring_dma d)
    (handed (rx_ring_dma d) (rx_bufs_dma d) (rx_next d) (rx_control (rx_next d)) bs m, h).
Proof.
  intros Hd Hl Hf i Hi. destruct (lay_next d Hd) as [_ Hrn]. unfold own. cbn [fst].
  destruct (decide (i = rx_next d)) as [->|Hne].
  - intros Hown. exfalso.
    pose proof (handed_desc _ _ (rx_next d) (rx_control (rx_next d)) bs m (lay_rx d Hd) Hi Hl (rx_control_bound _))
      as E. apply (f_equal status) in E. cbn [status tulip_desc] in E. by rewrite E in Hown.
  - pose proof (only_slot_other _ _ (rx_next d) i m _ 0 (lay_rx d Hd) Hrn Hi (not_eq_sym Hne)
      (handed_only _ _ _ (rx_control (rx_next d)) bs m Hl) ltac:(lia)) as [E _].
    apply (f_equal status) in E. cbn [status tulip_desc] in E. rewrite E. by apply Hf.
Qed.

Lemma tulip_recv_ok d s :
  tulip_layout d -> fits (rx_ring_dma d) s -> own s (tulip_rx_slot d) = 0 ->
  exists frame, forall out, length out = length frame ->
  exists s', fits (rx_ring_dma d) s' /\ (own s (tulip_tx_slot d) = 0 -> own s' (tulip_tx_slot d) = 0) /\
    forall T (f : list byte -> T * list byte) v, f frame = (v, out) ->
      Tulip.recv_with d f s = Ret ((Some v, set_rx_next ((rx_next d + 1) mod 16) d), s').
Proof.
  intros Hd Hf Hown. pose proof (lay_next d Hd) as [Htn Hrn]. pose proof (lay_hw d Hd) as Hk.
  pose proof (keep_async _ _ Hk s (rx_ring_dma d) (rx_next d) ltac:(by right) Hrn Hown) as Hown'.
  pose proof (fit_async _ _ Hk s Hf) as Hf'. pose proof (Hf' (rx_next d) Hrn Hown') as Hfit.
  destruct (dma_async s) as [m h] eqn:E. cbn [fst] in Hfit. unfold own in Hown'. cbn [fst] in Hown'.
  set (len := rx_frame_length (load_le 4 m (slot (rx_ring_dma d) (rx_next d)))) in *.
  exists (load_bytes m (buffer (rx_bufs_dma d) (rx_next d)) (Z.to_nat len)). intros out Hout.
  rewrite length_load_bytes in Hout. assert (Hlo : (length out <= 2048)%nat) by lia.
  destruct (csr_write_keeps d CSR2 1 (handed (rx_ring_dma d) (rx_bufs_dma d) (rx_next d)
    (rx_control (rx_next d)) out m, h) Hd) as (s2 & E2 & Hfk & Hkeep); [unfold CSR2; lia|].
  exists s2. split_and!; [by apply Hfk, handed_fits| |].
  - intros Ht. apply Hkeep; [by left|done|].
    pose proof (keep_async _ _ Hk s (tx_ring_dma d) (tx_next d) ltac:(by left) Htn Ht) as Ht'.
    rewrite E in Ht'. unfold own in *. cbn [fst] in *.
    by rewrite (handed_apart _ _ _ _ _ _ _ _ (lay_apart_tx d Hd)).
  - intros T f v Hfr. rewrite (tulip_recv_runs d f s m h v out); [|done|done|by apply lay_rx|exact Hfr].
    cbn [status tulip_desc]. rewrite Hown'. cbn [Z.eqb]. by erewrite bind_Ret by exact E2.
Qed.

Lemma tulip_transmit_ok d s len :
  tulip_layout d -> fits (rx_ring_dma d) s -> own s (tulip_tx_slot d) = 0 -> 0 <= len <= 1514 ->
  exists buf, zlen buf = len /\ forall out, length out = length buf -> exists s',
    fits (rx_ring_dma d) s' /\
    forall T (f : list byte -> T * list byte) v, f buf = (v, out) ->
      Tulip.transmit_with d len f s = Ret ((Some v, set_tx_next ((tx_next d + 1) mod 16) d), s').
Proof.
  intros Hd Hfit Hown Hlen. pose proof (lay_next d Hd) as [Htn Hrn]. pose proof (lay_hw d Hd) as Hk.
  pose proof (keep_async _ _ Hk s (tx_ring_dma d) (tx_next d) ltac:(by left) Htn Hown) as Hown'.
  pose proof (fit_async _ _ Hk s Hfit) as Hf'.
  destruct (dma_async s) as [m h] eqn:E. unfold own in Hown'. cbn [fst] in Hown'.
  exists (load_bytes m (buffer (tx_bufs_dma d) (tx_next d)) (Z.to_nat len)).
  split; [unfold zlen; rewrite length_load_bytes; lia|]. intros out Hout. rewrite length_load_bytes in Hout.
  destruct (csr_write_keeps d CSR1 1 (handed (tx_ring_dma d) (tx_bufs_dma d) (tx_next d)
    (tx_control (tx_next d) len) out m, h) Hd) as (s2 & E2 & Hfk & _); [unfold CSR1; lia|].
  exists s2. split.
  - apply Hfk. intros i Hi. unfold own. cbn [fst].
    rewrite (handed_apart _ _ _ _ _ _ _ _ (lay_apart_rx d Hd)) by (done || lia). by apply Hf'.
  - intros T f v Hf.
    rewrite (tulip_transmit_runs d len f s m h v out); [|done|done|by apply lay_tx|lia|exact Hf].
    cbn [status tulip_desc]. rewrite Hown'. cbn [Z.eqb]. by erewrite bind_Ret by exact E2.
Qed.

Lemma method_mut_Ret {A} (c : TulipDevice -> M (mem * HW) (A * TulipDevice)) n a d h :
  c (nic_dev n) (nic_hw n) = Ret ((a, d), h) ->
  method_mut c n = Ret (a, {| nic_dev := d; nic_waker := nic_waker n; nic_hw := h |}).
Proof. intros E. unfold method_mut, mbind, M_bind, method, zoom. by rewrite E. Qed.

#[export] Instance tulip_keeps_contract mac : NicContract (tulip_nic mac).
Proof.
  refine {| good n := tulip_layout (nic_dev n) /\ fits (rx_ring_dma (nic_dev n)) (nic_hw n);
            rx_held n := own (nic_hw n) (tulip_rx_slot (nic_dev n)) = 0;
            tx_held n := own (nic_hw n) (tulip_tx_slot (nic_dev n)) = 0 |}.
  - intros s [Hd Hf]. destruct (lay_next _ Hd). do 2 eexists. split_and!.
    + cbn [tulip_nic rx_ready]. unfold method. erewrite zoom_Ret; [reflexivity|].
      by eapply next_ready_ok; [apply lay_rx|].
    + exact Hd.
    + by apply (fit_async _ _ (lay_hw _ Hd)).
    + intros Hb%Z.eqb_eq. exact Hb.
  - intros s [Hd Hf]. destruct (lay_next _ Hd). do 2 eexists. split_and!.
    + cbn [tulip_nic tx_ready]. unfold method. erewrite zoom_Ret; [reflexivity|].
      by eapply next_ready_ok; [apply lay_tx|].
    + exact Hd.
    + by apply (fit_async _ _ (lay_hw _ Hd)).
    + intros Hb%Z.eqb_eq. exact Hb.
    + intros Hr. apply (keep_async _ _ (lay_hw _ Hd)); [by right|done|exact Hr].
  - intros w s Hg. eexists. by split.
  - intros s [Hd Hf] Hr. destruct (tulip_recv_ok _ _ Hd Hf Hr) as (frame & Hrun). exists frame.
    intros out Hout. destruct (Hrun out Hout) as (h & Hfit & Hk & E).
    exists {| nic_dev := set_rx_next ((rx_next (nic_dev s) + 1) mod 16) (nic_dev s);
              nic_waker := nic_waker s; nic_hw := h |}.
    split_and!; [apply set_rx_next_layout; [apply next_valid|done]|exact Hfit|exact Hk|].
    intros S cb st st' Hcb. cbn [tulip_nic recv_with].
    erewrite bind_Ret by (apply method_mut_Ret, (E _ _ (Ret st')); unfold as_closure; by rewrite Hcb). done.
  - intros s len [Hd Hf] Ht Hl. destruct (tulip_transmit_ok _ _ len Hd Hf Ht Hl) as (buf & Hb & Hrun).
    exists buf. split; [exact Hb|]. intros out Hout. destruct (Hrun out Hout) as (h & Hfit & E).
    exists {| nic_dev := set_tx_next ((tx_next (nic_dev s) + 1) mod 16) (nic_dev s);
              nic_waker := nic_waker s; nic_hw := h |}.
    split; [split; [apply set_tx_next_layout; [apply next_valid|done]|exact Hfit]|].
    intros S cb st st' Hcb. cbn [tulip_nic transmit_with].
    erewrite bind_Ret by (apply method_mut_Ret, (E _ _ (Ret st')); unfold as_closure; by rewrite Hcb). done.
  - done.
Defined.

End tulip_contract.

(** ** Witness *)

(** The device of [TulipFacts.dev0] with an idle adapter that has released a
    frame of 60 bytes. *)
Definition demo_nic : EmbcloxNic (nic_state TulipDevice (mem * Z)) :=
  tulip_nic (H := idle_mmio) (H0 := idle_ports) (H1 := idle_bus) [].

Definition demo_state : nic_state TulipDevice (mem * Z) :=
  {| nic_dev := dev0; nic_waker := None; nic_hw := (received 60, 0) |}.

Lemma demo_layout : tulip_layout (H := idle_mmio) (H0 := idle_ports) (H1 := idle_bus) dev0.
Proof.
  split; [exact tx0_layout|exact rx0_layout| | |..].
  - intros i j x Hi Hj Hx. unfold valid, slot, buffer, MBUF_SIZE in *. simpl in *. lia.
  - intros i j x Hi Hj Hx. unfold valid, slot, buffer, MBUF_SIZE in *. simpl in *. lia.
  - simpl. unfold U16. lia.
  - unfold valid. simpl. lia.
  - by split.
Qed.

Lemma demo_fits : fits (rx_ring_dma dev0) (nic_hw demo_state).
Proof.
  intros i Hi _. assert (Hall : forallb (fun i =>
    rx_frame_length (load_le 4 (received 60) (slot (rx_ring_dma dev0) i)) <=? 2048) (seqZ 0 16) = true)
    by (vm_compute; reflexivity).
  rewrite forallb_forall in Hall. apply Z.leb_le, Hall, list_elem_of_In, elem_of_seqZ.
  unfold valid in Hi. lia.
Qed.

