(* ===== verification/Kernel.v ===== *)
(** The example kernel up to its executor ([examples-kernel/src/main.rs]):
    what the boot loader provides ([embclox-hal-x86/src/limine_boot.rs]), the
    hardware layer's [init] ([lib.rs], [heap.rs]), interrupts and timer, VMBus,
    the probe loop, the choice of the network device and of the settings. *)

From Stdlib Require Import String.
From stdpp Require Import strings.
From S2P Require Import Prelude Mem Dma Bits CpuLocal TimeDriver Cmdline VectorAlloc Nic Pci Ioapic Memory Idt Apic.
From S2P Require Import Smp World Hypercall Synic Isr VmBus Driver Channel Netvsc E1000 Tulip Probe.

(** ** The boot loader's answers *)

Record LimineResponses := {
  base_revision_supported : bool;
  hhdm_response : option Z;
  address_response : option (Z * Z);           (** virtual and physical base *)
  cmdline_response : option (option str);      (** the text, when it is UTF-8 *)
}.

Record LimineBootInfo := {
  hhdm_offset : Z;
  boot_kernel_offset : Z;
  cmdline : str;
}.

(** [.expect(..)]. *)
Definition expect {A} (o : option A) : outcome A :=
  match o with Some a => Ret a | None => Panic Expect end.

Definition collect (r : LimineResponses) : outcome LimineBootInfo :=
  _ ← rassert (base_revision_supported r);
  hhdm ← expect (hhdm_response r);
  '(virtual_base, physical_base) ← expect (address_response r);
  offset ← usub virtual_base physical_base;
  let text := match cmdline_response r with Some (Some t) => t | _ => [] end in
  mret {| hhdm_offset := hhdm; boot_kernel_offset := offset; cmdline := text |}.

(** ** The machine *)

Definition HEAP_SIZE : Z := 8 * 1024 * 1024.
Definition LAPIC_PHYS_BASE : Z := 0xFEE00000.
Definition IOAPIC_PHYS_BASE : Z := 0xFEC00000.
Definition TSC_FREQUENCY : Z := 0x40000022.

Definition NET_DEFAULTS : StaticDefaults :=
  {| default_ip := [10; 0; 2; 15]; default_prefix := 24; default_gw := [10; 0; 2; 2] |}.

Record machine {HW : Type} := {
  kern : kernel HW;
  time : ApicTimeDriver;           (** [DRIVER] of [time.rs] *)
  tables : isr_tables;             (** of the VMBus interrupt handler *)
  INITIALIZED : bool;
  heap : option Z;                 (** how much the global allocator has *)
  AP_TSC_PER_US : Z;
  mp_response : option (Z * list Cpu);
}.
#[global] Arguments machine : clear implicits.

(** [embassy_net::Config], as far as the kernel builds it; [Cidr] is
    [Ipv4Cidr]. *)
Inductive Config {Cidr : Type} :=
| dhcpv4
| ipv4_static (address : Cidr) (gateway : option octets) (dns_servers : list octets).
#[global] Arguments Config : clear implicits.

(** What [kmain] hands to the executor. *)
Record boot {Cidr : Type} := {
  boot_tsc_per_us : Z;
  boot_nics : list (ProbedNic ProbedDevice);
  primary : ProbedNic ProbedDevice;
  started_aps : option Z;
  config : Config Cidr;
}.
#[global] Arguments boot : clear implicits.

Section setters.
Context {HW : Type}.
Abbreviation Mx := (machine HW).

Definition set_kern (k : kernel HW) (s : Mx) : Mx :=
  {| kern := k; time := time s; tables := tables s; INITIALIZED := INITIALIZED s; heap := heap s;
     AP_TSC_PER_US := AP_TSC_PER_US s; mp_response := mp_response s |}.
Definition set_time (t : ApicTimeDriver) (s : Mx) : Mx :=
  {| kern := kern s; time := t; tables := tables s; INITIALIZED := INITIALIZED s; heap := heap s;
     AP_TSC_PER_US := AP_TSC_PER_US s; mp_response := mp_response s |}.
Definition set_tables (t : isr_tables) (s : Mx) : Mx :=
  {| kern := kern s; time := time s; tables := t; INITIALIZED := INITIALIZED s; heap := heap s;
     AP_TSC_PER_US := AP_TSC_PER_US s; mp_response := mp_response s |}.
Definition set_initialized (s : Mx) : Mx :=
  {| kern := kern s; time := time s; tables := tables s; INITIALIZED := true; heap := heap s;
     AP_TSC_PER_US := AP_TSC_PER_US s; mp_response := mp_response s |}.
Definition set_heap (n : Z) (s : Mx) : Mx :=
  {| kern := kern s; time := time s; tables := tables s; INITIALIZED := INITIALIZED s; heap := Some n;
     AP_TSC_PER_US := AP_TSC_PER_US s; mp_response := mp_response s |}.
Definition set_ap_init_params (tsc : Z) (s : Mx) : Mx :=
  {| kern := kern s; time := time s; tables := tables s; INITIALIZED := INITIALIZED s; heap := heap s;
     AP_TSC_PER_US := tsc; mp_response := mp_response s |}.
Definition set_mp (mp : Z * list Cpu) (s : Mx) : Mx :=
  {| kern := kern s; time := time s; tables := tables s; INITIALIZED := INITIALIZED s; heap := heap s;
     AP_TSC_PER_US := AP_TSC_PER_US s; mp_response := Some mp |}.

Definition on_kern {A} : M (kernel HW) A -> M Mx A := zoom kern set_kern.

Definition set_ioapic (a : IoApic) (k : kernel HW) : kernel HW :=
  {| kworld := kworld k; khw := khw k; kidt := kidt k; kcpus := kcpus k; memory := memory k;
     ioapic := a; irq_alloc := irq_alloc k; ctx_vmbus := ctx_vmbus k;
     E1000_REGS_BASE := E1000_REGS_BASE k; CSR_FOR_ISR := CSR_FOR_ISR k |}.
Definition set_cpus (c : cpus) (k : kernel HW) : kernel HW :=
  {| kworld := kworld k; khw := khw k; kidt := kidt k; kcpus := c; memory := memory k;
     ioapic := ioapic k; irq_alloc := irq_alloc k; ctx_vmbus := ctx_vmbus k;
     E1000_REGS_BASE := E1000_REGS_BASE k; CSR_FOR_ISR := CSR_FOR_ISR k |}.
Definition set_vmbus (v : option VmBus.VmBus) (k : kernel HW) : kernel HW :=
  {| kworld := kworld k; khw := khw k; kidt := kidt k; kcpus := kcpus k; memory := memory k;
     ioapic := ioapic k; irq_alloc := irq_alloc k; ctx_vmbus := v;
     E1000_REGS_BASE := E1000_REGS_BASE k; CSR_FOR_ISR := CSR_FOR_ISR k |}.
End setters.

(** ** The steps of [kmain] *)

(** [heap::init]; what the allocator does is another crate's. *)
Definition heap_init {HW} (size : Z) : M (machine HW) unit :=
  _ ← lift (rassert (0 <? size));
  _ ← lift (rassert (size <=? HEAP_SIZE));
  modify (set_heap size).

(** [embclox_hal_x86::init], without the serial port. *)
Definition hal_init {HW} (info : LimineBootInfo) (heap_size : Z) : M (machine HW) unit :=
  was ← gets INITIALIZED;
  _ ← modify set_initialized;
  if was : bool then panic AssertFailed else
  _ ← heap_init heap_size;
  on_kern (modify (set_memory (new_mapper (hhdm_offset info) (boot_kernel_offset info)))).

(** [Iterator::min_by_key]: the first of the least. *)
Definition min_by_key {A} (key : A -> Z) (l : list A) : option A :=
  match l with
  | [] => None
  | x :: rest => Some (foldl (fun best y => if key y <? key best then y else best) x rest)
  end.

(** The settings for the network stack; [ipv4_cidr_new] is [Ipv4Cidr::new]. *)
Definition net_config {Cidr} (ipv4_cidr_new : octets -> Z -> outcome Cidr) (mode : NetMode)
  : outcome (Config Cidr) :=
  match mode with
  | Dhcp => mret dhcpv4
  | Static ip prefix gw =>
      address ← ipv4_cidr_new ip prefix;
      mret (ipv4_static address (Some gw) [])
  end.

(** The vectors devices may not get. *)
Definition reservations (is_hyperv : bool) : list Z := if is_hyperv then [32; 34; 39] else [32; 39].

Section kmain.
Context {HW : Type} `{Mmio HW} `{PortIo HW} `{BusMaster HW} `{BytePorts (mem * HW)}.
Context `{PageTables (mem * HW)} `{GlobalAlloc (mem * HW)} `{Hypervisor} `{GlobalAlloc world}.
Context (cpuid : Z -> CpuidResult) (rdmsr : Z -> world -> Z).
Context (fuel pfuel rounds : nat) (crash_after_stage : Z).
Context {Cidr : Type} (ipv4_cidr_new : octets -> Z -> outcome Cidr).
Abbreviation K := (kernel HW).
Abbreviation Mx := (M (machine HW)).

Definition read_hv_tsc_freq : Mx (option Z) :=
  match detect cpuid with
  | Some _ =>
      hz ← gets (fun s => rdmsr TSC_FREQUENCY (kworld (kern s)));
      if negb (hz =? 0) then mret (Some (hz / 1000000)) else mret None
  | None => mret None
  end.

Definition tsc_frequency : Mx Z :=
  hv ← read_hv_tsc_freq;
  o ← match hv with
      | Some v => mret (Some v)
      | None => on_kern (on_nic calibrate_tsc_mhz)
      end;
  mret (default 2400 o).

(** Mapping the I/O APIC; its [log_info] reads two registers. *)
Definition ioapic_up : M K unit :=
  io ← ctx_map_mmio IOAPIC_PHYS_BASE 0x1000;
  let ioapic := {| ioapic_base := map_vaddr io |} in
  _ ← modify (set_ioapic ioapic);
  _ ← on_nic (ioapic_read ioapic IOAPICID);
  _ ← on_nic (max_entries ioapic);
  mret tt.

(** Interrupt table, interrupt controllers and timer. *)
Definition interrupts_up : Mx Z :=
  _ ← on_kern (on_idt idt_init);
  _ ← on_kern (on_nic pic_disable);
  lapic ← on_kern (ctx_map_mmio LAPIC_PHYS_BASE 0x1000);
  let va := map_vaddr lapic in
  _ ← on_kern (on_nic (enable va));
  apic ← on_kern (on_nic (Apic.id va));
  _ ← on_kern (zoom kcpus set_cpus (init_bsp apic));
  tsc ← tsc_frequency;
  _ ← zoom time set_time (set_tsc_per_us tsc);
  _ ← on_kern (zoom (fun k : K => (kidt k, nic_state k)) (fun s k => set_nic_state s.2 (set_idt s.1 k))
                 (start_apic_timer va tsc));
  _ ← on_kern ioapic_up;
  mret tsc.

Definition dma_of (s : machine HW) : BootDmaAllocator :=
  {| kernel_offset := mm_kernel_offset (memory (kern s)); phys_offset := mm_phys_offset (memory (kern s)) |}.

(** Whether [try_init] installs its interrupt handler. *)
Definition has_vmbus : bool :=
  match detect cpuid with Some f => has_synic f && has_hypercall f | None => false end.

(** VMBus is optional: its failure is not one of the kernel. *)
Definition vmbus_up (dma : BootDmaAllocator) : Mx bool :=
  _ ← on_kern (if has_vmbus then on_idt (Idt.set_handler VMBUS_VECTOR Idt.vmbus_handler) else mret tt);
  t ← gets tables;
  '(r, t') ← on_kern (on_world (try_init (H0 := boot_dma dma) fuel pfuel cpuid crash_after_stage t));
  _ ← modify (set_tables t');
  let vmbus_holder := match r with Ok o => o | Err _ => None end in
  _ ← on_kern (modify (set_vmbus vmbus_holder));
  mret (bool_decide (is_Some vmbus_holder)).

Definition choose_registry (dma : BootDmaAllocator) (nic_filter : option str)
  : DriverRegistry K ProbedDevice :=
  match nic_filter with
  | Some name =>
      register_named_driver (E1000Driver dma) (TulipDriver dma)
        (NetvscDriver dma fuel pfuel rounds crash_after_stage) new_registry (string_of_list_ascii name)
  | None => default_registry dma fuel pfuel rounds crash_after_stage
  end.

Definition probe_devices (dma : BootDmaAllocator) (nic_filter : option str) (is_hyperv : bool)
  : Mx (list (ProbedNic ProbedDevice)) :=
  a ← lift (VectorAlloc.new 32 47 (reservations is_hyperv));
  _ ← on_kern (modify (set_irq_alloc a));
  on_kern (probe_all ctx_vmbus (choose_registry dma nic_filter)).

(** Optional start of the other processors; the result is how many. *)
Definition smp_up (cmdline : str) (tsc : Z) : Mx (option Z) :=
  let cfg := parse_smp cmdline in
  if negb (enabled cfg) then mret None else
  mp ← gets mp_response;
  match mp with
  | Some (bsp_id, cpus) =>
      let max := default (Z.of_nat MAX_CPUS - 1) (max_aps cfg) in
      _ ← modify (set_ap_init_params tsc);
      let '(started, cpus') := bring_up_aps bsp_id max cpus in
      _ ← modify (set_mp (bsp_id, cpus'));
      mret (Some started)
  | None => mret None
  end.

(** [kmain] up to the network stack and the executor. *)
Definition kmain (responses : LimineResponses) : Mx (boot Cidr) :=
  info ← lift (collect responses);
  _ ← hal_init info (8 * 1024 * 1024);
  tsc ← interrupts_up;
  dma ← gets dma_of;
  is_hyperv ← vmbus_up dma;
  nics ← probe_devices dma (parse_nic_filter (cmdline info)) is_hyperv;
  if bool_decide (nics = []) then panic AssertFailed else
  best ← lift (expect (min_by_key nic_priority nics));
  started ← smp_up (cmdline info) tsc;
  conf ← lift (net_config ipv4_cidr_new (parse_net_mode (cmdline info) NET_DEFAULTS));
  mret {| boot_tsc_per_us := tsc; boot_nics := nics; primary := best; started_aps := started;
          config := conf |}.

End kmain.
