(* ===== verification/TestHarness.v ===== *)
(** The tests that run inside QEMU: the attribute macro that collects the
    functions of a suite ([embclox-test-macros/src/lib.rs]), the harness that
    runs them ([qemu-tests/unit/src/harness.rs]), the runner's [kmain]
    ([main.rs]) for any test functions, and the suite of the per-CPU table
    ([suites/cpu_local.rs]). *)

From Stdlib Require Import String Ascii.
From stdpp Require Import strings pretty.
From S2P Require Import Prelude Mem Dma CpuLocal TimeDriver Cmdline VectorAlloc Nic Pci Ioapic Memory World Isr Driver E1000 Tulip Probe Kernel.

(** ** The macro *)

(** [syn]'s syntax trees, as far as the macro looks into them. *)
Record Path := {
  leading_colon : bool;
  segments : list str;
}.

Definition is_ident (p : Path) (s : str) : bool :=
  negb (leading_colon p) && bool_decide (segments p = [s]).

Record Attribute := {
  attr_path : Path;
  attr_tokens : str;
}.

(** [B] is the code of a function. *)
Record ItemFn {B : Type} := {
  attrs : list Attribute;
  ident : str;
  block : B;
}.
#[global] Arguments ItemFn : clear implicits.

(** The function [suite] that the macro adds is an item of its own, with its
    name and, for each case, the name and the function it refers to. *)
Inductive Item {B : Type} :=
| Fn (func : ItemFn B)
| Other (tokens : str)
| SuiteFn (suite_name : str) (test_entries : list (str * str)).
#[global] Arguments Item : clear implicits.

Record ItemMod {B : Type} := {
  mod_ident : str;
  content : option (list (Item B));
}.
#[global] Arguments ItemMod : clear implicits.

Inductive Expr := LitStr (value : str) | OtherExpr.

Record MetaNameValue := {
  nv_path : Path;
  nv_value : Expr;
}.

Section macro.
Context {B : Type}.

Definition is_test (a : Attribute) : bool := is_ident (attr_path a) (lit "test").
Definition has_test (f : ItemFn B) : bool := existsb is_test (attrs f).
Definition strip (f : ItemFn B) : ItemFn B :=
  {| attrs := List.filter (fun a => negb (is_test a)) (attrs f); ident := ident f; block := block f |}.

(** The suite's name.  [attr] is [None] when the attribute has no arguments,
    and else what [syn::parse] makes of them. *)
Definition suite_name (attr : option (result MetaNameValue unit)) (mod_name : str) : outcome str :=
  match attr with
  | None => mret mod_name
  | Some (Err _) => Panic Expect
  | Some (Ok name_value) =>
      _ ← rassert (is_ident (nv_path name_value) (lit "name"));
      match nv_value name_value with LitStr s => mret s | OtherExpr => Panic AssertFailed end
  end.

(** The loop that strips the attributes and collects the names. *)
Fixpoint collect_tests (items : list (Item B)) (test_names : list str) : list (Item B) * list str :=
  match items with
  | [] => ([], test_names)
  | Fn func :: rest =>
      if has_test func then
        let '(rest', names) := collect_tests rest (test_names ++ [ident func]) in
        (Fn (strip func) :: rest', names)
      else let '(rest', names) := collect_tests rest test_names in (Fn func :: rest', names)
  | item :: rest => let '(rest', names) := collect_tests rest test_names in (item :: rest', names)
  end.

Definition test_suite (attr : option (result MetaNameValue unit)) (module : ItemMod B) : outcome (ItemMod B) :=
  name ← suite_name attr (mod_ident module);
  items ← expect (content module);
  let '(items', test_names) := collect_tests items [] in
  let suite_fn := SuiteFn name ((fun n => (n, n)) <$> test_names) in
  mret {| mod_ident := mod_ident module; content := Some (items' ++ [suite_fn]) |}.

(** ** Calling [suite] *)

Definition fns (items : list (Item B)) : list (ItemFn B) :=
  omap (fun i => match i with Fn f => Some f | _ => None end) items.

(** The function a name refers to in the module. *)
Definition resolve (items : list (Item B)) (n : str) : option (ItemFn B) :=
  List.find (fun f => bool_decide (ident f = n)) (fns items).
End macro.

(** ** The harness *)

(** [fn()], on the state [W] that the tests work on. *)
Record TestCase {W : Type} := {
  name : str;
  func : M W unit;
}.
#[global] Arguments TestCase : clear implicits.

(** What [suite()] returns, for the meaning [code] of a function's body. *)
Definition call_suite {B W} (code : B -> M W unit) (module : ItemMod B) : option (str * list (TestCase W)) :=
  items ← content module;
  match last items with
  | Some (SuiteFn suite_name entries) =>
      cases ← mapM (fun '(n, f) => (fun g => {| name := n; func := code (block g) |}) <$> resolve items f) entries;
      mret (suite_name, cases)
  | _ => None
  end.

Section harness.
Context {W : Type}.
Abbreviation St := (W * list str)%type.   (* the harness' log lines *)

Definition info (line : str) : M St unit := modify (fun s => (s.1, s.2 ++ [line])).
Definition on_test {A} : M W A -> M St A := zoom fst (fun w s => (w, s.2)).

Definition suite_line (suite_name : str) : str := lit "# suite: " ++ suite_name.
Definition pass_line (tc : TestCase W) : str := lit "  PASS: " ++ name tc.

Fixpoint run_tests (tests : list (TestCase W)) : M St unit :=
  match tests with
  | [] => mret tt
  | tc :: rest =>
      _ ← on_test (func tc);
      _ ← info (pass_line tc);
      run_tests rest
  end.

Definition run_suite (suite_name : str) (tests : list (TestCase W)) : M St Z :=
  _ ← lift (rassert match tests with [] => false | _ => true end);
  _ ← info (suite_line suite_name);
  _ ← run_tests tests;
  mret (zlen tests).

(** [total += harness::run_suite(name, tests)]. *)
Definition add_suite (total : Z) (s : str * list (TestCase W)) : M St Z :=
  n ← run_suite s.1 s.2;
  lift (uadd total n).

(** What is written to the port of [isa-debug-exit]: [kmain] ends with
    [qemu_exit(0)], and the panic handler with [qemu_exit(1)]. *)
Definition exit_code {A} (o : outcome A) : Z :=
  match o with Ret _ => 0 | Panic _ => 1 end.
End harness.

(** ** The runner *)

(** The suites, and their functions that take over the runner's context. *)
Record Suites {W : Type} := {
  hal_pci : str * list (TestCase W);
  cpu_local : str * list (TestCase W);
  hal_memory : str * list (TestCase W);
  e1000_smoke : str * list (TestCase W);
  e1000_driver : str * list (TestCase W);
  hal_memory_init : Z -> Z -> M W unit;
  e1000_smoke_init : MmioRegs -> BootDmaAllocator -> M W unit;
  e1000_driver_init : MmioRegs -> BootDmaAllocator -> M W unit;
}.
#[global] Arguments Suites : clear implicits.

Section runner.
Context {HW : Type} `{Mmio HW} `{PortIo HW} `{BusMaster HW}.
Context `{PageTables (mem * HW)} `{GlobalAlloc (mem * HW)}.
Context (suites : Suites (machine HW)).
#[local] Existing Instance pci_ports.
Abbreviation Tx := (M (machine HW * list str)).

(** The device for the e1000 suites. *)
Definition e1000_setup : M (machine HW) (MmioRegs * MmioMapping) :=
  on_kern (
    o ← on_nic (find_device_any 0x8086 [0x100E; 0x100F; 0x10D3]);
    pci_dev ← lift (expect o);
    bar0_phys ← on_nic (read_bar pci_dev 0);
    e1000_mmio ← ctx_map_mmio bar0_phys 0x20000;
    let regs := {| regs_base := map_vaddr e1000_mmio |} in
    _ ← on_nic (reset_device regs);
    _ ← on_nic (enable_bus_mastering pci_dev);
    mret (regs, e1000_mmio)).

Definition passed_line (total : Z) : str :=
  lit "=== " ++ lit (pretty (Z.to_N total)) ++ lit " passed ===".

Definition runner_kmain (responses : LimineResponses) : Tx Z :=
  boot_info ← lift (collect responses);
  _ ← on_test (hal_init boot_info (8 * 1024 * 1024));
  _ ← info (lit "=== embclox test runner ===");
  total ← add_suite 0 (hal_pci suites);
  total ← add_suite total (cpu_local suites);
  mm ← on_test (gets (fun s => memory (kern s)));
  _ ← on_test (hal_memory_init suites (mm_phys_offset mm) (mm_kernel_offset mm));
  total ← add_suite total (hal_memory suites);
  '(regs, e1000_mmio) ← on_test e1000_setup;
  dma ← on_test (gets dma_of);
  _ ← on_test (e1000_smoke_init suites regs dma);
  _ ← on_test (e1000_driver_init suites regs dma);
  total ← add_suite total (e1000_smoke suites);
  total ← add_suite total (e1000_driver suites);
  mm ← on_test (gets (fun s => memory (kern s)));
  _ ← on_test (on_kern (on_nic (unmap_mmio mm e1000_mmio)));
  _ ← info (passed_line total);
  mret total.
End runner.

(** ** The suite of the per-CPU table *)

Module cpu_local_suite.

Definition assert_eq {A} `{EqDecision A} (a b : A) : M cpus unit := lift (rassert (bool_decide (a = b))).

Definition max_cpus_is_eight : M cpus unit := assert_eq MAX_CPUS 8%nat.

Definition init_bsp_populates_then_is_stable : M cpus unit :=
  _ ← init_bsp 0x42;
  o ← gets (by_id Bsp);
  first ← lift (expect o);
  _ ← assert_eq (cpu_id first) Bsp;
  _ ← assert_eq (apic_id first) 0x42;
  _ ← init_bsp 0x99;
  o ← gets (by_id Bsp);
  second ← lift (expect o);
  assert_eq (apic_id second) 0x42.

Definition current_is_bsp : M cpus unit :=
  _ ← init_bsp 0x42;
  cur ← gets current_cpu_id;
  assert_eq cur Bsp.

Definition apic_id_resolves_via_cpu_local : M cpus unit :=
  _ ← init_bsp 0x42;
  id ← gets (CpuId_apic_id Bsp);
  assert_eq id 0x42.

Definition unpopulated_ap_slot_returns_none : M cpus unit :=
  o ← gets (by_id (Ap 3));
  _ ← lift (rassert match o with None => true | Some _ => false end);
  id ← gets (CpuId_apic_id (Ap 3));
  assert_eq id 0.

Definition out_of_range_ap_returns_none : M cpus unit :=
  o ← gets (by_id (Ap (as_u8 (Z.of_nat MAX_CPUS) + 1)));
  lift (rassert match o with None => true | Some _ => false end).

Definition attribute (path : string) : Attribute :=
  {| attr_path := {| leading_colon := false; segments := [lit path] |}; attr_tokens := [] |}.

(** A function with a doc comment and [#[test]]. *)
Definition test_fn (n : string) (code : M cpus unit) : Item (M cpus unit) :=
  Fn {| attrs := [attribute "doc"; attribute "test"]; ident := lit n; block := code |}.

(** [mod tests]. *)
Definition tests : ItemMod (M cpus unit) :=
  {| mod_ident := lit "tests";
     content := Some [
       Other (lit "use super::*;");
       test_fn "max_cpus_is_eight" max_cpus_is_eight;
       test_fn "init_bsp_populates_then_is_stable" init_bsp_populates_then_is_stable;
       test_fn "current_is_bsp" current_is_bsp;
       test_fn "apic_id_resolves_via_cpu_local" apic_id_resolves_via_cpu_local;
       test_fn "unpopulated_ap_slot_returns_none" unpopulated_ap_slot_returns_none;
       test_fn "out_of_range_ap_returns_none" out_of_range_ap_returns_none] |}.

(** [#[test_suite(name = ..)]]. *)
Definition suite_attr (n : string) : option (result MetaNameValue unit) :=
  Some (Ok {| nv_path := {| leading_colon := false; segments := [lit "name"] |}; nv_value := LitStr (lit n) |}).

Definition suite : option (str * list (TestCase cpus)) :=
  match test_suite (suite_attr "cpu_local") tests with
  | Ret m => call_suite id m
  | Panic _ => None
  end.

(** On the table as it is before any processor is known, the suite passes. *)
Lemma cpu_local_suite_passes :
  match suite with
  | Some (n, cases) => n = lit "cpu_local" /\ exists s, run_suite n cases (no_cpus, []) = Ret (6, s)
  | None => False
  end.
Proof. vm_compute. eauto. Qed.
End cpu_local_suite.

(** ** Properties *)

Section facts.
Context {B W : Type} (code : B -> M W unit).

(** The functions marked [#[test]], in the order of the module. *)
Definition marked (items : list (Item B)) : list (ItemFn B) := List.filter has_test (fns items).

Definition case_of (f : ItemFn B) : TestCase W := {| name := ident f; func := code (block f) |}.

Definition strip_item (i : Item B) : Item B := match i with Fn f => Fn (strip f) | _ => i end.

Lemma filter_all {A} (p : A -> bool) l : forallb p l = true -> List.filter p l = l.
Proof. induction l as [|x l IH]; cbn; [done|]. intros [-> H]%andb_true_iff. by rewrite IH. Qed.

Lemma strip_unmarked (f : ItemFn B) : has_test f = false -> strip f = f.
Proof.
  destruct f as [ats i b]. unfold has_test, strip. cbn [attrs ident block]. intros Hf.
  rewrite filter_all; [done|]. apply forallb_forall. intros a Ha. apply negb_true_iff.
  apply not_true_is_false. intros Ht. apply (Bool.diff_false_true). rewrite <- Hf.
  apply existsb_exists. eauto.
Qed.

Lemma strip_has_test (f : ItemFn B) : has_test (strip f) = false.
Proof.
  unfold has_test, strip. cbn [attrs]. induction (attrs f) as [|a l IH]; [done|]. cbn.
  destruct (is_test a) eqn:E; cbn; [done|]. by rewrite E.
Qed.

Lemma collect_tests_spec items names :
  collect_tests items names = (strip_item <$> items, names ++ (ident <$> marked items)).
Proof.
  revert names. induction items as [|i items IH]; intros names.
  - by rewrite app_nil_r.
  - destruct i as [f| |]; cbn [collect_tests strip_item fmap list_fmap]; [|by rewrite IH..].
    unfold marked. cbn [fns omap list_omap List.filter]. destruct (has_test f) eqn:E; rewrite IH.
    + cbn [fmap list_fmap]. by rewrite <- app_assoc.
    + by rewrite (strip_unmarked f E).
Qed.

Lemma fns_strip items rest :
  fns ((strip_item <$> items) ++ [SuiteFn rest.1 rest.2]) = strip <$> fns items.
Proof.
  unfold fns. rewrite omap_app. cbn. rewrite app_nil_r. induction items as [|i items IH]; [done|].
  destruct i; cbn; by rewrite ?IH.
Qed.

Lemma find_ident (fs : list (ItemFn B)) f :
  NoDup (ident <$> fs) -> f ∈ fs ->
  List.find (fun g => bool_decide (ident g = ident f)) (strip <$> fs) = Some (strip f).
Proof.
  induction fs as [|g fs IH]; intros Hnd Hin; [by apply not_elem_of_nil in Hin|].
  cbn [fmap list_fmap] in *. apply NoDup_cons in Hnd as [Hg Hnd].
  apply elem_of_cons in Hin as [->|Hin]; cbn [List.find].
  - by rewrite bool_decide_true.
  - rewrite bool_decide_false; [by apply IH|]. cbn [strip ident]. intros E. apply Hg. rewrite E.
    by apply list_elem_of_fmap_2.
Qed.

Lemma test_suite_inv attr (m m' : ItemMod B) items :
  content m = Some items -> test_suite attr m = Ret m' ->
  exists n, suite_name attr (mod_ident m) = Ret n /\
    content m' = Some ((strip_item <$> items) ++ [SuiteFn n ((fun x => (x, x)) <$> (ident <$> marked items))]).
Proof.
  intros Hc E. unfold test_suite in E. rewrite Hc in E.
  destruct (suite_name attr (mod_ident m)) as [n|]; [|discriminate E].
  cbn [mbind outcome_bind expect] in E. rewrite collect_tests_spec in E. injection E as <-. by exists n.
Qed.

(** Every entry refers to the function it was made from. *)
Lemma mapM_cases (fs all : list (ItemFn B)) items :
  fns items = strip <$> all -> NoDup (ident <$> all) -> fs ⊆ all ->
  mapM (fun '(n, f) => (fun g => {| name := n; func := code (block g) |}) <$> resolve items f)
    ((fun x => (x, x)) <$> (ident <$> fs)) = Some (case_of <$> fs).
Proof.
  intros Hi Hnd. induction fs as [|f fs IH]; intros Hin; [done|]. cbn [fmap list_fmap mapM].
  assert (Hf : resolve items (ident f) = Some (strip f)).
  { unfold resolve. rewrite Hi. apply find_ident; [done|]. apply Hin. set_solver. }
  rewrite Hf. cbn. rewrite IH by set_solver. done.
Qed.

Lemma call_suite_cases attr (m m' : ItemMod B) items :
  content m = Some items -> NoDup (ident <$> fns items) -> test_suite attr m = Ret m' ->
  exists n, suite_name attr (mod_ident m) = Ret n /\ call_suite code m' = Some (n, case_of <$> marked items).
Proof.
  intros Hc Hnd E. destruct (test_suite_inv _ _ _ _ Hc E) as (n & Hn & Hm). exists n. split; [exact Hn|].
  unfold call_suite. rewrite Hm. cbn [mbind option_bind]. rewrite last_snoc.
  rewrite (mapM_cases _ (fns items)); [done| |done|].
  - apply (fns_strip items (n, _)).
  - intros f Hf. unfold marked in Hf. apply list_elem_of_In, filter_In in Hf as [Hf _]. by apply list_elem_of_In.
Qed.
End facts.

Section runs.
Context {W : Type}.
Implicit Types (tests : list (TestCase W)) (w : W) (l : list str).

(** The tests return, each from the state the one before it left. *)
Fixpoint returns tests (w w' : W) : Prop :=
  match tests with
  | [] => w = w'
  | tc :: rest => exists w1, func tc w = Ret (tt, w1) /\ returns rest w1 w'
  end.

(** A test panics after those before it returned. *)
Definition test_panics tests w f : Prop :=
  exists before tc after w1, tests = before ++ tc :: after /\ returns before w w1 /\ func tc w1 = Panic f.

Lemma run_tests_cases tests w l :
  (exists w', returns tests w w' /\ run_tests tests (w, l) = Ret (tt, (w', l ++ (pass_line <$> tests)))) \/
  (exists f, test_panics tests w f /\ run_tests tests (w, l) = Panic f).
Proof.
  revert w l. induction tests as [|tc rest IH]; intros w l.
  - left. exists w. split; [done|]. by rewrite app_nil_r.
  - destruct (func tc w) as [[[] w1]|f] eqn:E.
    + assert (Hrun : run_tests (tc :: rest) (w, l) = run_tests rest (w1, l ++ [pass_line tc])).
      { cbn [run_tests]. unfold mbind, M_bind, on_test, zoom. cbn [fst]. by rewrite E. }
      rewrite Hrun. destruct (IH w1 (l ++ [pass_line tc])) as [(w' & Hr & ->)|(f & (b & t & a & w2 & -> & Hb & Ht) & ->)].
      * left. exists w'. rewrite <- app_assoc. split; [by exists w1|done].
      * right. exists f. split; [|done]. exists (tc :: b), t, a, w2. split_and!; [done|by exists w1|done].
    + right. exists f. split; [by exists [], tc, rest, w|]. cbn [run_tests].
      unfold mbind, M_bind, on_test, zoom. cbn [fst]. by rewrite E.
Qed.

Lemma returns_inj tests w w1 w2 : returns tests w w1 -> returns tests w w2 -> w1 = w2.
Proof.
  revert w. induction tests as [|tc rest IH]; intros w; cbn; [congruence|].
  intros (a & Ea & Ha) (b & Eb & Hb). rewrite Ea in Eb. injection Eb as <-. by eapply IH.
Qed.

Lemma returns_not_panics tests w w' f : returns tests w w' -> test_panics tests w f -> False.
Proof.
  intros Hr (b & tc & a & w1 & -> & Hb & Ht). revert w Hr Hb. induction b as [|t b IH]; intros w; cbn.
  - intros (w2 & E & _) <-. by rewrite E in Ht.
  - intros (w2 & E & Hr) (w3 & E' & Hb). rewrite E in E'. injection E' as <-. by eapply IH.
Qed.

Lemma test_panics_inj tests w f g : test_panics tests w f -> test_panics tests w g -> f = g.
Proof.
  intros (b & tc & a & w1 & -> & Hb & Ht). revert w Hb. induction b as [|t b IH]; intros w Hb (b' & tc' & a' & w2 & E & Hb' & Ht').
  - cbn in Hb. subst w1. destruct b' as [|t' b']; cbn in E; injection E as <- E.
    + cbn in Hb'. subst w2. congruence.
    + destruct Hb' as (w3 & E' & _). congruence.
  - destruct Hb as (w3 & E3 & Hb). destruct b' as [|t' b']; cbn in E; injection E as <- E.
    + cbn in Hb'. subst w2. congruence.
    + destruct Hb' as (w4 & E4 & Hb'). rewrite E3 in E4. injection E4 as <-. apply (IH w3 Hb).
      exists b', tc', a', w2. by rewrite E.
Qed.

(** A suite returns exactly when it has tests and all return, and panics
    exactly when it has none or one of them panics. *)
Lemma run_suite_ret n tests w l r :
  run_suite n tests (w, l) = Ret r <->
  tests <> [] /\ exists w', returns tests w w' /\
    r = (zlen tests, (w', l ++ suite_line n :: (pass_line <$> tests))).
Proof.
  destruct tests as [|tc rest]; [split; [discriminate|by intros [? _]]|]. set (tests := tc :: rest).
  assert (Hs : run_suite n tests (w, l) = (_ ← run_tests tests; mret (zlen tests)) (w, l ++ [suite_line n])) by done.
  rewrite Hs. unfold mbind, M_bind.
  destruct (run_tests_cases tests w (l ++ [suite_line n])) as [(w' & Hr & ->)|(f & Hp & ->)].
  - rewrite <- app_assoc. cbn [app]. split.
    + intros [= <-]. split; [done|]. by exists w'.
    + intros (_ & w2 & Hr2 & ->). by rewrite (returns_inj _ _ _ _ Hr Hr2).
  - split; [discriminate|]. intros (_ & w2 & Hr2 & _). by destruct (returns_not_panics _ _ _ _ Hr2 Hp).
Qed.

Lemma run_suite_panic n tests w l f :
  run_suite n tests (w, l) = Panic f <-> (tests = [] /\ f = AssertFailed) \/ test_panics tests w f.
Proof.
  destruct tests as [|tc rest].
  { split; [intros [= <-]; by left|]. intros [[_ ->]|(b & t & a & w1 & E & _)]; [done|]. by destruct b. }
  set (tests := tc :: rest).
  assert (Hs : run_suite n tests (w, l) = (_ ← run_tests tests; mret (zlen tests)) (w, l ++ [suite_line n])) by done.
  rewrite Hs. unfold mbind, M_bind.
  destruct (run_tests_cases tests w (l ++ [suite_line n])) as [(w' & Hr & ->)|(g & Hp & ->)].
  - split; [discriminate|]. intros [[? _]|Hp]; [done|]. by destruct (returns_not_panics _ _ _ _ Hr Hp).
  - split; [intros [= <-]; by right|]. intros [[? _]|Hp2]; [done|]. by rewrite (test_panics_inj _ _ _ _ Hp Hp2).
Qed.
End runs.


Lemma cpu_local_distinct : NoDup (ident <$> fns (default [] (content cpu_local_suite.tests))).
Proof. apply (bool_decide_unpack _). vm_compute. exact I. Qed.


(** ** The verdict of a run *)

Lemma on_test_inv {W A} (c : M W A) w l a w' l' :
  on_test c (w, l) = Ret (a, (w', l')) -> c w = Ret (a, w') /\ l' = l.
Proof. unfold on_test, zoom. cbn [fst]. destruct (c w) as [[a' w1]|]; [|done]. by intros [= -> -> ->]. Qed.

Definition suite_lines {W} (s : str * list (TestCase W)) : list str := suite_line s.1 :: (pass_line <$> s.2).

(** The suite has tests, and they returned. *)
Definition passed {W} (s : str * list (TestCase W)) : Prop := s.2 <> [] /\ exists w w', returns s.2 w w'.

Lemma add_suite_inv {W} total (s : str * list (TestCase W)) w l n w' l' :
  add_suite total s (w, l) = Ret (n, (w', l')) ->
  passed s /\ n = total + zlen s.2 /\ l' = l ++ suite_lines s.
Proof.
  unfold add_suite. intros (k & [w1 l1] & (Hne & w2 & Hr & [= -> -> ->])%run_suite_ret & Hadd)%bind_inv.
  apply lift_inv in Hadd as [Hadd [= -> ->]]. unfold uadd in Hadd. destruct (_ <? _); [|discriminate Hadd].
  injection Hadd as <-. split; [|done]. split; [done|]. by exists w, w2.
Qed.

Definition all_suites {W} (suites : Suites W) : list (str * list (TestCase W)) :=
  [hal_pci suites; cpu_local suites; hal_memory suites; e1000_smoke suites; e1000_driver suites].

Ltac run_step H := first
  [ apply bind_inv in H as (? & [? ?] & (? & ->)%on_test_inv & H)
  | apply bind_inv in H as (? & [? ?] & (? & -> & ->)%add_suite_inv & H) ].

(** Success is reported only for a complete run.  If the runner's exit
    code says success, each of the five suites had tests and all of them
    returned, and the log is the banner, the lines of the suites in their
    order with one for every test, and the number of tests that passed. *)
Theorem success_means_all_passed {HW} `{Mmio HW} `{PortIo HW} `{BusMaster HW}
    `{PageTables (mem * HW)} `{GlobalAlloc (mem * HW)} (suites : Suites (machine HW)) responses w :
  exit_code (runner_kmain suites responses (w, [])) = 0 ->
  Forall passed (all_suites suites) /\
  let total := foldl (fun n s => n + zlen s.2) 0 (all_suites suites) in
  exists w', runner_kmain suites responses (w, []) =
    Ret (total, (w', lit "=== embclox test runner ===" :: mjoin (suite_lines <$> all_suites suites) ++ [passed_line total])).
Proof.
  destruct (runner_kmain suites responses (w, [])) as [[n [w' l']]|] eqn:E; [|discriminate]. intros _.
  unfold runner_kmain in E. apply bind_inv in E as (info & s0 & [_ ->]%lift_inv & E).
  run_step E. apply bind_inv in E as (? & ? & [= <- <-] & E). cbn [fst snd app] in E.
  repeat run_step E. match type of E with (let '(_, _) := ?x in _) _ = _ => destruct x end. repeat run_step E.
  unfold all_suites. split; [by repeat (apply List.Forall_cons; [assumption|])|]. exists w'.
  injection E as <- <- <-. cbn [fmap list_fmap mjoin list_join]. by rewrite ?app_nil_r, <- ?app_assoc.
Qed.

(** A PC with an e1000 in slot 2 of bus 0.  The state of the hardware is the
    PCI address register. *)
Module demo_runner.
Definition pc_config (addr : Z) : Z :=
  if addr =? pci_config_address 0 2 0 0 then 0x100E8086 else
  if addr =? pci_config_address 0 2 0 0x10 then 0xFEB80000 else 0xFFFFFFFF.

#[export] Instance t_mmio : Mmio Z := {| mmio_read32 _ s := (0, s); mmio_write32 _ _ s := s |}.
#[export] Instance t_ports : PortIo Z :=
  {| port_out32 p v s := if p =? PCI_CONFIG_ADDR then (s.1, v) else s;
     port_in32 p s := (if p =? PCI_CONFIG_DATA then pc_config s.2 else 0, s) |}.
#[export] Instance t_bus_master : BusMaster Z := {| dma_async s := s |}.
#[export] Instance t_page_tables : PageTables (mem * Z) :=
  {| cr3_start_address _ := 0; VirtAddr_new := Ret; PhysAddr_new := Ret;
     page_containing v := v / 4096 * 4096; frame_containing p := p / 4096 * 4096;
     map_to _ _ _ _ _ s := Ret (Ok tt, s); unmap _ _ s := Ret (Ok 0, s);
     translate _ _ s := Ret (None, s) |}.
#[export] Instance t_heap : GlobalAlloc (mem * Z) :=
  {| alloc_zeroed _ _ s := Ret (0, s); dealloc _ _ _ s := Ret (tt, s) |}.

Definition t_responses : LimineResponses :=
  {| base_revision_supported := true; hhdm_response := Some 0; address_response := Some (0x100000, 0x100000);
     cmdline_response := None |}.

Definition t_machine : machine Z :=
  {| kern := {| kworld := {| wmem := ∅; now := 0; next_gpadl := 1; trace := []; hostq := [] |};
                khw := 0; kidt := ∅; kcpus := no_cpus; memory := new_mapper 0 0;
                ioapic := {| ioapic_base := 0 |}; irq_alloc := {| used := 0; start := 32; end_ := 32 |};
                ctx_vmbus := None; E1000_REGS_BASE := 0; CSR_FOR_ISR := None |};
     time := DRIVER; tables := no_tables; INITIALIZED := false; heap := None; AP_TSC_PER_US := 0;
     mp_response := None |}.

(** A test of the running kernel: the heap is there. *)
Definition heap_is_set : TestCase (machine Z) :=
  {| name := lit "heap_is_set";
     func := h ← gets heap; lift (rassert (bool_decide (h = Some HEAP_SIZE))) |}.

Definition t_suite (n : string) : str * list (TestCase (machine Z)) := (lit n, [heap_is_set]).

(** The suite of the per-CPU table, and that one test in the others. *)
Definition t_suites : Suites (machine Z) :=
  {| hal_pci := t_suite "hal_pci";
     cpu_local := match cpu_local_suite.suite with
       | Some (n, cases) =>
           (n, (fun tc => {| name := name tc; func := on_kern (zoom kcpus set_cpus (func tc)) |}) <$> cases)
       | None => (lit "cpu_local", [])
       end;
     hal_memory := t_suite "hal_memory"; e1000_smoke := t_suite "e1000_smoke";
     e1000_driver := t_suite "e1000_driver";
     hal_memory_init _ _ := mret tt; e1000_smoke_init _ _ := mret tt; e1000_driver_init _ _ := mret tt |}.
End demo_runner.
Import demo_runner.

Lemma success_means_all_passed_witness :
  Forall passed (all_suites t_suites) /\
  exists w' l, runner_kmain t_suites t_responses (t_machine, []) = Ret (10, (w', l)).
Proof.
  destruct (success_means_all_passed t_suites t_responses t_machine) as [Hp (w' & E)];
    [vm_compute; reflexivity|].
  split; [exact Hp|]. exists w'. eexists. exact E.
Defined.
