(* ===== verification/KernelFacts.v ===== *)
(** Properties of the boot of the example kernel ([Kernel]), and a small PC on
    which it boots. *)

From Stdlib Require Import String.
From stdpp Require Import strings.
From S2P Require Import Prelude Mem Dma Bits CpuLocal TimeDriver Cmdline VectorAlloc Nic Pci Ioapic Memory Idt Apic.
From S2P Require Import Smp World Hypercall Synic Isr VmBus Driver Channel Netvsc E1000 Tulip Probe Kernel.

(** ** What probing leaves alone *)

Section vectors.
Context {HW : Type} `{Mmio HW} `{PortIo HW} `{BusMaster HW}.
Context `{PageTables (mem * HW)} `{GlobalAlloc (mem * HW)} `{Hypervisor} `{GlobalAlloc world}.
Context (R : list Z) (t0 : IDT) (v0 : option VmBus.VmBus).
Abbreviation K := (kernel HW).

(** The vectors of [R] cannot be allocated and have the handlers of [t0]; the
    VMBus handle is [v0]. *)
Definition protected (k : K) : Prop :=
  VectorAlloc.wf (irq_alloc k) /\ ctx_vmbus k = v0 /\
  forall v, v ∈ R -> (v ∉ free_vectors (irq_alloc k)) /\ (kidt k !! v = t0 !! v).

Lemma keeps_on_nic {A} (c : M (mem * HW) A) : keeps protected (on_nic c).
Proof. by apply keeps_zoom. Qed.
Lemma keeps_on_world {A} (c : W A) : keeps protected (on_world c).
Proof. by apply keeps_zoom. Qed.
#[local] Hint Resolve keeps_on_nic keeps_on_world : keeps.

Lemma keeps_ctx_map_mmio phys size : keeps protected (ctx_map_mmio phys size).
Proof. unfold ctx_map_mmio. keep. by apply keeps_modify. Qed.
#[local] Hint Resolve keeps_ctx_map_mmio : keeps.

Lemma keeps_irq_line d : keeps protected (irq_line d).
Proof. unfold irq_line. keep. Qed.

Lemma set_handler_runs v h (k : K) u k' :
  on_idt (Idt.set_handler v h) k = Ret (u, k') -> k' = set_idt (<[v := h]> (kidt k)) k.
Proof.
  unfold on_idt, zoom, Idt.set_handler, rassert, mbind, M_bind, lift. destruct (32 <=? v); [|discriminate].
  by intros [= _ <-].
Qed.

(** A handler is only ever installed on a vector that was free. *)
Lemma keeps_install line h cpu : keeps protected (install_pci_isr_on line h cpu).
Proof.
  unfold install_pci_isr_on. destruct (line =? 255); [keep|]. do 2 (apply keeps_bind; [keep|intros ?]).
  destruct (_ <=? line); [keep|]. intros k r k' Hk (o & k1 & E1 & E2)%bind_inv.
  pose proof Hk as (Hwf & Hv & HR).
  destruct (ctx_allocate_ok k Hwf) as (o' & a' & E & Hwf' & Ho). rewrite E in E1. injection E1 as <- <-.
  destruct o' as [vector|].
  - apply bind_inv in E2 as (u & k2 & E3%set_handler_runs & E4). subst k2.
    revert E4. match goal with |- ?c ?k1 = _ -> _ => enough (Hc : keeps protected c) end.
    { apply Hc. split_and!; [done..|]. intros v Hv'. destruct (HR v Hv') as [Hnf Hl].
      rewrite Ho, not_elem_of_cons in Hnf. cbn. rewrite lookup_insert_ne by (intros ->; tauto). tauto. }
    keep.
  - destruct Ho as [-> _]. injection E2 as _ <-. exact Hk.
Qed.
#[local] Hint Resolve keeps_irq_line keeps_install : keeps.

Lemma keeps_e1000 dma d : keeps protected (probe (E1000Driver dma) d).
Proof. cbn [probe E1000Driver]. unfold e1000_probe, install_pci_isr. keep. by apply keeps_modify. Qed.

Lemma keeps_tulip dma d : keeps protected (probe (TulipDriver dma) d).
Proof. cbn [probe TulipDriver]. unfold tulip_probe, install_pci_isr. keep. by apply keeps_modify. Qed.

Lemma keeps_netvsc dma fuel pfuel rounds crash d :
  keeps protected (probe (NetvscDriver dma fuel pfuel rounds crash) d).
Proof. cbn [probe NetvscDriver]. unfold netvsc_probe. keep. Qed.

(** ** The probe loop *)

Definition tame {Dev} (drivers : list (Driver K ProbedDevice Dev)) : Prop :=
  forall drv d, drv ∈ drivers -> keeps protected (probe drv d).

Lemma keeps_probe_device {Dev} (drivers : list (Driver K ProbedDevice Dev)) d :
  tame drivers -> keeps protected (probe_device drivers d).
Proof.
  induction drivers as [|drv rest IH]; intros Ht; cbn [probe_device]; [keep|].
  assert (Hrest : keeps protected (probe_device rest d)) by (apply IH; intros x y Hx; apply Ht; by right).
  destruct (matches drv d); [|exact Hrest]. apply keeps_bind; [apply Ht; left|].
  intros [nic|e]; [keep|exact Hrest].
Qed.

Lemma keeps_probe_pci drivers devs nics claimed :
  tame drivers -> keeps protected (probe_pci drivers devs nics claimed).
Proof.
  intros Ht. revert nics claimed. induction devs as [|d devs IH]; intros nics claimed; cbn [probe_pci]; [keep|].
  destruct (_ <=? _)%nat; [keep|]. destruct (bool_decide _); [apply IH|].
  apply keeps_bind; [by apply keeps_probe_device|]. intros [nic|]; apply IH.
Qed.

Lemma keeps_probe_vmbus drivers devs nics :
  tame drivers -> keeps protected (probe_vmbus drivers devs nics).
Proof.
  intros Ht. revert nics. induction devs as [|d devs IH]; intros nics; cbn [probe_vmbus]; [keep|].
  destruct (_ <=? _)%nat; [keep|]. apply keeps_bind; [by apply keeps_probe_device|]. intros [nic|]; apply IH.
Qed.

Lemma keeps_pci_read32 b d f o : keeps protected (pci_read32 (St := K) b d f o).
Proof.
  unfold pci_read32. keep.
  - by apply keeps_modify.
  - intros k v k' Hk. unfold in32. cbn [port_read kernel_ports].
    destruct (port_in32 PCI_CONFIG_DATA (nic_state k)). by intros [= _ <-].
Qed.
#[local] Hint Resolve keeps_pci_read32 : keeps.

Lemma keeps_push_dev out b d f i : keeps protected (push_dev (St := K) out b d f i).
Proof. unfold push_dev, describe, read_class. keep. Qed.
#[local] Hint Resolve keeps_push_dev : keeps.

Lemma keeps_enum_funcs d funcs out : keeps protected (enum_funcs (St := K) d funcs out).
Proof. revert out. induction funcs as [|f fs IH]; intros out; cbn [enum_funcs]; keep. Qed.
#[local] Hint Resolve keeps_enum_funcs : keeps.

Lemma keeps_enumerate : keeps protected (Pci.enumerate (St := K)).
Proof.
  unfold Pci.enumerate. generalize ([] : list PciDevice), (seqZ 0 32).
  intros out devs. revert out. induction devs as [|d ds IH]; intros out; cbn [enum_devs]; keep.
Qed.

Lemma keeps_probe_all registry :
  tame (pci registry) -> tame (vmbus registry) -> keeps protected (probe_all ctx_vmbus registry).
Proof.
  intros Hp Hv. unfold probe_all. apply keeps_bind; [apply keeps_enumerate|intros devs].
  apply keeps_bind; [by apply keeps_probe_pci|intros nics]. apply keeps_bind; [keep|intros offers].
  by apply keeps_probe_vmbus.
Qed.

Lemma keeps_chosen dma fuel pfuel rounds crash filter :
  keeps protected (probe_all ctx_vmbus (choose_registry fuel pfuel rounds crash dma filter)).
Proof.
  assert (Hp : forall l, (forall x, x ∈ l -> x = E1000Driver dma \/ x = TulipDriver dma) -> tame l).
  { intros l Hl drv d [-> | ->]%Hl; [apply keeps_e1000|apply keeps_tulip]. }
  assert (Hv : forall l, (forall x, x ∈ l -> x = NetvscDriver dma fuel pfuel rounds crash) -> tame l).
  { intros l Hl drv d ->%Hl. apply keeps_netvsc. }
  apply keeps_probe_all; [apply Hp|apply Hv]; destruct filter as [n|]; cbn;
    unfold register_named_driver; repeat case_bool_decide; cbn;
    intros x; rewrite ?elem_of_cons, ?elem_of_nil; tauto.
Qed.

End vectors.

(** ** The steps of [kmain] *)

(** The first of the elements with the least key. *)
Lemma min_by_key_first {A} (key : A -> Z) l b :
  min_by_key key l = Some b ->
  exists pre post, l = pre ++ b :: post /\ (forall y, y ∈ pre -> key b < key y) /\
    (forall y, y ∈ post -> key b <= key y).
Proof.
  destruct l as [|x rest]; [discriminate|]. cbn [min_by_key]. intros [= <-].
  enough (Hg : forall rest pre mid best, (forall y, y ∈ pre -> key best < key y) ->
    (forall y, y ∈ mid -> key best <= key y) ->
    let b := foldl (fun best y => if key y <? key best then y else best) best rest in
    exists pre' post, pre ++ best :: mid ++ rest = pre' ++ b :: post /\
      (forall y, y ∈ pre' -> key b < key y) /\ (forall y, y ∈ post -> key b <= key y)).
  { destruct (Hg rest [] [] x) as (pre & post & E & H1 & H2); [by intros ? ?%elem_of_nil..|].
    exists pre, post. split; [exact E|by split]. }
  clear x rest. induction rest as [|y rest IH]; intros pre mid best Hpre Hmid; cbn [foldl].
  { exists pre, mid. rewrite app_nil_r. by split_and!. }
  destruct (Z.ltb_spec (key y) (key best)) as [Hlt|Hge].
  - destruct (IH (pre ++ best :: mid) [] y) as (pre' & post & E & H1 & H2).
    { intros z [Hz|[->|Hz]%elem_of_cons]%elem_of_app; [|done|];
        [specialize (Hpre z Hz)|specialize (Hmid z Hz)]; lia. }
    { by intros ? ?%elem_of_nil. }
    exists pre', post. split; [|by split]. rewrite <- E, <- app_assoc. done.
  - destruct (IH pre (mid ++ [y]) best Hpre) as (pre' & post & E & H1 & H2).
    { intros z [Hz| ->%list_elem_of_singleton]%elem_of_app; [by apply Hmid|done]. }
    exists pre', post. split; [|by split]. rewrite <- E, <- app_assoc. done.
Qed.

(** The allocator of [kmain]. *)
Lemma reserved_pool hv :
  exists a, VectorAlloc.new 32 47 (reservations hv) = Ret a /\ VectorAlloc.wf a /\
    forall v, v ∈ free_vectors a <-> 32 <= v <= 47 /\ v ∉ reservations hv.
Proof.
  eexists. split; [reflexivity|].
  assert (Hwf : VectorAlloc.wf {| used := 0; start := 32; end_ := 47 |}).
  { unfold VectorAlloc.wf. cbn [start end_ used]. split_and!; [lia..|unfold U8; lia|lia|lia|].
    intros. apply Z.testbit_0_l. }
  destruct (reserve_spec (reservations hv) _ Hwf) as (Hw & Hs & He & Ht). split; [exact Hw|].
  intros v. rewrite elem_of_free_vectors, Hs, He. cbn [start end_].
  split; intros [Hr Hv]; (split; [done|]).
  - rewrite Ht in Hv by done. apply orb_false_iff in Hv as [_ Hv]. by apply bool_decide_eq_false in Hv.
  - rewrite Ht, bool_decide_eq_false_2 by done. unfold taken. cbn [used]. by rewrite Z.testbit_0_l.
Qed.

Section boot_facts.
Context {HW : Type} `{Mmio HW} `{PortIo HW} `{BusMaster HW} `{BytePorts (mem * HW)}.
Context `{PageTables (mem * HW)} `{GlobalAlloc (mem * HW)} `{Hypervisor} `{GlobalAlloc world}.
Context (fuel pfuel rounds : nat) (crash : Z).
Abbreviation K := (kernel HW).
Abbreviation X := (machine HW).

Lemma on_kern_runs {A} (c : M K A) (s : X) a s' :
  on_kern c s = Ret (a, s') -> exists k', c (kern s) = Ret (a, k') /\ s' = set_kern k' s.
Proof.
  unfold on_kern, zoom. destruct (c (kern s)) as [[b k']|]; [|discriminate]. intros [= <- <-]. eauto.
Qed.

(** A property of the kernel's state and one of the rest. *)
Lemma keeps_on_kern {A} (I : K -> Prop) (J : X -> Prop) (c : M K A) :
  keeps I c -> (forall k s, J s -> J (set_kern k s)) ->
  keeps (fun s => I (kern s) /\ J s) (on_kern c).
Proof.
  intros Hc HJ s a s' [Hi Hj] (k' & E & ->)%on_kern_runs. split; [by eapply Hc|by apply HJ].
Qed.

(** The handlers of the timer and of spurious interrupts are installed. *)
Definition timer_up (k : K) : Prop :=
  kidt k !! 32 = Some apic_timer_isr /\ kidt k !! 39 = Some spurious_isr.

Lemma start_apic_timer_table va tsc (t : IDT) (s : mem * HW) u r :
  start_apic_timer va tsc (t, s) = Ret (u, r) -> r.1 = <[39 := spurious_isr]> (<[32 := apic_timer_isr]> t).
Proof.
  unfold start_apic_timer. cbv zeta.
  erewrite bind_Ret by (erewrite zoom_Ret; [reflexivity|]; by apply set_handler_ok). cbv beta.
  erewrite bind_Ret by (erewrite zoom_Ret; [reflexivity|]; by apply set_handler_ok). cbv beta.
  unfold zoom. destruct (ap_start_apic_timer va tsc _) as [[? ?]|]; [|discriminate]. by intros [= _ <-].
Qed.

Lemma keeps_ioapic_up : keeps timer_up ioapic_up.
Proof.
  unfold ioapic_up, ctx_map_mmio, on_nic. keep; by (apply keeps_zoom || apply keeps_modify).
Qed.

Lemma probe_devices_keeps dma filter hv (s : X) nics s' :
  probe_devices fuel pfuel rounds crash dma filter hv s = Ret (nics, s') ->
  time s' = time s /\ mp_response s' = mp_response s /\ ctx_vmbus (kern s') = ctx_vmbus (kern s) /\
  forall v, v ∈ reservations hv ->
    (v ∉ free_vectors (irq_alloc (kern s'))) /\ kidt (kern s') !! v = kidt (kern s) !! v.
Proof.
  unfold probe_devices. intros E. destruct (reserved_pool hv) as (a & Ea & Hwf & Hfree). rewrite Ea in E.
  erewrite bind_lift in E by reflexivity. apply bind_inv in E as (? & s1 & E1 & E).
  apply on_kern_runs in E1 as (k1 & E1 & ->), E as (k2 & E & ->). injection E1 as _ <-.
  split; [done|]. split; [done|].
  apply (keeps_chosen (reservations hv) (kidt (kern s)) (ctx_vmbus (kern s))) in E as (_ & Hv & HR).
  - split; [exact Hv|exact HR].
  - split_and!; [done..|]. intros v Hv. split; [|done]. rewrite Hfree. tauto.
Qed.

(** What happened to the other processors. *)
Lemma smp_up_starts text tsc (s : X) r s' :
  smp_up text tsc s = Ret (r, s') ->
  kern s' = kern s /\ time s' = time s /\
  forall n, r = Some n -> AP_TSC_PER_US s' = tsc /\ exists bsp_id cpus,
    mp_response s = Some (bsp_id, cpus) /\
    let max := default (Z.of_nat MAX_CPUS - 1) (max_aps (parse_smp text)) in
    bring_up_aps bsp_id max cpus = (n, default [] (option_map snd (mp_response s'))).
Proof.
  unfold smp_up. destruct (negb (enabled (parse_smp text))); [by intros [= <- <-]|].
  intros E. apply bind_inv in E as (mp & s1 & E1 & E). injection E1 as <- <-.
  destruct (mp_response s) as [[bsp_id cpus]|]; [|by injection E as <- <-].
  apply bind_inv in E as (? & s1 & E1 & E). injection E1 as _ <-.
  destruct (bring_up_aps bsp_id _ cpus) as [n' cpus'] eqn:Eb.
  apply bind_inv in E as (? & s2 & E2 & E). injection E2 as _ <-. injection E as <- <-.
  split; [done|]. split; [done|]. intros n [= <-]. split; [done|]. exists bsp_id, cpus. by split.
Qed.

Context (cpuid : Z -> CpuidResult) (rdmsr : Z -> world -> Z).

Lemma interrupts_up_installs s tsc s' :
  interrupts_up cpuid rdmsr s = Ret (tsc, s') ->
  timer_up (kern s') /\ tsc_per_us (time s') = tsc.
Proof.
  unfold interrupts_up. intros E. do 6 (apply bind_inv in E as (? & ? & _ & E)).
  apply bind_inv in E as (tsc' & s0 & _ & E). apply bind_inv in E as (? & s1 & E1 & E).
  apply bind_inv in E as (? & s2 & E2 & E). apply bind_inv in E as (? & s3 & E3 & E). injection E as <- <-.
  unfold zoom, set_tsc_per_us, modify in E1. injection E1 as _ <-.
  apply on_kern_runs in E2 as (k2 & E2 & ->). apply on_kern_runs in E3 as (k3 & E3 & ->).
  split; [|done]. eapply keeps_ioapic_up; [|exact E3]. revert E2. unfold zoom.
  destruct (start_apic_timer _ _ _) as [[u r]|] eqn:Er; [|discriminate]. intros [= _ <-].
  apply start_apic_timer_table in Er. unfold timer_up. cbn [kern set_kern kidt set_nic_state set_idt].
  rewrite Er. split; [by rewrite lookup_insert_ne, lookup_insert_eq|by rewrite lookup_insert_eq].
Qed.

(** VMBus comes up only where its interrupt handler was installed. *)
Lemma try_init_some (dma : DmaAllocator world) t w v t' w' :
  try_init (H0 := dma) fuel pfuel cpuid crash t w = Ret ((Ok (Some v), t'), w') -> has_vmbus cpuid = true.
Proof.
  unfold try_init, has_vmbus. destruct (detect cpuid) as [f|]; [|by intros [=]].
  by destruct (has_synic f && has_hypercall f); [|intros [=]].
Qed.

Lemma vmbus_up_installs dma (s : X) b s' :
  vmbus_up cpuid fuel pfuel crash dma s = Ret (b, s') -> timer_up (kern s) ->
  timer_up (kern s') /\ time s' = time s /\ b = bool_decide (is_Some (ctx_vmbus (kern s'))) /\
  (b = true -> kidt (kern s') !! 34 = Some Idt.vmbus_handler).
Proof.
  unfold vmbus_up. intros E [H32 H39].
  apply bind_inv in E as (? & s1 & E1 & E). apply bind_inv in E as (t & s2 & E2 & E).
  injection E2 as <- <-. apply bind_inv in E as ([r t'] & s3 & E3 & E).
  apply bind_inv in E as (? & s4 & E4 & E). injection E4 as _ <-.
  apply bind_inv in E as (? & s5 & E5 & E). injection E as <- <-.
  apply on_kern_runs in E1 as (k1 & E1 & ->), E3 as (k3 & E3 & ->), E5 as (k5 & E5 & ->).
  injection E5 as _ <-. revert E3. unfold on_world, zoom.
  destruct (try_init _ _ _ _ _ _) as [[[r' t''] w']|] eqn:Et; [|discriminate]. intros [= -> -> <-].
  cbn [kern set_kern set_tables set_vmbus ctx_vmbus time kidt set_world].
  assert (Hk1 : kidt k1 = if has_vmbus cpuid then <[34 := Idt.vmbus_handler]> (kidt (kern s)) else kidt (kern s)).
  { revert E1. destruct (has_vmbus cpuid); [|by intros [= _ <-]]. by intros ->%set_handler_runs. }
  unfold timer_up. cbn [kidt set_vmbus set_world]. rewrite Hk1. split_and!; [| |done|done|].
  - destruct (has_vmbus cpuid); [by rewrite lookup_insert_ne|done].
  - destruct (has_vmbus cpuid); [by rewrite lookup_insert_ne|done].
  - intros Hb. apply bool_decide_eq_true in Hb as [v Hv]. destruct r as [[v'|]|]; [|discriminate Hv..].
    rewrite (try_init_some _ _ _ _ _ _ Et). by rewrite lookup_insert_eq.
Qed.

Definition mp_is (mp : option (Z * list Cpu) * list AlarmSlots) (s : X) : Prop :=
  mp_response s = mp.1 /\ alarms (time s) = mp.2.

Lemma keeps_mp_tsc mp tsc : keeps (mp_is mp) (zoom time set_time (set_tsc_per_us tsc)).
Proof. intros s u s' Hs [= _ <-]. exact Hs. Qed.

Lemma keeps_mp_hal mp info n : keeps (mp_is mp) (hal_init info n).
Proof. unfold hal_init, heap_init, on_kern. keep; by (apply keeps_zoom || apply keeps_modify). Qed.

Lemma keeps_mp_interrupts mp : keeps (mp_is mp) (interrupts_up cpuid rdmsr).
Proof.
  unfold interrupts_up, tsc_frequency, read_hv_tsc_freq, on_kern.
  keep; (by apply keeps_mp_tsc) || by apply keeps_zoom.
Qed.

Lemma keeps_mp_vmbus mp dma : keeps (mp_is mp) (vmbus_up cpuid fuel pfuel crash dma).
Proof. unfold vmbus_up, on_kern. keep; by (apply keeps_zoom || apply keeps_modify). Qed.
End boot_facts.

(** The handler the kernel needs at a vector. *)
Definition system_handler (v : Z) : option handler :=
  if v =? 32 then Some apic_timer_isr else
  if v =? 39 then Some spurious_isr else
  if v =? 34 then Some Idt.vmbus_handler else None.

(** ** The steps of a boot *)

Section booted.
Context {HW : Type} `{Mmio HW} `{PortIo HW} `{BusMaster HW} `{BytePorts (mem * HW)}.
Context `{PageTables (mem * HW)} `{GlobalAlloc (mem * HW)} `{Hypervisor} `{GlobalAlloc world}.
Context (cpuid : Z -> CpuidResult) (rdmsr : Z -> world -> Z) (fuel pfuel rounds : nat) (crash : Z).
Context {Cidr : Type} (ipv4_cidr_new : octets -> Z -> outcome Cidr) (responses : LimineResponses).
Abbreviation X := (machine HW).
Abbreviation kmain := (kmain cpuid rdmsr fuel pfuel rounds crash ipv4_cidr_new responses).

(** The states between the steps of [kmain]. *)
Record boot_steps (s : X) (b : boot Cidr) (s' : X) (info : LimineBootInfo) (hv : bool) (s1 s2 s4 s5 : X) : Prop := {
  bs_collect : collect responses = Ret info;
  bs_hal : hal_init info (8 * 1024 * 1024) s = Ret (tt, s1);
  bs_interrupts : interrupts_up cpuid rdmsr s1 = Ret (boot_tsc_per_us b, s2);
  bs_vmbus : vmbus_up cpuid fuel pfuel crash (dma_of s2) s2 = Ret (hv, s4);
  bs_probe : probe_devices fuel pfuel rounds crash (dma_of s2) (parse_nic_filter (cmdline info)) hv s4 =
    Ret (boot_nics b, s5);
  bs_primary : min_by_key nic_priority (boot_nics b) = Some (primary b);
  bs_smp : smp_up (cmdline info) (boot_tsc_per_us b) s5 = Ret (started_aps b, s');
  bs_config : net_config ipv4_cidr_new (parse_net_mode (cmdline info) NET_DEFAULTS) = Ret (config b);
}.

Lemma kmain_steps s b s' :
  kmain s = Ret (b, s') -> exists info hv s1 s2 s4 s5, boot_steps s b s' info hv s1 s2 s4 s5.
Proof.
  unfold Kernel.kmain. intros E.
  apply bind_inv in E as (info & s0 & [E0 ->]%lift_inv & E).
  apply bind_inv in E as ([] & s1 & E1 & E). apply bind_inv in E as (tsc & s2 & E2 & E).
  apply bind_inv in E as (dma & s3 & E3 & E). injection E3 as <- <-.
  apply bind_inv in E as (hv & s4 & E4 & E). apply bind_inv in E as (nics & s5 & E5 & E).
  destruct (bool_decide (nics = [])); [discriminate|].
  apply bind_inv in E as (best & s6 & [E6 ->]%lift_inv & E).
  apply bind_inv in E as (started & s7 & E7 & E).
  apply bind_inv in E as (conf & s8 & [E8 ->]%lift_inv & E). injection E as <- <-.
  exists info, hv, s1, s2, s4, s5. split; try done. cbn [boot_nics primary].
  destruct (min_by_key nic_priority nics); [by injection E6 as ->|discriminate].
Qed.

(** What holds of the interrupts and the clock after a boot. *)
Lemma boot_steps_system s b s' info hv s1 s2 s4 s5 :
  boot_steps s b s' info hv s1 s2 s4 s5 ->
  hv = bool_decide (is_Some (ctx_vmbus (kern s'))) /\
  (forall v, v ∈ reservations hv ->
    (v ∉ free_vectors (irq_alloc (kern s'))) /\ kidt (kern s') !! v = system_handler v) /\
  time s' = {| tsc_per_us := boot_tsc_per_us b; alarms := alarms (time s) |} /\
  mp_response s5 = mp_response s.
Proof.
  intros [_ E1 E2 E4 E5 _ E7 _].
  assert (Hmp4 : mp_is (mp_response s, alarms (time s)) s4).
  { eapply keeps_mp_vmbus, E4. eapply keeps_mp_interrupts, E2. by eapply keeps_mp_hal, E1. }
  destruct Hmp4 as [Hmp4 Hal4]. cbn [fst snd] in Hmp4, Hal4.
  apply interrupts_up_installs in E2 as [Ht Htsc].
  apply vmbus_up_installs in E4 as (Ht4 & Htime & Hhv & H34); [|exact Ht].
  apply probe_devices_keeps in E5 as (Htime5 & Hmp5 & Hv5 & HR).
  apply smp_up_starts in E7 as (Hk7 & Htime7 & _).
  rewrite Hk7, Hv5. split_and!; [exact Hhv| | |congruence].
  - intros v Hv. destruct (HR v Hv) as [Hf Hl]. split; [exact Hf|]. rewrite Hl. destruct Ht4 as [H32 H39].
    destruct hv; cbn in Hv; repeat (apply elem_of_cons in Hv as [->|Hv]; [by (done || apply H34)|]);
      by apply elem_of_nil in Hv.
  - rewrite Htime7, Htime5, <- Hal4, Htime, <- Htsc. by destruct (time s2).
Qed.

(** The handlers a booted kernel has. *)
Lemma kmain_handlers s b s' :
  kmain s = Ret (b, s') ->
  kidt (kern s') !! 32 = Some apic_timer_isr /\
  (is_Some (ctx_vmbus (kern s')) -> kidt (kern s') !! 34 = Some Idt.vmbus_handler) /\
  time s' = {| tsc_per_us := boot_tsc_per_us b; alarms := alarms (time s) |}.
Proof.
  intros (info & hv & s1 & s2 & s4 & s5 & Hb)%kmain_steps.
  apply boot_steps_system in Hb as (Hhv & Hv & Ht & _). split_and!; [| |exact Ht].
  - apply Hv. destruct hv; left.
  - intros Hs. apply (Hv 34). rewrite Hhv, bool_decide_true by done. right; left.
Qed.

Lemma parse_ipv4_cidr_prefix text ip prefix : parse_ipv4_cidr text = Some (ip, prefix) -> prefix <= 32.
Proof.
  unfold parse_ipv4_cidr. intros ([? ?] & _ & (? & _ & (n & _ & E)%bind_Some)%bind_Some)%bind_Some.
  destruct (Z.ltb_spec 32 n); [discriminate|]. injection E as _ <-. lia.
Qed.

(** Any command line gives settings that the stack accepts: a prefix is at
    most 32. *)
Lemma net_config_ok text :
  (forall ip prefix, prefix <= 32 -> exists c, ipv4_cidr_new ip prefix = Ret c) ->
  exists c, net_config ipv4_cidr_new (parse_net_mode text NET_DEFAULTS) = Ret c.
Proof.
  intros Hnew. unfold parse_net_mode. destruct (fold_left _ _ _) as [[mode ip_cidr] gw].
  destruct (eq_ignore_ascii_case mode _); [by eexists|].
  destruct (default _ (ip_cidr ≫= parse_ipv4_cidr)) as [ip prefix] eqn:Ed.
  assert (Hp : prefix <= 32).
  { destruct ip_cidr as [t|]; cbn in Ed; [|injection Ed as _ <-; lia].
    destruct (parse_ipv4_cidr t) as [[i p]|] eqn:Ec; cbn in Ed; [|injection Ed as _ <-; lia].
    injection Ed as -> ->. by apply parse_ipv4_cidr_prefix in Ec. }
  unfold net_config. destruct (Hnew ip prefix Hp) as [c ->]. by eexists.
Qed.

End booted.

(** C34: when the kernel is up, whatever devices were found and however their
    probes went: the timer and spurious vectors, and the VMBus vector when
    VMBus is up, have the kernel's handlers and can go to no device; the time
    driver and the other processors run at the frequency found, and no alarm
    was set or lost on the way; the device chosen is the first of those with
    the least priority; and the other processors were started by
    [bring_up_aps] on the boot loader's list, up to the number the command
    line allows. *)
Theorem kmain_boots {HW : Type} `{Mmio HW} `{PortIo HW} `{BusMaster HW} `{BytePorts (mem * HW)}
    `{PageTables (mem * HW)} `{GlobalAlloc (mem * HW)} `{Hypervisor} `{GlobalAlloc world}
    cpuid rdmsr fuel pfuel rounds crash {Cidr} (cidr : octets -> Z -> outcome Cidr) responses (s : machine HW) b s' :
  kmain cpuid rdmsr fuel pfuel rounds crash cidr responses s = Ret (b, s') ->
  let hv := bool_decide (is_Some (ctx_vmbus (kern s'))) in
  (forall v, v ∈ reservations hv ->
    (v ∉ free_vectors (irq_alloc (kern s'))) /\ kidt (kern s') !! v = system_handler v) /\
  time s' = {| tsc_per_us := boot_tsc_per_us b; alarms := alarms (time s) |} /\
  (exists pre post, boot_nics b = pre ++ primary b :: post /\
    (forall n, n ∈ pre -> nic_priority (primary b) < nic_priority n) /\
    (forall n, n ∈ post -> nic_priority (primary b) <= nic_priority n)) /\
  (forall n, started_aps b = Some n -> AP_TSC_PER_US s' = boot_tsc_per_us b /\
    exists info bsp_id cpus, collect responses = Ret info /\ mp_response s = Some (bsp_id, cpus) /\
      bring_up_aps bsp_id (default (Z.of_nat MAX_CPUS - 1) (max_aps (parse_smp (cmdline info)))) cpus =
        (n, default [] (option_map snd (mp_response s')))).
Proof.
  intros (info & hv & s1 & s2 & s4 & s5 & Hb)%kmain_steps. cbv zeta.
  pose proof (boot_steps_system _ _ _ _ _ _ _ _ _ _ _ _ _ _ _ _ _ Hb) as (<- & Hv & Ht & Hmp).
  destruct Hb as [Hinfo _ _ _ _ Hmin Hsmp _]. apply smp_up_starts in Hsmp as (_ & _ & Hsmp).
  split_and!; [exact Hv|exact Ht|by apply min_by_key_first|].
  intros n Hn. destruct (Hsmp n Hn) as [Ha (bsp_id & cpus & Hm & Hup)]. split; [exact Ha|].
  exists info, bsp_id, cpus. split_and!; [exact Hinfo|congruence|exact Hup].
Qed.

(** ** Witness *)

Module demo_pc.

(** A PC with one Tulip in slot 3 of bus 0, interrupt line 11.  The state of
    the hardware is the PCI address register and the next heap address. *)
Definition pc_hw : Type := Z * Z.

Definition pc_config (addr : Z) : Z :=
  if addr =? pci_config_address 0 3 0 0 then 0x00191011 else
  if addr =? pci_config_address 0 3 0 0x10 then 0x1001 else
  if addr =? pci_config_address 0 3 0 0x3C then 11 else
  if Z.land addr (Z.shiftl 0x1FFF 11) =? Z.shiftl 3 11 then 0 else 0xFFFFFFFF.

#[export] Instance pc_mmio : Mmio pc_hw :=
  {| mmio_read32 _ s := (0x170011, s); mmio_write32 _ _ s := s |}.
#[export] Instance pc_ports : PortIo pc_hw :=
  {| port_out32 p v s := if p =? PCI_CONFIG_ADDR then (s.1, (v, s.2.2)) else s;
     port_in32 p s := (if p =? PCI_CONFIG_DATA then pc_config s.2.1 else 0, s) |}.
#[export] Instance pc_bus_master : BusMaster pc_hw := {| dma_async s := s |}.
#[export] Instance pc_byte_ports : BytePorts (mem * pc_hw) :=
  {| inb _ s := (0, s); outb _ _ s := s; rdtsc s := (0, s) |}.
#[export] Instance pc_page_tables : PageTables (mem * pc_hw) :=
  {| cr3_start_address _ := 0; VirtAddr_new := Ret; PhysAddr_new := Ret;
     page_containing v := v / 4096 * 4096; frame_containing p := p / 4096 * 4096;
     map_to _ _ _ _ _ s := Ret (Ok tt, s); unmap _ _ s := Ret (Err tt, s);
     translate _ _ s := Ret (None, s) |}.
#[export] Instance pc_heap : GlobalAlloc (mem * pc_hw) :=
  {| alloc_zeroed size _ s := Ret (s.2.2, (s.1, (s.2.1, s.2.2 + div_ceil size 4096 * 4096)));
     dealloc _ _ _ s := Ret (tt, s) |}.
#[export] Instance pc_world_heap : GlobalAlloc world :=
  {| alloc_zeroed _ _ w := Ret (0, w); dealloc _ _ _ w := Ret (tt, w) |}.
#[export] Instance pc_hypervisor : Hypervisor :=
  {| hv_call _ _ _ w := (0, w); hv_wrmsr _ _ w := w; hv_async w := w; hv_park w := w |}.

(** A hypervisor that tells the frequency but has no VMBus. *)
Definition pc_cpuid (_ : Z) : CpuidResult :=
  {| eax := 0x40000000; ebx := 0x7263694D; ecx := 0x666F736F; edx := 0x76482074 |}.
Definition pc_rdmsr (_ : Z) (_ : world) : Z := 2400000000.

Definition pc_responses : LimineResponses :=
  {| base_revision_supported := true; hhdm_response := Some 0; address_response := Some (0x100000, 0x100000);
     cmdline_response := Some (Some (lit "net=dhcp smp=on")) |}.

Definition pc_machine : machine pc_hw :=
  {| kern := {| kworld := {| wmem := ∅; now := 0; next_gpadl := 1; trace := []; hostq := [] |};
                khw := (0, 0x200000); kidt := ∅; kcpus := no_cpus; memory := new_mapper 0 0;
                ioapic := {| ioapic_base := 0 |}; irq_alloc := {| used := 0; start := 32; end_ := 32 |};
                ctx_vmbus := None; E1000_REGS_BASE := 0; CSR_FOR_ISR := None |};
     time := DRIVER; tables := no_tables; INITIALIZED := false; heap := None; AP_TSC_PER_US := 0;
     mp_response := Some (0, [{| lapic_id := 0; extra := 0; goto_address := false |};
                              {| lapic_id := 2; extra := 0; goto_address := false |}]) |}.

(** [Ipv4Cidr::new]. *)
Definition pc_cidr (ip : octets) (prefix : Z) : outcome (octets * Z) :=
  if prefix <=? 32 then Ret (ip, prefix) else Panic AssertFailed.

Abbreviation pc_boot := (kmain pc_cpuid pc_rdmsr 1 1 1 0 pc_cidr pc_responses pc_machine).

Lemma pc_boot_result :
  option_map (fun b => (nic_name (primary b), started_aps b, boot_tsc_per_us b)) (value_of pc_boot) =
  Some ("tulip"%string, Some 1, 2400).
Proof. vm_compute. reflexivity. Qed.

Lemma pc_boot_returns :
  exists b s', pc_boot = Ret (b, s') /\ nic_name (primary b) = "tulip"%string /\
    started_aps b = Some 1 /\ boot_tsc_per_us b = 2400.
Proof.
  generalize pc_boot_result. generalize pc_boot. intros [[b s']|e] Hr; [|discriminate Hr].
  exists b, s'. cbn [value_of option_map] in Hr. injection Hr as Hn Hs Ht. auto.
Qed.

End demo_pc.
Import demo_pc.

Lemma kmain_boots_witness :
  exists b s', pc_boot = Ret (b, s') /\ nic_name (primary b) = "tulip"%string /\
    kidt (kern s') !! 32 = Some apic_timer_isr /\ kidt (kern s') !! 39 = Some spurious_isr /\
    AP_TSC_PER_US s' = 2400.
Proof.
  destruct pc_boot_returns as (b & s' & E & Hn & Hs & Ht). exists b, s'.
  destruct (kmain_boots pc_cpuid pc_rdmsr 1 1 1 0 pc_cidr pc_responses pc_machine b s' E) as (Hv & _ & _ & Hap).
  split; [exact E|]. clear E. split; [exact Hn|]. split; [|split].
  - refine (proj2 (Hv 32 _)). destruct (bool_decide _); left.
  - refine (proj2 (Hv 39 _)). destruct (bool_decide _); [do 2 right|right]; left.
  - rewrite (proj1 (Hap _ Hs)). exact Ht.
Defined.
