(* ===== verification/Dispatch.v ===== *)
(** Interrupts of the running kernel: the executor loop of [Runtime] on the
    machine that [Kernel] has booted, where a vector runs the handler that its
    entry of the interrupt table names, and a waker wakes the task that
    registered with it last. *)

From Stdlib Require Import String.
From S2P Require Import Prelude Mem Dma Bits CpuLocal TimeDriver Cmdline VectorAlloc Nic Pci Ioapic Memory Apic.
From S2P Require Import Smp World Hypercall Synic Isr VmBus Driver Channel Netvsc E1000 Tulip Probe Kernel KernelFacts.
From S2P Require Import Idt Runtime.

(** The machine, and the tasks registered with the wakers ([AtomicWaker]). *)
Record system {HW : Type} := {
  mach : machine HW;
  wakers : gmap Z Z;
}.
#[global] Arguments system : clear implicits.

Section dispatch.
Context {HW : Type} `{Mmio HW} `{PortIo HW} `{BytePorts (mem * HW)}.
Context (LAPIC_VADDR : Z) (cpu : CpuId).
Abbreviation X := (M (bool * system HW)).

Definition world_of_system (s : system HW) : world := kworld (kern (mach s)).

Definition on_mach {A} : M (machine HW) A -> X A :=
  zoom (fun s => mach s.2) (fun m s => (s.1, {| mach := m; wakers := wakers s.2 |})).

(** The clock, the alarms and the local APIC. *)
Definition on_timer {A} : M (bool * shared HW) A -> X A :=
  zoom (fun s => (s.1, {| driver := time (mach s.2); lapic := nic_state (kern (mach s.2)) |}))
    (fun t s => (t.1, {| mach := set_kern (set_nic_state (lapic t.2) (kern (mach s.2)))
                                   (set_time (driver t.2) (mach s.2));
                         wakers := wakers s.2 |})).

(** The wakers woken between two states of the machine, newest first. *)
Definition woken_since (w w' : world) : list Z :=
  omap (fun e => match e with EvWake k => Some k | _ => None end)
    (take (length (trace w') - length (trace w)) (trace w')).

(** The tasks that a handler wakes. *)
Definition waking (c : M (machine HW) unit) : X (list Z) :=
  w ← gets (fun s => world_of_system s.2);
  _ ← on_mach c;
  w' ← gets (fun s => world_of_system s.2);
  tbl ← gets (fun s => wakers s.2);
  mret (omap (fun k => tbl !! k) (woken_since w w')).

(** The processor takes the handler from the table; a vector without one is
    a fault. *)
Definition dispatch (v : Z) : X (list Z) :=
  entry ← gets (fun s => kidt (kern (mach s.2)) !! v);
  match entry with
  | None => panic AssertFailed
  | Some Idt.default_handler | Some Idt.spurious_isr => mret []
  | Some Idt.apic_timer_isr => on_timer (apic_timer_isr LAPIC_VADDR cpu)
  | Some Idt.vmbus_handler =>
      t ← gets (fun s => tables (mach s.2));
      waking (on_kern (on_world (vmbus_isr t cpu)))
  | Some Idt.e1000_handler => waking (on_kern (e1000_isr LAPIC_VADDR))
  | Some Idt.tulip_handler => waking (on_kern (tulip_isr LAPIC_VADDR))
  end.

(** ** The table stays as it is *)

Definition table_is (t : IDT) (d : system HW) : Prop := kidt (kern (mach d)) = t.
Abbreviation same t := (fun s : bool * system HW => table_is t s.2).

Lemma keeps_waking t (c : M (kernel HW) unit) :
  keeps (fun k => kidt k = t) c -> keeps (same t) (waking (on_kern c)).
Proof.
  intros Hc. unfold waking. keep. intros [f d] u s' Hs. unfold on_mach, zoom. cbn [snd fst].
  destruct (on_kern c (mach d)) as [[[] m]|] eqn:E; [|discriminate]. intros [= <- <-].
  apply on_kern_runs in E as (k & E & ->). by eapply Hc.
Qed.

Lemma keeps_isr_table t : keeps (fun k : kernel HW => kidt k = t) (e1000_isr LAPIC_VADDR) /\
  keeps (fun k : kernel HW => kidt k = t) (tulip_isr LAPIC_VADDR).
Proof.
  split; unfold e1000_isr, tulip_isr, on_nic, on_world; keep; by (apply keeps_zoom || idtac).
Qed.

Lemma dispatch_keeps t v : keeps (same t) (dispatch v).
Proof.
  destruct (keeps_isr_table t) as [He Ht]. unfold dispatch. keep.
  - by apply keeps_zoom.
  - apply keeps_waking. by apply keeps_zoom.
  - by apply keeps_waking.
  - by apply keeps_waking.
Qed.

(** ** Which tasks the handlers wake *)

Lemma woken_since_app w w' l :
  trace w' = l ++ trace w -> woken_since w w' = omap (fun e => match e with EvWake k => Some k | _ => None end) l.
Proof. intros E. unfold woken_since. by rewrite E, length_app, Nat.add_sub, take_app_length. Qed.

(** A handler whose events include a waker wakes the task registered with it. *)
Lemma waking_wakes (c : M (kernel HW) unit) f d ws st key t :
  (forall k', c (kern (mach d)) = Ret (tt, k') ->
    exists l, trace (kworld k') = l ++ trace (world_of_system d) /\ EvWake key ∈ l) ->
  wakers d !! key = Some t -> waking (on_kern c) (f, d) = Ret (ws, st) -> t ∈ ws.
Proof.
  intros Hc Ht. unfold waking. intros (w & s0 & E0 & E)%bind_inv. injection E0 as <- <-.
  apply bind_inv in E as ([] & s1 & E1 & E). revert E1. unfold on_mach, zoom. cbn [snd fst].
  destruct (on_kern c (mach d)) as [[[] m]|] eqn:Ek; [|discriminate]. intros [= <-].
  apply on_kern_runs in Ek as (k' & Ek & ->). destruct (Hc k' Ek) as (l & Htr & Hl).
  apply bind_inv in E as (w' & s2 & E2 & E). injection E2 as <- <-.
  apply bind_inv in E as (tbl & s3 & E3 & E). injection E3 as <- <-. injection E as <- _.
  apply list_elem_of_omap. exists key. split; [|exact Ht].
  rewrite (woken_since_app _ _ l) by exact Htr. apply list_elem_of_omap. by exists (EvWake key).
Qed.

Definition trace_is (tr : list World.event) (k : kernel HW) : Prop := trace (kworld k) = tr.

Lemma keeps_trace_nic {A} tr (c : M (mem * HW) A) : keeps (trace_is tr) (on_nic c).
Proof. by apply keeps_zoom. Qed.
#[local] Hint Resolve keeps_trace_nic : keeps.

(** The handlers of the adapters: accesses to the adapter, then the waker. *)
Lemma device_isr_wakes (pre : M (kernel HW) unit) (post : M (mem * HW) unit) key k k' :
  (forall tr, keeps (trace_is tr) pre) ->
  (_ ← pre; _ ← on_world (modify (log_event (EvWake key))); on_nic post) k = Ret (tt, k') ->
  trace (kworld k') = EvWake key :: trace (kworld k).
Proof.
  intros Hpre ([] & k1 & E1 & ([] & k2 & E2 & E3)%bind_inv)%bind_inv.
  apply (Hpre _ _ _ _ eq_refl) in E1. injection E2 as <-.
  eapply keeps_trace_nic in E3; [|reflexivity]. unfold trace_is in *. rewrite E3. cbn. by rewrite E1.
Qed.

Lemma e1000_isr_trace k k' :
  e1000_isr LAPIC_VADDR k = Ret (tt, k') -> trace (kworld k') = EvWake NET_WAKER :: trace (kworld k).
Proof.
  unfold e1000_isr. intros (b & k1 & E & E1)%bind_inv. injection E as <- <-.
  eapply device_isr_wakes; [|exact E1]. intros tr. destruct (negb _); keep.
Qed.

Lemma tulip_isr_trace k k' :
  tulip_isr LAPIC_VADDR k = Ret (tt, k') -> trace (kworld k') = EvWake TULIP_WAKER :: trace (kworld k).
Proof.
  unfold tulip_isr. intros (b & k1 & E & E1)%bind_inv. injection E as <- <-.
  eapply device_isr_wakes; [|exact E1]. intros tr. destruct (CSR_FOR_ISR k); keep.
Qed.

(** The handler of VMBus, on a processor whose pages are published. *)
Lemma vmbus_isr_trace t w u w' simp siefp r :
  0 <= slot_of cpu -> SIMP_VADDR t !! Z.to_nat (slot_of cpu) = Some simp ->
  SIEFP_VADDR t !! Z.to_nat (slot_of cpu) = Some siefp -> siefp <> 0 -> 0 <= r < 2048 ->
  Z.testbit (load_u64 (wmem w) (siefp + 512 + 8 * (r / 64))) (r mod 64) = true ->
  vmbus_isr t cpu w = Ret (u, w') ->
  exists l, trace w' = l ++ trace w /\ EvWake (channel_waker r) ∈ l.
Proof.
  intros Hs Hsimp Hsiefp Hne Hr Hbit E.
  destruct (vmbus_isr_wakes t cpu w simp siefp Hs Hsimp Hsiefp Hne) as (w1 & relids & E1 & Htr & Hrel & _).
  rewrite E1 in E. injection E as _ <-. eexists. split; [exact Htr|].
  apply elem_of_reverse, list_elem_of_fmap. eexists. split; [reflexivity|].
  apply elem_of_app. right. apply list_elem_of_fmap. exists r. split; [done|]. by apply Hrel.
Qed.

End dispatch.

(** ** From an interrupt to a task *)

Section running.
Context {HW : Type} `{Mmio HW} `{PortIo HW} `{BytePorts (mem * HW)} (va : Z) (cpu : CpuId).
Context (run_tasks : gset Z -> system HW -> outcome (gset Z * system HW)).
Abbreviation dispatch := (dispatch va cpu).
Abbreviation erun := (erun dispatch run_tasks).
Abbreviation polled := (polled dispatch run_tasks).

(** Task [t] runs after vector [v] is delivered in state [s]. *)
Definition runs_after (v t : Z) (s : exec) : Prop :=
  forall tr s', erun (Deliver v :: tr) s = Some s' -> (5 <= cpu_steps tr)%nat ->
    t ∈ polled (Deliver v :: tr) s.

Lemma timer_runs (s : exec) slots w at_ :
  let m := mach (dev s) in
  0 <= va < U64 - 0x1000 -> kidt (kern m) !! 32 = Some Idt.apic_timer_isr -> 0 < tsc_per_us (time m) ->
  alarms (time m) !! Z.to_nat (slot_of cpu) = Some slots -> slots_wf slots ->
  alarm_map slots !! w = Some at_ -> at_ <= (rdtsc (nic_state (kern m))).1 / tsc_per_us (time m) ->
  runs_after 32 w s.
Proof.
  intros m Hva Hh Htsc Hs Hwf Hw Hat tr s'. apply delivered_polls. intros ws f d.
  unfold Dispatch.dispatch. rewrite (bind_Ret _ _ _ (Some Idt.apic_timer_isr) (false, dev s)).
  2: { unfold gets. cbn [snd]. fold m. by rewrite Hh. }
  cbv beta iota. unfold on_timer, zoom. cbn [fst snd]. fold m.
  destruct (apic_timer_isr_wakes va cpu (time m) (nic_state (kern m)) slots Hva Htsc Hs Hwf)
    as (ws' & slots' & -> & _ & Hws & _).
  intros [= <- _ _]. apply Hws. eauto.
Qed.

Lemma device_runs (s : exec) v t :
  let m := mach (dev s) in
  (kidt (kern m) !! v = Some Idt.e1000_handler /\ wakers (dev s) !! NET_WAKER = Some t) \/
  (kidt (kern m) !! v = Some Idt.tulip_handler /\ wakers (dev s) !! TULIP_WAKER = Some t) ->
  runs_after v t s.
Proof.
  intros m Hh tr s'. apply delivered_polls. intros ws f d. unfold Dispatch.dispatch.
  destruct Hh as [[Hh Ht]|[Hh Ht]];
    (erewrite bind_Ret; [|unfold gets; cbn [snd]; fold m; rewrite Hh; reflexivity]); cbv beta iota;
    (eapply waking_wakes; [|exact Ht]); intros k' E.
  - apply e1000_isr_trace in E. exists [EvWake NET_WAKER]. split; [exact E|left].
  - apply tulip_isr_trace in E. exists [EvWake TULIP_WAKER]. split; [exact E|left].
Qed.

Lemma vmbus_runs (s : exec) simp siefp r t :
  let m := mach (dev s) in
  kidt (kern m) !! 34 = Some Idt.vmbus_handler -> 0 <= slot_of cpu ->
  SIMP_VADDR (tables m) !! Z.to_nat (slot_of cpu) = Some simp ->
  SIEFP_VADDR (tables m) !! Z.to_nat (slot_of cpu) = Some siefp -> siefp <> 0 -> 0 <= r < 2048 ->
  Z.testbit (load_u64 (wmem (kworld (kern m))) (siefp + 512 + 8 * (r / 64))) (r mod 64) = true ->
  wakers (dev s) !! channel_waker r = Some t -> runs_after 34 t s.
Proof.
  intros m Hh Hs Hsimp Hsiefp Hne Hr Hbit Ht tr s'. apply delivered_polls. intros ws f d.
  unfold Dispatch.dispatch. erewrite bind_Ret; [|unfold gets; cbn [snd]; fold m; rewrite Hh; reflexivity].
  cbv beta iota. erewrite bind_Ret by reflexivity. cbv beta. eapply waking_wakes; [|exact Ht].
  intros k' E. revert E. unfold on_world, zoom. cbn [snd]. fold m.
  destruct (vmbus_isr _ _ _) as [[u w']|] eqn:Ei; [|discriminate]. intros [= _ <-]. cbn [kworld set_world].
  eapply vmbus_isr_trace; eauto.
Qed.

End running.


(** ** Witness *)

Import demo_pc.

(** On the PC of [KernelFacts] the Tulip has vector 33; task 7 waits for it. *)
Definition pc_tasks (batch : gset Z) (d : system pc_hw) : outcome (gset Z * system pc_hw) := Ret (∅, d).
Definition pc_exec (p : exec_pc) (f : bool) (s1 : machine pc_hw) : exec :=
  {| epc := p; iflag := f; irqs := {[33]}; queue := ∅; dev := {| mach := s1; wakers := {[TULIP_WAKER := 7]} |} |}.
Definition pc_trace : list event := [Cpu; Cpu; Cpu; Cpu; Raise 32; Deliver 32; Cpu].

Definition pc_runs {B} (o : outcome (B * machine pc_hw)) : bool :=
  match o with
  | Ret (_, s1) =>
      bool_decide (kidt (kern s1) !! 33 = Some Idt.tulip_handler) &&
      bool_decide (is_Some (erun (dispatch 0x1000 Bsp) pc_tasks (Deliver 33 :: pc_trace) (pc_exec AtPoll true s1)))
  | Panic _ => false
  end.

Lemma pc_runs_ok : pc_runs pc_boot = true.
Proof. vm_compute. reflexivity. Qed.

Lemma pc_runs_inv {B} (o : outcome (B * machine pc_hw)) :
  pc_runs o = true -> exists b s1 s2, o = Ret (b, s1) /\ kidt (kern s1) !! 33 = Some Idt.tulip_handler /\
    erun (dispatch 0x1000 Bsp) pc_tasks (Deliver 33 :: pc_trace) (pc_exec AtPoll true s1) = Some s2.
Proof.
  destruct o as [[b s1]|]; [|discriminate]. intros [H1 H2]%andb_true_iff.
  apply bool_decide_eq_true in H1, H2. destruct H2 as [s2 H2]. by exists b, s1, s2.
Qed.

